(* ===== verification/_CoqProject ===== *)
-Q . S2P
Prelude.v
GoInt.v
Protocol.v
Frame.v
HashRing.v
SessionStore.v
SessionService.v
RoomService.v
Chan.v
Recovery.v
Roomserver.v
Threads.v
UserThreads.v
Interleaving.v
GrpcServer.v
PushApi.v
Connection.v
Gateway.v
GwLogic.v
Distributor.v
GatewayHandler.v
RoomserverClient.v
Reconnect.v
ClientRun.v
Nacos.v
KafkaConsumer.v
Login.v
Config.v
Logger.v
GoTime.v
GoJson.v
KafkaProducer.v
Lifecycle.v
TestClient.v
Console.v
TestMain.v
LoadTest.v
Transport.v
Metrics.v
System.v
Typing.v
Network.v
Cluster.v
Requested.v
WholeSystem.v
Healing.v
