(* ===== verification/Prelude.v ===== *)
(** * imsys: a verified model of the messaging gateway and its room server

    The program is a chat system in Go.  A *gateway* accepts WebSocket
    connections of clients, authenticates them, keeps a queue per client and
    forwards their room requests; a *roomserver* keeps the rooms and the
    sessions of all users, acknowledges the requests and hands pushes to the
    gateways.  The two talk over one bidirectional gRPC stream per gateway;
    pushes also arrive at a gateway from Kafka.  Paths below are under [src/].

    ** How the parts are modelled

    - *Prelude.v, GoInt.v, Chan.v*: what the code uses of Go.  [outcome] is
      how a piece of code ends (result, panic, blocked for ever on a lock);
      fixed-width integers wrap around by [u32], [u64], [i32], [i64]; [chan]
      is a buffered channel with its closed flag.  [MapOrder] is the
      iteration order of a map: an arbitrary permutation, so that theorems
      that quantify over it hold for every order.
    - *Protocol.v* ([internal/protocol]): message types, error codes, the
      messages of the stream.  Msgpack is a library: the class [Msgpack] with
      the law [MsgpackLaws], instantiated by Module [ToyCodec].
    - *Frame.v* ([protocol/frame.go]): the 16-byte header, encoder, decoder and
      stream reader over bytes.  A slice expression panics outside its bounds
      ([slice_of]), so that the decoder's guards matter.  [ReadFrames] has fuel; one unit per frame and
      one for the end is enough (proved in its round trip).
    - *HashRing.v* ([roomserver/hashring.go]): CRC-32 bit by bit, the sorted
      ring, the binary search ([search_loop], fuel the length of the ring).
    - *SessionStore.v, SessionService.v* ([roomserver/session_service.go]): the
      interface of the session table as a class with laws, and the 256 shards
      that implement it.  Everything above is proved against the interface.
    - *RoomService.v, Recovery.v* ([room.go], [room_service.go], [recovery.go]).
    - *Roomserver.v* ([roomserver/server.go]): join, leave, resume,
      disconnect, timeout check on the pair of rooms and sessions; the
      abstract state is one presence entry per user ([Presence], [spec_ctl]).
      The timeout check reads the clock anew for every user
      ([checkDisconnectTimeout_at]); where it is a step among others the
      clock stands still during it.
    - *Threads.v, UserThreads.v, Interleaving.v*: the same operations as
      goroutines.  A [thread] is a tree of lock sections over the shared
      store, where rooms and sessions are objects behind pointers;
      [run_schedule] lets a pool of threads take turns.  A function [X_t] is
      the thread of [X]; [run_alone] of it is the [X] of Roomserver.v
      ([alone_is_atomic]).  UserThreads.v is the reasoning about one thread
      among others, Interleaving.v has the theorems.
    - *GrpcServer.v* ([grpc_server.go]): stream objects in a store [conns] that
      the table [gateways] and the goroutine of a stream share; the handlers
      of all messages; histories of streams ([run_streams]), and of streams
      with push handlers that send in two steps ([run_servers]).
    - *PushApi.v* ([push_api.go], [gateway_conn.go]): the HTTP handlers on
      every branch and the routes to them; Module [Link].
    - *Connection.v* ([gateway/connection.go]): queue, health counters, the
      batching write loop as a step function, with all calls of
      [WriteMessage] and their answers in [c_wire]; float64 by [SpecFloat].
    - *Gateway.v* ([gateway/server.go] and the sending half of
      [roomserver_client.go]): the state of a gateway.  Handlers live in the
      monad [G], which threads the state with the locks that the running
      goroutine holds; taking a held lock is a deadlock.  Connections are
      objects in a store, because the table, the distributors and the
      goroutines of a connection share them.  GwLogic.v is a Hoare logic for
      these handlers ([ensures], [preserves]), which the invariants of
      Typing.v and Requested.v are proved in.
    - *Distributor.v, GatewayHandler.v, RoomserverClient.v, KafkaConsumer.v,
      Login.v, Nacos.v*: the handlers over that state, named as in
      [distributor.go], [handler.go] and [kafka_producer.go],
      [roomserver_client.go], [kafka_consumer.go] and [pkg/kafka],
      [websocket_server.go] with [pkg/auth] and [health.go], [pkg/nacos].
    - *Reconnect.v, ClientRun.v*: the successive connections of a gateway to
      the roomserver, whose send loops share one queue, as a step relation;
      and the goroutine [Run] that makes them, with its fields and back-off.
    - *GoTime.v, GoJson.v, KafkaProducer.v* ([gateway/kafka_producer.go],
      [pkg/kafka/producer.go]): the civil calendar behind [time.Format], the
      text that [json.Marshal] writes with a reader of such texts, and the
      two producers on top of them.  GatewayHandler.v has the handlers' view
      of a producer; [handler_view] connects the two.  [decimal] has fuel for
      twenty digits, enough for 64 bits.
    - *Config.v, Logger.v, Lifecycle.v* ([pkg/config], [pkg/logger], [Start],
      [Stop], [run...Server], [cmd/gateway], [cmd/roomserver]): the
      configuration records and how they are loaded; the logger of the
      process; the goroutines of a server and the statements of [Stop] as a
      step relation, beside which the handlers go on.
    - *TestClient.v, Console.v, TestMain.v, LoadTest.v* ([cmd/testclient],
      [cmd/test_client]): the client side of the protocol, the interactive
      commands and the splitting of lines into their words, the goroutines of
      the client's [main], the load test as a transition system (Module
      [LoadTest]), the small client (Module [Probe]).  Marshalled maps are [MapCodec], with [MapLaws];
      [format_go] has fuel, one unit per digit of the widest integer.
    - *Transport.v, Metrics.v* ([pkg/transport], [pkg/metrics]): the queue of
      upgraded connections and reading through it; the metrics and their
      registration ([Prometheus], a parameter).
    - *System.v, Typing.v, Network.v, Cluster.v*: both sides together.
      System.v follows single exchanges; Typing.v gives every queue of the
      gateway the type of the messages it may hold; Network.v is a gateway,
      the roomserver and the two queues between them as one transition system
      ([net_step]), with clients that send anything, arrive, and go at any
      time, and rooms that are closed; every step names the users it may
      leave in disagreement.  Cluster.v puts any number of such gateways on one roomserver
      ([cluster_step]), and has schedules that run ([run_actions]).
    - *Requested.v, WholeSystem.v, Healing.v*: the system with its failures.
      [whole_step] lets gateways, the roomserver and the push interface run
      on their own over wires that open, carry, lose and break, and start
      anew at any time; the state keeps, as its history, which rooms were
      asked for ([Asked]).  Requested.v has what each handler of a gateway
      may ask for, WholeSystem.v the invariant of the whole and schedules of
      events that run ([perform]), Healing.v the return to agreement.

    ** What the theorems show

    - The codec: decoding inverts encoding and accepts nothing else, the
      stream reader agrees with the packet decoder.
    - The roomserver: after any respectful history it refines the presence
      map, a user is in at most one room, the timeout check removes exactly
      the expired users, acknowledgements tell the truth, and no stream or push
      panics as long as streams register once and under unused ids and none
      ends in the middle of a push to it.
    - Concurrency in the roomserver: goroutines that serve different users can
      be put in any order of turns with the effect and the answers of running
      one after the other; whatever runs together, rooms
      stay consistent.  Requests of one user, the timeout check and the
      closing of a room do race, and the theorems show how.
    - The gateway: no bytes of a client and no Kafka message make it panic
      or block; queues keep what they accepted, in order; closing, shutting
      down and the compensation of an outage do what they are for, as far as
      the queue to the roomserver has room; pushes are offered to exactly the
      members of their room.
    - The system: a join ends with both sides agreeing; after a restart of
      the roomserver the reports of a gateway restore the presence map.
      Whatever clients do, when the queues are empty the gateway's rooms
      agree with the roomserver's presence, with one gateway or several, for
      all users but those who met a full queue, left while an answer was
      outstanding or after a refusal, or had their room closed; deliveries
      empty the queues in a bounded number of steps; a broadcast is then
      offered to all others who are present, at whatever gateway.
      Clients only ever get well-formed frames of five types.
    - The system under failures: whatever is lost, breaks or starts anew,
      nobody is in a room, has a session in one, or gets its messages, who
      has not asked for it; and after any such history one heartbeat over a
      stream that works again brings gateway and roomserver together, if the gateway lists the user in no room.
    - The connections: over any number of reconnections each message is taken
      once and in order, and at most one is lost per connection; [Run] holds
      one connection at a time and returns when the context is cancelled.
    - Business requests: what becomes of each, with the text that is written;
      when two identifiers are equal; and that rejected batches are not
      noticed.
    - Start and stop: that [Stop] does not return as long as the health
      endpoint of the gateway, or the push interface of the roomserver,
      works; what [Stop] of the gateway does, and in how many steps, without
      the endpoint; and that a late handshake survives it.
    - The clients: login and join end to end with the gateway; the order in
      which messages are handled and the end of the client; the counters, the
      end and the balance of the load test.
    - Where the code goes wrong the theorem states what happens: a second
      login and a slow consumer deadlock the gateway, a re-registration
      crashes the roomserver, compensation can overtake a new join, the send
      loop of an old connection can lose the registration of the new one, a
      client takes a push for a failed join, and others, each at the
      component it belongs to.

    ** What is not modelled

    Outside Threads.v a handler runs to its end before the next one
    starts: interleavings inside a handler of the gateway appear only where a
    theorem splits it (the two steps of [sendToGateway], the goroutine of
    [SetNormal]).  Threads.v has the operations on rooms and sessions,
    with the memory model in which reads and writes of a field are atomic; it
    does not have the streams and the queues.
    In Network.v and Cluster.v every stream stays up; streams that fail are
    in WholeSystem.v, the goroutines that reconnect in Reconnect.v and
    ClientRun.v.  In WholeSystem.v a step is a handler, with the message it
    takes, so that what a goroutine holds while it fails is lost or not sent.
    A second login of a user that is still connected blocks the gateway and is
    not a step of these systems.  A room push of the Kafka consumer is one
    step, although the code goes over the users after it has released the lock
    of the rooms.  A queue of capacity zero refuses every message; an
    unbuffered Go channel would hand it to a waiting receiver.  The pause
    between two checks of the Kafka connection and their time limit are not
    modelled.  Sockets, gRPC, Kafka, JWT,
    YAML, Prometheus and msgpack are parameters: what they deliver is an
    argument.  Left out are the single log messages and the metrics that are
    only counted, deadlines and tickers beyond their order as events, the
    cleaning of paths by [net/http], what the clients print beyond the lines
    modelled, and the generated gRPC code.

    ** Conventions

    Times are nanoseconds as [Z], a [time.Time] that may be zero is an
    option.  A theorem with the tag C[n] is followed by a lemma of the same
    name with the suffix [_witness] that applies it to a concrete state,
    unless it has no hypothesis. *)

From Stdlib Require Import ZArith Lia.
From stdpp Require Import base tactics gmap strings sorting numbers list.

(** ** Outcomes of a piece of Go code

    A goroutine that runs a handler either finishes it, panics (a runtime
    panic: close of a closed channel, index out of range, ...) or blocks
    for ever on a lock it already holds. *)
Inductive outcome (A : Type) : Type :=
  | Done (a : A)
  | Panic (why : string)
  | Deadlock (lock : string).
Arguments Done {A} a.
Arguments Panic {A} why.
Arguments Deadlock {A} lock.

#[export] Instance outcome_ret : MRet outcome := @Done.
#[export] Instance outcome_bind : MBind outcome := λ A B f m,
  match m with
  | Done a => f a
  | Panic w => Panic w
  | Deadlock l => Deadlock l
  end.
#[export] Instance outcome_fmap : FMap outcome := λ A B f m,
  match m with
  | Done a => Done (f a)
  | Panic w => Panic w
  | Deadlock l => Deadlock l
  end.

#[export] Instance outcome_eq_dec {A} `{EqDecision A} : EqDecision (outcome A).
Proof. solve_decision. Defined.

Definition outcome_done {A} (m : outcome A) : bool :=
  match m with Done _ => true | _ => false end.

Section outcome_laws.
Context {A B C : Type}.

Lemma outcome_bind_ret (a : A) (f : A → outcome B) : (Done a ≫= f) = f a.
Proof. done. Qed.

Lemma outcome_ret_bind (m : outcome A) : (m ≫= Done) = m.
Proof. by destruct m. Qed.

Lemma outcome_bind_assoc (m : outcome A) (f : A → outcome B) (g : B → outcome C) :
  ((m ≫= f) ≫= g) = (m ≫= λ a, f a ≫= g).
Proof. by destruct m. Qed.

Lemma outcome_bind_Done (m : outcome A) (f : A → outcome B) b :
  (m ≫= f) = Done b ↔ ∃ a, m = Done a ∧ f a = Done b.
Proof. destruct m; naive_solver. Qed.

(** If the computation returns, [Q] holds of the value. *)
Definition returns (Q : A → Prop) (m : outcome A) : Prop := ∀ a, m = Done a → Q a.

Lemma returns_ret (Q : A → Prop) a : Q a → returns Q (mret a).
Proof. by intros HQ ? [= <-]. Qed.
End outcome_laws.

Lemma returns_bind {A B} (Q : A → Prop) (Q' : B → Prop) (m : outcome A) (f : A → outcome B) :
  returns Q m → (∀ a, Q a → returns Q' (f a)) → returns Q' (m ≫= f).
Proof. intros Hm Hf b (a & Ha & Hb)%outcome_bind_Done. by apply (Hf a); [apply Hm|]. Qed.

(** ** Results of functions that return a value or an error *)
Inductive result (E A : Type) : Type :=
  | Ok (a : A)
  | Err (e : E).
Arguments Ok {E A} a.
Arguments Err {E A} e.

#[export] Instance result_eq_dec {E A} `{EqDecision E, EqDecision A} :
  EqDecision (result E A).
Proof. solve_decision. Defined.

(** ** Time

    [time.Time] values are either the zero value ([None], what [IsZero]
    tests) or an instant, in nanoseconds.  [time.Since] saturates at the
    bounds of [time.Duration] (an int64), as the zero instant (year 1) is
    further away than a duration can say. *)
Abbreviation gotime := (option Z).

Definition maxDuration : Z := 2 ^ 63 - 1.
Definition minDuration : Z := - 2 ^ 63.

Definition time_since (now : Z) (t : gotime) : Z :=
  match t with
  | Some t0 => Z.max minDuration (Z.min maxDuration (now - t0))
  | None => maxDuration
  end.

Definition is_zero_time (t : gotime) : bool :=
  match t with Some _ => false | None => true end.

(** ** The iteration order of Go maps

    [for k, v := range m] visits every entry of [m] exactly once in an
    order the language leaves open.  The order is a parameter of every
    definition that ranges over a map. *)
Class MapOrder := {
  range_map : ∀ {V : Type}, gmap string V → list (string * V);
  range_map_perm : ∀ {V : Type} (m : gmap string V), range_map m ≡ₚ map_to_list m;
}.

(** The order of stdpp's own enumeration, used by the concrete examples. *)
Definition default_order : MapOrder :=
  {| range_map V m := map_to_list m; range_map_perm V m := reflexivity _ |}.

Section map_order.
Context `{O : MapOrder}.

Definition range_keys {V} (m : gmap string V) : list string := (range_map m).*1.

Definition range_set (s : gset string) : list string := range_keys (mapset.mapset_car s).

Lemma elem_of_range_map {V} (m : gmap string V) k v :
  (k, v) ∈ range_map m ↔ m !! k = Some v.
Proof. rewrite range_map_perm. apply elem_of_map_to_list. Qed.

Lemma range_keys_perm {V} (m : gmap string V) : range_keys m ≡ₚ (map_to_list m).*1.
Proof. unfold range_keys. by rewrite range_map_perm. Qed.

Lemma elem_of_range_keys {V} (m : gmap string V) k :
  k ∈ range_keys m ↔ is_Some (m !! k).
Proof.
  unfold range_keys. rewrite list_elem_of_fmap. split.
  - intros [[k' v] [-> Hin]]. apply elem_of_range_map in Hin. by exists v.
  - intros [v Hv]. exists (k, v). split; [done|]. by apply elem_of_range_map.
Qed.

Lemma NoDup_range_keys {V} (m : gmap string V) : NoDup (range_keys m).
Proof. rewrite range_keys_perm. apply NoDup_fst_map_to_list. Qed.

Lemma length_range_keys {V} (m : gmap string V) : length (range_keys m) = size m.
Proof. rewrite range_keys_perm, length_fmap. apply length_map_to_list. Qed.

Lemma elem_of_range_set (s : gset string) k : k ∈ range_set s ↔ k ∈ s.
Proof.
  unfold range_set. rewrite elem_of_range_keys. destruct s as [m].
  unfold elem_of, mapset.mapset_elem_of; simpl. split; [intros [[] Hu]; done|by eexists].
Qed.

Lemma NoDup_range_set (s : gset string) : NoDup (range_set s).
Proof. apply NoDup_range_keys. Qed.

Lemma length_range_set (s : gset string) : length (range_set s) = size s.
Proof.
  assert (range_set s ≡ₚ elements s) as ->; [|done].
  apply NoDup_Permutation; [apply NoDup_range_set|apply NoDup_elements|].
  intros k. by rewrite elem_of_range_set, elem_of_elements.
Qed.
End map_order.

(** ** Automation *)

(** Case analysis on every match and decision of the goal, closing the
    impossible branches. *)
Ltac case_all :=
  repeat first [ case_match | case_decide ]; simplify_eq/=.

(** Closed decidable goals, by evaluation. *)
Ltac by_computation :=
  match goal with |- ?P => apply (bool_decide_eq_true_1 P) end;
  vm_compute; reflexivity.

(** Lemmas that describe lookups, used with [auto with gomap]. *)
Create HintDb gomap.
Create HintDb rooms.
#[export] Hint Resolve lookup_insert_eq lookup_delete_eq lookup_empty : gomap.
#[export] Hint Extern 1 (_ !! _ = _) => by simplify_map_eq : gomap.

(** ** Lists *)
Section lists.
Context {A : Type}.
Implicit Types l : list A.

Lemma take_app_length' l1 l2 n : n = length l1 → take n (l1 ++ l2) = l1.
Proof. intros ->. apply take_app_length. Qed.

Lemma drop_app_length' l1 l2 n : n = length l1 → drop n (l1 ++ l2) = l2.
Proof. intros ->. apply drop_app_length. Qed.

Lemma elem_of_concat (ls : list (list A)) x : x ∈ concat ls ↔ ∃ l, l ∈ ls ∧ x ∈ l.
Proof.
  induction ls as [|l ls IH]; simpl.
  - split; [by intros ?%not_elem_of_nil|by intros (? & ?%not_elem_of_nil & _)].
  - rewrite elem_of_app, IH. setoid_rewrite elem_of_cons. naive_solver.
Qed.

(** Filters that agree on the elements of the list. *)
Lemma filter_ext_elem (P Q : A → Prop) `{∀ x, Decision (P x), ∀ x, Decision (Q x)} l :
  (∀ x, x ∈ l → P x ↔ Q x) → filter P l = filter Q l.
Proof.
  induction l as [|x l IH]; intros H'; [done|].
  rewrite !filter_cons. rewrite IH by (intros; apply H'; by right).
  pose proof (H' x ltac:(by left)). repeat case_decide; naive_solver.
Qed.

(** A filter that keeps everything. *)
Lemma filter_all (P : A → Prop) `{∀ x, Decision (P x)} l :
  (∀ x, x ∈ l → P x) → filter P l = l.
Proof.
  induction l as [|x l IH]; intros H'; [done|].
  rewrite filter_cons_True by (apply H'; by left). f_equal.
  apply IH. intros. apply H'. by right.
Qed.

(** A filter that keeps nothing. *)
Lemma filter_none (P : A → Prop) `{∀ x, Decision (P x)} l :
  (∀ x, x ∈ l → ¬ P x) → filter P l = [].
Proof.
  induction l as [|x l IH]; intros H'; [done|].
  rewrite filter_cons_False by (apply H'; by left).
  apply IH. intros. apply H'. by right.
Qed.

Lemma Sorted_filter (R : relation A) `{!Transitive R} (P : A → Prop)
    `{∀ x, Decision (P x)} l : Sorted R l → Sorted R (filter P l).
Proof.
  intros Hs%Sorted_StronglySorted; [|done]. apply StronglySorted_Sorted.
  induction Hs as [|x l Hs IH Hall]; [constructor|].
  rewrite filter_cons. case_decide; [|done]. constructor; [done|].
  rewrite Forall_forall in *. intros y [_ Hy]%list_elem_of_filter. auto.
Qed.

Lemma size_list_to_set_le `{Countable A} l :
  (size (list_to_set l : gset A) ≤ length l)%nat.
Proof.
  induction l as [|x l IH]; [done|].
  cbn [list_to_set length].
  pose proof (size_union_alt {[x]} (list_to_set l : gset A)) as Hs.
  rewrite Hs, size_singleton.
  assert (list_to_set l ∖ {[x]} ⊆ (list_to_set l : gset A)) as Hsub by set_solver.
  apply subseteq_size in Hsub. lia.
Qed.
End lists.
