(* ===== verification/GoInt.v ===== *)
(** Fixed-width integers of the Go code: wrap-around, bytes, and the
    big-endian encoding of [encoding/binary]. *)

From Stdlib Require Import ZArith Lia.
From stdpp Require Import base tactics numbers countable list.
From Stdlib Require Strings.Byte.
From S2P Require Import Prelude.

Abbreviation byte := (Corelib.Init.Byte.byte : Type).

Local Open Scope Z_scope.

(** Conversions to the unsigned and signed widths the program uses. *)
Definition u32 (z : Z) : Z := z mod 2 ^ 32.
Definition u64 (z : Z) : Z := z mod 2 ^ 64.
Definition i32 (z : Z) : Z := (z + 2 ^ 31) mod 2 ^ 32 - 2 ^ 31.
Definition i64 (z : Z) : Z := (z + 2 ^ 63) mod 2 ^ 64 - 2 ^ 63.

Definition byte_to_Z (b : byte) : Z := Z.of_N (Byte.to_N b).
Definition Z_to_byte (z : Z) : byte :=
  default Byte.x00 (Byte.of_N (Z.to_N (z mod 256))).

Lemma u32_range z : 0 <= u32 z < 2 ^ 32.
Proof. apply Z.mod_pos_bound. lia. Qed.

Lemma u32_small z : 0 <= z < 2 ^ 32 → u32 z = z.
Proof. apply Z.mod_small. Qed.

Lemma u64_small z : 0 <= z < 2 ^ 64 → u64 z = z.
Proof. apply Z.mod_small. Qed.

Lemma i64_range z : - 2 ^ 63 <= i64 z < 2 ^ 63.
Proof. unfold i64. pose proof (Z.mod_pos_bound (z + 2 ^ 63) (2 ^ 64)). lia. Qed.

Lemma i64_small z : - 2 ^ 63 <= z < 2 ^ 63 → i64 z = z.
Proof. intros. unfold i64. rewrite Z.mod_small; lia. Qed.

Lemma i32_range z : - 2 ^ 31 <= i32 z < 2 ^ 31.
Proof. unfold i32. pose proof (Z.mod_pos_bound (z + 2 ^ 31) (2 ^ 32)). lia. Qed.

Lemma i32_small z : - 2 ^ 31 <= z < 2 ^ 31 → i32 z = z.
Proof. intros. unfold i32. rewrite Z.mod_small; lia. Qed.

Lemma byte_to_Z_range b : 0 <= byte_to_Z b < 256.
Proof. unfold byte_to_Z. pose proof (Byte.to_N_bounded b). lia. Qed.

Lemma Z_to_byte_to_Z z : byte_to_Z (Z_to_byte z) = z mod 256.
Proof.
  unfold byte_to_Z, Z_to_byte. pose proof (Z.mod_pos_bound z 256 ltac:(lia)) as Hb.
  destruct (Byte.of_N (Z.to_N (z mod 256))) as [b|] eqn:E; simpl.
  - apply Byte.to_of_N in E. rewrite E. lia.
  - apply Byte.of_N_None_iff in E. lia.
Qed.

Lemma byte_to_Z_inj b1 b2 : byte_to_Z b1 = byte_to_Z b2 → b1 = b2.
Proof.
  unfold byte_to_Z. intros H%N2Z.inj.
  pose proof (Byte.of_to_N b1). pose proof (Byte.of_to_N b2). congruence.
Qed.

Lemma Z_to_byte_of_Z b : Z_to_byte (byte_to_Z b) = b.
Proof.
  apply byte_to_Z_inj. rewrite Z_to_byte_to_Z.
  apply Z.mod_small, byte_to_Z_range.
Qed.

#[export] Instance byte_eq_dec : EqDecision byte := Byte.byte_eq_dec.
#[export] Instance byte_countable : Countable byte.
Proof.
  refine (inj_countable Byte.to_N Byte.of_N _). intros b. apply Byte.of_to_N.
Defined.

(** ** Big-endian integers ([binary.BigEndian])

    [be_put n v] is the [n] low bytes of [v], most significant first
    ([byte(v >> 8*(n-1)), ..., byte(v)]); [be_get] folds them back with
    shifts and ors. *)
Fixpoint be_put (n : nat) (v : Z) : list byte :=
  match n with
  | O => []
  | S n' => Z_to_byte (Z.shiftr v (8 * Z.of_nat n')) :: be_put n' v
  end.

Definition be_get (bs : list byte) : Z :=
  foldl (λ acc b, Z.lor (Z.shiftl acc 8) (byte_to_Z b)) 0 bs.

Definition PutUint32 (v : Z) : list byte := be_put 4 v.
Definition PutUint64 (v : Z) : list byte := be_put 8 v.
Definition Uint32 (bs : list byte) : Z := be_get bs.
Definition Uint64 (bs : list byte) : Z := be_get bs.

Lemma lor_shiftl_byte a b : Z.lor (Z.shiftl a 8) (byte_to_Z b) = a * 256 + byte_to_Z b.
Proof.
  pose proof (byte_to_Z_range b) as Hb.
  pose proof (Z.add_lor_land (Z.shiftl a 8) (byte_to_Z b)) as Hadd.
  rewrite Z.shiftl_mul_pow2 in * by lia.
  enough (Z.land (a * 2 ^ 8) (byte_to_Z b) = 0) as Hz by lia.
  clear Hadd.
  apply Z.bits_inj'. intros n Hn. rewrite Z.land_spec, Z.bits_0.
  destruct (decide (n < 8)).
  - rewrite Z.mul_pow2_bits_low by lia. done.
  - rewrite (Z.bits_above_log2 (byte_to_Z b) n); [by rewrite andb_false_r|lia|].
    destruct (decide (byte_to_Z b = 0)) as [->|]; [simpl; lia|].
    apply Z.log2_lt_pow2; [lia|].
    apply Z.lt_le_trans with (2 ^ 8); [lia|]. apply Z.pow_le_mono_r; lia.
Qed.

Lemma be_get_acc acc bs :
  foldl (λ acc b, Z.lor (Z.shiftl acc 8) (byte_to_Z b)) acc bs =
  acc * 256 ^ Z.of_nat (length bs) + be_get bs.
Proof.
  unfold be_get. revert acc. induction bs as [|b bs IH]; intros acc; cbn [foldl length]; [lia|].
  rewrite IH, (IH (Z.lor (Z.shiftl 0 8) _)), !lor_shiftl_byte.
  rewrite Nat2Z.inj_succ, Z.pow_succ_r by lia. lia.
Qed.

Lemma be_get_cons b bs :
  be_get (b :: bs) = byte_to_Z b * 256 ^ Z.of_nat (length bs) + be_get bs.
Proof.
  unfold be_get at 1. simpl. rewrite be_get_acc.
  by rewrite Z.shiftl_0_l, Z.lor_0_l.
Qed.

Lemma length_be_put n v : length (be_put n v) = n.
Proof. induction n; simpl; congruence. Qed.

Lemma be_get_put n v : be_get (be_put n v) = v mod 256 ^ Z.of_nat n.
Proof.
  induction n as [|n IH]; simpl be_put; [by rewrite Z.mod_1_r|].
  rewrite be_get_cons, length_be_put, Z_to_byte_to_Z, IH, Nat2Z.inj_succ.
  rewrite Z.shiftr_div_pow2, (Z.pow_succ_r 256) by lia.
  replace (2 ^ (8 * Z.of_nat n)) with (256 ^ Z.of_nat n)
    by (by rewrite (Z.pow_mul_r 2) by lia).
  rewrite (Z.mul_comm 256), Z.rem_mul_r; lia.
Qed.

Lemma be_get_range bs : 0 <= be_get bs < 256 ^ Z.of_nat (length bs).
Proof.
  induction bs as [|b bs IH]; [by cbv|]. rewrite be_get_cons. simpl length.
  rewrite Nat2Z.inj_succ, Z.pow_succ_r by lia.
  pose proof (byte_to_Z_range b). nia.
Qed.

Lemma be_get_inj bs1 bs2 :
  length bs1 = length bs2 → be_get bs1 = be_get bs2 → bs1 = bs2.
Proof.
  revert bs2. induction bs1 as [|b1 bs1 IH]; intros [|b2 bs2] Hlen Heq;
    simplify_eq/=; [done|].
  rewrite !be_get_cons, Hlen in Heq.
  pose proof (be_get_range bs1) as H1. pose proof (be_get_range bs2) as H2.
  rewrite Hlen in H1.
  assert (byte_to_Z b1 = byte_to_Z b2) as Hb by nia.
  f_equal; [by apply byte_to_Z_inj|]. apply IH; [done|]. rewrite Hb in Heq. lia.
Qed.

Lemma be_put_get n bs : length bs = n → be_put n (be_get bs) = bs.
Proof.
  intros <-. apply be_get_inj; [apply length_be_put|].
  rewrite be_get_put. apply Z.mod_small, be_get_range.
Qed.

Lemma Uint32_Put v : Uint32 (PutUint32 v) = u32 v.
Proof. unfold Uint32, PutUint32. by rewrite be_get_put. Qed.

Lemma Uint64_Put v : Uint64 (PutUint64 v) = u64 v.
Proof. unfold Uint64, PutUint64. by rewrite be_get_put. Qed.
