(* ===== verification/Protocol.v ===== *)
(** [internal/protocol]: message types, error codes, the messages exchanged
    between gateway and roomserver, and the msgpack codec interface. *)

From Stdlib Require Import ZArith Lia.
From stdpp Require Import base tactics gmap strings numbers countable list.
From S2P Require Import Prelude GoInt.

Local Open Scope Z_scope.
Local Open Scope string_scope.

(** ** Message types (message.go) *)
Definition MsgTypeAuth : Z := 0x0001.
Definition MsgTypeJoinRoom : Z := 0x0002.
Definition MsgTypeLeaveRoom : Z := 0x0003.
Definition MsgTypeResume : Z := 0x0004.
Definition MsgTypeBizRequest : Z := 0x0010.
Definition MsgTypeHeartbeat : Z := 0x00FF.

Definition MsgTypeAuthResp : Z := 0x1001.
Definition MsgTypeJoinRoomResp : Z := 0x1002.
Definition MsgTypeLeaveRoomResp : Z := 0x1003.
Definition MsgTypeResumeResp : Z := 0x1004.
Definition MsgTypePushMessage : Z := 0x1010.
Definition MsgTypeBizResponse : Z := 0x1011.
Definition MsgTypeHeartbeatResp : Z := 0x10FF.

Definition InternalMsgJoinRoom : Z := 0x2001.
Definition InternalMsgLeaveRoom : Z := 0x2002.
Definition InternalMsgResume : Z := 0x2003.
Definition InternalMsgBatchReSync : Z := 0x2004.
Definition InternalMsgGatewayInfo : Z := 0x2005.
Definition InternalMsgBatchLeave : Z := 0x2006.
Definition InternalMsgReSyncComplete : Z := 0x2007.
Definition InternalMsgDisconnect : Z := 0x2008.

Definition InternalMsgJoinRoomAck : Z := 0x3001.
Definition InternalMsgBroadcast : Z := 0x3002.
Definition InternalMsgUnicast : Z := 0x3003.
Definition InternalMsgEpochNotify : Z := 0x3004.
Definition InternalMsgRoomClose : Z := 0x3005.
Definition InternalMsgMulticast : Z := 0x3006.

(** [MessagePriority] is an int: a larger number is less important. *)
Definition PriorityCritical : Z := 0.
Definition PriorityHigh : Z := 1.
Definition PriorityNormal : Z := 2.
Definition PriorityLow : Z := 3.

Inductive JoinState := JoinStateInit | JoinStatePending | JoinStateConfirmed.
Inductive MemberStatus := MemberStatusOnline | MemberStatusDisconnected.
Inductive ServerStatus := ServerStatusRecovering | ServerStatusReady.

#[export] Instance JoinState_eq_dec : EqDecision JoinState.
Proof. solve_decision. Defined.
#[export] Instance MemberStatus_eq_dec : EqDecision MemberStatus.
Proof. solve_decision. Defined.
#[export] Instance ServerStatus_eq_dec : EqDecision ServerStatus.
Proof. solve_decision. Defined.

(** ** Error codes (errors.go) *)
Definition ErrCodeSuccess : Z := 0.
Definition ErrCodeInternalError : Z := 1.
Definition ErrCodeInvalidRequest : Z := 2.
Definition ErrCodeAuthFailed : Z := 1001.
Definition ErrCodeTokenExpired : Z := 1002.
Definition ErrCodeRoomNotFound : Z := 2001.
Definition ErrCodeUserNotInRoom : Z := 2002.
Definition ErrCodeRoomClosed : Z := 2003.
Definition ErrCodeRoomMismatch : Z := 2004.
Definition ErrCodeOwnerUnavailable : Z := 3001.
Definition ErrCodeHeartbeatMismatch : Z := 4001.
Definition ErrCodeHeartbeatNotInRoom : Z := 4002.
Definition ErrCodeServiceRecovering : Z := 5001.
Definition ErrCodeServiceDegraded : Z := 5002.
Definition ErrCodeServiceOverloaded : Z := 5003.

Definition ErrCodeMessage : gmap Z string := list_to_map [
  (ErrCodeSuccess, "success");
  (ErrCodeInternalError, "internal_error");
  (ErrCodeInvalidRequest, "invalid_request");
  (ErrCodeAuthFailed, "auth_failed");
  (ErrCodeTokenExpired, "token_expired");
  (ErrCodeRoomNotFound, "room_not_found");
  (ErrCodeUserNotInRoom, "user_not_in_room");
  (ErrCodeRoomClosed, "room_closed");
  (ErrCodeRoomMismatch, "room_mismatch");
  (ErrCodeOwnerUnavailable, "owner_unavailable");
  (ErrCodeHeartbeatMismatch, "heartbeat_mismatch");
  (ErrCodeHeartbeatNotInRoom, "heartbeat_not_in_room");
  (ErrCodeServiceRecovering, "service_recovering");
  (ErrCodeServiceDegraded, "service_degraded");
  (ErrCodeServiceOverloaded, "service_overloaded")
].

(** Indexing a Go map of strings gives the empty string for a missing key. *)
Definition err_message (code : Z) : string := default "" (ErrCodeMessage !! code).

(** ** Messages between gateway and roomserver (internal_msg.go) *)
Record JoinRoomRequest := mkJoinRoomRequest {
  jrr_UserID : string; jrr_RoomID : string; jrr_GatewayID : string }.
Record LeaveRoomRequest := mkLeaveRoomRequest {
  lrr_UserID : string; lrr_RoomID : string }.
Record ResumeRequest := mkResumeRequest {
  rr_UserID : string; rr_RoomID : string; rr_GatewayID : string }.
Record UserRoomPair := mkUserRoomPair {
  urp_UserID : string; urp_RoomID : string }.
Record BatchReSync := mkBatchReSync {
  brs_GatewayID : string; brs_Users : list UserRoomPair }.
Record ReSyncComplete := mkReSyncComplete {
  rsc_GatewayID : string; rsc_TotalUsers : Z }.
Record DisconnectNotify := mkDisconnectNotify {
  dn_UserID : string; dn_RoomID : string; dn_GatewayID : string; dn_Timestamp : gotime }.
Record GatewayInfo := mkGatewayInfo {
  gi_GatewayID : string; gi_Addr : string; gi_Connections : Z }.
Record JoinRoomAck := mkJoinRoomAck {
  jra_UserID : string; jra_RoomID : string; jra_Success : bool;
  jra_Code : Z; jra_Message : string }.
Record BroadcastMessage := mkBroadcastMessage {
  bm_RoomID : string; bm_Seq : Z; bm_Payload : list byte }.
Record UnicastMessage := mkUnicastMessage {
  um_UserID : string; um_Payload : list byte }.
Record MulticastMessage := mkMulticastMessage {
  mm_RoomID : string; mm_UserIDs : list string; mm_Payload : list byte }.
Record EpochNotify := mkEpochNotify {
  en_ServerID : string; en_Epoch : Z; en_Timestamp : Z }.
Record RoomCloseNotify := mkRoomCloseNotify {
  rcn_RoomID : string; rcn_Reason : string }.

(** The acknowledgement codes of internal_msg.go; no code uses them. *)
Definition CodeSuccess : Z := 0.
Definition CodeUserNotFound : Z := 404.
Definition CodeUserGone : Z := 410.
Definition CodeServiceRecovery : Z := 503.
Definition CodeInternalError : Z := 500.
Definition CodeRoomNotFound : Z := 4041.
Definition CodeAlreadyInRoom : Z := 4091.
Definition CodeNotInRoom : Z := 4092.

(** The unit of the gRPC stream (api/proto/gateway.proto); [seq] is never
    set by the program. *)
Record Envelope := mkEnvelope { env_MsgType : Z; env_Payload : list byte }.

#[export] Instance Envelope_eq_dec : EqDecision Envelope.
Proof. solve_decision. Defined.

(** ** The msgpack codec (codec.go)

    [Encode] and [Decode] hand over to github.com/vmihailenco/msgpack, which
    is not part of the repository: both are parameters, one pair per message
    type. *)
Class Msgpack (A : Type) := {
  Encode : A → option (list byte);
  Decode : list byte → option A;
}.

(** Documented behaviour of the library on flat structs: marshalling
    succeeds and unmarshalling its output gives the value back. *)
Class MsgpackLaws (A : Type) `{Msgpack A} := {
  Decode_Encode : ∀ x : A, ∃ b, Encode x = Some b ∧ Decode b = Some x;
}.

(** [payload, _ := protocol.Encode(v)]: the error is dropped, and the
    payload is then nil. *)
Definition Encode_ {A} `{Msgpack A} (x : A) : list byte := default [] (Encode x).

Lemma Decode_Encode_ {A} `{MsgpackLaws A} (x : A) : Decode (Encode_ x) = Some x.
Proof. unfold Encode_. destruct (Decode_Encode x) as (b & -> & Hb). done. Qed.

(** A concrete codec for every countable type, used to instantiate the
    parameter in examples: the bits of stdpp's encoding, a byte each. *)
Module ToyCodec.
Fixpoint bits_of_pos (p : positive) : list byte :=
  match p with
  | xH => []
  | xO p => Byte.x00 :: bits_of_pos p
  | xI p => Byte.x01 :: bits_of_pos p
  end.

Fixpoint pos_of_bits (bs : list byte) : positive :=
  match bs with
  | [] => xH
  | Byte.x00 :: bs => xO (pos_of_bits bs)
  | _ :: bs => xI (pos_of_bits bs)
  end.

Lemma pos_of_bits_of_pos p : pos_of_bits (bits_of_pos p) = p.
Proof. induction p; simpl; congruence. Qed.

Definition codec (A : Type) `{Countable A} : Msgpack A :=
  {| Encode x := Some (bits_of_pos (encode x));
     Decode bs := decode (pos_of_bits bs) |}.

Lemma codec_laws (A : Type) `{Countable A} : @MsgpackLaws A (codec A).
Proof.
  split. intros x. eexists. split; [done|]. simpl.
  by rewrite pos_of_bits_of_pos, decode_encode.
Qed.

(** Every message type is countable, so the toy codec covers them all. *)
#[export] Instance JoinRoomRequest_eq_dec : EqDecision JoinRoomRequest.
Proof. solve_decision. Defined.
#[export] Instance JoinRoomRequest_countable : Countable JoinRoomRequest.
Proof.
  refine (inj_countable' (λ m, (jrr_UserID m, jrr_RoomID m, jrr_GatewayID m))
    (λ '(a, b, c), mkJoinRoomRequest a b c) _). by intros [].
Defined.
#[export] Instance LeaveRoomRequest_eq_dec : EqDecision LeaveRoomRequest.
Proof. solve_decision. Defined.
#[export] Instance LeaveRoomRequest_countable : Countable LeaveRoomRequest.
Proof.
  refine (inj_countable' (λ m, (lrr_UserID m, lrr_RoomID m))
    (λ '(a, b), mkLeaveRoomRequest a b) _). by intros [].
Defined.
#[export] Instance ResumeRequest_eq_dec : EqDecision ResumeRequest.
Proof. solve_decision. Defined.
#[export] Instance ResumeRequest_countable : Countable ResumeRequest.
Proof.
  refine (inj_countable' (λ m, (rr_UserID m, rr_RoomID m, rr_GatewayID m))
    (λ '(a, b, c), mkResumeRequest a b c) _). by intros [].
Defined.
#[export] Instance UserRoomPair_eq_dec : EqDecision UserRoomPair.
Proof. solve_decision. Defined.
#[export] Instance UserRoomPair_countable : Countable UserRoomPair.
Proof.
  refine (inj_countable' (λ m, (urp_UserID m, urp_RoomID m))
    (λ '(a, b), mkUserRoomPair a b) _). by intros [].
Defined.
#[export] Instance BatchReSync_eq_dec : EqDecision BatchReSync.
Proof. solve_decision. Defined.
#[export] Instance BatchReSync_countable : Countable BatchReSync.
Proof.
  refine (inj_countable' (λ m, (brs_GatewayID m, brs_Users m))
    (λ '(a, b), mkBatchReSync a b) _). by intros [].
Defined.
#[export] Instance ReSyncComplete_eq_dec : EqDecision ReSyncComplete.
Proof. solve_decision. Defined.
#[export] Instance ReSyncComplete_countable : Countable ReSyncComplete.
Proof.
  refine (inj_countable' (λ m, (rsc_GatewayID m, rsc_TotalUsers m))
    (λ '(a, b), mkReSyncComplete a b) _). by intros [].
Defined.
#[export] Instance DisconnectNotify_eq_dec : EqDecision DisconnectNotify.
Proof. solve_decision. Defined.
#[export] Instance DisconnectNotify_countable : Countable DisconnectNotify.
Proof.
  refine (inj_countable' (λ m, (dn_UserID m, dn_RoomID m, dn_GatewayID m, dn_Timestamp m))
    (λ '(a, b, c, d), mkDisconnectNotify a b c d) _). by intros [].
Defined.
#[export] Instance GatewayInfo_eq_dec : EqDecision GatewayInfo.
Proof. solve_decision. Defined.
#[export] Instance GatewayInfo_countable : Countable GatewayInfo.
Proof.
  refine (inj_countable' (λ m, (gi_GatewayID m, gi_Addr m, gi_Connections m))
    (λ '(a, b, c), mkGatewayInfo a b c) _). by intros [].
Defined.
#[export] Instance JoinRoomAck_eq_dec : EqDecision JoinRoomAck.
Proof. solve_decision. Defined.
#[export] Instance JoinRoomAck_countable : Countable JoinRoomAck.
Proof.
  refine (inj_countable' (λ m, (jra_UserID m, jra_RoomID m, jra_Success m, jra_Code m, jra_Message m))
    (λ '(a, b, c, d, e), mkJoinRoomAck a b c d e) _). by intros [].
Defined.
#[export] Instance BroadcastMessage_eq_dec : EqDecision BroadcastMessage.
Proof. solve_decision. Defined.
#[export] Instance BroadcastMessage_countable : Countable BroadcastMessage.
Proof.
  refine (inj_countable' (λ m, (bm_RoomID m, bm_Seq m, bm_Payload m))
    (λ '(a, b, c), mkBroadcastMessage a b c) _). by intros [].
Defined.
#[export] Instance UnicastMessage_eq_dec : EqDecision UnicastMessage.
Proof. solve_decision. Defined.
#[export] Instance UnicastMessage_countable : Countable UnicastMessage.
Proof.
  refine (inj_countable' (λ m, (um_UserID m, um_Payload m))
    (λ '(a, b), mkUnicastMessage a b) _). by intros [].
Defined.
#[export] Instance MulticastMessage_eq_dec : EqDecision MulticastMessage.
Proof. solve_decision. Defined.
#[export] Instance MulticastMessage_countable : Countable MulticastMessage.
Proof.
  refine (inj_countable' (λ m, (mm_RoomID m, mm_UserIDs m, mm_Payload m))
    (λ '(a, b, c), mkMulticastMessage a b c) _). by intros [].
Defined.
#[export] Instance EpochNotify_eq_dec : EqDecision EpochNotify.
Proof. solve_decision. Defined.
#[export] Instance EpochNotify_countable : Countable EpochNotify.
Proof.
  refine (inj_countable' (λ m, (en_ServerID m, en_Epoch m, en_Timestamp m))
    (λ '(a, b, c), mkEpochNotify a b c) _). by intros [].
Defined.
#[export] Instance RoomCloseNotify_eq_dec : EqDecision RoomCloseNotify.
Proof. solve_decision. Defined.
#[export] Instance RoomCloseNotify_countable : Countable RoomCloseNotify.
Proof.
  refine (inj_countable' (λ m, (rcn_RoomID m, rcn_Reason m))
    (λ '(a, b), mkRoomCloseNotify a b) _). by intros [].
Defined.

#[export] Existing Instances codec codec_laws.
End ToyCodec.
