(* ===== verification/Frame.v ===== *)
(** [internal/protocol/frame.go]: the WebSocket frame, a 16-byte big-endian
    header (type, sequence number, length) followed by the payload. *)

From Stdlib Require Import ZArith Lia.
From stdpp Require Import base tactics strings numbers list.
From S2P Require Import Prelude GoInt.

Local Open Scope Z_scope.

Definition HeaderSize : nat := 16.
Definition MaxPayloadLen : Z := Z.shiftl 1 20.

Inductive FrameError :=
  | ErrPayloadTooLarge
  | ErrInvalidFrame
  | ErrRead (e : string).   (* an error of the underlying reader *)

Definition EOF : string := "EOF"%string.
Definition ErrUnexpectedEOF : string := "unexpected EOF"%string.

Record Frame := mkFrame {
  f_MsgType : Z;            (* uint32 *)
  f_Seq : Z;                (* uint64 *)
  f_Payload : list byte;
}.

#[export] Instance FrameError_eq_dec : EqDecision FrameError.
Proof. solve_decision. Defined.
#[export] Instance Frame_eq_dec : EqDecision Frame.
Proof. solve_decision. Defined.

(** [copy(buf[off:], src)], for a [src] that fits. *)
Definition write_at (off : nat) (src buf : list byte) : list byte :=
  take off buf ++ src ++ drop (off + length src) buf.

(** [data[i:j]] *)
Definition slice (i j : nat) (data : list byte) : list byte :=
  take (j - i) (drop i data).

Definition EncodeFrame (f : Frame) : list byte :=
  let payloadLen := length (f_Payload f) in
  let buf := replicate (HeaderSize + payloadLen) Byte.x00 in
  let buf := write_at 0 (PutUint32 (f_MsgType f)) buf in
  let buf := write_at 4 (PutUint64 (f_Seq f)) buf in
  let buf := write_at 12 (PutUint32 (u32 (Z.of_nat payloadLen))) buf in
  if (0 <? payloadLen)%nat then write_at HeaderSize (f_Payload f) buf else buf.

(** [data[i:j]] as Go evaluates it, for a slice with nothing behind its
    length: out of range it panics. *)
Definition slice_of (i j : nat) (data : list byte) : outcome (list byte) :=
  if (i <=? j)%nat && (j <=? length data)%nat then Done (slice i j data)
  else Panic "slice bounds out of range".

Definition DecodeFrame (data : list byte) : outcome (result FrameError Frame) :=
  if (length data <? HeaderSize)%nat then mret (Err ErrInvalidFrame) else
  b4 ← slice_of 0 4 data;
  let msgType := Uint32 b4 in
  b12 ← slice_of 4 12 data;
  let seq := Uint64 b12 in
  b16 ← slice_of 12 16 data;
  let payloadLen := Uint32 b16 in
  if MaxPayloadLen <? payloadLen then mret (Err ErrPayloadTooLarge) else
  let expectedLen := Z.of_nat HeaderSize + payloadLen in
  if Z.of_nat (length data) <? expectedLen then mret (Err ErrInvalidFrame) else
  payload ← (if 0 <? payloadLen then slice_of HeaderSize (Z.to_nat expectedLen) data else mret []);
  mret (Ok (mkFrame msgType seq payload)).

(** An [io.Reader]: the bytes it still delivers, then its final error. *)
Record Reader := mkReader { rd_data : list byte; rd_err : string }.

(** [io.ReadFull(r, buf)] for a buffer of [n] bytes. *)
Definition ReadFull (r : Reader) (n : nat) : result string (list byte) * Reader :=
  if (n <=? length (rd_data r))%nat then
    (Ok (take n (rd_data r)), mkReader (drop n (rd_data r)) (rd_err r))
  else
    (Err (if String.eqb (rd_err r) EOF
          then if (length (rd_data r) =? 0)%nat then EOF else ErrUnexpectedEOF
          else rd_err r),
     mkReader [] (rd_err r)).

Definition ReadFrame (r : Reader) : result FrameError Frame * Reader :=
  match ReadFull r HeaderSize with
  | (Err e, r) => (Err (ErrRead e), r)
  | (Ok header, r) =>
    let msgType := Uint32 (slice 0 4 header) in
    let seq := Uint64 (slice 4 12 header) in
    let payloadLen := Uint32 (slice 12 16 header) in
    if MaxPayloadLen <? payloadLen then (Err ErrPayloadTooLarge, r) else
    if 0 <? payloadLen then
      match ReadFull r (Z.to_nat payloadLen) with
      | (Err e, r) => (Err (ErrRead e), r)
      | (Ok payload, r) => (Ok (mkFrame msgType seq payload), r)
      end
    else (Ok (mkFrame msgType seq []), r)
  end.

(** [WriteFrame] over an arbitrary [io.Writer]. *)
Definition WriteFrame {W : Type} (Write : W → list byte → W * option string)
    (w : W) (f : Frame) : W * option string :=
  Write w (EncodeFrame f).

(** Reading frames until the first error, at most [fuel] of them. *)
Fixpoint ReadFrames (fuel : nat) (r : Reader) : list Frame * FrameError :=
  match fuel with
  | O => ([], ErrRead EOF)
  | S fuel =>
    match ReadFrame r with
    | (Ok f, r) => let '(fs, e) := ReadFrames fuel r in (f :: fs, e)
    | (Err e, _) => ([], e)
    end
  end.

(** ** Well-formed frames: the header fields fit their Go types *)
Definition frame_wf (f : Frame) : Prop :=
  0 <= f_MsgType f < 2 ^ 32 ∧ 0 <= f_Seq f < 2 ^ 64.

Definition frame_ok (f : Frame) : Prop :=
  frame_wf f ∧ Z.of_nat (length (f_Payload f)) <= MaxPayloadLen.

#[export] Instance frame_ok_dec f : Decision (frame_ok f).
Proof. unfold frame_ok, frame_wf. apply _. Defined.

(** The wire format as a concatenation. *)
Definition wire (f : Frame) : list byte :=
  PutUint32 (f_MsgType f) ++ PutUint64 (f_Seq f) ++
  PutUint32 (Z.of_nat (length (f_Payload f))) ++ f_Payload f.

Section write_at.
Implicit Types pre src old post buf : list byte.

Lemma write_at_app pre src old post :
  length src = length old →
  write_at (length pre) src (pre ++ old ++ post) = pre ++ src ++ post.
Proof.
  intros H. unfold write_at. rewrite H.
  rewrite take_app_length, <-drop_drop, !drop_app_length. done.
Qed.

(** Writing at the end of what is already filled in. *)
Lemma write_at_zeros off pre src n m :
  off = length pre → n = (length src + m)%nat →
  write_at off src (pre ++ replicate n Byte.x00) =
  (pre ++ src) ++ replicate m Byte.x00.
Proof.
  intros -> ->. rewrite <-app_assoc, replicate_add.
  apply write_at_app. by rewrite length_replicate.
Qed.
End write_at.

Lemma PutUint32_u32 v : PutUint32 (u32 v) = PutUint32 v.
Proof.
  apply be_get_inj; [unfold PutUint32; by rewrite !length_be_put|].
  change (be_get ?x) with (Uint32 x). rewrite !Uint32_Put.
  unfold u32. by rewrite Z.mod_mod by lia.
Qed.

Lemma EncodeFrame_wire f : EncodeFrame f = wire f.
Proof.
  unfold EncodeFrame, wire. rewrite PutUint32_u32.
  set (t := PutUint32 (f_MsgType f)). set (s := PutUint64 (f_Seq f)).
  set (n := PutUint32 (Z.of_nat (length (f_Payload f)))).
  assert (length t = 4 ∧ length s = 8 ∧ length n = 4)%nat as (Ht & Hs & Hn)
    by (unfold t, s, n, PutUint32, PutUint64; by rewrite !length_be_put).
  set (p := f_Payload f). clearbody t s n p.
  change (replicate (HeaderSize + length p) Byte.x00)
    with ([] ++ replicate (HeaderSize + length p) Byte.x00).
  rewrite (write_at_zeros 0 [] t _ (12 + length p)) by (rewrite ?Ht; done).
  rewrite (write_at_zeros 4 _ s _ (4 + length p)) by (rewrite ?Hs; done).
  rewrite (write_at_zeros 12 _ n _ (length p))
    by (rewrite ?length_app, ?Hn, ?Hs, ?Ht; done).
  destruct p as [|b p]; simpl; [by rewrite !app_nil_r, <-!app_assoc|].
  change (Byte.x00 :: replicate (length p) Byte.x00)
    with (replicate (length (b :: p)) Byte.x00).
  rewrite (write_at_zeros HeaderSize _ (b :: p) _ 0)
    by (unfold HeaderSize; rewrite ?length_app, ?Hn, ?Hs, ?Ht; simpl; lia).
  by rewrite app_nil_r, <-!app_assoc.
Qed.

(** The three header fields of a wire image, whatever follows it. *)
Lemma wire_header f rest :
  let data := wire f ++ rest in
  slice 0 4 data = PutUint32 (f_MsgType f) ∧
  slice 4 12 data = PutUint64 (f_Seq f) ∧
  slice 12 16 data = PutUint32 (Z.of_nat (length (f_Payload f))) ∧
  drop HeaderSize data = f_Payload f ++ rest.
Proof.
  intros data. unfold data, slice, wire. rewrite <-!app_assoc.
  repeat split; simpl.
  all: by rewrite ?take_0, ?drop_0.
Qed.

Lemma length_wire f : length (wire f) = (HeaderSize + length (f_Payload f))%nat.
Proof. done. Qed.

Lemma MaxPayloadLen_val : MaxPayloadLen = 1048576.
Proof. done. Qed.

(** What [DecodeFrame] returns: the guards keep every slice in range. *)
Definition decoded (data : list byte) : result FrameError Frame :=
  if (length data <? HeaderSize)%nat then Err ErrInvalidFrame else
  let payloadLen := Uint32 (slice 12 16 data) in
  if MaxPayloadLen <? payloadLen then Err ErrPayloadTooLarge else
  let expectedLen := Z.of_nat HeaderSize + payloadLen in
  if Z.of_nat (length data) <? expectedLen then Err ErrInvalidFrame else
  Ok (mkFrame (Uint32 (slice 0 4 data)) (Uint64 (slice 4 12 data))
    (if 0 <? payloadLen then slice HeaderSize (Z.to_nat expectedLen) data else [])).

Lemma slice_of_run i j data :
  (i ≤ j)%nat → (j ≤ length data)%nat → slice_of i j data = Done (slice i j data).
Proof.
  intros Hi Hj. unfold slice_of. apply Nat.leb_le in Hi, Hj. by rewrite Hi, Hj.
Qed.

Lemma DecodeFrame_run data : DecodeFrame data = Done (decoded data).
Proof.
  unfold DecodeFrame, decoded.
  destruct (Nat.ltb_spec (length data) HeaderSize) as [|Hh]; [done|]. unfold HeaderSize in Hh.
  rewrite !slice_of_run by lia. rewrite !outcome_bind_ret. cbv zeta.
  destruct (Z.ltb_spec MaxPayloadLen (Uint32 (slice 12 16 data))); [done|].
  destruct (Z.ltb_spec (Z.of_nat (length data))
    (Z.of_nat HeaderSize + Uint32 (slice 12 16 data))) as [|Hl]; [done|].
  destruct (Z.ltb_spec 0 (Uint32 (slice 12 16 data))) as [Hp|]; [|done].
  rewrite slice_of_run; [done|unfold HeaderSize; lia|unfold HeaderSize in *; lia].
Qed.

Lemma DecodeFrame_returns data : ∃ r, DecodeFrame data = Done r.
Proof. eexists. apply DecodeFrame_run. Qed.

(** What [DecodeFrame] does on any wire image, valid or not. *)
Lemma decoded_wire f rest :
  frame_wf f → Z.of_nat (length (f_Payload f)) < 2 ^ 32 →
  decoded (wire f ++ rest) =
  if MaxPayloadLen <? Z.of_nat (length (f_Payload f))
  then Err ErrPayloadTooLarge else Ok f.
Proof.
  intros [Ht Hs] Hlen. destruct (wire_header f rest) as (H1 & H2 & H3 & H4).
  unfold decoded. rewrite H1, H2, H3, !Uint32_Put, Uint64_Put.
  rewrite !u32_small, u64_small by lia.
  rewrite length_app, length_wire.
  destruct (Nat.ltb_spec (HeaderSize + length (f_Payload f) + length rest) HeaderSize); [lia|].
  destruct (Z.ltb_spec MaxPayloadLen (Z.of_nat (length (f_Payload f)))); [done|].
  destruct (Z.ltb_spec (Z.of_nat (HeaderSize + length (f_Payload f) + length rest))
    (Z.of_nat HeaderSize + Z.of_nat (length (f_Payload f)))); [lia|].
  f_equal. transitivity (mkFrame (f_MsgType f) (f_Seq f) (f_Payload f)); [|by destruct f].
  f_equal. destruct (Z.ltb_spec 0 (Z.of_nat (length (f_Payload f)))).
  - unfold slice. rewrite H4. apply take_app_length'. lia.
  - destruct (f_Payload f); simpl in *; [done|lia].
Qed.

(** Any 16-byte header with enough bytes behind it is a wire image. *)
Lemma wire_of_data data n :
  (HeaderSize ≤ length data)%nat →
  Uint32 (slice 12 16 data) = Z.of_nat n →
  (HeaderSize + n ≤ length data)%nat →
  let f := mkFrame (Uint32 (slice 0 4 data)) (Uint64 (slice 4 12 data))
                   (take n (drop HeaderSize data)) in
  frame_wf f ∧ data = wire f ++ drop (HeaderSize + n) data.
Proof.
  intros Hlen Hn Hdata f. split.
  { split; simpl; unfold Uint32, Uint64.
    - pose proof (be_get_range (slice 0 4 data)) as H. unfold slice in *.
      rewrite length_take, length_drop in H. unfold HeaderSize in *.
      rewrite Nat.min_l in H by lia. exact H.
    - pose proof (be_get_range (slice 4 12 data)) as H. unfold slice in *.
      rewrite length_take, length_drop in H. unfold HeaderSize in *.
      rewrite Nat.min_l in H by lia. exact H. }
  unfold wire, f. cbn [f_MsgType f_Seq f_Payload].
  assert (length (take n (drop HeaderSize data)) = n) as ->
    by (rewrite length_take, length_drop; lia).
  rewrite <-Hn. unfold PutUint32, PutUint64, Uint32, Uint64.
  unfold HeaderSize in *. unfold slice.
  rewrite !be_put_get by (rewrite length_take, length_drop; lia).
  rewrite drop_0. simpl Nat.sub. rewrite <-!app_assoc.
  replace (drop (16 + n) data) with (drop n (drop 16 data)) by apply drop_drop.
  rewrite take_drop.
  rewrite <-(take_drop 4 data) at 1. f_equal.
  rewrite <-(take_drop 8 (drop 4 data)) at 1. f_equal.
  rewrite drop_drop. simpl Nat.add.
  rewrite <-(take_drop 4 (drop 12 data)) at 1. f_equal. by rewrite drop_drop.
Qed.

Lemma declared_range data :
  (HeaderSize ≤ length data)%nat → 0 <= Uint32 (slice 12 16 data) < 2 ^ 32.
Proof.
  intros H. unfold Uint32. pose proof (be_get_range (slice 12 16 data)) as Hr.
  unfold slice, HeaderSize in *. rewrite length_take, length_drop in Hr.
  rewrite Nat.min_l in Hr by lia. exact Hr.
Qed.

(** The result by cases on what the header declares. *)
Lemma decoded_cases data :
  (length data < HeaderSize)%nat ∧ decoded data = Err ErrInvalidFrame ∨
  (HeaderSize ≤ length data)%nat ∧ ∃ n, Uint32 (slice 12 16 data) = Z.of_nat n ∧
    (MaxPayloadLen < Z.of_nat n ∧ decoded data = Err ErrPayloadTooLarge ∨
     Z.of_nat n <= MaxPayloadLen ∧ (length data < HeaderSize + n)%nat ∧
       decoded data = Err ErrInvalidFrame ∨
     Z.of_nat n <= MaxPayloadLen ∧ (HeaderSize + n ≤ length data)%nat ∧ ∃ f rest,
       frame_ok f ∧ length (f_Payload f) = n ∧ data = wire f ++ rest ∧
       decoded data = Ok f).
Proof.
  destruct (Nat.ltb_spec (length data) HeaderSize) as [Hs|Hs].
  { left. split; [done|]. unfold decoded. by apply Nat.ltb_lt in Hs as ->. }
  right. split; [done|]. pose proof (declared_range data Hs) as Hr.
  exists (Z.to_nat (Uint32 (slice 12 16 data))).
  rewrite Z2Nat.id by lia. split; [done|].
  destruct (Z.ltb_spec MaxPayloadLen (Uint32 (slice 12 16 data))) as [Hm|Hm].
  { left. split; [lia|]. unfold decoded.
    apply Nat.ltb_ge in Hs as ->. by apply Z.ltb_lt in Hm as ->. }
  right. set (n := Z.to_nat _).
  destruct (Nat.ltb_spec (length data) (HeaderSize + n)) as [Hl|Hl].
  { left. split_and!; [done..|]. unfold decoded.
    apply Nat.ltb_ge in Hs as ->. apply Z.ltb_ge in Hm as ->.
    replace (_ <? _) with true; [done|]. symmetry. apply Z.ltb_lt. lia. }
  right. split_and!; [done..|].
  destruct (wire_of_data data n) as [Hwf Hd]; [done|lia|done|].
  set (f := mkFrame _ _ _) in *. exists f, (drop (HeaderSize + n) data).
  assert (length (f_Payload f) = n) as Hn by (simpl; rewrite length_take, length_drop; lia).
  split_and!; [|done|done|].
  - split; [done|]. rewrite Hn. lia.
  - rewrite Hd at 1. rewrite decoded_wire; [|done|rewrite Hn; lia].
    rewrite Hn. destruct (Z.ltb_spec MaxPayloadLen (Z.of_nat n)); [lia|done].
Qed.

Lemma decoded_app f rest : frame_ok f → decoded (EncodeFrame f ++ rest) = Ok f.
Proof.
  intros [Hwf Hlen]. rewrite EncodeFrame_wire, decoded_wire; [|done|].
  - by apply Z.ltb_ge in Hlen as ->.
  - rewrite MaxPayloadLen_val in Hlen. lia.
Qed.

Lemma DecodeFrame_app f rest :
  frame_ok f → DecodeFrame (EncodeFrame f ++ rest) = Done (Ok f).
Proof. intros Hok. by rewrite DecodeFrame_run, decoded_app. Qed.

Lemma length_EncodeFrame f : length (EncodeFrame f) = (HeaderSize + length (f_Payload f))%nat.
Proof. by rewrite EncodeFrame_wire. Qed.

(** [io.ReadFull] delivers exactly the front of the stream. *)
Lemma ReadFull_app bs rest e n :
  n = length bs → ReadFull (mkReader (bs ++ rest) e) n = (Ok bs, mkReader rest e).
Proof.
  intros ->. unfold ReadFull. simpl. rewrite length_app.
  destruct (Nat.leb_spec (length bs) (length bs + length rest)); [|lia].
  by rewrite take_app_length, drop_app_length.
Qed.

Lemma ReadFrame_app f rest e :
  frame_ok f →
  ReadFrame (mkReader (EncodeFrame f ++ rest) e) = (Ok f, mkReader rest e).
Proof.
  intros [[Ht Hs] Hlen]. rewrite EncodeFrame_wire.
  set (hd := PutUint32 (f_MsgType f) ++ PutUint64 (f_Seq f) ++
             PutUint32 (Z.of_nat (length (f_Payload f)))).
  assert (wire f ++ rest = hd ++ (f_Payload f ++ rest)) as ->
    by (unfold wire, hd; by rewrite <-!app_assoc).
  unfold ReadFrame. rewrite ReadFull_app by done.
  destruct (wire_header (mkFrame (f_MsgType f) (f_Seq f) (f_Payload f)) [])
    as (H1 & H2 & H3 & _).
  assert (slice 0 4 hd = PutUint32 (f_MsgType f) ∧ slice 4 12 hd = PutUint64 (f_Seq f) ∧
          slice 12 16 hd = PutUint32 (Z.of_nat (length (f_Payload f)))) as (-> & -> & ->)
    by done.
  rewrite !Uint32_Put, Uint64_Put, !u32_small, u64_small
    by (rewrite ?MaxPayloadLen_val in *; lia).
  destruct (Z.ltb_spec MaxPayloadLen (Z.of_nat (length (f_Payload f)))); [lia|].
  destruct (Z.ltb_spec 0 (Z.of_nat (length (f_Payload f)))).
  - rewrite ReadFull_app by lia. by destruct f.
  - destruct f as [t s [|b p]]; simpl in *; [done|lia].
Qed.

(** ** Properties *)

(** C28. [DecodeFrame] never panics, whatever the bytes.  It accepts exactly
    the byte strings that start with the encoding of a well-formed frame of
    at most [MaxPayloadLen] payload bytes, and returns that frame; bytes
    behind it are ignored. *)
Theorem DecodeFrame_spec data f :
  (∃ r, DecodeFrame data = Done r) ∧
  (DecodeFrame data = Done (Ok f) ↔ frame_ok f ∧ ∃ rest, data = EncodeFrame f ++ rest).
Proof.
  rewrite DecodeFrame_run. split; [by eexists|]. split.
  - intros [= H].
    destruct (decoded_cases data) as
      [[_ ?]|(_ & n & _ & [[_ ?]|[(_ & _ & ?)|(_ & _ & f' & rest & Hok & _ & Hd & ?)]])];
      [congruence..|].
    assert (f = f') as -> by congruence. split; [done|].
    exists rest. by rewrite EncodeFrame_wire.
  - intros [Hok [rest ->]]. by rewrite decoded_app.
Qed.

(** A frame cut anywhere before its end is rejected as invalid: no
    strict prefix of an encoding decodes. *)
Theorem DecodeFrame_truncated f n :
  frame_ok f → (n < length (EncodeFrame f))%nat →
  DecodeFrame (take n (EncodeFrame f)) = Done (Err ErrInvalidFrame).
Proof.
  intros Hok Hn. rewrite length_EncodeFrame in Hn. rewrite DecodeFrame_run. f_equal.
  assert (length (take n (EncodeFrame f)) = n) as Hl
    by (rewrite length_take, length_EncodeFrame; lia).
  destruct (decoded_cases (take n (EncodeFrame f))) as
    [[_ ?]|(Hh & k & Hk & Hc)]; [done|].
  assert (k = length (f_Payload f)) as ->.
  { apply Nat2Z.inj. rewrite <-Hk. destruct (wire_header f []) as (_ & _ & H3 & _).
    rewrite app_nil_r in H3. unfold slice in *.
    rewrite skipn_firstn_comm, take_take, Nat.min_l by (rewrite Hl in Hh; unfold HeaderSize in *; lia).
    rewrite EncodeFrame_wire, H3, Uint32_Put. apply u32_small.
    destruct Hok as [_ Hlen]. rewrite MaxPayloadLen_val in Hlen. lia. }
  destruct Hok as [_ Hlen]. destruct Hc as [[? _]|[(_ & _ & ?)|(_ & Hge & _)]]; [lia|done|].
  rewrite Hl in Hge. lia.
Qed.

Lemma DecodeFrame_truncated_witness :
  let f := mkFrame 2 7 [Byte.x61; Byte.x62] in
  DecodeFrame (take 17 (EncodeFrame f)) = Done (Err ErrInvalidFrame).
Proof.
  simpl. apply (DecodeFrame_truncated (mkFrame 2 7 [Byte.x61; Byte.x62]) 17).
  - by_computation.
  - by_computation.
Defined.

(** The encoder does not enforce the payload limit, and the peer
    rejects what it then sends: a payload above [MaxPayloadLen] (and below
    4 GiB, where the length field would wrap) is always answered with
    [ErrPayloadTooLarge]. *)
Theorem EncodeFrame_oversize_rejected f rest :
  frame_wf f → MaxPayloadLen < Z.of_nat (length (f_Payload f)) < 2 ^ 32 →
  DecodeFrame (EncodeFrame f ++ rest) = Done (Err ErrPayloadTooLarge).
Proof.
  intros Hwf [Hlo Hhi]. rewrite DecodeFrame_run, EncodeFrame_wire, decoded_wire by done.
  by apply Z.ltb_lt in Hlo as ->.
Qed.

Lemma EncodeFrame_oversize_rejected_witness :
  let f := mkFrame 16 1 (replicate (Z.to_nat 1048577) Byte.x00) in
  DecodeFrame (EncodeFrame f ++ []) = Done (Err ErrPayloadTooLarge).
Proof.
  intros f. apply (EncodeFrame_oversize_rejected f []).
  - split; simpl; lia.
  - unfold f. cbn [f_Payload]. rewrite length_replicate, Z2Nat.id by lia.
    rewrite MaxPayloadLen_val. lia.
Defined.

(** Concatenated frames are read back one by one. *)
Lemma ReadFrames_all fs fuel :
  Forall frame_ok fs → (length fs < fuel)%nat →
  ReadFrames fuel (mkReader (concat (map EncodeFrame fs)) EOF) = (fs, ErrRead EOF).
Proof.
  revert fuel. induction fs as [|f fs IH]; intros fuel Hok Hfuel;
    (destruct fuel as [|fuel]; [simpl in *; lia|]); [done|].
  apply Forall_cons in Hok as [Hf Hok].
  cbn [map concat ReadFrames]. rewrite ReadFrame_app by done.
  rewrite IH; [done|done|simpl in *; lia].
Qed.

(** Streams of frames: reading from a connection that carries the
    encodings of [fs] one after the other and then ends yields exactly
    [fs], in order, and then the end of file. *)
Theorem ReadFrames_stream fs fuel :
  Forall frame_ok fs → (length fs < fuel)%nat →
  ReadFrames fuel (mkReader (concat (map EncodeFrame fs)) EOF) = (fs, ErrRead EOF).
Proof. apply ReadFrames_all. Qed.

Lemma ReadFrames_stream_witness :
  ReadFrames 3 (mkReader (concat (map EncodeFrame
    [mkFrame 1 2 [Byte.x41]; mkFrame 255 0 []])) EOF) =
  ([mkFrame 1 2 [Byte.x41]; mkFrame 255 0 []], ErrRead EOF).
Proof.
  apply (ReadFrames_stream [mkFrame 1 2 [Byte.x41]; mkFrame 255 0 []] 3).
  - by_computation.
  - simpl. lia.
Defined.

(** The streaming reader and the packet decoder agree: on the same
    bytes they return the same frame or both fail, the reader consumes
    exactly the frame, and only an oversized length makes both report
    [ErrPayloadTooLarge]. *)
Theorem ReadFrame_DecodeFrame data e :
  match ReadFrame (mkReader data e) with
  | (Ok f, r) => DecodeFrame data = Done (Ok f) ∧ rd_data r = drop (length (EncodeFrame f)) data
  | (Err ErrPayloadTooLarge, _) => DecodeFrame data = Done (Err ErrPayloadTooLarge)
  | (Err ErrInvalidFrame, _) => False
  | (Err (ErrRead _), _) => DecodeFrame data = Done (Err ErrInvalidFrame)
  end.
Proof.
  rewrite DecodeFrame_run. destruct (decoded_cases data) as
    [[Hs Hd]|(Hh & n & Hn & Hc)].
  - unfold ReadFrame, ReadFull. simpl rd_data.
    destruct (Nat.leb_spec HeaderSize (length data)); [lia|by rewrite Hd].
  - assert (∀ i j, (j ≤ HeaderSize)%nat → slice i j (take HeaderSize data) = slice i j data)
      as Hslice.
    { intros i j Hj. unfold slice. rewrite skipn_firstn_comm, take_take. f_equal. lia. }
    destruct Hc as [[Hm Hd]|[(Hm & Hl & Hd)|(Hm & Hl & f & rest & Hok & _ & -> & Hd)]].
    + unfold ReadFrame, ReadFull. simpl rd_data. apply Nat.leb_le in Hh as ->.
      rewrite !Hslice, Hn by (unfold HeaderSize; lia). apply Z.ltb_lt in Hm as ->. by rewrite Hd.
    + unfold ReadFrame, ReadFull. simpl rd_data.
      rewrite (proj2 (Nat.leb_le _ _) Hh).
      rewrite !Hslice, Hn by (unfold HeaderSize; lia). apply Z.ltb_ge in Hm as ->.
      destruct (Z.ltb_spec 0 (Z.of_nat n)).
      * simpl rd_data. rewrite length_drop.
        destruct (Nat.leb_spec (Z.to_nat (Z.of_nat n)) (length data - HeaderSize)); [lia|by rewrite Hd].
      * unfold HeaderSize in *. lia.
    + rewrite <-EncodeFrame_wire in *. rewrite ReadFrame_app by done.
      rewrite Hd. split; [done|]. by rewrite drop_app_length.
Qed.
