(* ===== verification/HashRing.v ===== *)
(** [internal/roomserver/hashring.go]: consistent hashing with virtual nodes,
    with the pieces of the standard library it uses: CRC-32, [strconv.Itoa],
    [sort.Slice] and [sort.Search]. *)

From Stdlib Require Import ZArith Lia.
From stdpp Require Import base tactics gmap strings pretty sorting numbers list.
From S2P Require Import Prelude GoInt.

Local Open Scope Z_scope.

(** ** [hash/crc32], IEEE polynomial, bit by bit *)
Definition crc32_bit (c : Z) : Z :=
  if Z.odd c then Z.lxor (Z.shiftr c 1) 0xEDB88320 else Z.shiftr c 1.

Definition crc32_byte (c : Z) (b : byte) : Z :=
  Nat.iter 8 crc32_bit (Z.lxor c (byte_to_Z b)).

Definition ChecksumIEEE (bs : list byte) : Z :=
  Z.lxor (foldl crc32_byte 0xFFFFFFFF bs) 0xFFFFFFFF.

(** ** [sort.Search]: the smallest index at which a monotone predicate holds *)
Fixpoint search_loop (fuel : nat) (f : nat → bool) (i j : nat) : nat :=
  match fuel with
  | O => i
  | S fuel =>
    if (i <? j)%nat then
      let h := Nat.div2 (i + j) in
      if f h then search_loop fuel f i h else search_loop fuel f (S h) j
    else i
  end.

(** The interval at least halves at each turn, so [n] turns are enough
    ([search_loop_spec] proves the result for any larger fuel). *)
Definition sort_Search (n : nat) (f : nat → bool) : nat := search_loop n f 0 n.

(** ** The ring *)
Record HashRing := mkHashRing {
  virtualNodes : Z;
  ring : list Z;              (* the sorted hash values *)
  nodes : gmap Z string;      (* hash value → node id *)
}.

Definition NewHashRing (virtualNodes : Z) : HashRing := mkHashRing virtualNodes [] ∅.

Definition hash (key : string) : Z := ChecksumIEEE (String.list_byte_of_string key).

(** The virtual node [i] of a node. *)
Definition vnode_key (nodeID : string) (i : Z) : string :=
  (nodeID +:+ "#" +:+ pretty i)%string.

Definition add_point (nodeID : string) (h : HashRing) (i : Z) : HashRing :=
  let hash := hash (vnode_key nodeID i) in
  mkHashRing (virtualNodes h) (ring h ++ [hash]) (<[hash := nodeID]> (nodes h)).

Definition AddNode (nodeID : string) (h : HashRing) : HashRing :=
  let h := foldl (add_point nodeID) h (seqZ 0 (virtualNodes h)) in
  mkHashRing (virtualNodes h) (merge_sort Z.le (ring h)) (nodes h).

(** The loop of [RemoveNode]: the hashes kept, and the shrinking map. *)
Fixpoint remove_loop (nodeID : string) (ring : list Z) (nodes : gmap Z string)
    : list Z * gmap Z string :=
  match ring with
  | [] => ([], nodes)
  | hash :: ring =>
    if decide (default "" (nodes !! hash) ≠ nodeID) then
      let '(newRing, nodes) := remove_loop nodeID ring nodes in (hash :: newRing, nodes)
    else remove_loop nodeID ring (delete hash nodes)
  end.

Definition RemoveNode (nodeID : string) (h : HashRing) : outcome HashRing :=
  if Z.of_nat (length (ring h)) - virtualNodes h <? 0
  then Panic "makeslice: cap out of range"
  else
    let '(newRing, nodes) := remove_loop nodeID (ring h) (nodes h) in
    Done (mkHashRing (virtualNodes h) newRing nodes).

Definition GetNode (key : string) (h : HashRing) : string :=
  if (length (ring h) =? 0)%nat then "" else
  let hash := hash key in
  let idx := sort_Search (length (ring h)) (λ i, hash <=? ring h !!! i) in
  let idx := if (length (ring h) <=? idx)%nat then 0%nat else idx in
  default "" (nodes h !! (ring h !!! idx)).

Definition IsLocalNode (key localNodeID : string) (h : HashRing) : bool :=
  bool_decide (GetNode key h = localNodeID).

(** ** Specification: the clockwise successor *)
Definition successor (x : Z) (ring : list Z) : option Z :=
  match list_find (λ y, x <= y) ring with
  | Some (_, y) => Some y
  | None => head ring
  end.

Definition owner (x : Z) (h : HashRing) : string :=
  default "" (successor x (ring h) ≫= λ y, nodes h !! y).

Definition ring_wf (h : HashRing) : Prop :=
  Sorted Z.le (ring h) ∧ ∀ x, x ∈ ring h ↔ is_Some (nodes h !! x).

(** The points of a node, in the order they are added. *)
Definition points (nodeID : string) (vn : Z) : list Z :=
  (λ i, hash (vnode_key nodeID i)) <$> seqZ 0 vn.

(** The published check value of CRC-32/ISO-HDLC. *)
Example crc32_check : hash "123456789" = 0xCBF43926.
Proof. reflexivity. Qed.

(** ** [sort.Search] *)
Section search.
Variable f : nat → bool.
Hypothesis f_mono : ∀ i j, (i ≤ j)%nat → f i = true → f j = true.

Lemma search_loop_spec fuel i j :
  (j - i ≤ fuel)%nat → (i ≤ j)%nat →
  let r := search_loop fuel f i j in
  (i ≤ r ≤ j)%nat ∧ (∀ k, (i ≤ k < r)%nat → f k = false) ∧ ((r < j)%nat → f r = true).
Proof.
  revert i j. induction fuel as [|fuel IH]; intros i j Hf Hij; simpl.
  { split_and!; lia. }
  destruct (Nat.ltb_spec i j) as [Hlt|Hge]; [|split_and!; lia].
  pose proof (Nat.div2_div (i + j)) as Hdiv.
  set (h := Nat.div2 (i + j)) in *.
  assert (i ≤ h < j)%nat as Hh.
  { rewrite Hdiv. pose proof (Nat.div_mod_eq (i + j) 2).
    pose proof (Nat.mod_upper_bound (i + j) 2). lia. }
  destruct (f h) eqn:Hfh.
  - destruct (IH i h) as (H1 & H2 & H3); [lia..|].
    set (r := search_loop fuel f i h) in *. split_and!; [lia..|done|].
    intros _. destruct (decide (r = h)) as [->|]; [done|]. apply H3. lia.
  - destruct (IH (S h) j) as (H1 & H2 & H3); [lia..|].
    set (r := search_loop fuel f (S h) j) in *. split_and!; [lia..| |done].
    intros k Hk. destruct (decide (k ≤ h)%nat); [|apply H2; lia].
    destruct (f k) eqn:Hfk; [|done]. rewrite (f_mono k h) in Hfh by (done || lia). done.
Qed.

Lemma sort_Search_spec n :
  let r := sort_Search n f in
  (r ≤ n)%nat ∧ (∀ k, (k < r)%nat → f k = false) ∧ ((r < n)%nat → f r = true).
Proof.
  destruct (search_loop_spec n 0 n) as (H1 & H2 & H3); [lia..|].
  split_and!; [unfold sort_Search; lia| |done]. intros k Hk. apply H2.
  unfold sort_Search in Hk. lia.
Qed.
End search.

Lemma Sorted_lookup_le (l : list Z) i j x y :
  Sorted Z.le l → l !! i = Some x → l !! j = Some y → (i ≤ j)%nat → x <= y.
Proof.
  intros Hs%Sorted_StronglySorted; [|intros ???; lia]. revert i j.
  induction Hs as [|z l Hs IH Hall]; intros i j Hi Hj Hij; [done|].
  destruct i as [|i], j as [|j]; simplify_eq/=; [lia| |lia|].
  - rewrite Forall_forall in Hall. apply Hall. apply list_elem_of_lookup. eauto.
  - apply (IH i j); [done..|lia].
Qed.

(** The successor of a sorted ring, characterised. *)
Lemma successor_spec x r y :
  Sorted Z.le r →
  successor x r = Some y ↔
    y ∈ r ∧ ((x <= y ∧ ∀ z, z ∈ r → x <= z → y <= z) ∨
             ((∀ z, z ∈ r → z < x) ∧ ∀ z, z ∈ r → y <= z)).
Proof.
  intros Hs. unfold successor.
  destruct (list_find (λ y, x <= y) r) as [[i w]|] eqn:Hf.
  - apply list_find_Some in Hf as (Hi & Hxw & Hleast).
    assert (∀ z, z ∈ r → x <= z → w <= z) as Hmin.
    { intros z [j Hj]%list_elem_of_lookup Hz.
      destruct (decide (j < i)%nat) as [Hlt|].
      - destruct (Hleast j z Hj Hlt); done.
      - apply (Sorted_lookup_le r i j); [done..|lia]. }
    split.
    + intros [= <-]. split; [apply list_elem_of_lookup; eauto|]. by left.
    + intros (Hy & [[Hxy Hmy]|[Hlt _]]); f_equal.
      * apply Z.le_antisymm; [by apply Hmin|].
        apply Hmy; [apply list_elem_of_lookup; eauto|done].
      * assert (w < x); [|lia]. apply Hlt. apply list_elem_of_lookup. eauto.
  - apply list_find_None in Hf. rewrite Forall_forall in Hf.
    destruct r as [|a r]; simpl; [split; [done|set_solver]|].
    assert (∀ z, z ∈ a :: r → a <= z) as Hmin.
    { intros z [j Hj]%list_elem_of_lookup. by apply (Sorted_lookup_le (a :: r) 0 j); [..|lia]. }
    split.
    + intros [= <-]. split; [by left|]. right. split; [|done].
      intros z Hz. pose proof (Hf z Hz). simpl in *. lia.
    + intros (Hy & [[Hxy _]|[_ Hmy]]); f_equal.
      * destruct (Hf y Hy). done.
      * apply Z.le_antisymm; [by apply Hmin|]. apply Hmy. by left.
Qed.

Lemma successor_is_Some x r : r ≠ [] → is_Some (successor x r).
Proof. unfold successor. intros. case_match; [case_match; eauto|]. destruct r; naive_solver. Qed.

(** ** [AddNode] *)
Section add_node.
Implicit Types (h : HashRing) (n : string).

Lemma foldl_add_point n h ixs :
  let h' := foldl (add_point n) h ixs in
  let ps := (λ i, hash (vnode_key n i)) <$> ixs in
  virtualNodes h' = virtualNodes h ∧ ring h' = ring h ++ ps ∧
  ∀ x, nodes h' !! x = if decide (x ∈ ps) then Some n else nodes h !! x.
Proof.
  revert h. induction ixs as [|i ixs IH]; intros h; simpl.
  { split_and!; [done|by rewrite app_nil_r|done]. }
  destruct (IH (add_point n h i)) as (-> & -> & Hn). split_and!; [done| |].
  - simpl. by rewrite <-app_assoc.
  - intros x. rewrite Hn. simpl.
    destruct (decide (x = hash (vnode_key n i))) as [->|Hne].
    + rewrite lookup_insert_eq.
      repeat case_decide; rewrite ?elem_of_cons in *; naive_solver.
    + rewrite lookup_insert_ne by done.
      repeat case_decide; rewrite elem_of_cons in *; naive_solver.
Qed.

Lemma AddNode_ring n h : ring (AddNode n h) ≡ₚ ring h ++ points n (virtualNodes h).
Proof.
  unfold AddNode. cbn [ring]. rewrite merge_sort_Permutation.
  by destruct (foldl_add_point n h (seqZ 0 (virtualNodes h))) as (_ & -> & _).
Qed.

Lemma AddNode_sorted n h : Sorted Z.le (ring (AddNode n h)).
Proof. unfold AddNode. simpl. apply Sorted_merge_sort, _. Qed.

Lemma AddNode_nodes n h x :
  nodes (AddNode n h) !! x =
  if decide (x ∈ points n (virtualNodes h)) then Some n else nodes h !! x.
Proof.
  unfold AddNode. simpl.
  by destruct (foldl_add_point n h (seqZ 0 (virtualNodes h))) as (_ & _ & ->).
Qed.

Lemma AddNode_virtualNodes n h : virtualNodes (AddNode n h) = virtualNodes h.
Proof.
  unfold AddNode. simpl.
  by destruct (foldl_add_point n h (seqZ 0 (virtualNodes h))) as (-> & _ & _).
Qed.

Lemma elem_of_AddNode_ring n h x :
  x ∈ ring (AddNode n h) ↔ x ∈ ring h ∨ x ∈ points n (virtualNodes h).
Proof. rewrite AddNode_ring. apply elem_of_app. Qed.
End add_node.

(** ** [RemoveNode]

    On a ring without duplicates the loop is a filter. *)
Lemma remove_loop_spec n r m r' m' :
  NoDup r → (∀ x, x ∈ r → is_Some (m !! x)) → remove_loop n r m = (r', m') →
  r' = filter (λ x, m !! x ≠ Some n) r ∧
  ∀ x, m' !! x = if decide (x ∈ r ∧ m !! x = Some n) then None else m !! x.
Proof.
  revert m r' m'. induction r as [|y r IH]; intros m r' m' Hnd Hm Heq; simpl in Heq.
  { simplify_eq. split; [done|]. intros x.
    rewrite decide_False by (intros [?%not_elem_of_nil _]; done). done. }
  apply NoDup_cons in Hnd as [Hy Hnd].
  destruct (Hm y ltac:(by left)) as [w Hw]. rewrite Hw in Heq. simpl in Heq.
  case_decide as Hwn.
  - destruct (remove_loop n r m) as [r0 m0] eqn:Hr. simplify_eq.
    destruct (IH m r0 m' Hnd) as [-> Hm']; [set_solver|done|]. split.
    + rewrite filter_cons_True by congruence. done.
    + intros x. rewrite Hm'. repeat case_decide; rewrite elem_of_cons in *; naive_solver.
  - assert (w = n) as -> by (destruct (decide (w = n)); naive_solver).
    destruct (IH (delete y m) r' m' Hnd) as [-> Hm']; [|done|].
    { intros x Hx. rewrite lookup_delete_ne by set_solver. set_solver. }
    split.
    + rewrite filter_cons_False by (by rewrite Hw; intros []).
      apply filter_ext_elem. intros x Hx. by rewrite lookup_delete_ne by set_solver.
    + intros x. rewrite Hm'. destruct (decide (x = y)) as [->|].
      * rewrite lookup_delete_eq.
        repeat case_decide; rewrite elem_of_cons in *; naive_solver.
      * rewrite lookup_delete_ne by done.
        repeat case_decide; rewrite elem_of_cons in *; naive_solver.
Qed.

Lemma RemoveNode_spec n h h' :
  NoDup (ring h) → ring_wf h → RemoveNode n h = Done h' →
  virtualNodes h' = virtualNodes h ∧
  ring h' = filter (λ x, nodes h !! x ≠ Some n) (ring h) ∧
  ∀ x, nodes h' !! x = if decide (nodes h !! x = Some n) then None else nodes h !! x.
Proof.
  intros Hnd [_ Hwf]. unfold RemoveNode. case_match; [done|].
  destruct (remove_loop n (ring h) (nodes h)) as [r' m'] eqn:Hr. intros [= <-]. simpl.
  apply remove_loop_spec in Hr as [-> Hm]; [|done|by intros x ?%Hwf].
  split_and!; [done..|]. intros x. rewrite Hm.
  repeat case_decide; try done; naive_solver.
Qed.

Lemma ring_wf_points h : ring_wf h → ∀ x, x ∈ ring h → is_Some (nodes h !! x).
Proof. intros [_ H] x. apply H. Qed.

(** ** [GetNode] finds the clockwise successor *)
Lemma list_find_first_idx (P : Z → Prop) `{∀ x, Decision (P x)} (l : list Z) i x :
  l !! i = Some x → P x → (∀ j y, (j < i)%nat → l !! j = Some y → ¬ P y) →
  list_find P l = Some (i, x).
Proof. intros. apply list_find_Some. split_and!; [done..|]. intros j y Hj ?. eauto. Qed.

(** [GetNode] answers with the node that owns the first point at or
    after the hash of the key, going round the ring: the binary search and
    the wrap-around compute the clockwise successor. *)
Lemma GetNode_owner key h :
  Sorted Z.le (ring h) → GetNode key h = owner (hash key) h.
Proof.
  intros Hs. unfold GetNode, owner.
  destruct (Nat.eqb_spec (length (ring h)) 0) as [Hz|Hz].
  { apply length_zero_iff_nil in Hz. by rewrite Hz. }
  set (f := λ i : nat, hash key <=? ring h !!! i).
  (* beyond the end the default 0 would break monotonicity: extend with true *)
  set (g := λ i : nat, if (i <? length (ring h))%nat then f i else true).
  assert (sort_Search (length (ring h)) f = sort_Search (length (ring h)) g) as Hfg.
  { unfold sort_Search. generalize (length (ring h)) at 1 3 as fuel. intros fuel.
    assert (length (ring h) ≤ length (ring h))%nat as Hle by lia. revert Hle.
    generalize (length (ring h)) at 1 3 4 as j. generalize 0%nat as i.
    induction fuel as [|fuel IH]; intros i j Hj; simpl; [done|].
    destruct (Nat.ltb_spec i j); [|done].
    assert (Nat.div2 (i + j) < j)%nat as Hlt
      by (rewrite Nat.div2_div; apply Nat.Div0.div_lt_upper_bound; lia).
    assert (g (Nat.div2 (i + j)) = f (Nat.div2 (i + j))) as ->
      by (unfold g; destruct (Nat.ltb_spec (Nat.div2 (i + j)) (length (ring h))); [done|lia]).
    case_match; apply IH; lia. }
  rewrite Hfg. destruct (sort_Search_spec g) with (n := length (ring h))
    as (Hr & Hlow & Hat).
  { intros i j Hij. unfold g.
    destruct (Nat.ltb_spec i (length (ring h))) as [Hi|]; 
      destruct (Nat.ltb_spec j (length (ring h))) as [Hj|]; try done; [|lia].
    unfold f. rewrite !Z.leb_le. intros Hki.
    destruct (lookup_lt_is_Some_2 (ring h) i Hi) as [x Hx].
    destruct (lookup_lt_is_Some_2 (ring h) j Hj) as [y Hy].
    rewrite (list_lookup_total_correct _ _ _ Hx) in Hki.
    rewrite (list_lookup_total_correct _ _ _ Hy).
    pose proof (Sorted_lookup_le _ _ _ _ _ Hs Hx Hy Hij). lia. }
  set (r := sort_Search (length (ring h)) g) in *.
  assert (∀ k y, (k < r)%nat → ring h !! k = Some y → ¬ hash key <= y) as Hbelow.
  { intros k y Hk Hy. specialize (Hlow k Hk). unfold g in Hlow.
    destruct (Nat.ltb_spec k (length (ring h))); [|done]. unfold f in Hlow.
    rewrite (list_lookup_total_correct _ _ _ Hy) in Hlow. by apply Z.leb_gt in Hlow; lia. }
  unfold successor. destruct (Nat.leb_spec (length (ring h)) r) as [Hge|Hlt].
  - assert (list_find (λ y, hash key <= y) (ring h) = None) as ->.
    { apply list_find_None, Forall_forall. intros y [k Hk]%list_elem_of_lookup.
      apply (Hbelow k); [|done]. apply lookup_lt_Some in Hk. lia. }
    destruct (ring h) as [|a l]; [done|]. done.
  - destruct (lookup_lt_is_Some_2 (ring h) r Hlt) as [y Hy].
    specialize (Hat Hlt). unfold g, f in Hat. apply Nat.ltb_lt in Hlt. rewrite Hlt in Hat.
    rewrite (list_lookup_total_correct _ _ _ Hy) in *. apply Z.leb_le in Hat.
    by erewrite list_find_first_idx by eauto.
Qed.

Lemma owner_spec x h :
  ring_wf h → ring h ≠ [] →
  ∃ y, successor x (ring h) = Some y ∧ y ∈ ring h ∧ nodes h !! y = Some (owner x h).
Proof.
  intros [Hs Hwf] Hne. destruct (successor_is_Some x (ring h) Hne) as [y Hy].
  exists y. pose proof Hy as [Hin _]%successor_spec; [|done]. split_and!; [done..|].
  apply Hwf in Hin as [n Hn]. unfold owner. by rewrite Hy; simpl; rewrite Hn.
Qed.

(** The successor in a larger ring is a new point or the old successor. *)
Lemma successor_grow x r r' y :
  Sorted Z.le r → Sorted Z.le r' → (∀ z, z ∈ r → z ∈ r') →
  successor x r' = Some y → y ∈ r → successor x r = Some y.
Proof.
  intros Hs Hs' Hsub [Hy' Hmin]%successor_spec Hy; [|done].
  apply successor_spec; [done|]. split; [done|].
  destruct Hmin as [[? Hm]|[Hl Hm]]; [left|right]; split; eauto.
Qed.

Lemma AddNode_wf n h : ring_wf h → ring_wf (AddNode n h).
Proof.
  intros [Hs Hwf]. split; [apply AddNode_sorted|]. intros x.
  rewrite elem_of_AddNode_ring, AddNode_nodes, Hwf. case_decide; naive_solver eauto.
Qed.

(** Everything stored under one node: the loop empties the map and keeps
    every repeated point. *)
Lemma remove_loop_dup n r m r' m' :
  n ≠ ""%string → (∀ x w, m !! x = Some w → w = n) →
  remove_loop n r m = (r', m') →
  (∀ x, m' !! x = if decide (x ∈ r) then None else m !! x) ∧
  (length r' + size m = length r + size m')%nat.
Proof.
  intros Hn. revert m r' m'. induction r as [|y r IH]; intros m r' m' Hm Heq; simpl in Heq.
  { simplify_eq. split; [|done]. intros x. case_decide as Hx; [|done].
    by apply not_elem_of_nil in Hx. }
  destruct (m !! y) as [w|] eqn:Hy; simpl in Heq.
  - pose proof (Hm y w Hy) as ->. case_decide as Hd; [destruct Hd; done|].
    destruct (IH (delete y m) r' m') as [Hm' Hlen]; [|done|].
    { intros x w [_ ?]%lookup_delete_Some. eauto. }
    split.
    + intros x. rewrite Hm'. destruct (decide (x = y)) as [->|].
      * rewrite lookup_delete_eq. repeat case_decide; rewrite ?elem_of_cons in *; naive_solver.
      * rewrite lookup_delete_ne by done.
        repeat case_decide; rewrite ?elem_of_cons in *; naive_solver.
    + rewrite map_size_delete, Hy in Hlen. simpl.
      assert (size m ≠ 0)%nat by (apply map_size_ne_0_lookup; eauto). lia.
  - case_decide as Hd; [|destruct (decide (""%string = n)); naive_solver].
    destruct (remove_loop n r m) as [r0 m0] eqn:Hr. simplify_eq.
    destruct (IH m r0 m' Hm Hr) as [Hm' Hlen]. split; [|simpl; lia].
    intros x. rewrite Hm'. repeat case_decide; rewrite ?elem_of_cons in *; naive_solver.
Qed.

(** ** Properties *)

(** C40. Lookup in the hash ring.  On a non-empty ring whose points are
    sorted and all stored (what [NewHashRing] and [AddNode] build), the
    binary search of [GetNode] with its wrap-around returns the node stored
    at the first point clockwise from the hash of the key: the least point
    at or above it, or the least point of all when the hash is above every
    point. *)
Theorem GetNode_clockwise key h :
  ring_wf h → ring h ≠ [] →
  ∃ y, y ∈ ring h ∧ nodes h !! y = Some (GetNode key h) ∧
    ((hash key <= y ∧ ∀ z, z ∈ ring h → hash key <= z → y <= z) ∨
     ((∀ z, z ∈ ring h → z < hash key) ∧ ∀ z, z ∈ ring h → y <= z)).
Proof.
  intros Hwf Hne. destruct (owner_spec (hash key) h Hwf Hne) as (y & Hs & Hy & Hn).
  destruct Hwf as [Hsort _]. exists y. rewrite GetNode_owner by done.
  split_and!; [done..|]. by apply successor_spec in Hs as [_ ?].
Qed.

Definition example_ring : HashRing := AddNode "rs-2" (AddNode "rs-1" (NewHashRing 3)).

Lemma NewHashRing_wf vn : ring_wf (NewHashRing vn).
Proof.
  split; [constructor|]. intros x. simpl. rewrite lookup_empty.
  split; [by intros ?%not_elem_of_nil|by intros []].
Qed.

Lemma example_ring_wf : ring_wf example_ring.
Proof. apply AddNode_wf, AddNode_wf, NewHashRing_wf. Qed.

Lemma GetNode_clockwise_witness :
  ∃ y, y ∈ ring example_ring ∧
    nodes example_ring !! y = Some (GetNode "room-7" example_ring) ∧
    ((hash "room-7" <= y ∧ ∀ z, z ∈ ring example_ring → hash "room-7" <= z → y <= z) ∨
     ((∀ z, z ∈ ring example_ring → z < hash "room-7") ∧
       ∀ z, z ∈ ring example_ring → y <= z)).
Proof.
  apply (GetNode_clockwise "room-7" example_ring example_ring_wf). vm_compute. discriminate.
Defined.

(** Consistent hashing, growth: adding a node moves keys only to the
    added node; every other key keeps its node, also when hash values
    collide. *)
Theorem AddNode_minimal_disruption key n h :
  ring_wf h →
  GetNode key (AddNode n h) = n ∨ GetNode key (AddNode n h) = GetNode key h.
Proof.
  intros Hwf. pose proof (AddNode_wf n h Hwf) as Hwf'. destruct Hwf as [Hs Hwf].
  rewrite !GetNode_owner by (done || apply AddNode_sorted).
  destruct (decide (ring (AddNode n h) = [])) as [Hz|Hne].
  - right. unfold owner. rewrite Hz.
    assert (ring h = []) as ->; [|done].
    apply elem_of_nil_inv. intros x Hx.
    eapply not_elem_of_nil. rewrite <-Hz. apply elem_of_AddNode_ring. by left.
  - destruct (owner_spec (hash key) (AddNode n h) Hwf' Hne) as (y & Hy & Hin & Hn).
    rewrite AddNode_nodes in Hn. case_decide as Hp; [left; congruence|right].
    apply elem_of_AddNode_ring in Hin as [Hin|]; [|done].
    assert (successor (hash key) (ring h) = Some y) as Hy'.
    { apply (successor_grow _ _ (ring (AddNode n h))); [done|apply AddNode_sorted| |done..].
      intros z Hz. apply elem_of_AddNode_ring. by left. }
    unfold owner at 2. rewrite Hy'. simpl. by rewrite Hn.
Qed.

Lemma AddNode_minimal_disruption_witness :
  GetNode "room-7" (AddNode "rs-3" example_ring) = "rs-3"%string ∨
  GetNode "room-7" (AddNode "rs-3" example_ring) = GetNode "room-7" example_ring.
Proof. apply (AddNode_minimal_disruption "room-7" "rs-3" example_ring example_ring_wf). Defined.

(** Consistent hashing, shrinking: removing a node from a ring without
    colliding points leaves every key of the other nodes where it was, and
    no key stays on the removed node. *)
Theorem RemoveNode_minimal_disruption key n h h' :
  NoDup (ring h) → ring_wf h → RemoveNode n h = Done h' →
  (GetNode key h ≠ n → GetNode key h' = GetNode key h) ∧
  (n ≠ ""%string → GetNode key h' ≠ n).
Proof.
  intros Hnd Hwf (_ & Hr & Hn)%RemoveNode_spec; [|done..].
  assert (ring_wf h') as Hwf'.
  { destruct Hwf as [Hs Hwf]. split.
    - rewrite Hr. apply Sorted_filter; [apply _|done].
    - intros x. rewrite Hr, list_elem_of_filter, Hn, Hwf. case_decide; [|naive_solver].
      split; [naive_solver|intros [? ?]; done]. }
  rewrite !GetNode_owner by (apply Hwf || apply Hwf'). split.
  - intros Hne. destruct (decide (ring h = [])) as [Hz|Hz].
    { unfold owner. by rewrite Hr, Hz. }
    destruct (owner_spec (hash key) h Hwf Hz) as (y & Hy & Hin & Hny).
    assert (y ∈ ring h') as Hin'.
    { rewrite Hr. apply list_elem_of_filter. split; [congruence|done]. }
    assert (successor (hash key) (ring h') = Some y) as Hy'.
    { apply (successor_grow _ _ (ring h)); [apply Hwf'|apply Hwf| |done..].
      intros z. rewrite Hr, list_elem_of_filter. naive_solver. }
    unfold owner at 1. rewrite Hy'. simpl. rewrite Hn, Hny.
    rewrite decide_False by congruence. done.
  - intros Hemp. destruct (decide (ring h' = [])) as [Hz|Hz].
    { unfold owner. rewrite Hz. done. }
    destruct (owner_spec (hash key) h' Hwf' Hz) as (y & _ & _ & Hny).
    rewrite Hn in Hny. case_decide; congruence.
Qed.

Lemma RemoveNode_minimal_disruption_witness :
  ∃ h', RemoveNode "rs-2" example_ring = Done h' ∧
  (GetNode "room-7" example_ring ≠ "rs-2"%string →
     GetNode "room-7" h' = GetNode "room-7" example_ring) ∧
  ("rs-2" ≠ "" → GetNode "room-7" h' ≠ "rs-2")%string.
Proof.
  eexists. split; [vm_compute; reflexivity|].
  apply (RemoveNode_minimal_disruption "room-7" "rs-2" example_ring).
  - by_computation.
  - exact example_ring_wf.
  - vm_compute. reflexivity.
Defined.

(** Removing a node that was just added restores the ring exactly,
    when the node is new and its points neither collide with each other nor
    with the ring. *)
Theorem RemoveNode_AddNode n h :
  ring_wf h → NoDup (ring h) → 0 <= virtualNodes h →
  NoDup (points n (virtualNodes h)) →
  (∀ x, x ∈ points n (virtualNodes h) → x ∉ ring h) →
  (∀ x, nodes h !! x ≠ Some n) →
  RemoveNode n (AddNode n h) = Done h.
Proof.
  intros Hwf Hnd Hvn Hpnd Hdisj Hfresh.
  assert (NoDup (ring (AddNode n h))) as Hnd'.
  { rewrite AddNode_ring. apply NoDup_app. split_and!; [done| |done].
    intros x Hx Hp. by apply (Hdisj x). }
  pose proof (AddNode_wf n h Hwf) as Hwf'.
  assert (∃ h', RemoveNode n (AddNode n h) = Done h') as [h' Hh'].
  { unfold RemoveNode. case_match eqn:Hlt; [|by case_match; eauto].
    apply Z.ltb_lt in Hlt. rewrite AddNode_ring, length_app, AddNode_virtualNodes in Hlt.
    unfold points in Hlt. rewrite length_fmap, length_seqZ in Hlt. lia. }
  rewrite Hh'. f_equal.
  apply RemoveNode_spec in Hh' as (Hv & Hr & Hn); [|done..].
  rewrite AddNode_virtualNodes in Hv. destruct h as [v r m], h' as [v' r' m'].
  cbn [virtualNodes ring nodes] in *.
  assert (m' = m) as ->.
  { apply map_eq. intros x. rewrite Hn, !AddNode_nodes. cbn [virtualNodes nodes].
    repeat case_decide; simplify_eq; try done.
    - destruct (m !! x) eqn:Hx; [|done].
      destruct (Hdisj x); [done|]. destruct Hwf as [_ Hwf]. apply Hwf. simpl. eauto.
    - by destruct (Hfresh x). }
  f_equal; [done|].
  assert (r' ≡ₚ r) as Hp.
  { rewrite Hr, AddNode_ring. cbn [virtualNodes ring]. rewrite filter_app.
    rewrite (filter_all _ r), (filter_none _ (points n v)), app_nil_r; [done| |].
    - intros x Hx. rewrite AddNode_nodes. cbn [virtualNodes nodes]. rewrite decide_True by done. auto.
    - intros x Hx. rewrite AddNode_nodes. cbn [virtualNodes nodes].
      rewrite decide_False by (intros ?; by apply (Hdisj x)). apply Hfresh. }
  apply (Sorted_unique Z.le); [|apply Hwf|done].
  rewrite Hr. apply Sorted_filter; [apply _|apply AddNode_sorted].
Qed.

Lemma RemoveNode_AddNode_witness :
  RemoveNode "rs-3" (AddNode "rs-3" example_ring) = Done example_ring.
Proof.
  apply (RemoveNode_AddNode "rs-3" example_ring example_ring_wf);
    [by_computation|vm_compute; discriminate|by_computation| |].
  - refine (proj1 (Forall_forall (λ x, x ∉ ring example_ring) _) _). by_computation.
  - intros x Hx. assert (x ∈ (map_to_list (nodes example_ring)).*1) as Hin.
    { apply list_elem_of_fmap. exists (x, "rs-3"%string).
      split; [done|]. by apply elem_of_map_to_list. }
    revert x Hin Hx.
    refine (proj1 (Forall_forall (λ x, nodes example_ring !! x ≠ Some "rs-3"%string) _) _).
    by_computation.
Defined.

(** A node added twice cannot be removed: the second [AddNode] doubles
    the points, [RemoveNode] deletes the map entry at the first copy and
    then keeps the second one, so the ring stays populated with points of
    no node and every key is answered with the empty node id. *)
Theorem AddNode_twice_not_removed n vn :
  n ≠ ""%string → 0 < vn →
  ∃ h, RemoveNode n (AddNode n (AddNode n (NewHashRing vn))) = Done h ∧
    vn <= Z.of_nat (length (ring h)) ∧ ∀ key, GetNode key h = ""%string.
Proof.
  intros Hn Hvn. set (h2 := AddNode n (AddNode n (NewHashRing vn))).
  assert (length (ring h2) = 2 * Z.to_nat vn)%nat as Hlen.
  { unfold h2. rewrite !AddNode_ring, AddNode_virtualNodes. simpl.
    unfold points. rewrite length_app, !length_fmap, !length_seqZ. lia. }
  assert (∀ x, nodes h2 !! x = if decide (x ∈ points n vn) then Some n else None) as Hnodes.
  { intros x. unfold h2. rewrite !AddNode_nodes, AddNode_virtualNodes. simpl.
    by case_decide. }
  assert (size (nodes h2) ≤ Z.to_nat vn)%nat as Hsize.
  { rewrite <-size_dom. transitivity (size (list_to_set (points n vn) : gset Z)).
    - apply subseteq_size. intros x. rewrite elem_of_dom, Hnodes, elem_of_list_to_set.
      case_decide; [done|intros []; done].
    - rewrite size_list_to_set_le. unfold points. by rewrite length_fmap, length_seqZ. }
  unfold RemoveNode. rewrite Hlen. unfold h2 at 1. rewrite !AddNode_virtualNodes. simpl virtualNodes.
  destruct (Z.ltb_spec (Z.of_nat (2 * Z.to_nat vn) - vn) 0); [lia|].
  destruct (remove_loop n (ring h2) (nodes h2)) as [r' m'] eqn:Hloop.
  apply remove_loop_dup in Hloop as [Hm' Hl]; [|done|].
  2: { intros x w. rewrite Hnodes. intros Hw. by case_decide; simplify_eq. }
  assert (m' = ∅) as ->.
  { apply map_eq. intros x. rewrite Hm', Hnodes, lookup_empty.
    assert (x ∈ points n vn → x ∈ ring h2) as Hsub.
    { intros Hx. unfold h2. apply elem_of_AddNode_ring. right.
      by rewrite AddNode_virtualNodes. }
    repeat case_decide; naive_solver. }
  rewrite map_size_empty, Hlen in Hl.
  eexists. split; [done|]. split; [simpl; lia|].
  intros key. unfold GetNode. simpl. by case_match; rewrite ?lookup_empty.
Qed.

Lemma AddNode_twice_not_removed_witness :
  ∃ h, RemoveNode "rs-1" (AddNode "rs-1" (AddNode "rs-1" (NewHashRing 150))) = Done h ∧
    150 <= Z.of_nat (length (ring h)) ∧ ∀ key, GetNode key h = ""%string.
Proof. apply (AddNode_twice_not_removed "rs-1" 150); [discriminate|lia]. Defined.

(** Removing a node from a ring with fewer points than one node has
    (in particular from an empty ring) panics: the capacity handed to
    [make] is negative. *)
Theorem RemoveNode_short_ring_panics n h :
  RemoveNode n h = Panic "makeslice: cap out of range" ↔
  Z.of_nat (length (ring h)) < virtualNodes h.
Proof.
  unfold RemoveNode. destruct (Z.ltb_spec (Z.of_nat (length (ring h)) - virtualNodes h) 0).
  - split; [lia|done].
  - case_match. split; [done|lia].
Qed.
