(* ===== verification/SessionStore.v ===== *)
(** The interface of the roomserver's session store: what the server relies
    on ([SessionService.v] implements it with 256 locked shards).

    The abstract state is one finite map from user ids to sessions. *)

From Stdlib Require Import ZArith Lia.
From stdpp Require Import base tactics gmap strings numbers list.
From S2P Require Import Prelude Protocol.

Local Open Scope Z_scope.

Record Session := mkSession {
  s_UserID : string;
  s_RoomID : string;
  s_GatewayID : string;
  s_Status : MemberStatus;
  s_ConnectedAt : gotime;
  s_DisconnectedAt : gotime;
}.

#[export] Instance Session_eq_dec : EqDecision Session.
Proof. solve_decision. Defined.

(** The operations; [now] is the clock reading of the call. *)
Class SessionStore (SS : Type) := {
  GetSession : string → SS → option Session;
  CreateSession (userID roomID gatewayID : string) (now : Z) : SS → SS;
  UpdateSession (userID roomID gatewayID : string) (now : Z) : SS → SS;
  SetDisconnected (userID : string) (now : Z) : SS → SS;
  DeleteSession (userID : string) : SS → SS;
  GetAllUserIDs : MapOrder → SS → list string;
}.

(** What each operation means on the abstract map. *)
Definition new_session (userID roomID gatewayID : string) (now : Z) : Session :=
  mkSession userID roomID gatewayID MemberStatusOnline (Some now) None.

Definition updated_session (userID roomID gatewayID : string) (now : Z)
    (old : option Session) : Session :=
  match old with
  | Some s => mkSession (s_UserID s) roomID gatewayID MemberStatusOnline
                (s_ConnectedAt s) None
  | None => new_session userID roomID gatewayID now
  end.

Definition disconnected_session (now : Z) (s : Session) : Session :=
  mkSession (s_UserID s) (s_RoomID s) (s_GatewayID s) MemberStatusDisconnected
    (s_ConnectedAt s) (Some now).

Class SessionStoreLaws (SS : Type) `{SessionStore SS} := {
  (** the abstraction function and the representation invariant *)
  sessions : SS → gmap string Session;
  store_ok : SS → Prop;
  GetSession_ok u ss : store_ok ss → GetSession u ss = sessions ss !! u;
  CreateSession_ok u r g now ss : store_ok ss →
    store_ok (CreateSession u r g now ss) ∧
    sessions (CreateSession u r g now ss) = <[u := new_session u r g now]> (sessions ss);
  UpdateSession_ok u r g now ss : store_ok ss →
    store_ok (UpdateSession u r g now ss) ∧
    sessions (UpdateSession u r g now ss) =
      <[u := updated_session u r g now (sessions ss !! u)]> (sessions ss);
  SetDisconnected_ok u now ss : store_ok ss →
    store_ok (SetDisconnected u now ss) ∧
    sessions (SetDisconnected u now ss) = alter (disconnected_session now) u (sessions ss);
  DeleteSession_ok u ss : store_ok ss →
    store_ok (DeleteSession u ss) ∧ sessions (DeleteSession u ss) = delete u (sessions ss);
  GetAllUserIDs_ok O ss : store_ok ss →
    NoDup (GetAllUserIDs O ss) ∧ ∀ u, u ∈ GetAllUserIDs O ss ↔ is_Some (sessions ss !! u);
}.

(** ** Queries built on [GetSession] (session_service.go) *)
Section queries.
Context {SS : Type} `{SessionStore SS}.
Implicit Types (ss : SS) (userID : string).

Definition GetUserRoom userID ss : string :=
  match GetSession userID ss with
  | None => ""
  | Some session => s_RoomID session
  end.

Definition GetUserGateway userID ss : string :=
  match GetSession userID ss with
  | None => ""
  | Some session => s_GatewayID session
  end.

Definition CheckAndLeaveOldRoom userID ss : string :=
  match GetSession userID ss with
  | None => ""
  | Some session => s_RoomID session
  end.

Definition IsUserOnline userID ss : bool :=
  match GetSession userID ss with
  | None => false
  | Some session => bool_decide (s_Status session = MemberStatusOnline)
  end.

Definition IsUserDisconnected userID ss : bool :=
  match GetSession userID ss with
  | None => false
  | Some session => bool_decide (s_Status session = MemberStatusDisconnected)
  end.

Definition GetDisconnectedDuration userID (now : Z) ss : Z :=
  match GetSession userID ss with
  | None => 0
  | Some session =>
    if decide (s_Status session ≠ MemberStatusDisconnected) then 0
    else time_since now (s_DisconnectedAt session)
  end.
End queries.
