(* ===== verification/SessionService.v ===== *)
(** [internal/roomserver/session_service.go]: the session store, 256 shards
    selected by an FNV-1a hash of the user id. *)

From Stdlib Require Import ZArith Lia.
From stdpp Require Import base tactics gmap strings numbers list.
From S2P Require Import Prelude GoInt Protocol SessionStore.

Local Open Scope Z_scope.

Definition SessionShardCount : Z := 256.

(** A shard; its lock serialises the operations and carries no state. *)
Abbreviation sessionShard := (gmap string Session).

Record SessionService := mkSessionService { shards : list sessionShard }.

Definition NewSessionService : SessionService :=
  mkSessionService (replicate (Z.to_nat SessionShardCount) ∅).

(** FNV-1a over the bytes of the string, in uint32 arithmetic. *)
Definition fnvHash (s : string) : Z :=
  foldl (λ h b, u32 (Z.lxor h (byte_to_Z b) * 16777619)) 2166136261
    (String.list_byte_of_string s).

Definition shard_index (userID : string) : nat :=
  Z.to_nat (fnvHash userID mod SessionShardCount).

Definition getShard (userID : string) (ss : SessionService) : sessionShard :=
  shards ss !!! shard_index userID.

Definition setShard (userID : string) (m : sessionShard) (ss : SessionService) :
    SessionService :=
  mkSessionService (<[shard_index userID := m]> (shards ss)).

Definition svc_GetSession (userID : string) (ss : SessionService) : option Session :=
  getShard userID ss !! userID.

Definition svc_CreateSession (userID roomID gatewayID : string) (now : Z)
    (ss : SessionService) : SessionService :=
  setShard userID
    (<[userID := mkSession userID roomID gatewayID MemberStatusOnline (Some now) None]>
       (getShard userID ss)) ss.

Definition svc_UpdateSession (userID roomID gatewayID : string) (now : Z)
    (ss : SessionService) : SessionService :=
  let shard := getShard userID ss in
  match shard !! userID with
  | Some session =>
    setShard userID
      (<[userID := mkSession (s_UserID session) roomID gatewayID MemberStatusOnline
                     (s_ConnectedAt session) None]> shard) ss
  | None =>
    setShard userID
      (<[userID := mkSession userID roomID gatewayID MemberStatusOnline (Some now) None]>
         shard) ss
  end.

Definition svc_SetDisconnected (userID : string) (now : Z) (ss : SessionService) :
    SessionService :=
  let shard := getShard userID ss in
  match shard !! userID with
  | Some session =>
    setShard userID
      (<[userID := mkSession (s_UserID session) (s_RoomID session) (s_GatewayID session)
                     MemberStatusDisconnected (s_ConnectedAt session) (Some now)]> shard) ss
  | None => ss
  end.

Definition svc_DeleteSession (userID : string) (ss : SessionService) : SessionService :=
  setShard userID (delete userID (getShard userID ss)) ss.

Definition GetSessionCount (ss : SessionService) : Z :=
  foldl (λ total m, total + Z.of_nat (size m)) 0 (shards ss).

Definition svc_GetAllUserIDs (O : MapOrder) (ss : SessionService) : list string :=
  foldl (λ result m, result ++ range_keys m) [] (shards ss).

#[export] Instance SessionService_store : SessionStore SessionService := {
  GetSession := svc_GetSession;
  CreateSession := svc_CreateSession;
  UpdateSession := svc_UpdateSession;
  SetDisconnected := svc_SetDisconnected;
  DeleteSession := svc_DeleteSession;
  GetAllUserIDs := svc_GetAllUserIDs;
}.

(** ** Representation: every key lies in the shard its hash selects *)
Definition svc_wf (ss : SessionService) : Prop :=
  length (shards ss) = Z.to_nat SessionShardCount ∧
  ∀ i m u, shards ss !! i = Some m → is_Some (m !! u) → i = shard_index u.

Definition svc_sessions (ss : SessionService) : gmap string Session := ⋃ shards ss.

Lemma shard_index_bound u : (shard_index u < Z.to_nat SessionShardCount)%nat.
Proof.
  unfold shard_index. pose proof (Z.mod_pos_bound (fnvHash u) SessionShardCount eq_refl).
  unfold SessionShardCount in *. lia.
Qed.

Lemma fnvHash_range u : 0 <= fnvHash u < 2 ^ 32.
Proof.
  unfold fnvHash. assert (0 <= 2166136261 < 2 ^ 32) as Hi by lia. revert Hi.
  generalize 2166136261 as h. induction (String.list_byte_of_string u) as [|b bs IH];
    intros h Hh; simpl; [done|]. apply IH, u32_range.
Qed.

(** Lookup in a union of maps whose keys are partitioned by index. *)
Lemma lookup_union_list_partition {V} (idx : string → nat) (l : list (gmap string V)) off u :
  (∀ i m k, l !! i = Some m → is_Some (m !! k) → (off + i)%nat = idx k) →
  (⋃ l) !! u = if decide (off ≤ idx u)%nat then (l !!! (idx u - off)%nat) !! u else None.
Proof.
  revert off. induction l as [|m l IH]; intros off Hl.
  { by case_decide. }
  simpl. rewrite lookup_union. specialize (IH (S off)).
  rewrite IH; [|intros i m' k Hi Hk; rewrite <-(Hl (S i) m' k Hi Hk); lia].
  destruct (decide (idx u = off)) as [Heq|Hne].
  - rewrite decide_False by lia. rewrite decide_True by lia.
    rewrite Heq, Nat.sub_diag. simpl. by destruct (m !! u).
  - assert (m !! u = None) as Hm.
    { apply eq_None_not_Some. intros Hs. specialize (Hl 0%nat m u eq_refl Hs). lia. }
    rewrite Hm. repeat case_decide; try lia; [|done].
    replace (idx u - off)%nat with (S (idx u - S off)) by lia. simpl.
    by rewrite (left_id None _).
Qed.

Lemma svc_lookup ss u : svc_wf ss → svc_sessions ss !! u = getShard u ss !! u.
Proof.
  intros [_ Hwf]. unfold svc_sessions, getShard.
  rewrite (lookup_union_list_partition shard_index _ 0); [|done].
  rewrite decide_True by lia. by rewrite Nat.sub_0_r.
Qed.

Lemma getShard_lookup ss u :
  svc_wf ss → shards ss !! shard_index u = Some (getShard u ss).
Proof.
  intros [Hlen _]. apply list_lookup_lookup_total_lt. rewrite Hlen. apply shard_index_bound.
Qed.

Lemma getShard_setShard ss u v m :
  svc_wf ss →
  getShard v (setShard u m ss) = if decide (shard_index u = shard_index v) then m else getShard v ss.
Proof.
  intros [Hlen _]. unfold getShard, setShard. simpl. case_decide as Hd.
  - rewrite Hd. apply list_lookup_total_insert_eq. rewrite Hlen. apply shard_index_bound.
  - by apply list_lookup_total_insert_ne.
Qed.

(** Replacing the shard of [u] by a map that differs from it at [u] only. *)
Lemma setShard_ok ss u m :
  svc_wf ss → (∀ v, v ≠ u → m !! v = getShard u ss !! v) →
  svc_wf (setShard u m ss) ∧
  svc_sessions (setShard u m ss) =
    match m !! u with
    | Some s => <[u := s]> (svc_sessions ss)
    | None => delete u (svc_sessions ss)
    end.
Proof.
  intros Hwf Hm. pose proof (getShard_lookup ss u Hwf) as Hu.
  assert (svc_wf (setShard u m ss)) as Hwf'.
  { destruct Hwf as [Hlen Hk]. split; [simpl; by rewrite length_insert|].
    intros i m' v Hi Hv. simpl in Hi. apply list_lookup_insert_Some in Hi
      as [(<- & <- & _)|[Hne Hi]]; [|by apply (Hk i m')].
    destruct (decide (v = u)) as [->|Hne]; [done|].
    rewrite Hm in Hv by done. by apply (Hk _ (getShard u ss)). }
  split; [done|]. apply map_eq. intros v.
  rewrite svc_lookup, getShard_setShard by done.
  destruct (decide (v = u)) as [->|Hne].
  - rewrite decide_True by done. destruct (m !! u);
      by rewrite ?lookup_insert_eq, ?lookup_delete_eq.
  - assert (svc_sessions ss !! v = if decide (shard_index u = shard_index v)
      then m !! v else getShard v ss !! v) as Hv.
    { rewrite svc_lookup by done. case_decide as Hd; [|done].
      rewrite Hm by done. unfold getShard. by rewrite Hd. }
    destruct (m !! u); rewrite ?lookup_insert_ne, ?lookup_delete_ne by done;
      rewrite Hv; by case_decide.
Qed.

(** The shards enumerate the abstract map. *)
Lemma foldl_app_concat {A B} (f : A → list B) (l : list A) acc :
  foldl (λ r m, r ++ f m) acc l = acc ++ concat (f <$> l).
Proof.
  revert acc. induction l as [|m l IH]; intros acc; simpl; [by rewrite app_nil_r|].
  by rewrite IH, <-app_assoc.
Qed.

Lemma svc_elem_of_shards ss u :
  svc_wf ss → (∃ m, m ∈ shards ss ∧ is_Some (m !! u)) ↔ is_Some (svc_sessions ss !! u).
Proof.
  intros Hwf. rewrite svc_lookup by done. split.
  - intros (m & [i Hi]%list_elem_of_lookup & Hm).
    destruct Hwf as [Hlen Hk]. rewrite (Hk i m u Hi Hm) in Hi.
    rewrite getShard_lookup in Hi by done. by simplify_eq.
  - intros Hs. exists (getShard u ss). split; [|done].
    apply list_elem_of_lookup. exists (shard_index u). by apply getShard_lookup.
Qed.

Lemma NoDup_concat_keys `{O : MapOrder} {V} (idx : string → nat) (l : list (gmap string V)) off :
  (∀ i m k, l !! i = Some m → is_Some (m !! k) → (off + i)%nat = idx k) →
  NoDup (concat (range_keys <$> l)).
Proof.
  revert off. induction l as [|m l IH]; intros off Hl; simpl; [constructor|].
  apply NoDup_app. split_and!; [apply NoDup_range_keys| |].
  - intros k Hk%elem_of_range_keys Hc.
    apply elem_of_concat in Hc as (ks & Hks & Hk').
    apply list_elem_of_fmap in Hks as (m' & -> & Hm').
    apply list_elem_of_lookup in Hm' as [i Hi]. apply elem_of_range_keys in Hk'.
    pose proof (Hl 0%nat m k eq_refl Hk). pose proof (Hl (S i) m' k Hi Hk'). lia.
  - apply (IH (S off)). intros i m' k Hi Hk. rewrite <-(Hl (S i) m' k Hi Hk). lia.
Qed.

(** The concrete store satisfies the interface. *)
#[export] Program Instance SessionService_laws : SessionStoreLaws SessionService := {|
  sessions := svc_sessions;
  store_ok := svc_wf;
|}.
Next Obligation. intros. symmetry. by apply svc_lookup. Qed.
Next Obligation.
  intros u r g now ss Hwf. simpl. unfold svc_CreateSession.
  destruct (setShard_ok ss u (<[u := new_session u r g now]> (getShard u ss)) Hwf) as [? Hs].
  { intros v ?. by rewrite lookup_insert_ne. }
  rewrite lookup_insert_eq in Hs. done.
Qed.
Next Obligation.
  intros u r g now ss Hwf. simpl. unfold svc_UpdateSession. rewrite svc_lookup by done.
  set (s' := updated_session u r g now (getShard u ss !! u)).
  destruct (setShard_ok ss u (<[u := s']> (getShard u ss)) Hwf) as [? Hs].
  { intros v ?. by rewrite lookup_insert_ne. }
  rewrite lookup_insert_eq in Hs. unfold s' in *. by destruct (getShard u ss !! u).
Qed.
Next Obligation.
  intros u now ss Hwf. simpl. unfold svc_SetDisconnected.
  destruct (getShard u ss !! u) as [s|] eqn:Hu.
  - destruct (setShard_ok ss u (<[u := disconnected_session now s]> (getShard u ss)) Hwf)
      as [? Hs].
    { intros v ?. by rewrite lookup_insert_ne. }
    rewrite lookup_insert_eq in Hs. split; [done|]. etransitivity; [exact Hs|].
    apply map_eq. intros v. destruct (decide (v = u)) as [->|].
    + by rewrite lookup_insert_eq, lookup_alter_eq, svc_lookup, Hu by done.
    + by rewrite lookup_insert_ne, lookup_alter_ne.
  - split; [done|]. symmetry. apply map_eq. intros v. destruct (decide (v = u)) as [->|].
    + by rewrite lookup_alter_eq, svc_lookup, Hu by done.
    + by rewrite lookup_alter_ne.
Qed.
Next Obligation.
  intros u ss Hwf. simpl. unfold svc_DeleteSession.
  destruct (setShard_ok ss u (delete u (getShard u ss)) Hwf) as [? Hs].
  { intros v ?. by rewrite lookup_delete_ne. }
  by rewrite lookup_delete_eq in Hs.
Qed.
Next Obligation.
  intros O ss Hwf. simpl. unfold svc_GetAllUserIDs. rewrite foldl_app_concat. simpl.
  split.
  - apply (NoDup_concat_keys shard_index _ 0). destruct Hwf as [_ Hk].
    intros i m k Hi Hm. simpl. by apply (Hk i m).
  - intros u. rewrite elem_of_concat. etransitivity; [|apply (svc_elem_of_shards ss u Hwf)].
    split.
    + intros (ks & (m & -> & Hm)%list_elem_of_fmap & Hk%elem_of_range_keys). eauto.
    + intros (m & Hm & Hk). exists (range_keys m). split; [|by apply elem_of_range_keys].
      apply list_elem_of_fmap. eauto.
Qed.

Lemma NewSessionService_wf : svc_wf NewSessionService.
Proof.
  split; [apply length_replicate|]. intros i m u Hi [s Hs].
  apply lookup_replicate in Hi as [-> _]. by rewrite lookup_empty in Hs.
Qed.

(** ** Properties *)

(** C24. The sharded session store refines one map: every user id is hashed
    into one of the 256 shards, each operation reads and changes the entry
    of its user only, in the way the abstract map operation does, and the
    shard invariant is kept. *)
Theorem SessionService_refines_map ss u r g now :
  svc_wf ss →
  let m := svc_sessions ss in
  svc_GetSession u ss = m !! u ∧
  (svc_wf (svc_CreateSession u r g now ss) ∧
   svc_sessions (svc_CreateSession u r g now ss) = <[u := new_session u r g now]> m) ∧
  (svc_wf (svc_UpdateSession u r g now ss) ∧
   svc_sessions (svc_UpdateSession u r g now ss) =
     <[u := updated_session u r g now (m !! u)]> m) ∧
  (svc_wf (svc_SetDisconnected u now ss) ∧
   svc_sessions (svc_SetDisconnected u now ss) = alter (disconnected_session now) u m) ∧
  (svc_wf (svc_DeleteSession u ss) ∧ svc_sessions (svc_DeleteSession u ss) = delete u m).
Proof.
  intros Hwf m. split_and!.
  - apply (@GetSession_ok _ _ SessionService_laws u ss Hwf).
  - apply (@CreateSession_ok _ _ SessionService_laws u r g now ss Hwf).
  - apply (@CreateSession_ok _ _ SessionService_laws u r g now ss Hwf).
  - apply (@UpdateSession_ok _ _ SessionService_laws u r g now ss Hwf).
  - apply (@UpdateSession_ok _ _ SessionService_laws u r g now ss Hwf).
  - apply (@SetDisconnected_ok _ _ SessionService_laws u now ss Hwf).
  - apply (@SetDisconnected_ok _ _ SessionService_laws u now ss Hwf).
  - apply (@DeleteSession_ok _ _ SessionService_laws u ss Hwf).
  - apply (@DeleteSession_ok _ _ SessionService_laws u ss Hwf).
Qed.

Lemma SessionService_refines_map_witness :
  let ss := NewSessionService in let m := svc_sessions ss in
  svc_GetSession "u1" ss = m !! "u1"%string ∧
  (svc_wf (svc_CreateSession "u1" "r1" "g1" 5 ss) ∧
   svc_sessions (svc_CreateSession "u1" "r1" "g1" 5 ss) =
     <["u1"%string := new_session "u1" "r1" "g1" 5]> m) ∧
  (svc_wf (svc_UpdateSession "u1" "r1" "g1" 5 ss) ∧
   svc_sessions (svc_UpdateSession "u1" "r1" "g1" 5 ss) =
     <["u1"%string := updated_session "u1" "r1" "g1" 5 (m !! "u1"%string)]> m) ∧
  (svc_wf (svc_SetDisconnected "u1" 5 ss) ∧
   svc_sessions (svc_SetDisconnected "u1" 5 ss) =
     alter (disconnected_session 5) "u1"%string m) ∧
  (svc_wf (svc_DeleteSession "u1" ss) ∧
   svc_sessions (svc_DeleteSession "u1" ss) = delete "u1"%string m).
Proof. apply (SessionService_refines_map NewSessionService "u1" "r1" "g1" 5 NewSessionService_wf). Defined.

(** The session count shown by monitoring is the number of sessions,
    and the id list handed to the timeout check names every user exactly
    once. *)
Theorem GetSessionCount_GetAllUserIDs `{O : MapOrder} ss :
  svc_wf ss →
  GetSessionCount ss = Z.of_nat (size (svc_sessions ss)) ∧
  svc_GetAllUserIDs O ss ≡ₚ elements (dom (svc_sessions ss)).
Proof.
  intros Hwf. destruct (@GetAllUserIDs_ok _ _ SessionService_laws O ss Hwf) as [Hnd Hin].
  assert (svc_GetAllUserIDs O ss ≡ₚ elements (dom (svc_sessions ss))) as Hp.
  { apply NoDup_Permutation; [done|apply NoDup_elements|].
    intros u. rewrite elem_of_elements, elem_of_dom. apply Hin. }
  split; [|done].
  assert (size (svc_sessions ss) = length (svc_GetAllUserIDs O ss)) as ->.
  { rewrite <-size_dom, Hp. done. }
  unfold svc_GetAllUserIDs, GetSessionCount. rewrite foldl_app_concat, app_nil_l.
  assert (∀ l acc, foldl (λ total m, total + Z.of_nat (size m)) acc l =
    acc + Z.of_nat (length (concat (range_keys <$> (l : list sessionShard))))) as ->; [|lia].
  intros l. induction l as [|m l IH]; intros acc; [simpl; lia|].
  rewrite fmap_cons. cbn [foldl concat]. rewrite IH, length_app, length_range_keys. lia.
Qed.

Lemma GetSessionCount_GetAllUserIDs_witness :
  GetSessionCount (svc_UpdateSession "u1" "r1" "g1" 5 NewSessionService) =
    Z.of_nat (size (svc_sessions (svc_UpdateSession "u1" "r1" "g1" 5 NewSessionService))) ∧
  svc_GetAllUserIDs default_order (svc_UpdateSession "u1" "r1" "g1" 5 NewSessionService) ≡ₚ
    elements (dom (svc_sessions (svc_UpdateSession "u1" "r1" "g1" 5 NewSessionService))).
Proof.
  apply (GetSessionCount_GetAllUserIDs (O := default_order)).
  apply (@UpdateSession_ok _ _ SessionService_laws "u1" "r1" "g1" 5 NewSessionService NewSessionService_wf).
Defined.
