(* ===== verification/RoomService.v ===== *)
(** [internal/roomserver/room.go] and [room_service.go]: rooms, their members
    and the per-gateway view used to fan notifications out.

    The prometheus gauges [RoomserverRooms] and [RoomserverUsers] are process
    globals that only these operations change; they are fields here. *)

From Stdlib Require Import ZArith Lia.
From stdpp Require Import base tactics gmap strings numbers list.
From S2P Require Import Prelude Protocol.

Local Open Scope Z_scope.

Record RoomMember := mkRoomMember {
  rm_UserID : string;
  rm_GatewayID : string;
  rm_Status : MemberStatus;
  rm_JoinTime : gotime;
  rm_DisconnectTime : gotime;
}.

#[export] Instance RoomMember_eq_dec : EqDecision RoomMember.
Proof. solve_decision. Defined.

Record GatewayRoomView := mkGatewayRoomView {
  gv_GatewayID : string;
  gv_UserIDs : gset string;
}.

Record Room := mkRoom {
  r_RoomID : string;
  r_Members : gmap string RoomMember;
  r_Gateways : gmap string GatewayRoomView;
}.

Record RoomService := mkRoomService {
  rooms : gmap string Room;
  metricRooms : Z;            (* gauge RoomserverRooms *)
  metricUsers : Z;            (* gauge RoomserverUsers *)
}.

Definition NewRoom (roomID : string) : Room := mkRoom roomID ∅ ∅.

Definition NewRoomService : RoomService := mkRoomService ∅ 0 0.

(** ** Room accessors (room.go) *)
Definition GetMember (userID : string) (r : Room) : option RoomMember := r_Members r !! userID.

Definition MemberCount (r : Room) : Z := Z.of_nat (size (r_Members r)).

Definition GetGatewayIDs `{MapOrder} (r : Room) : list string := range_keys (r_Gateways r).

Definition GetUserIDs `{MapOrder} (r : Room) : list string := range_keys (r_Members r).

(** ** The gateway views of a room *)

(** [if gws[g] == nil { gws[g] = &GatewayRoomView{...} }; gws[g].UserIDs[u] = true] *)
Definition view_add (g u : string) (gws : gmap string GatewayRoomView) :
    gmap string GatewayRoomView :=
  match gws !! g with
  | None => <[g := mkGatewayRoomView g {[u]}]> gws
  | Some view => <[g := mkGatewayRoomView (gv_GatewayID view) ({[u]} ∪ gv_UserIDs view)]> gws
  end.

(** [if view := gws[g]; view != nil { delete(view.UserIDs, u);
     if len(view.UserIDs) == 0 { delete(gws, g) } }] *)
Definition view_remove (g u : string) (gws : gmap string GatewayRoomView) :
    gmap string GatewayRoomView :=
  match gws !! g with
  | None => gws
  | Some view =>
    let users := gv_UserIDs view ∖ {[u]} in
    if decide (size users = 0%nat) then delete g gws
    else <[g := mkGatewayRoomView (gv_GatewayID view) users]> gws
  end.

(** ** RoomService operations *)
Definition GetRoom (roomID : string) (rs : RoomService) : option Room := rooms rs !! roomID.

Definition GetOrCreateRoom (roomID : string) (rs : RoomService) : Room * RoomService :=
  match rooms rs !! roomID with
  | Some room => (room, rs)
  | None =>
    let room := NewRoom roomID in
    (room, mkRoomService (<[roomID := room]> (rooms rs)) (metricRooms rs + 1) (metricUsers rs))
  end.

Definition CloseRoom (roomID : string) (rs : RoomService) : option Room * bool * RoomService :=
  match rooms rs !! roomID with
  | Some room =>
    (Some room, true,
     mkRoomService (delete roomID (rooms rs)) (metricRooms rs - 1) (metricUsers rs))
  | None => (None, false, rs)
  end.

(** [AddUser] always returns a nil error. *)
Definition AddUser (roomID userID gatewayID : string) (now : Z) (rs : RoomService) :
    option string * RoomService :=
  let '(room, rs) := GetOrCreateRoom roomID rs in
  let member := mkRoomMember userID gatewayID MemberStatusOnline (Some now) None in
  let room := mkRoom (r_RoomID room) (<[userID := member]> (r_Members room))
                (view_add gatewayID userID (r_Gateways room)) in
  (None, mkRoomService (<[roomID := room]> (rooms rs)) (metricRooms rs) (metricUsers rs + 1)).

Definition RemoveUser (roomID userID : string) (rs : RoomService) : RoomService :=
  match GetRoom roomID rs with
  | None => rs
  | Some room =>
    match r_Members room !! userID with
    | None => rs
    | Some member =>
      let room := mkRoom (r_RoomID room) (delete userID (r_Members room))
                    (view_remove (rm_GatewayID member) userID (r_Gateways room)) in
      mkRoomService (<[roomID := room]> (rooms rs)) (metricRooms rs) (metricUsers rs - 1)
    end
  end.

Definition SetUserDisconnected (roomID userID : string) (now : Z) (rs : RoomService) :
    RoomService :=
  match GetRoom roomID rs with
  | None => rs
  | Some room =>
    match r_Members room !! userID with
    | None => rs
    | Some m =>
      let m := mkRoomMember (rm_UserID m) (rm_GatewayID m) MemberStatusDisconnected
                 (rm_JoinTime m) (Some now) in
      mkRoomService
        (<[roomID := mkRoom (r_RoomID room) (<[userID := m]> (r_Members room))
                       (r_Gateways room)]> (rooms rs))
        (metricRooms rs) (metricUsers rs)
    end
  end.

Definition UpdateUserGateway (roomID userID newGatewayID : string) (rs : RoomService) :
    bool * RoomService :=
  match GetRoom roomID rs with
  | None => (false, rs)
  | Some room =>
    match r_Members room !! userID with
    | None => (false, rs)
    | Some m =>
      let oldGatewayID := rm_GatewayID m in
      let gws :=
        if decide (oldGatewayID ≠ newGatewayID) then
          view_add newGatewayID userID (view_remove oldGatewayID userID (r_Gateways room))
        else r_Gateways room in
      let gw := if decide (oldGatewayID ≠ newGatewayID) then newGatewayID else oldGatewayID in
      let m := mkRoomMember (rm_UserID m) gw MemberStatusOnline (rm_JoinTime m) None in
      (true,
       mkRoomService
         (<[roomID := mkRoom (r_RoomID room) (<[userID := m]> (r_Members room)) gws]> (rooms rs))
         (metricRooms rs) (metricUsers rs))
    end
  end.

Definition GetRoomGatewayIDs `{MapOrder} (roomID : string) (rs : RoomService) : list string :=
  match GetRoom roomID rs with
  | None => []
  | Some room => range_keys (r_Gateways room)
  end.

Definition GetRoomMemberCount (roomID : string) (rs : RoomService) : Z :=
  match GetRoom roomID rs with
  | None => 0
  | Some room => Z.of_nat (size (r_Members room))
  end.

Definition RoomExists (roomID : string) (rs : RoomService) : bool :=
  bool_decide (is_Some (rooms rs !! roomID)).

Definition GetAllRoomIDs `{MapOrder} (rs : RoomService) : list string := range_keys (rooms rs).

(** ** Well-formedness *)

(** Gateway [g] lists user [u]. *)
Definition serves (gws : gmap string GatewayRoomView) (g u : string) : Prop :=
  ∃ v, gws !! g = Some v ∧ u ∈ gv_UserIDs v.

(** Views carry their own id and are never empty. *)
Definition views_wf (gws : gmap string GatewayRoomView) : Prop :=
  ∀ g v, gws !! g = Some v → gv_GatewayID v = g ∧ gv_UserIDs v ≠ ∅.

(** Every member is listed by the gateway it is on. *)
Definition room_wf (r : Room) : Prop :=
  views_wf (r_Gateways r) ∧
  ∀ u m, r_Members r !! u = Some m →
    rm_UserID m = u ∧ serves (r_Gateways r) (rm_GatewayID m) u.

(** ... and gateways list nobody else. *)
Definition room_exact (r : Room) : Prop :=
  ∀ g u, serves (r_Gateways r) g u →
    ∃ m, r_Members r !! u = Some m ∧ rm_GatewayID m = g.

Definition rooms_wf (rs : RoomService) : Prop :=
  ∀ rid r, rooms rs !! rid = Some r → r_RoomID r = rid ∧ room_wf r.

Definition rooms_exact (rs : RoomService) : Prop :=
  ∀ rid r, rooms rs !! rid = Some r → room_exact r.

(** The member entry of a user in a room, if any. *)
Definition member (rs : RoomService) (rid u : string) : option RoomMember :=
  rooms rs !! rid ≫= λ r, r_Members r !! u.

(** The gateways notified for a room. *)
Definition room_gateways (rs : RoomService) (rid : string) : gmap string GatewayRoomView :=
  default ∅ (r_Gateways <$> rooms rs !! rid).

Section views.
Implicit Types (gws : gmap string GatewayRoomView) (g u : string).

Lemma serves_view_add g u gws g' u' :
  serves (view_add g u gws) g' u' ↔ serves gws g' u' ∨ (g' = g ∧ u' = u).
Proof.
  unfold serves, view_add. destruct (gws !! g) as [v|] eqn:Hg;
    (destruct (decide (g' = g)) as [->|Hne];
      [rewrite lookup_insert_eq|rewrite lookup_insert_ne by done]).
  - split.
    + intros (v' & [= <-] & Hu). simpl in Hu. set_solver.
    + intros [(v' & Hv & Hu)|[_ ->]]; eexists; (split; [done|]); simpl; set_solver.
  - naive_solver.
  - split.
    + intros (v' & [= <-] & Hu). simpl in Hu. set_solver.
    + intros [(v' & Hv & Hu)|[_ ->]]; [congruence|]. eexists. split; [done|]. set_solver.
  - naive_solver.
Qed.

Lemma serves_view_remove g u gws g' u' :
  serves (view_remove g u gws) g' u' ↔ serves gws g' u' ∧ ¬ (g' = g ∧ u' = u).
Proof.
  unfold serves, view_remove. destruct (gws !! g) as [v|] eqn:Hg.
  2: { split; [|naive_solver]. intros (v & Hv & Hu). split; [eauto|naive_solver]. }
  case_decide as Hz.
  - apply size_empty_inv in Hz. destruct (decide (g' = g)) as [->|Hne];
      [rewrite lookup_delete_eq|rewrite lookup_delete_ne by done]; [|naive_solver].
    split; [naive_solver|]. intros [(v' & Hv & Hu) Hn]. simplify_eq.
    assert (u' ≠ u) by naive_solver. set_solver.
  - destruct (decide (g' = g)) as [->|Hne];
      [rewrite lookup_insert_eq|rewrite lookup_insert_ne by done]; [|naive_solver].
    split.
    + intros (v' & [= <-] & Hu). simpl in Hu. apply elem_of_difference in Hu as [Hu Hne].
      split; [eauto|]. set_solver.
    + intros [(v' & Hv & Hu) Hn]. simplify_eq. eexists. split; [done|]. simpl.
      apply elem_of_difference. split; [done|]. set_solver.
Qed.

Lemma views_wf_add g u gws : views_wf gws → views_wf (view_add g u gws).
Proof.
  intros Hwf g' v'. unfold view_add. destruct (gws !! g) as [v|] eqn:Hg;
    intros [[<- <-]|[Hne Hv']]%lookup_insert_Some; try by apply Hwf.
  - simpl. split; [by apply Hwf|]. set_solver.
  - simpl. split; [done|]. set_solver.
Qed.

Lemma views_wf_remove g u gws : views_wf gws → views_wf (view_remove g u gws).
Proof.
  intros Hwf g' v'. unfold view_remove. destruct (gws !! g) as [v|] eqn:Hg; [|by apply Hwf].
  case_decide as Hz.
  - intros [_ Hv']%lookup_delete_Some. by apply Hwf.
  - intros [[<- <-]|[Hne Hv']]%lookup_insert_Some; [|by apply Hwf].
    simpl. split; [by apply Hwf|]. intros He. by rewrite He, size_empty in Hz.
Qed.

Lemma views_wf_dom gws g : views_wf gws → is_Some (gws !! g) ↔ ∃ u, serves gws g u.
Proof.
  intros Hwf. split.
  - intros [v Hv]. destruct (Hwf g v Hv) as [_ Hne].
    apply set_choose_L in Hne as [u Hu]. exists u, v. done.
  - intros (u & v & Hv & _). eauto.
Qed.
End views.

#[export] Hint Resolve views_wf_add views_wf_remove : rooms.

(** ** How each operation changes members and views *)
Section operations.
Implicit Types (rs : RoomService) (rid u g : string).

Lemma member_insert rs rid room rid' u k1 k2 :
  member (mkRoomService (<[rid := room]> (rooms rs)) k1 k2) rid' u =
  if decide (rid' = rid) then r_Members room !! u else member rs rid' u.
Proof.
  unfold member. simpl. case_decide as Hd.
  - subst. by rewrite lookup_insert_eq.
  - by rewrite lookup_insert_ne.
Qed.

Lemma room_gateways_insert rs rid room rid' k1 k2 :
  room_gateways (mkRoomService (<[rid := room]> (rooms rs)) k1 k2) rid' =
  if decide (rid' = rid) then r_Gateways room else room_gateways rs rid'.
Proof.
  unfold room_gateways. simpl. case_decide as Hd.
  - subst. by rewrite lookup_insert_eq.
  - by rewrite lookup_insert_ne.
Qed.

Lemma GetOrCreateRoom_spec rid rs room rs' :
  GetOrCreateRoom rid rs = (room, rs') →
  rooms rs' = <[rid := room]> (rooms rs) ∧
  r_Members room = default ∅ (r_Members <$> rooms rs !! rid) ∧
  r_Gateways room = room_gateways rs rid ∧
  (rooms_wf rs → r_RoomID room = rid).
Proof.
  unfold GetOrCreateRoom, room_gateways.
  destruct (rooms rs !! rid) as [r|] eqn:Hr; intros [= <- <-]; simpl.
  - split_and!; [by rewrite insert_id|done..|]. intros Hwf. by apply Hwf in Hr as [? _].
  - done.
Qed.

Lemma AddUser_rooms rid u g now rs :
  let rs' := (AddUser rid u g now rs).2 in
  ∃ room, rooms rs' = <[rid := room]> (rooms rs) ∧
    r_Members room = <[u := mkRoomMember u g MemberStatusOnline (Some now) None]>
                       (default ∅ (r_Members <$> rooms rs !! rid)) ∧
    r_Gateways room = view_add g u (room_gateways rs rid) ∧
    (rooms_wf rs → r_RoomID room = rid).
Proof.
  unfold AddUser. destruct (GetOrCreateRoom rid rs) as [room rs'] eqn:Hg. simpl.
  apply GetOrCreateRoom_spec in Hg as (-> & Hm & Hv & Hid).
  rewrite insert_insert_eq, Hm, Hv. eexists. split; [done|]. done.
Qed.

Lemma AddUser_no_error rid u g now rs :
  AddUser rid u g now rs = (None, (AddUser rid u g now rs).2).
Proof. unfold AddUser. by destruct (GetOrCreateRoom rid rs). Qed.

Lemma default_member rs rid u :
  default ∅ (r_Members <$> rooms rs !! rid) !! u = member rs rid u.
Proof. unfold member. by destruct (rooms rs !! rid). Qed.

Lemma member_AddUser rid u g now rs rid' u' :
  member (AddUser rid u g now rs).2 rid' u' =
  if decide (rid' = rid ∧ u' = u)
  then Some (mkRoomMember u g MemberStatusOnline (Some now) None)
  else member rs rid' u'.
Proof.
  destruct (AddUser_rooms rid u g now rs) as (room & Hr & Hm & _).
  unfold member at 1. rewrite Hr. destruct (decide (rid' = rid)) as [->|Hne].
  - rewrite lookup_insert_eq. simpl. rewrite Hm.
    destruct (decide (u' = u)) as [->|Hu].
    + rewrite lookup_insert_eq. by rewrite decide_True.
    + rewrite lookup_insert_ne, decide_False by naive_solver. apply default_member.
  - rewrite lookup_insert_ne, decide_False by naive_solver. done.
Qed.

Lemma serves_AddUser rid u g now rs rid' g' u' :
  serves (room_gateways (AddUser rid u g now rs).2 rid') g' u' ↔
  serves (room_gateways rs rid') g' u' ∨ (rid' = rid ∧ g' = g ∧ u' = u).
Proof.
  destruct (AddUser_rooms rid u g now rs) as (room & Hr & _ & Hv & _).
  unfold room_gateways at 1. rewrite Hr. destruct (decide (rid' = rid)) as [->|Hne].
  - rewrite lookup_insert_eq. simpl. rewrite Hv, serves_view_add. naive_solver.
  - rewrite lookup_insert_ne by done. fold (room_gateways rs rid'). naive_solver.
Qed.

(** [RemoveUser] looks the room and the member up first. *)
Lemma RemoveUser_cases rid u rs :
  (member rs rid u = None ∧ RemoveUser rid u rs = rs) ∨
  (∃ room m, rooms rs !! rid = Some room ∧ r_Members room !! u = Some m ∧
    RemoveUser rid u rs = mkRoomService
      (<[rid := mkRoom (r_RoomID room) (delete u (r_Members room))
                  (view_remove (rm_GatewayID m) u (r_Gateways room))]> (rooms rs))
      (metricRooms rs) (metricUsers rs - 1)).
Proof.
  unfold RemoveUser, GetRoom, member. destruct (rooms rs !! rid) as [room|]; [|by left].
  simpl. destruct (r_Members room !! u) as [m|] eqn:Hm; [right|by left]. eauto.
Qed.

Lemma member_RemoveUser rid u rs rid' u' :
  member (RemoveUser rid u rs) rid' u' =
  if decide (rid' = rid ∧ u' = u) then None else member rs rid' u'.
Proof.
  destruct (RemoveUser_cases rid u rs) as [[Hn ->]|(room & m & Hr & Hm & ->)].
  - case_decide as Hd; [by destruct Hd as [-> ->]|done].
  - rewrite member_insert. simpl.
    repeat case_decide; simplify_eq/=; destruct_and?; simplify_eq.
    all: first [done|apply lookup_delete_eq|naive_solver|idtac].
    rewrite lookup_delete_ne by naive_solver. unfold member. by rewrite Hr.
Qed.

Lemma serves_RemoveUser rid u rs rid' g' u' :
  serves (room_gateways (RemoveUser rid u rs) rid') g' u' ↔
  serves (room_gateways rs rid') g' u' ∧
  ¬ (rid' = rid ∧ u' = u ∧ rm_GatewayID <$> member rs rid u = Some g').
Proof.
  destruct (RemoveUser_cases rid u rs) as [[Hn ->]|(room & m & Hr & Hm & ->)].
  - rewrite Hn. simpl. naive_solver.
  - rewrite room_gateways_insert. unfold member. rewrite Hr. simpl. rewrite Hm. simpl.
    case_decide as Hd; [|naive_solver]. subst. simpl. rewrite serves_view_remove.
    unfold room_gateways. rewrite Hr. simpl. naive_solver.
Qed.

Lemma SetUserDisconnected_cases rid u now rs :
  (member rs rid u = None ∧ SetUserDisconnected rid u now rs = rs) ∨
  (∃ room m, rooms rs !! rid = Some room ∧ r_Members room !! u = Some m ∧
    SetUserDisconnected rid u now rs = mkRoomService
      (<[rid := mkRoom (r_RoomID room)
         (<[u := mkRoomMember (rm_UserID m) (rm_GatewayID m) MemberStatusDisconnected
                   (rm_JoinTime m) (Some now)]> (r_Members room))
         (r_Gateways room)]> (rooms rs))
      (metricRooms rs) (metricUsers rs)).
Proof.
  unfold SetUserDisconnected, GetRoom, member.
  destruct (rooms rs !! rid) as [room|]; [|by left].
  simpl. destruct (r_Members room !! u) as [m|] eqn:Hm; [right|by left]. eauto.
Qed.

Lemma member_SetUserDisconnected rid u now rs rid' u' :
  member (SetUserDisconnected rid u now rs) rid' u' =
  if decide (rid' = rid ∧ u' = u)
  then (λ m, mkRoomMember (rm_UserID m) (rm_GatewayID m) MemberStatusDisconnected
               (rm_JoinTime m) (Some now)) <$> member rs rid u
  else member rs rid' u'.
Proof.
  destruct (SetUserDisconnected_cases rid u now rs) as [[Hn ->]|(room & m & Hr & Hm & ->)].
  - rewrite Hn. case_decide as Hd; [by destruct Hd as [-> ->]|done].
  - rewrite member_insert. unfold member at 2. rewrite Hr. simpl. rewrite Hm. simpl.
    repeat case_decide; simplify_eq/=; destruct_and?; simplify_eq.
    all: first [done|apply lookup_insert_eq|naive_solver|idtac].
    rewrite lookup_insert_ne by naive_solver. unfold member. by rewrite Hr.
Qed.

Lemma room_gateways_SetUserDisconnected rid u now rs rid' :
  room_gateways (SetUserDisconnected rid u now rs) rid' = room_gateways rs rid'.
Proof.
  destruct (SetUserDisconnected_cases rid u now rs) as [[Hn ->]|(room & m & Hr & Hm & ->)];
    [done|].
  rewrite room_gateways_insert. case_decide as Hd; [|done]. subst.
  unfold room_gateways. by rewrite Hr.
Qed.

Lemma UpdateUserGateway_cases rid u g rs :
  (member rs rid u = None ∧ UpdateUserGateway rid u g rs = (false, rs)) ∨
  (∃ room m, rooms rs !! rid = Some room ∧ r_Members room !! u = Some m ∧
    UpdateUserGateway rid u g rs = (true, mkRoomService
      (<[rid := mkRoom (r_RoomID room)
         (<[u := mkRoomMember (rm_UserID m) g MemberStatusOnline (rm_JoinTime m) None]>
            (r_Members room))
         (if decide (rm_GatewayID m = g) then r_Gateways room
          else view_add g u (view_remove (rm_GatewayID m) u (r_Gateways room)))]> (rooms rs))
      (metricRooms rs) (metricUsers rs))).
Proof.
  unfold UpdateUserGateway, GetRoom, member.
  destruct (rooms rs !! rid) as [room|]; [|by left].
  simpl. destruct (r_Members room !! u) as [m|] eqn:Hm; [right|by left].
  exists room, m. split_and!; [done..|].
  destruct (decide (rm_GatewayID m = g)) as [->|Hne].
  - by rewrite !(decide_False (P := g ≠ g)) by naive_solver.
  - by rewrite !(decide_True (P := rm_GatewayID m ≠ g)) by done.
Qed.

Lemma member_UpdateUserGateway rid u g rs rid' u' :
  member (UpdateUserGateway rid u g rs).2 rid' u' =
  if decide (rid' = rid ∧ u' = u)
  then (λ m, mkRoomMember (rm_UserID m) g MemberStatusOnline (rm_JoinTime m) None) <$>
         member rs rid u
  else member rs rid' u'.
Proof.
  destruct (UpdateUserGateway_cases rid u g rs) as [[Hn ->]|(room & m & Hr & Hm & ->)]; simpl.
  - rewrite Hn. case_decide as Hd; [by destruct Hd as [-> ->]|done].
  - rewrite member_insert. unfold member at 2. rewrite Hr. simpl. rewrite Hm. simpl.
    repeat case_decide; simplify_eq/=; destruct_and?; simplify_eq.
    all: first [done|apply lookup_insert_eq|naive_solver|idtac].
    rewrite lookup_insert_ne by naive_solver. unfold member. by rewrite Hr.
Qed.

Lemma serves_UpdateUserGateway rid u g rs rid' g' u' :
  serves (room_gateways (UpdateUserGateway rid u g rs).2 rid') g' u' ↔
  match member rs rid u with
  | Some m =>
    if decide (rid' = rid ∧ u' = u ∧ rm_GatewayID m ≠ g)
    then g' = g ∨ (serves (room_gateways rs rid) g' u ∧ g' ≠ rm_GatewayID m)
    else serves (room_gateways rs rid') g' u'
  | None => serves (room_gateways rs rid') g' u'
  end.
Proof.
  destruct (UpdateUserGateway_cases rid u g rs) as [[Hn ->]|(room & m & Hr & Hm & ->)]; simpl.
  - by rewrite Hn.
  - assert (member rs rid u = Some m) as -> by (unfold member; by rewrite Hr).
    assert (room_gateways rs rid = r_Gateways room) as Hgr
      by (unfold room_gateways; by rewrite Hr).
    rewrite room_gateways_insert. destruct (decide (rid' = rid)) as [->|Hne].
    + rewrite Hgr. simpl. destruct (decide (rm_GatewayID m = g)) as [->|Hg].
      * rewrite decide_False by naive_solver. done.
      * rewrite serves_view_add, serves_view_remove.
        case_decide as Hd; [destruct Hd as (_ & -> & _)|]; naive_solver.
    + rewrite decide_False by naive_solver. done.
Qed.

Lemma member_CloseRoom rid rs rid' u :
  member (CloseRoom rid rs).2 rid' u = if decide (rid' = rid) then None else member rs rid' u.
Proof.
  unfold CloseRoom, member. destruct (rooms rs !! rid) as [room|] eqn:Hr; simpl;
    case_decide as Hd; subst.
  - by rewrite lookup_delete_eq.
  - by rewrite lookup_delete_ne.
  - by rewrite Hr.
  - done.
Qed.
End operations.

(** ** Preservation of well-formedness *)
Section preservation.
Implicit Types (rs : RoomService) (rid u g : string).

Lemma rooms_wf_insert rs rid room k1 k2 :
  rooms_wf rs → r_RoomID room = rid → room_wf room →
  rooms_wf (mkRoomService (<[rid := room]> (rooms rs)) k1 k2).
Proof.
  intros Hwf Hid Hr rid' r'. simpl. intros [[<- <-]|[_ Hl]]%lookup_insert_Some; [done|].
  by apply Hwf.
Qed.

Lemma rooms_wf_gateways rs rid : rooms_wf rs → views_wf (room_gateways rs rid).
Proof.
  intros Hwf. unfold room_gateways. destruct (rooms rs !! rid) as [r|] eqn:Hr; simpl.
  - by apply Hwf in Hr as (_ & ? & _).
  - intros g v. by rewrite lookup_empty.
Qed.

(** The view of its gateway lists every member. *)
Lemma rooms_wf_serves rs rid u m :
  rooms_wf rs → member rs rid u = Some m →
  rm_UserID m = u ∧ serves (room_gateways rs rid) (rm_GatewayID m) u.
Proof.
  unfold member, room_gateways. intros Hwf.
  destruct (rooms rs !! rid) as [r|] eqn:Hr; simpl; [|done].
  apply Hwf in Hr as (_ & _ & Hm). apply Hm.
Qed.

(** [rooms_wf] and [rooms_exact] in terms of [member] and [serves]. *)
Lemma rooms_exact_alt rs :
  rooms_exact rs ↔ ∀ rid g u, serves (room_gateways rs rid) g u →
    rm_GatewayID <$> member rs rid u = Some g.
Proof.
  unfold rooms_exact, room_exact, room_gateways, member. split.
  - intros H rid g u. destruct (rooms rs !! rid) as [r|] eqn:Hr; simpl.
    + intros (m & -> & <-)%(H rid r Hr). done.
    + intros (v & Hv & _). by rewrite lookup_empty in Hv.
  - intros H rid r Hr g u Hs. specialize (H rid g u). rewrite Hr in H. simpl in H.
    apply H, fmap_Some in Hs as (m & Hm & ->). eauto.
Qed.

Lemma AddUser_wf rid u g now rs : rooms_wf rs → rooms_wf (AddUser rid u g now rs).2.
Proof.
  intros Hwf rid' r'.
  destruct (AddUser_rooms rid u g now rs) as (room & -> & Hm & Hv & Hid).
  intros [[<- <-]|[_ Hl]]%lookup_insert_Some; [|by apply Hwf].
  split; [by apply Hid|]. split.
  - rewrite Hv. auto using views_wf_add, rooms_wf_gateways.
  - intros u' m. rewrite Hm, Hv, serves_view_add.
    intros [[<- <-]|[_ Hu]]%lookup_insert_Some; [naive_solver|].
    rewrite default_member in Hu. apply rooms_wf_serves in Hu as [? ?]; naive_solver.
Qed.

Lemma RemoveUser_wf rid u rs : rooms_wf rs → rooms_wf (RemoveUser rid u rs).
Proof.
  intros Hwf. destruct (RemoveUser_cases rid u rs) as [[_ ->]|(room & m & Hr & Hm & ->)];
    [done|].
  apply Hwf in Hr as (Hid & Hvw & Hms). apply rooms_wf_insert; [done..|].
  split; simpl; [by apply views_wf_remove|].
  intros u' m' [Hne Hu]%lookup_delete_Some. apply Hms in Hu as [? ?].
  split; [done|]. apply serves_view_remove. naive_solver.
Qed.

Lemma SetUserDisconnected_wf rid u now rs :
  rooms_wf rs → rooms_wf (SetUserDisconnected rid u now rs).
Proof.
  intros Hwf.
  destruct (SetUserDisconnected_cases rid u now rs) as [[_ ->]|(room & m & Hr & Hm & ->)];
    [done|].
  apply Hwf in Hr as (Hid & Hvw & Hms). apply rooms_wf_insert; [done..|].
  split; simpl; [done|].
  intros u' m' [[<- <-]|[_ Hu]]%lookup_insert_Some; [|by apply Hms]. by apply Hms in Hm.
Qed.

Lemma UpdateUserGateway_wf rid u g rs :
  rooms_wf rs → rooms_wf (UpdateUserGateway rid u g rs).2.
Proof.
  intros Hwf.
  destruct (UpdateUserGateway_cases rid u g rs) as [[_ ->]|(room & m & Hr & Hm & ->)];
    [done|]. simpl.
  apply Hwf in Hr as (Hid & Hvw & Hms). apply rooms_wf_insert; [done..|].
  split; simpl; [case_decide; auto using views_wf_add, views_wf_remove|].
  pose proof (Hms u m Hm) as [Hmu Hmg].
  intros u' m' [[<- <-]|[Hne Hu]]%lookup_insert_Some; simpl.
  - split; [done|]. case_decide; [naive_solver|]. apply serves_view_add. by right.
  - apply Hms in Hu as [? ?]. split; [done|]. case_decide; [done|].
    apply serves_view_add. left. apply serves_view_remove. naive_solver.
Qed.

Lemma CloseRoom_wf rid rs : rooms_wf rs → rooms_wf (CloseRoom rid rs).2.
Proof.
  intros Hwf. unfold CloseRoom. destruct (rooms rs !! rid); [|done].
  intros rid' r'. simpl. intros [_ Hl]%lookup_delete_Some. by apply Hwf.
Qed.

Lemma NewRoomService_wf : rooms_wf NewRoomService.
Proof. intros rid r. simpl. by rewrite lookup_empty. Qed.
End preservation.

#[export] Hint Resolve AddUser_wf RemoveUser_wf SetUserDisconnected_wf
  UpdateUserGateway_wf CloseRoom_wf NewRoomService_wf : rooms.

(** ** Histories of room operations *)
Inductive RoomOp :=
  | OpGetOrCreateRoom (rid : string)
  | OpCloseRoom (rid : string)
  | OpAddUser (rid u g : string) (now : Z)
  | OpRemoveUser (rid u : string)
  | OpSetUserDisconnected (rid u : string) (now : Z)
  | OpUpdateUserGateway (rid u g : string).

Definition run_room_op (op : RoomOp) (rs : RoomService) : RoomService :=
  match op with
  | OpGetOrCreateRoom rid => (GetOrCreateRoom rid rs).2
  | OpCloseRoom rid => (CloseRoom rid rs).2
  | OpAddUser rid u g now => (AddUser rid u g now rs).2
  | OpRemoveUser rid u => RemoveUser rid u rs
  | OpSetUserDisconnected rid u now => SetUserDisconnected rid u now rs
  | OpUpdateUserGateway rid u g => (UpdateUserGateway rid u g rs).2
  end.

Definition run_room_ops (ops : list RoomOp) (rs : RoomService) : RoomService :=
  foldl (λ rs op, run_room_op op rs) rs ops.

(** The room gauge counts the rooms. *)
Definition gauge_ok (rs : RoomService) : Prop := metricRooms rs = Z.of_nat (size (rooms rs)).

Section gauges.
Implicit Types (rs : RoomService).

Lemma size_insert_existing {V} (m : gmap string V) k v w :
  m !! k = Some v → size (<[k := w]> m) = size m.
Proof. intros Hk. rewrite map_size_insert, Hk. done. Qed.

Lemma gauge_GetOrCreateRoom rid rs : gauge_ok rs → gauge_ok (GetOrCreateRoom rid rs).2.
Proof.
  unfold gauge_ok, GetOrCreateRoom. intros Hg. destruct (rooms rs !! rid) eqn:Hr; [done|].
  simpl. rewrite map_size_insert_None by done. lia.
Qed.

Lemma gauge_insert rid room room' rs k :
  rooms rs !! rid = Some room → gauge_ok rs →
  gauge_ok (mkRoomService (<[rid := room']> (rooms rs)) (metricRooms rs) k).
Proof.
  unfold gauge_ok. intros Hr Hg. simpl. by erewrite size_insert_existing.
Qed.

Lemma gauge_AddUser rid u g now rs : gauge_ok rs → gauge_ok (AddUser rid u g now rs).2.
Proof.
  intros Hg%(gauge_GetOrCreateRoom rid). unfold AddUser.
  destruct (GetOrCreateRoom rid rs) as [room rs'] eqn:Hc. simpl in *.
  apply (gauge_insert rid room); [|done].
  apply GetOrCreateRoom_spec in Hc as (-> & _). apply lookup_insert_eq.
Qed.

Lemma gauge_run_room_op op rs : gauge_ok rs → gauge_ok (run_room_op op rs).
Proof.
  intros Hg. destruct op; simpl.
  - by apply gauge_GetOrCreateRoom.
  - unfold CloseRoom, gauge_ok in *. destruct (rooms rs !! rid) eqn:Hr; [|done]. simpl.
    rewrite map_size_delete, Hr. simpl.
    assert (size (rooms rs) ≠ 0)%nat by (apply map_size_ne_0_lookup; eauto). lia.
  - by apply gauge_AddUser.
  - destruct (RemoveUser_cases rid u rs) as [[_ ->]|(room & m & Hr & _ & ->)]; [done|].
    by apply (gauge_insert rid room).
  - destruct (SetUserDisconnected_cases rid u now rs) as [[_ ->]|(room & m & Hr & _ & ->)];
      [done|]. by apply (gauge_insert rid room).
  - destruct (UpdateUserGateway_cases rid u g rs) as [[_ ->]|(room & m & Hr & _ & ->)];
      [done|]. by apply (gauge_insert rid room).
Qed.

Lemma run_room_op_wf op rs : rooms_wf rs → rooms_wf (run_room_op op rs).
Proof.
  intros Hwf. destruct op; simpl; auto with rooms.
  unfold GetOrCreateRoom. destruct (rooms rs !! rid); [done|]. simpl.
  apply rooms_wf_insert; [done..|]. split; simpl.
  - intros g v. by rewrite lookup_empty.
  - intros u m. by rewrite lookup_empty.
Qed.
End gauges.

(** ** Properties *)

(** C25. Whatever operations are run on a fresh room service, every room
    keeps its own id, every member carries its own user id and is listed by
    the view of the gateway it is on, no view is empty, and the room gauge
    equals the number of rooms. *)
Theorem room_service_invariant ops :
  let rs := run_room_ops ops NewRoomService in
  rooms_wf rs ∧ gauge_ok rs.
Proof.
  simpl. unfold run_room_ops.
  assert (rooms_wf NewRoomService ∧ gauge_ok NewRoomService) as Hinit
    by (split; [apply NewRoomService_wf|done]).
  revert Hinit. generalize NewRoomService.
  induction ops as [|op ops IH]; intros rs [Hwf Hg]; [done|]. simpl. apply IH.
  split; [by apply run_room_op_wf|by apply gauge_run_room_op].
Qed.

(** The gateways of a room are the ones that list somebody. *)
Lemma elem_of_GetRoomGatewayIDs `{O : MapOrder} rs rid g :
  rooms_wf rs → g ∈ GetRoomGatewayIDs rid rs ↔ ∃ u, serves (room_gateways rs rid) g u.
Proof.
  intros Hwf. rewrite <-views_wf_dom by (by apply rooms_wf_gateways).
  unfold GetRoomGatewayIDs, GetRoom, room_gateways. destruct (rooms rs !! rid) as [r|]; simpl.
  - apply elem_of_range_keys.
  - rewrite lookup_empty. split; [by intros ?%not_elem_of_nil|by intros []].
Qed.

Lemma NoDup_GetRoomGatewayIDs `{O : MapOrder} rs rid : NoDup (GetRoomGatewayIDs rid rs).
Proof. unfold GetRoomGatewayIDs, GetRoom. case_match; [apply NoDup_range_keys|constructor]. Qed.

Lemma GetRoomGatewayIDs_member `{O : MapOrder} rs rid u m :
  rooms_wf rs → member rs rid u = Some m → rm_GatewayID m ∈ GetRoomGatewayIDs rid rs.
Proof.
  intros Hwf Hm. apply elem_of_GetRoomGatewayIDs; [done|]. exists u. by apply rooms_wf_serves.
Qed.

(** The gateways handed to a room notification are pairwise distinct,
    include the gateway of every member, and, when the views are exact, are
    exactly the gateways that hold at least one member. *)
Theorem GetRoomGatewayIDs_cover `{O : MapOrder} rs rid :
  rooms_wf rs →
  NoDup (GetRoomGatewayIDs rid rs) ∧
  (∀ u m, member rs rid u = Some m → rm_GatewayID m ∈ GetRoomGatewayIDs rid rs) ∧
  (rooms_exact rs → ∀ g, g ∈ GetRoomGatewayIDs rid rs ↔
     ∃ u m, member rs rid u = Some m ∧ rm_GatewayID m = g).
Proof.
  intros Hwf. split_and!.
  - apply NoDup_GetRoomGatewayIDs.
  - intros u m Hm. by eapply GetRoomGatewayIDs_member.
  - intros Hex g. rewrite elem_of_GetRoomGatewayIDs by done. split.
    + intros [u Hs]. apply rooms_exact_alt, fmap_Some in Hs as (m & ? & ?); [eauto|done].
    + intros (u & m & Hm & <-). exists u. by apply rooms_wf_serves.
Qed.

Definition example_rooms : RoomService :=
  run_room_ops [OpAddUser "r1" "alice" "gw-1" 10; OpAddUser "r1" "bob" "gw-2" 11] NewRoomService.

Lemma example_rooms_wf : rooms_wf example_rooms.
Proof. unfold example_rooms, run_room_ops. simpl. auto with rooms. Qed.

Lemma GetRoomGatewayIDs_cover_witness :
  let O := default_order in
  NoDup (GetRoomGatewayIDs "r1" example_rooms) ∧
  (∀ u m, member example_rooms "r1" u = Some m →
     rm_GatewayID m ∈ GetRoomGatewayIDs "r1" example_rooms) ∧
  (rooms_exact example_rooms → ∀ g, g ∈ GetRoomGatewayIDs "r1" example_rooms ↔
     ∃ u m, member example_rooms "r1" u = Some m ∧ rm_GatewayID m = g).
Proof.
  apply (GetRoomGatewayIDs_cover (O := default_order) example_rooms "r1" example_rooms_wf).
Defined.

(** Joining again from another gateway leaves a stale view behind:
    [AddUser] keeps the views exact if and only if the user is not already
    a member of the room on a different gateway. *)
Theorem AddUser_exact_iff rid u g now rs :
  rooms_wf rs → rooms_exact rs →
  rooms_exact (AddUser rid u g now rs).2 ↔
  ∀ m, member rs rid u = Some m → rm_GatewayID m = g.
Proof.
  intros Hwf Hex. rewrite rooms_exact_alt in *. split.
  - intros Hex' m Hm. specialize (Hex' rid (rm_GatewayID m) u).
    rewrite serves_AddUser, member_AddUser, decide_True in Hex' by done. simpl in Hex'.
    apply rooms_wf_serves in Hm as [_ Hs]; [|done]. assert (Some g = Some (rm_GatewayID m)) by auto.
    congruence.
  - intros Hg rid' g' u'. rewrite serves_AddUser, member_AddUser.
    intros [Hs|(-> & -> & ->)]; [|by rewrite decide_True].
    case_decide as Hd; [|by apply Hex]. destruct Hd as [-> ->]. simpl.
    apply Hex, fmap_Some in Hs as (m & Hm & ->). f_equal. symmetry. by apply Hg.
Qed.

Lemma AddUser_exact_iff_witness :
  let rs := (AddUser "r1" "alice" "gw-1" 10 NewRoomService).2 in
  rooms_exact (AddUser "r1" "alice" "gw-2" 11 rs).2 ↔
  ∀ m, member rs "r1" "alice" = Some m → rm_GatewayID m = "gw-2"%string.
Proof.
  apply (AddUser_exact_iff "r1" "alice" "gw-2" 11); [apply AddUser_wf, NewRoomService_wf|].
  apply rooms_exact_alt. intros rid g u.
  rewrite serves_AddUser, member_AddUser. intros [(v & Hv & _)|(-> & -> & ->)].
  - unfold room_gateways in Hv. simpl in Hv. by rewrite !lookup_empty in Hv.
  - by rewrite decide_True.
Defined.

(** The user gauge drifts: adding a user that is already a member
    counts it again, and closing a room forgets its members without
    counting them down. *)
Theorem user_gauge_drift rid u g now rs m room :
  rooms rs !! rid = Some room → r_Members room !! u = Some m →
  (metricUsers (AddUser rid u g now rs).2 = metricUsers rs + 1 ∧
   GetRoomMemberCount rid (AddUser rid u g now rs).2 = GetRoomMemberCount rid rs) ∧
  (metricUsers (CloseRoom rid rs).2 = metricUsers rs ∧
   0 < GetRoomMemberCount rid rs ∧ GetRoomMemberCount rid (CloseRoom rid rs).2 = 0).
Proof.
  intros Hr Hm. split_and!.
  - unfold AddUser, GetOrCreateRoom. by rewrite Hr.
  - unfold AddUser, GetOrCreateRoom, GetRoomMemberCount, GetRoom. rewrite Hr. simpl.
    rewrite lookup_insert_eq. simpl. by erewrite size_insert_existing.
  - unfold CloseRoom. by rewrite Hr.
  - unfold GetRoomMemberCount, GetRoom. rewrite Hr.
    assert (size (r_Members room) ≠ 0)%nat by (apply map_size_ne_0_lookup; eauto). lia.
  - unfold CloseRoom, GetRoomMemberCount, GetRoom. rewrite Hr. simpl.
    by rewrite lookup_delete_eq.
Qed.

Lemma user_gauge_drift_witness :
  (metricUsers (AddUser "r1" "bob" "gw-9" 20 example_rooms).2 = metricUsers example_rooms + 1 ∧
   GetRoomMemberCount "r1" (AddUser "r1" "bob" "gw-9" 20 example_rooms).2 =
     GetRoomMemberCount "r1" example_rooms) ∧
  (metricUsers (CloseRoom "r1" example_rooms).2 = metricUsers example_rooms ∧
   0 < GetRoomMemberCount "r1" example_rooms ∧
   GetRoomMemberCount "r1" (CloseRoom "r1" example_rooms).2 = 0).
Proof.
  eapply (user_gauge_drift "r1" "bob" "gw-9" 20 example_rooms); vm_compute; reflexivity.
Defined.
