(* ===== verification/Chan.v ===== *)
(** Buffered Go channels, as the non-blocking [select] statements of the
    program use them.  A send on a closed channel and a second close panic. *)

From Stdlib Require Import ZArith Lia.
From stdpp Require Import base tactics gmap strings numbers list.
From S2P Require Import Prelude.

Record chan (A : Type) := mkChan {
  ch_buf : list A;
  ch_cap : nat;
  ch_closed : bool;
}.
Arguments mkChan {A}.
Arguments ch_buf {A}.
Arguments ch_cap {A}.
Arguments ch_closed {A}.

Section chan.
Context {A : Type}.
Implicit Types c : chan A.

Definition make_chan (cap : nat) : chan A := mkChan [] cap false.

(** [select { case c <- x: true  default: false }].  With a buffer, a
    waiting receiver implies an empty buffer, so "ready to send" is "not
    full". *)
Definition try_send (x : A) c : outcome (bool * chan A) :=
  if ch_closed c then Panic "send on closed channel"
  else if decide (length (ch_buf c) < ch_cap c)
  then Done (true, mkChan (ch_buf c ++ [x]) (ch_cap c) false)
  else Done (false, c).

Definition close_chan c : outcome (chan A) :=
  if ch_closed c then Panic "close of closed channel"
  else Done (mkChan (ch_buf c) (ch_cap c) true).

(** [x, ok := <-c] on a channel with a buffered element or closed; [None]
    blocks. *)
Definition recv c : option (option A * chan A) :=
  match ch_buf c with
  | x :: buf => Some (Some x, mkChan buf (ch_cap c) (ch_closed c))
  | [] => if ch_closed c then Some (None, c) else None
  end.

Definition chan_ok c : Prop := length (ch_buf c) ≤ ch_cap c.

(** The state of the channel after a send that did not panic. *)
Definition sent (x : A) c : chan A :=
  if decide (length (ch_buf c) < ch_cap c)
  then mkChan (ch_buf c ++ [x]) (ch_cap c) (ch_closed c) else c.

Lemma try_send_open x c :
  ch_closed c = false →
  try_send x c = Done (bool_decide (length (ch_buf c) < ch_cap c), sent x c).
Proof.
  intros Hc. unfold try_send, sent. rewrite Hc.
  by case_decide; rewrite ?bool_decide_true, ?bool_decide_false by done.
Qed.

Lemma sent_ok x c : chan_ok c → chan_ok (sent x c).
Proof.
  unfold chan_ok, sent. case_decide; simpl; [rewrite length_app; simpl; lia|done].
Qed.

Lemma sent_closed x c : ch_closed (sent x c) = ch_closed c.
Proof. unfold sent. by case_decide. Qed.

Lemma sent_cap x c : ch_cap (sent x c) = ch_cap c.
Proof. unfold sent. by case_decide. Qed.

(** A send appends the message or leaves the queue alone. *)
Lemma sent_buf x c : ch_buf (sent x c) = ch_buf c ++ [x] ∨ ch_buf (sent x c) = ch_buf c.
Proof. unfold sent. case_decide; auto. Qed.
End chan.
