(* ===== verification/Recovery.v ===== *)
(** [internal/roomserver/recovery.go]: when the roomserver leaves its
    recovery mode. *)

From Stdlib Require Import ZArith Lia.
From stdpp Require Import base tactics gmap strings numbers list.
From S2P Require Import Prelude GoInt.

Local Open Scope Z_scope.

Record RecoveryState := mkRecoveryState {
  startTime : Z;
  timeout : Z;
  done : bool;                (* the done channel is closed *)
  doneOnce : bool;            (* the sync.Once has run *)
  expectedGateways : Z;       (* int32 *)
  completedGateways : Z;      (* atomic.Int32 *)
  receivedUsers : Z;          (* atomic.Int32 *)
}.

Definition NewRecoveryState (timeout now : Z) : RecoveryState :=
  mkRecoveryState now timeout false false 0 0 0.

Definition finish (r : RecoveryState) : RecoveryState :=
  if doneOnce r then r
  else mkRecoveryState (startTime r) (timeout r) true true
         (expectedGateways r) (completedGateways r) (receivedUsers r).

Definition SetExpectedGateways (count : Z) (r : RecoveryState) : RecoveryState :=
  mkRecoveryState (startTime r) (timeout r) (done r) (doneOnce r)
    (i32 count) (completedGateways r) (receivedUsers r).

Definition OnGatewayComplete (r : RecoveryState) : RecoveryState :=
  let completed := i32 (completedGateways r + 1) in
  let r := mkRecoveryState (startTime r) (timeout r) (done r) (doneOnce r)
             (expectedGateways r) completed (receivedUsers r) in
  let expected := expectedGateways r in
  if (0 <? expected) && (expected <=? completed) then finish r else r.

Definition OnUsersReceived (count : Z) (r : RecoveryState) : RecoveryState :=
  mkRecoveryState (startTime r) (timeout r) (done r) (doneOnce r)
    (expectedGateways r) (completedGateways r) (i32 (receivedUsers r + i32 count)).

(** [Wait] blocks until [done] is closed or the timer fires at
    [start + timeout]; [None] is "still blocked".  When both are ready the
    select may take either branch: [finish] after [done] changes nothing. *)
Definition Wait (start now : Z) (r : RecoveryState) : option RecoveryState :=
  if done r then Some r
  else if start + timeout r <=? now then Some (finish r)
  else None.

Definition Duration (now : Z) (r : RecoveryState) : Z := time_since now (Some (startTime r)).

Definition ReceivedUsers (r : RecoveryState) : Z := receivedUsers r.

Definition CompletedGateways (r : RecoveryState) : Z := completedGateways r.

(** What can happen to a recovery state from outside. *)
Inductive RecoveryEvent :=
  | EvSetExpected (count : Z)
  | EvGatewayComplete
  | EvUsersReceived (count : Z).

Definition run_recovery (r : RecoveryState) (e : RecoveryEvent) : RecoveryState :=
  match e with
  | EvSetExpected count => SetExpectedGateways count r
  | EvGatewayComplete => OnGatewayComplete r
  | EvUsersReceived count => OnUsersReceived count r
  end.

Definition recovery_ok (r : RecoveryState) : Prop := done r = doneOnce r.

Lemma finish_ok r : recovery_ok r → recovery_ok (finish r) ∧ done (finish r) = true.
Proof. unfold recovery_ok, finish. destruct (doneOnce r) eqn:E; intros H; by rewrite ?E, ?H. Qed.

Lemma run_recovery_ok r e : recovery_ok r → recovery_ok (run_recovery r e).
Proof.
  intros Hok. destruct e; try done. simpl. unfold OnGatewayComplete.
  case_match; [|done]. by apply finish_ok.
Qed.

Lemma iter_complete_expected k r :
  expectedGateways (Nat.iter k OnGatewayComplete r) = expectedGateways r.
Proof.
  induction k as [|k IH]; [done|]. rewrite Nat.iter_succ. unfold OnGatewayComplete.
  case_match; [|by simpl]. unfold finish. case_match; by simpl.
Qed.

Lemma iter_complete_completed k r :
  0 <= completedGateways r → completedGateways r + Z.of_nat k < 2 ^ 31 →
  completedGateways (Nat.iter k OnGatewayComplete r) = completedGateways r + Z.of_nat k.
Proof.
  induction k as [|k IH]; intros H0 Hk; [simpl; lia|].
  rewrite Nat.iter_succ. unfold OnGatewayComplete at 1.
  rewrite IH by lia. rewrite i32_small by lia.
  case_match; [unfold finish; case_match|]; simpl; lia.
Qed.

(** One more completion finishes exactly when the expected number, set and
    positive, is reached. *)
Lemma OnGatewayComplete_done r :
  recovery_ok r →
  done (OnGatewayComplete r) =
  done r || ((0 <? expectedGateways r) && (expectedGateways r <=? i32 (completedGateways r + 1))).
Proof.
  intros Hok. unfold OnGatewayComplete. cbn [expectedGateways].
  destruct ((0 <? expectedGateways r) && _) eqn:E.
  - rewrite orb_true_r. unfold finish. cbn [doneOnce].
    unfold recovery_ok in Hok. case_match; simpl; congruence.
  - by rewrite orb_false_r.
Qed.

(** ** Properties *)

(** With the expected number of gateways announced first, recovery is
    over exactly when that many gateways have reported, as long as the
    32-bit counter does not wrap. *)
Theorem recovery_done_iff_all_reported tmo now n k :
  1 <= n < 2 ^ 31 → Z.of_nat k < 2 ^ 31 →
  done (Nat.iter k OnGatewayComplete (SetExpectedGateways n (NewRecoveryState tmo now))) = true ↔
  n <= Z.of_nat k.
Proof.
  intros Hn Hk. set (r0 := SetExpectedGateways n (NewRecoveryState tmo now)).
  assert (expectedGateways r0 = n) as He by (simpl; apply i32_small; lia).
  induction k as [|k IH]; [simpl; split; [done|lia]|].
  rewrite Nat.iter_succ, OnGatewayComplete_done.
  2: { clear. induction k as [|k IH]; [done|]. rewrite Nat.iter_succ.
       by apply (run_recovery_ok _ EvGatewayComplete). }
  rewrite iter_complete_expected, iter_complete_completed, He by (simpl; lia).
  rewrite i32_small by (simpl; lia).
  rewrite orb_true_iff, andb_true_iff, Z.ltb_lt, Z.leb_le, IH by lia. simpl. lia.
Qed.

Lemma recovery_done_iff_all_reported_witness :
  done (Nat.iter 3 OnGatewayComplete (SetExpectedGateways 3 (NewRecoveryState 20 0))) = true ↔
  3 <= Z.of_nat 3.
Proof. apply (recovery_done_iff_all_reported 20 0 3 3); lia. Defined.

(** If nobody announces the expected number of gateways, completion
    reports never end the recovery: the done channel stays open whatever is
    reported, and [Wait] returns only once the full timeout has passed. *)
Theorem recovery_without_expected_needs_timeout tmo start es now :
  Forall (λ e, match e with EvSetExpected _ => False | _ => True end) es →
  let r := foldl run_recovery (NewRecoveryState tmo start) es in
  done r = false ∧ (is_Some (Wait start now r) ↔ start + tmo <= now).
Proof.
  intros Hes.
  assert (∀ r, done r = false → expectedGateways r = 0 →
    let r' := foldl run_recovery r es in
    done r' = false ∧ timeout r' = timeout r) as Hrun.
  { induction Hes as [|e es He _ IH]; intros r Hd Hx; [done|]. simpl.
    assert (done (run_recovery r e) = false ∧ expectedGateways (run_recovery r e) = 0 ∧
            timeout (run_recovery r e) = timeout r) as (H1 & H2 & <-).
    { destruct e; [done| |done]. simpl. unfold OnGatewayComplete.
      cbn [expectedGateways]. by rewrite Hx. }
    by apply IH. }
  destruct (Hrun (NewRecoveryState tmo start)) as [Hd Ht]; [done..|].
  split; [done|]. unfold Wait. simpl in *. rewrite Hd, Ht.
  destruct (Z.leb_spec (start + tmo) now); split; [done|eauto|by intros []|lia].
Qed.

Lemma recovery_without_expected_needs_timeout_witness :
  let r := foldl run_recovery (NewRecoveryState 20 100)
             [EvUsersReceived 7; EvGatewayComplete; EvGatewayComplete] in
  done r = false ∧ (is_Some (Wait 100 119 r) ↔ 100 + 20 <= 119).
Proof.
  apply (recovery_without_expected_needs_timeout 20 100
    [EvUsersReceived 7; EvGatewayComplete; EvGatewayComplete] 119).
  repeat constructor.
Defined.
