(* ===== verification/Roomserver.v ===== *)
(** [internal/roomserver/server.go]: the server object and its control-plane
    operations on rooms and sessions, proved against the [SessionStore]
    interface.

    [now] is the clock reading of the operation (the calls of [time.Now]
    inside one operation read the same instant). *)

From Stdlib Require Import ZArith Lia.
From stdpp Require Import base tactics gmap strings numbers list.
From S2P Require Import Prelude Protocol Chan SessionStore SessionService RoomService Recovery HashRing.

Local Open Scope Z_scope.

(** A gateway stream object (grpc_server.go); [stream] and the lock have no
    state here. *)
Record GatewayConnection := mkGatewayConnection {
  gc_id : string;
  gc_addr : string;
  gc_sendCh : chan Envelope;
  gc_closed : bool;
}.

(** [*GatewayConnection]: an address in the store of stream objects. *)
Abbreviation ConnRef := nat.

Record Server (SS : Type) := mkServer {
  srv_id : string;                       (* cfg.Server.ID *)
  srv_disconnectTimeout : Z;             (* cfg.Disconnect.Timeout, seconds *)
  status : ServerStatus;
  epoch : Z;                             (* uint64 *)
  roomSvc : RoomService;
  sessionSvc : SS;
  gateways : gmap string ConnRef;        (* gateway_id → connection *)
  conns : gmap ConnRef GatewayConnection;
  recovery : RecoveryState;
  hashRing : HashRing;
}.
Arguments mkServer {SS}.
Arguments srv_id {SS}.
Arguments srv_disconnectTimeout {SS}.
Arguments status {SS}.
Arguments epoch {SS}.
Arguments roomSvc {SS}.
Arguments sessionSvc {SS}.
Arguments gateways {SS}.
Arguments conns {SS}.
Arguments recovery {SS}.
Arguments hashRing {SS}.

Section setters.
Context {SS : Type}.

Definition set_roomSvc (rs : RoomService) (s : Server SS) : Server SS :=
  mkServer (srv_id s) (srv_disconnectTimeout s) (status s) (epoch s) rs (sessionSvc s)
    (gateways s) (conns s) (recovery s) (hashRing s).

Definition set_sessionSvc (ss : SS) (s : Server SS) : Server SS :=
  mkServer (srv_id s) (srv_disconnectTimeout s) (status s) (epoch s) (roomSvc s) ss
    (gateways s) (conns s) (recovery s) (hashRing s).

Definition set_status (st : ServerStatus) (s : Server SS) : Server SS :=
  mkServer (srv_id s) (srv_disconnectTimeout s) st (epoch s) (roomSvc s) (sessionSvc s)
    (gateways s) (conns s) (recovery s) (hashRing s).

Definition set_gateways (gws : gmap string ConnRef) (s : Server SS) : Server SS :=
  mkServer (srv_id s) (srv_disconnectTimeout s) (status s) (epoch s) (roomSvc s)
    (sessionSvc s) gws (conns s) (recovery s) (hashRing s).

Definition set_conns (cs : gmap ConnRef GatewayConnection) (s : Server SS) : Server SS :=
  mkServer (srv_id s) (srv_disconnectTimeout s) (status s) (epoch s) (roomSvc s)
    (sessionSvc s) (gateways s) cs (recovery s) (hashRing s).

Definition set_recovery (r : RecoveryState) (s : Server SS) : Server SS :=
  mkServer (srv_id s) (srv_disconnectTimeout s) (status s) (epoch s) (roomSvc s)
    (sessionSvc s) (gateways s) (conns s) r (hashRing s).
End setters.

(** [NewServer(cfg)] started at [now]; [now_ms] is [time.Now().UnixMilli()]. *)
Definition NewServer {SS} (empty : SS) (id : string)
    (disconnectTimeout recoveryTimeout virtualNodes now now_ms : Z) : Server SS :=
  mkServer id disconnectTimeout ServerStatusRecovering (now_ms mod 2 ^ 64)
    NewRoomService empty ∅ ∅ (NewRecoveryState recoveryTimeout now) (NewHashRing virtualNodes).

Section server.
Context {SS : Type} `{SessionStore SS}.
Implicit Types (s : Server SS).

Definition GetStatus s : ServerStatus := status s.
Definition GetEpoch s : Z := epoch s.

Definition JoinRoom (userID roomID gatewayID : string) (now : Z) s :
    option string * Server SS :=
  let oldRoomID := GetUserRoom userID (sessionSvc s) in
  let s :=
    if decide (oldRoomID ≠ ""%string ∧ oldRoomID ≠ roomID)
    then set_roomSvc (RemoveUser oldRoomID userID (roomSvc s)) s else s in
  let '(err, rs) := AddUser roomID userID gatewayID now (roomSvc s) in
  let s := set_roomSvc rs s in
  match err with
  | Some e => (Some e, s)
  | None => (None, set_sessionSvc (UpdateSession userID roomID gatewayID now (sessionSvc s)) s)
  end.

Definition LeaveRoom (userID roomID : string) s : Server SS :=
  let s := set_roomSvc (RemoveUser roomID userID (roomSvc s)) s in
  set_sessionSvc (DeleteSession userID (sessionSvc s)) s.

Definition Resume (userID roomID gatewayID : string) (now : Z) s :
    (Z * string) * Server SS :=
  match GetSession userID (sessionSvc s) with
  | None => ((ErrCodeUserNotInRoom, ""%string), s)
  | Some session =>
    if decide (s_RoomID session ≠ roomID)
    then ((ErrCodeRoomMismatch, s_RoomID session), s)
    else if negb (RoomExists roomID (roomSvc s))
    then ((ErrCodeRoomClosed, ""%string), s)
    else
      let '(_, rs) := UpdateUserGateway roomID userID gatewayID (roomSvc s) in
      let s := set_roomSvc rs s in
      let s := set_sessionSvc (UpdateSession userID roomID gatewayID now (sessionSvc s)) s in
      ((ErrCodeSuccess, ""%string), s)
  end.

Definition UserDisconnect (userID roomID : string) (now : Z) s : Server SS :=
  let s := set_roomSvc (SetUserDisconnected roomID userID now (roomSvc s)) s in
  set_sessionSvc (SetDisconnected userID now (sessionSvc s)) s.

Definition GetGatewayByID (gatewayID : string) s : option ConnRef := gateways s !! gatewayID.

(** The body of the loop over the user ids. *)
Definition check_user (timeout now : Z) s (userID : string) : Server SS :=
  if IsUserDisconnected userID (sessionSvc s) then
    let duration := GetDisconnectedDuration userID now (sessionSvc s) in
    if timeout <=? duration then
      match GetSession userID (sessionSvc s) with
      | Some session => LeaveRoom userID (s_RoomID session) s
      | None => s
      end
    else s
  else s.

(** The clock is read for each user that is disconnected. *)
Definition checkDisconnectTimeout_at `{O : MapOrder} (timeout : Z) (clock : string → Z) s :
    Server SS :=
  foldl (λ s userID, check_user timeout (clock userID) s userID) s
    (GetAllUserIDs O (sessionSvc s)).

(** The same when the clock stands still during the loop. *)
Definition checkDisconnectTimeout `{O : MapOrder} (timeout now : Z) s : Server SS :=
  checkDisconnectTimeout_at timeout (λ _, now) s.

(** One tick of [disconnectTimeoutChecker]; durations are nanoseconds. *)
Definition disconnectTick `{O : MapOrder} (now : Z) s : Server SS :=
  checkDisconnectTimeout (srv_disconnectTimeout s * 1000000000) now s.

(** [recoveryMonitor], from the moment its [Wait] (started at [start])
    returns; [None] is "still waiting". *)
Definition recoveryMonitor (start now : Z) s : option (Server SS) :=
  match Wait start now (recovery s) with
  | None => None
  | Some r => Some (set_status ServerStatusReady (set_recovery r s))
  end.
End server.

(** ** Specification: one presence entry per user

    The contract of the control plane: each user is in at most one room, on
    one gateway, online or disconnected since some instant. *)
Record Presence := mkPresence {
  p_room : string;
  p_gateway : string;
  p_status : MemberStatus;
  p_since : gotime;           (* when disconnected *)
}.

#[export] Instance Presence_eq_dec : EqDecision Presence.
Proof. solve_decision. Defined.

Definition presence_of (s : Session) : Presence :=
  mkPresence (s_RoomID s) (s_GatewayID s) (s_Status s) (s_DisconnectedAt s).

Definition go_offline (now : Z) (p : Presence) : Presence :=
  mkPresence (p_room p) (p_gateway p) MemberStatusDisconnected (Some now).

Definition expired (timeout now : Z) (p : Presence) : Prop :=
  p_status p = MemberStatusDisconnected ∧ timeout <= time_since now (p_since p).

#[export] Instance expired_dec timeout now p : Decision (expired timeout now p).
Proof. unfold expired. apply _. Defined.

Section spec.
Context {SS : Type} `{SessionStoreLaws SS}.
Implicit Types (s : Server SS) (u rid g : string).

(** The abstraction function. *)
Definition presence s : gmap string Presence := presence_of <$> sessions (sessionSvc s).

(** A room member agrees with the presence entry of its user. *)
Definition member_matches (rid : string) (m : RoomMember) (p : Presence) : Prop :=
  p_room p = rid ∧ rm_GatewayID m = p_gateway p ∧ rm_Status m = p_status p.

(** Every member of a room has a session in that room ... *)
Definition members_have_sessions s : Prop :=
  ∀ rid u m, member (roomSvc s) rid u = Some m →
    ∃ p, presence s !! u = Some p ∧ p_room p = rid.

(** ... and every session is backed by a room member that agrees. *)
Definition sessions_have_members s : Prop :=
  ∀ u p, presence s !! u = Some p →
    ∃ m, member (roomSvc s) (p_room p) u = Some m ∧ member_matches (p_room p) m p.

Definition sessions_in_rooms s : Prop :=
  ∀ u p, presence s !! u = Some p → p_room p ≠ ""%string.

Definition server_wf s : Prop := store_ok (sessionSvc s) ∧ rooms_wf (roomSvc s).

Definition coherent s : Prop :=
  server_wf s ∧ members_have_sessions s ∧ sessions_have_members s ∧ sessions_in_rooms s.

(** ** How the operations change the presence map *)
Lemma presence_set_roomSvc rs s : presence (set_roomSvc rs s) = presence s.
Proof. done. Qed.

Lemma presence_lookup s u :
  presence s !! u = presence_of <$> sessions (sessionSvc s) !! u.
Proof. apply lookup_fmap. Qed.

Lemma presence_GetSession s u :
  store_ok (sessionSvc s) → presence s !! u = presence_of <$> GetSession u (sessionSvc s).
Proof. intros Hok. by rewrite presence_lookup, GetSession_ok. Qed.

Lemma GetUserRoom_presence s u :
  store_ok (sessionSvc s) →
  GetUserRoom u (sessionSvc s) = default ""%string (p_room <$> presence s !! u).
Proof.
  intros Hok. unfold GetUserRoom. rewrite presence_GetSession by done.
  by destruct (GetSession u (sessionSvc s)).
Qed.

Lemma presence_JoinRoom u rid g now s :
  store_ok (sessionSvc s) →
  store_ok (sessionSvc (JoinRoom u rid g now s).2) ∧
  presence (JoinRoom u rid g now s).2 =
    <[u := mkPresence rid g MemberStatusOnline None]> (presence s).
Proof.
  intros Hok. unfold JoinRoom.
  destruct (UpdateSession_ok u rid g now (sessionSvc s) Hok) as [Hok' Hs].
  rewrite AddUser_no_error. unfold presence. case_decide; simpl;
    (split; [done|]); rewrite Hs, fmap_insert; f_equal;
    by destruct (sessions (sessionSvc s) !! u).
Qed.

Lemma presence_LeaveRoom u rid s :
  store_ok (sessionSvc s) →
  store_ok (sessionSvc (LeaveRoom u rid s)) ∧
  presence (LeaveRoom u rid s) = delete u (presence s).
Proof.
  intros Hok. destruct (DeleteSession_ok u (sessionSvc s) Hok) as [Hok' Hs].
  split; [done|]. unfold presence, LeaveRoom. simpl. by rewrite Hs, fmap_delete.
Qed.

Lemma presence_UserDisconnect u rid now s :
  store_ok (sessionSvc s) →
  store_ok (sessionSvc (UserDisconnect u rid now s)) ∧
  presence (UserDisconnect u rid now s) = alter (go_offline now) u (presence s).
Proof.
  intros Hok. destruct (SetDisconnected_ok u now (sessionSvc s) Hok) as [Hok' Hs].
  split; [done|]. unfold presence, UserDisconnect. simpl. rewrite Hs.
  apply map_eq. intros v. rewrite lookup_fmap. destruct (decide (v = u)) as [->|].
  - rewrite !lookup_alter_eq, lookup_fmap. by destruct (sessions _ !! u).
  - by rewrite !lookup_alter_ne, lookup_fmap.
Qed.

(** [Resume] by its four outcomes. *)
Lemma Resume_cases u rid g now s :
  store_ok (sessionSvc s) →
  match presence s !! u with
  | None => Resume u rid g now s = ((ErrCodeUserNotInRoom, ""%string), s)
  | Some p =>
    if decide (p_room p ≠ rid) then Resume u rid g now s = ((ErrCodeRoomMismatch, p_room p), s)
    else if decide (rooms (roomSvc s) !! rid = None)
    then Resume u rid g now s = ((ErrCodeRoomClosed, ""%string), s)
    else ∃ s', Resume u rid g now s = ((ErrCodeSuccess, ""%string), s') ∧
      store_ok (sessionSvc s') ∧
      roomSvc s' = (UpdateUserGateway rid u g (roomSvc s)).2 ∧
      presence s' = <[u := mkPresence rid g MemberStatusOnline None]> (presence s)
  end.
Proof.
  intros Hok. rewrite presence_GetSession by done. unfold Resume.
  destruct (GetSession u (sessionSvc s)) as [se|] eqn:Hse; simpl; [|done].
  destruct (decide (s_RoomID se ≠ rid)) as [|Hr]; [done|].
  unfold RoomExists. destruct (decide (rooms (roomSvc s) !! rid = None)) as [Hn|Hs].
  - rewrite Hn, bool_decide_false by (by intros []). done.
  - rewrite bool_decide_true by (by destruct (rooms (roomSvc s) !! rid)).
    simpl. destruct (UpdateUserGateway rid u g (roomSvc s)) as [b rs]. simpl.
    destruct (UpdateSession_ok u rid g now (sessionSvc s) Hok) as [Hok' Hs'].
    eexists. split; [done|]. simpl. split_and!; [done..|].
    unfold presence. simpl. rewrite Hs', fmap_insert. f_equal.
    by destruct (sessions (sessionSvc s) !! u).
Qed.
End spec.

(** ** Room membership after each operation *)
Section membership.
Context {SS : Type} `{SessionStoreLaws SS}.
Implicit Types (s : Server SS) (u rid g : string).

(** The room [JoinRoom] removes the user from. *)
Definition left_room u rid s : option string :=
  let old := GetUserRoom u (sessionSvc s) in
  if decide (old ≠ ""%string ∧ old ≠ rid) then Some old else None.

Lemma member_JoinRoom u rid g now s rid' u' :
  member (roomSvc (JoinRoom u rid g now s).2) rid' u' =
  if decide (u' = u)
  then if decide (rid' = rid) then Some (mkRoomMember u g MemberStatusOnline (Some now) None)
       else if decide (left_room u rid s = Some rid') then None
       else member (roomSvc s) rid' u'
  else member (roomSvc s) rid' u'.
Proof.
  unfold JoinRoom, left_room.
  set (old := GetUserRoom u (sessionSvc s)).
  set (s1 := if decide (old ≠ ""%string ∧ old ≠ rid) then _ else s).
  rewrite AddUser_no_error. simpl. rewrite member_AddUser. unfold s1.
  destruct (decide (old ≠ ""%string ∧ old ≠ rid)) as [[H1 H2]|Hold]; simpl.
  - rewrite member_RemoveUser.
    destruct (decide (u' = u)) as [->|], (decide (rid' = rid)) as [->|];
      repeat case_decide; naive_solver.
  - destruct (decide (u' = u)) as [->|], (decide (rid' = rid)) as [->|];
      repeat case_decide; naive_solver.
Qed.

Lemma server_wf_status st s : server_wf s → server_wf (set_status st s).
Proof. done. Qed.

Lemma JoinRoom_wf u rid g now s : server_wf s → server_wf (JoinRoom u rid g now s).2.
Proof.
  intros [Hok Hwf]. split; [by apply presence_JoinRoom|].
  unfold JoinRoom. rewrite AddUser_no_error. simpl. case_decide; simpl; auto with rooms.
Qed.

Lemma LeaveRoom_wf u rid s : server_wf s → server_wf (LeaveRoom u rid s).
Proof. intros [Hok Hwf]. split; [by apply presence_LeaveRoom|]. simpl. auto with rooms. Qed.

Lemma UserDisconnect_wf u rid now s : server_wf s → server_wf (UserDisconnect u rid now s).
Proof.
  intros [Hok Hwf]. split; [by apply (presence_UserDisconnect u rid now)|].
  simpl. auto with rooms.
Qed.

Lemma Resume_wf u rid g now s : server_wf s → server_wf (Resume u rid g now s).2.
Proof.
  intros [Hok Hwf]. pose proof (Resume_cases u rid g now s Hok) as Hr.
  destruct (presence s !! u) as [p|]; [|by rewrite Hr].
  repeat case_decide; try by rewrite Hr.
  destruct Hr as (s' & -> & Hok' & Hrs & _). split; [done|]. simpl. rewrite Hrs.
  auto with rooms.
Qed.

Definition CloseRoomOf rid s : Server SS := set_roomSvc (CloseRoom rid (roomSvc s)).2 s.

Lemma CloseRoomOf_wf rid s : server_wf s → server_wf (CloseRoomOf rid s).
Proof. intros [Hok Hwf]. split; [done|]. simpl. auto with rooms. Qed.

(** *** The timeout check *)
Lemma check_user_spec tmo now s u :
  store_ok (sessionSvc s) →
  check_user tmo now s u =
    match presence s !! u with
    | Some p => if decide (expired tmo now p) then LeaveRoom u (p_room p) s else s
    | None => s
    end.
Proof.
  intros Hok. rewrite presence_GetSession by done.
  unfold check_user, IsUserDisconnected, GetDisconnectedDuration.
  destruct (GetSession u (sessionSvc s)) as [se|]; simpl; [|done].
  unfold expired. simpl.
  case_bool_decide as Hd; [|by rewrite decide_False by naive_solver].
  destruct (decide (s_Status se ≠ MemberStatusDisconnected)); [naive_solver|].
  destruct (Z.leb_spec tmo (time_since now (s_DisconnectedAt se))).
  - by rewrite decide_True.
  - rewrite decide_False; [done|]. intros [_ ?]. lia.
Qed.

Lemma check_user_wf tmo now s u : server_wf s → server_wf (check_user tmo now s u).
Proof.
  intros Hwf. rewrite check_user_spec by apply Hwf.
  destruct (presence s !! u); [|done]. case_decide; [by apply LeaveRoom_wf|done].
Qed.

Lemma presence_check_user tmo now v s :
  server_wf s → ∀ u,
  presence (check_user tmo now s v) !! u =
    if decide (u = v)
    then (presence s !! u ≫= λ p, if decide (expired tmo now p) then None else Some p)
    else presence s !! u.
Proof.
  intros Hwf u. rewrite check_user_spec by apply Hwf.
  destruct (presence s !! v) as [p|] eqn:Hpv.
  - destruct (decide (expired tmo now p)) as [He|He].
    + destruct (presence_LeaveRoom v (p_room p) s) as [_ ->]; [apply Hwf|].
      case_decide as Hd; [subst|by rewrite lookup_delete_ne].
      rewrite lookup_delete_eq, Hpv. simpl. by rewrite decide_True.
    + case_decide as Hd; [subst|done]. rewrite Hpv. simpl. by rewrite decide_False.
  - case_decide as Hd; [subst|done]. by rewrite Hpv.
Qed.

Lemma member_check_user tmo now v s :
  server_wf s → ∀ rid u,
  member (roomSvc (check_user tmo now s v)) rid u =
    match presence s !! u with
    | Some p => if decide (u = v ∧ expired tmo now p ∧ p_room p = rid) then None
                else member (roomSvc s) rid u
    | None => member (roomSvc s) rid u
    end.
Proof.
  intros Hwf rid u. rewrite check_user_spec by apply Hwf.
  destruct (decide (u = v)) as [->|Hne].
  - destruct (presence s !! v) as [p|] eqn:Hpv; [|done].
    destruct (decide (expired tmo now p)) as [He|He].
    + simpl. rewrite member_RemoveUser. repeat case_decide; naive_solver.
    + by rewrite decide_False by naive_solver.
  - assert (∀ A (x y : A), match presence s !! u with
      | Some p => if decide (u = v ∧ expired tmo now p ∧ p_room p = rid) then x else y
      | None => y end = y) as ->
      by (intros; case_match; [by rewrite decide_False by naive_solver|done]).
    destruct (presence s !! v); [|done]. case_decide; [|done]. simpl.
    rewrite member_RemoveUser. by rewrite decide_False by naive_solver.
Qed.

(** The whole loop, for any list of users without repetition. *)
Lemma check_users_spec tmo (clock : string → Z) us s :
  NoDup us → server_wf s →
  let s' := foldl (λ s u, check_user tmo (clock u) s u) s us in
  server_wf s' ∧
  (∀ u, presence s' !! u =
     if decide (u ∈ us)
     then (presence s !! u ≫= λ p, if decide (expired tmo (clock u) p) then None else Some p)
     else presence s !! u) ∧
  (∀ rid u, member (roomSvc s') rid u =
     match presence s !! u with
     | Some p => if decide (u ∈ us ∧ expired tmo (clock u) p ∧ p_room p = rid) then None
                 else member (roomSvc s) rid u
     | None => member (roomSvc s) rid u
     end).
Proof.
  intros Hnd. revert s. induction us as [|v us IH]; intros s Hwf; simpl.
  { split_and!; [done|done|]. intros rid u. by case_match. }
  apply NoDup_cons in Hnd as [Hv Hnd].
  destruct (IH Hnd (check_user tmo (clock v) s v) (check_user_wf _ _ _ _ Hwf)) as (Hwf' & Hp & Hm).
  pose proof (presence_check_user tmo (clock v) v s Hwf) as Hp1.
  pose proof (member_check_user tmo (clock v) v s Hwf) as Hm1.
  split_and!; [done| |].
  - intros u. rewrite Hp, Hp1. destruct (decide (u = v)) as [->|Hne].
    + rewrite !decide_False, decide_True by (done || by left). done.
    + repeat case_decide; rewrite ?elem_of_cons in *; naive_solver.
  - intros rid u. rewrite Hm, Hp1, Hm1. destruct (presence s !! u) as [p|] eqn:Hpu.
    + destruct (decide (u = v)) as [->|Hne]; simpl.
      * destruct (decide (expired tmo (clock v) p)) as [He|He].
        -- repeat case_decide; rewrite ?elem_of_cons in *; naive_solver.
        -- repeat case_decide; rewrite ?elem_of_cons in *; naive_solver.
      * repeat case_decide; rewrite ?elem_of_cons in *; naive_solver.
    + by case_decide.
Qed.

Lemma checkDisconnectTimeout_at_spec `{O : MapOrder} tmo (clock : string → Z) s :
  server_wf s →
  let s' := checkDisconnectTimeout_at tmo clock s in
  server_wf s' ∧
  presence s' = filter (λ kp, ¬ expired tmo (clock kp.1) kp.2) (presence s) ∧
  (∀ rid u, member (roomSvc s') rid u =
     match presence s !! u with
     | Some p => if decide (expired tmo (clock u) p ∧ p_room p = rid) then None
                 else member (roomSvc s) rid u
     | None => member (roomSvc s) rid u
     end).
Proof.
  intros Hwf. destruct (GetAllUserIDs_ok O (sessionSvc s)) as [Hnd Hin]; [apply Hwf|].
  destruct (check_users_spec tmo clock _ s Hnd Hwf) as (Hwf' & Hp & Hm).
  assert (∀ u p, presence s !! u = Some p → u ∈ GetAllUserIDs O (sessionSvc s)) as Hall.
  { intros u p Hu. apply Hin. rewrite presence_lookup in Hu.
    apply fmap_Some in Hu as (se & -> & _). eauto. }
  simpl. unfold checkDisconnectTimeout_at. split_and!; [done| |].
  - apply map_eq. intros u. rewrite Hp, map_lookup_filter.
    destruct (presence s !! u) as [p|] eqn:Hu.
    + rewrite decide_True by eauto. simpl. case_decide.
      * by rewrite option_guard_False by naive_solver.
      * by rewrite option_guard_True.
    + by case_decide.
  - intros rid u. rewrite Hm. destruct (presence s !! u) as [p|] eqn:Hu; [|done].
    repeat case_decide; naive_solver.
Qed.

Lemma checkDisconnectTimeout_spec `{O : MapOrder} tmo now s :
  server_wf s →
  let s' := checkDisconnectTimeout tmo now s in
  server_wf s' ∧
  presence s' = filter (λ kp, ¬ expired tmo now kp.2) (presence s) ∧
  (∀ rid u, member (roomSvc s') rid u =
     match presence s !! u with
     | Some p => if decide (expired tmo now p ∧ p_room p = rid) then None
                 else member (roomSvc s) rid u
     | None => member (roomSvc s) rid u
     end).
Proof. apply (checkDisconnectTimeout_at_spec tmo (λ _, now)). Qed.
End membership.

(** ** Histories of control-plane operations *)
Inductive CtlOp :=
  | CtlJoin (u rid g : string) (now : Z)
  | CtlLeave (u rid : string)
  | CtlResume (u rid g : string) (now : Z)
  | CtlDisconnect (u rid : string) (now : Z)
  | CtlTick (ord : MapOrder) (tmo now : Z)
  | CtlClose (rid : string).

Section histories.
Context {SS : Type} `{SessionStoreLaws SS}.
Implicit Types (s : Server SS) (σ : gmap string Presence) (u rid g : string).

Definition run_ctl s (op : CtlOp) : Server SS :=
  match op with
  | CtlJoin u rid g now => (JoinRoom u rid g now s).2
  | CtlLeave u rid => LeaveRoom u rid s
  | CtlResume u rid g now => (Resume u rid g now s).2
  | CtlDisconnect u rid now => UserDisconnect u rid now s
  | CtlTick ord tmo now => checkDisconnectTimeout (O := ord) tmo now s
  | CtlClose rid => CloseRoomOf rid s
  end.

Lemma run_ctl_wf s op : server_wf s → server_wf (run_ctl s op).
Proof.
  intros Hwf. destruct op as [u rid g now|u rid|u rid g now|u rid now|ord tmo now|rid];
    cbn [run_ctl].
  - by apply JoinRoom_wf.
  - by apply LeaveRoom_wf.
  - by apply Resume_wf.
  - by apply UserDisconnect_wf.
  - by apply (checkDisconnectTimeout_spec (O := ord) tmo now s Hwf).
  - by apply CloseRoomOf_wf.
Qed.

Lemma foldl_run_ctl_wf s ops : server_wf s → server_wf (foldl run_ctl s ops).
Proof.
  revert s. induction ops as [|op ops IH]; intros s Hwf; [done|]. by apply IH, run_ctl_wf.
Qed.

(** What the operations mean on the presence map; closing a room has no
    such meaning (see [CloseRoom_strands_sessions]). *)
Definition spec_ctl σ (op : CtlOp) : gmap string Presence :=
  match op with
  | CtlJoin u rid g _ => <[u := mkPresence rid g MemberStatusOnline None]> σ
  | CtlLeave u _ => delete u σ
  | CtlResume u rid g _ =>
    match σ !! u with
    | Some p => if decide (p_room p = rid)
                then <[u := mkPresence rid g MemberStatusOnline None]> σ else σ
    | None => σ
    end
  | CtlDisconnect u _ now => alter (go_offline now) u σ
  | CtlTick _ tmo now => filter (λ kp, ¬ expired tmo now kp.2) σ
  | CtlClose _ => σ
  end.

Definition in_room σ u rid : Prop := ∀ p, σ !! u = Some p → p_room p = rid.

(** Requests that name a proper room: joins a non-empty room id, leaves and
    disconnects of the room the user is in, no closed rooms. *)
Definition respectful σ (op : CtlOp) : Prop :=
  match op with
  | CtlJoin _ rid _ _ => rid ≠ ""%string
  | CtlLeave u rid | CtlDisconnect u rid _ => in_room σ u rid
  | CtlResume _ _ _ _ | CtlTick _ _ _ => True
  | CtlClose _ => False
  end.

Lemma coherent_member s u rid m :
  coherent s → member (roomSvc s) rid u = Some m →
  ∃ p, presence s !! u = Some p ∧ p_room p = rid ∧ member_matches rid m p.
Proof.
  intros (_ & Hms & Hsm & _) Hm. destruct (Hms rid u m Hm) as (p & Hp & <-).
  destruct (Hsm u p Hp) as (m' & Hm' & Hmm). simplify_eq. eauto.
Qed.

Lemma coherent_absent s u rid :
  coherent s → presence s !! u = None → member (roomSvc s) rid u = None.
Proof.
  intros Hco Hp. destruct (member _ _ _) as [m|] eqn:Hm; [|done].
  apply coherent_member in Hm as (? & ? & _); [congruence|done].
Qed.

Lemma coherent_other_room s u rid p :
  coherent s → presence s !! u = Some p → p_room p ≠ rid →
  member (roomSvc s) rid u = None.
Proof.
  intros Hco Hp Hne. destruct (member _ _ _) as [m|] eqn:Hm; [|done].
  apply coherent_member in Hm as (? & ? & ? & _); [congruence|done].
Qed.

(** Coherence from a pointwise description of the membership. *)
Lemma coherent_intro s :
  server_wf s →
  (∀ u p, presence s !! u = Some p → p_room p ≠ ""%string) →
  (∀ u rid, match presence s !! u with
    | Some p => if decide (p_room p = rid)
                then ∃ m, member (roomSvc s) rid u = Some m ∧ member_matches rid m p
                else member (roomSvc s) rid u = None
    | None => member (roomSvc s) rid u = None
    end) → coherent s.
Proof.
  intros Hwf Hne Hall. split_and!; [done| |..|done].
  - intros rid u m Hm. specialize (Hall u rid).
    destruct (presence s !! u) as [p|]; [|congruence].
    case_decide; [eauto|congruence].
  - intros u p Hp. specialize (Hall u (p_room p)). rewrite Hp, decide_True in Hall by done.
    done.
Qed.

Lemma coherent_elim s u rid :
  coherent s →
  match presence s !! u with
  | Some p => if decide (p_room p = rid)
              then ∃ m, member (roomSvc s) rid u = Some m ∧ member_matches rid m p
              else member (roomSvc s) rid u = None
  | None => member (roomSvc s) rid u = None
  end.
Proof.
  intros Hco. destruct (presence s !! u) as [p|] eqn:Hp; [|by apply coherent_absent].
  case_decide as Hd; [|by eapply coherent_other_room].
  destruct Hco as (_ & _ & Hsm & _). apply Hsm in Hp. by rewrite Hd in Hp.
Qed.

Lemma coherent_Join u rid g now s :
  coherent s → rid ≠ ""%string →
  coherent (JoinRoom u rid g now s).2 ∧
  presence (JoinRoom u rid g now s).2 = <[u := mkPresence rid g MemberStatusOnline None]> (presence s).
Proof.
  intros Hco Hrid. pose proof Hco as (Hwf & _ & _ & Hne).
  destruct (presence_JoinRoom u rid g now s) as [_ Hp]; [apply Hwf|]. split; [|done].
  apply coherent_intro; [by apply JoinRoom_wf| |].
  - intros v p. rewrite Hp. intros [[<- <-]|[_ Hv]]%lookup_insert_Some; eauto.
  - intros v rid'. rewrite Hp, member_JoinRoom. destruct (decide (v = u)) as [->|Hvu].
    + rewrite lookup_insert_eq. simpl. case_decide as Hd.
      * subst. rewrite decide_True by done. eexists. done.
      * rewrite decide_False by done. unfold left_room.
        rewrite GetUserRoom_presence by apply Hwf.
        pose proof (coherent_elim s u rid' Hco) as Hel.
        destruct (presence s !! u) as [p|] eqn:Hpu; simpl.
        -- pose proof (Hne u p Hpu). destruct (decide (p_room p = rid')) as [Hpr|Hpr].
           ++ rewrite (decide_True (P := p_room p ≠ ""%string ∧ _)) by (split; congruence).
              by rewrite decide_True by congruence.
           ++ rewrite Hel. by case_decide.
        -- done.
    + rewrite lookup_insert_ne by done. by apply coherent_elim.
Qed.

Lemma coherent_Leave u rid s :
  coherent s → in_room (presence s) u rid →
  coherent (LeaveRoom u rid s) ∧ presence (LeaveRoom u rid s) = delete u (presence s).
Proof.
  intros Hco Hin. pose proof Hco as (Hwf & _ & _ & Hne).
  destruct (presence_LeaveRoom u rid s) as [_ Hp]; [apply Hwf|]. split; [|done].
  apply coherent_intro; [by apply LeaveRoom_wf| |].
  - intros v p. rewrite Hp. intros [_ Hv]%lookup_delete_Some. eauto.
  - intros v rid'. rewrite Hp. simpl. rewrite member_RemoveUser.
    pose proof (coherent_elim s v rid' Hco) as Hel.
    destruct (decide (v = u)) as [->|Hvu].
    + rewrite lookup_delete_eq. case_decide; [done|].
      destruct (presence s !! u) as [p|] eqn:Hpu; [|done].
      rewrite (Hin p Hpu) in Hel. by rewrite decide_False in Hel by naive_solver.
    + rewrite lookup_delete_ne, decide_False by naive_solver. done.
Qed.

Lemma coherent_Disconnect u rid now s :
  coherent s → in_room (presence s) u rid →
  coherent (UserDisconnect u rid now s) ∧
  presence (UserDisconnect u rid now s) = alter (go_offline now) u (presence s).
Proof.
  intros Hco Hin. pose proof Hco as (Hwf & _ & _ & Hne).
  destruct (presence_UserDisconnect u rid now s) as [_ Hp]; [apply Hwf|]. split; [|done].
  apply coherent_intro; [by apply UserDisconnect_wf| |].
  - intros v p. rewrite Hp. intros Hv. destruct (decide (v = u)) as [->|].
    + rewrite lookup_alter_eq in Hv. apply fmap_Some in Hv as (p' & Hp' & ->).
      simpl. by apply (Hne u).
    + rewrite lookup_alter_ne in Hv by done. eauto.
  - intros v rid'. rewrite Hp. simpl. rewrite member_SetUserDisconnected.
    pose proof (coherent_elim s v rid' Hco) as Hel.
    destruct (decide (v = u)) as [->|Hvu].
    + rewrite lookup_alter_eq. destruct (presence s !! u) as [p|] eqn:Hpu; simpl.
      * pose proof (Hin p Hpu) as Hpr. rewrite Hpr in *. case_decide as Hd.
        -- subst. rewrite decide_True by done.
           destruct Hel as (m & -> & _ & Hg & _). simpl. eexists. split; [done|].
           by split_and!.
        -- by rewrite decide_False by naive_solver.
      * case_decide as Hd; [|done]. by rewrite coherent_absent.
    + rewrite lookup_alter_ne, decide_False by naive_solver. done.
Qed.

Lemma coherent_Resume u rid g now s :
  coherent s →
  coherent (Resume u rid g now s).2 ∧
  presence (Resume u rid g now s).2 = spec_ctl (presence s) (CtlResume u rid g now).
Proof.
  intros Hco. pose proof Hco as (Hwf & _ & _ & Hne). simpl.
  pose proof (Resume_cases u rid g now s (proj1 Hwf)) as Hr.
  pose proof (Resume_wf u rid g now s Hwf) as Hwf'.
  pose proof (coherent_elim s u rid Hco) as Hel.
  destruct (presence s !! u) as [p|] eqn:Hpu; [|by rewrite Hr].
  destruct (decide (p_room p = rid)) as [Hpr|Hpr].
  2: { rewrite decide_True in Hr by done. by rewrite Hr. }
  rewrite decide_False in Hr by naive_solver. destruct Hel as (m & Hm & Hmm).
  destruct (decide (rooms (roomSvc s) !! rid = None)) as [Hn|_].
  { unfold member in Hm. by rewrite Hn in Hm. }
  destruct Hr as (s' & Hres & _ & Hrs & Hp'). rewrite Hres in *. simpl in *.
  split; [|done].
  apply coherent_intro; [done| |].
  - intros v p'. rewrite Hp'. intros [[<- <-]|[_ Hv]]%lookup_insert_Some; [|eauto].
    simpl. subst rid. by apply (Hne u).
  - intros v rid'. rewrite Hp', Hrs, member_UpdateUserGateway.
    destruct (decide (v = u)) as [->|Hvu].
    + rewrite lookup_insert_eq. simpl. case_decide as Hd'.
      * subst rid'. rewrite decide_True by done. rewrite Hm. simpl. eexists. done.
      * rewrite decide_False by naive_solver. eapply coherent_other_room; [done..|congruence].
    + rewrite lookup_insert_ne, decide_False by naive_solver. by apply coherent_elim.
Qed.

Lemma coherent_Tick `{O : MapOrder} tmo now s :
  coherent s →
  coherent (checkDisconnectTimeout tmo now s) ∧
  presence (checkDisconnectTimeout tmo now s) =
    filter (λ kp, ¬ expired tmo now kp.2) (presence s).
Proof.
  intros Hco. pose proof Hco as (Hwf & _ & _ & Hne).
  destruct (checkDisconnectTimeout_spec tmo now s Hwf) as (Hwf' & Hp & Hm).
  split; [|done]. apply coherent_intro; [done| |].
  - intros v p. rewrite Hp. intros [Hv _]%map_lookup_filter_Some. eauto.
  - intros v rid. rewrite Hp, Hm, map_lookup_filter.
    pose proof (coherent_elim s v rid Hco) as Hel.
    destruct (presence s !! v) as [p|] eqn:Hpv; simpl; [|done].
    destruct (decide (expired tmo now p)) as [He|He].
    + rewrite option_guard_False by naive_solver. repeat case_decide; naive_solver.
    + rewrite option_guard_True by done. simpl.
      rewrite (decide_False (P := expired tmo now p ∧ _)) by naive_solver. done.
Qed.

Lemma coherent_step s op :
  coherent s → respectful (presence s) op →
  coherent (run_ctl s op) ∧ presence (run_ctl s op) = spec_ctl (presence s) op.
Proof.
  intros Hco Hr. destruct op; simpl in *.
  - by apply coherent_Join.
  - by apply coherent_Leave.
  - by apply coherent_Resume.
  - by apply coherent_Disconnect.
  - by apply coherent_Tick.
  - done.
Qed.

(** A history all of whose requests are respectful when they arrive. *)
Fixpoint respectful_history σ (ops : list CtlOp) : Prop :=
  match ops with
  | [] => True
  | op :: ops => respectful σ op ∧ respectful_history (spec_ctl σ op) ops
  end.

Lemma coherent_new (empty : SS) id dt rt vn now now_ms :
  store_ok empty → sessions empty = ∅ → coherent (NewServer empty id dt rt vn now now_ms).
Proof.
  intros Hok He. assert (∀ u, presence (NewServer empty id dt rt vn now now_ms) !! u = None)
    as Hp by (intros u; rewrite presence_lookup; simpl; by rewrite He, lookup_empty).
  apply coherent_intro; [split; [done|apply NewRoomService_wf]| |].
  - intros u p. by rewrite Hp.
  - intros u rid. rewrite Hp. done.
Qed.
End histories.

(** ** One room per user, under the weaker assumption that joins name a
    non-empty room and leaves name the room the user is in *)
Section one_room.
Context {SS : Type} `{SessionStoreLaws SS}.
Implicit Types (s : Server SS) (u rid g : string).

Definition members_inv s : Prop :=
  server_wf s ∧ members_have_sessions s ∧ sessions_in_rooms s.

Definition tame s (op : CtlOp) : Prop :=
  match op with
  | CtlJoin _ rid _ _ => rid ≠ ""%string
  | CtlLeave u rid => in_room (presence s) u rid
  | _ => True
  end.

Fixpoint tame_history s (ops : list CtlOp) : Prop :=
  match ops with
  | [] => True
  | op :: ops => tame s op ∧ tame_history (run_ctl s op) ops
  end.

Lemma members_inv_Join u rid g now s :
  rid ≠ ""%string → members_inv s → members_inv (JoinRoom u rid g now s).2.
Proof.
  intros Hrid (Hwf & Hms & Hne).
  destruct (presence_JoinRoom u rid g now s (proj1 Hwf)) as [_ Hp].
  split_and!; [by apply JoinRoom_wf| |].
  - intros r v m. rewrite member_JoinRoom, Hp. destruct (decide (v = u)) as [->|Hvu].
    + rewrite lookup_insert_eq. case_decide as Hr; [subst; eauto|].
      case_decide as Hl; [done|]. intros (p & Hpu & Hpr)%Hms. destruct Hl.
      unfold left_room. rewrite GetUserRoom_presence by apply Hwf. rewrite Hpu. simpl.
      pose proof (Hne u p Hpu). rewrite decide_True by (split; congruence). congruence.
    + rewrite lookup_insert_ne by done. apply Hms.
  - intros v p. rewrite Hp. intros [[<- <-]|[_ Hv]]%lookup_insert_Some; eauto.
Qed.

Lemma members_inv_Leave u rid s :
  in_room (presence s) u rid → members_inv s → members_inv (LeaveRoom u rid s).
Proof.
  intros Hin (Hwf & Hms & Hne).
  destruct (presence_LeaveRoom u rid s (proj1 Hwf)) as [_ Hp].
  split_and!; [by apply LeaveRoom_wf| |].
  - intros r v m. simpl. rewrite member_RemoveUser, Hp.
    case_decide as Hd; [done|]. intros (p & Hpv & Hpr)%Hms.
    destruct (decide (v = u)) as [->|Hvu].
    + pose proof (Hin p Hpv). naive_solver.
    + rewrite lookup_delete_ne by done. eauto.
  - intros v p. rewrite Hp. intros [_ Hv]%lookup_delete_Some. eauto.
Qed.

Lemma members_inv_Disconnect u rid now s :
  members_inv s → members_inv (UserDisconnect u rid now s).
Proof.
  intros (Hwf & Hms & Hne).
  destruct (presence_UserDisconnect u rid now s (proj1 Hwf)) as [_ Hp].
  assert (∀ v p, presence s !! v = Some p →
    ∃ p', alter (go_offline now) u (presence s) !! v = Some p' ∧ p_room p' = p_room p) as Ha.
  { intros v p Hv. destruct (decide (v = u)) as [->|].
    - rewrite lookup_alter_eq, Hv. simpl. eauto.
    - rewrite lookup_alter_ne by done. eauto. }
  split_and!; [by apply UserDisconnect_wf| |].
  - intros r v m. simpl. rewrite member_SetUserDisconnected, Hp. intros Hm.
    assert (is_Some (member (roomSvc s) r v)) as [m' (p & Hv & <-)%Hms]
      by (case_decide as Hd; [destruct Hd as [-> ->]; apply fmap_Some in Hm as (? & ? & _)|]; eauto).
    by apply Ha in Hv.
  - intros v p'. rewrite Hp. destruct (decide (v = u)) as [->|].
    + rewrite lookup_alter_eq. intros (p & Hv & ->)%fmap_Some. exact (Hne u p Hv).
    + rewrite lookup_alter_ne by done. eauto.
Qed.

Lemma members_inv_Resume u rid g now s :
  members_inv s → members_inv (Resume u rid g now s).2.
Proof.
  intros (Hwf & Hms & Hne). pose proof (Resume_cases u rid g now s (proj1 Hwf)) as Hr.
  pose proof (Resume_wf u rid g now s Hwf) as Hwf'.
  destruct (presence s !! u) as [p|] eqn:Hpu; [|by rewrite Hr].
  destruct (decide (p_room p = rid)) as [Hpr|Hpr].
  2: { rewrite decide_True in Hr by done. by rewrite Hr. }
  rewrite decide_False in Hr by naive_solver.
  case_decide; [by rewrite Hr|].
  destruct Hr as (s' & Hres & _ & Hrs & Hp). rewrite Hres in *. simpl in *.
  split_and!; [done| |].
  - intros r v m. rewrite Hrs, member_UpdateUserGateway, Hp. intros Hm.
    destruct (decide (v = u)) as [->|Hvu].
    + rewrite lookup_insert_eq. eexists. split; [done|]. simpl.
      case_decide as Hd; [naive_solver|]. apply Hms in Hm as (p' & ? & ?). naive_solver.
    + rewrite lookup_insert_ne by done. rewrite decide_False in Hm by naive_solver. eauto.
  - intros v p'. rewrite Hp. intros [[<- <-]|[_ Hv]]%lookup_insert_Some; [|eauto].
    simpl. subst rid. by apply (Hne u).
Qed.

Lemma members_inv_step s op : tame s op → members_inv s → members_inv (run_ctl s op).
Proof.
  intros Ht Hinv. destruct op as [u rid g now|u rid|u rid g now|u rid now|ord tmo now|rid];
    simpl in *.
  - by apply members_inv_Join.
  - by apply members_inv_Leave.
  - by apply members_inv_Resume.
  - by apply members_inv_Disconnect.
  - destruct Hinv as (Hwf & Hms & Hne).
    destruct (checkDisconnectTimeout_spec (O := ord) tmo now s Hwf) as (Hwf' & Hp & Hm).
    split_and!; [done| |].
    + intros r v m. rewrite Hm, Hp. intros Hv.
      assert (is_Some (member (roomSvc s) r v)) as [m' (p & Hpv & <-)%Hms]
        by (repeat case_match; naive_solver).
      rewrite Hpv in Hv. exists p. split; [|done]. apply map_lookup_filter_Some.
      split; [done|]. simpl. intros He. by rewrite decide_True in Hv.
    + intros v p. rewrite Hp. intros [Hv _]%map_lookup_filter_Some. eauto.
  - destruct Hinv as (Hwf & Hms & Hne). split_and!; [by apply CloseRoomOf_wf| |done].
    intros r v m. simpl. rewrite member_CloseRoom. case_decide; [done|]. apply Hms.
Qed.
End one_room.

(** ** Properties *)
Section properties.
Context {SS : Type} `{SessionStoreLaws SS}.
Implicit Types (s : Server SS) (u rid g : string).

(** C2. The control plane refines the presence map: after any respectful
    history the rooms and the sessions agree about every user (room,
    gateway, status), and together they are the presence map that the
    specification computes from the same requests. *)
Theorem control_plane_refines_presence (empty : SS) id dt rt vn t0 t0_ms ops :
  store_ok empty → sessions empty = ∅ → respectful_history ∅ ops →
  let s := foldl run_ctl (NewServer empty id dt rt vn t0 t0_ms) ops in
  coherent s ∧ presence s = foldl spec_ctl ∅ ops.
Proof.
  intros Hok He Hops.
  pose proof (coherent_new empty id dt rt vn t0 t0_ms Hok He) as Hco.
  assert (presence (NewServer empty id dt rt vn t0 t0_ms) = ∅) as Hp
    by (unfold presence; simpl; by rewrite He, fmap_empty).
  revert Hco Hp Hops. generalize (NewServer empty id dt rt vn t0 t0_ms).
  generalize (∅ : gmap string Presence).
  induction ops as [|op ops IH]; intros σ s Hco Hp Hops; simpl; [done|].
  destruct Hops as [Hop Hops]. rewrite <-Hp in Hop.
  destruct (coherent_step s op Hco Hop) as [Hco' Hp']. apply IH; [done| |done].
  by rewrite Hp', Hp.
Qed.

(** C10. A user is in at most one room, whatever is requested (also room
    closures, resumes and disconnects of any room), provided joins name a
    non-empty room and leaves name the room the user is in. *)
Theorem user_in_one_room (empty : SS) id dt rt vn t0 t0_ms ops :
  store_ok empty → sessions empty = ∅ →
  tame_history (NewServer empty id dt rt vn t0 t0_ms) ops →
  let s := foldl run_ctl (NewServer empty id dt rt vn t0 t0_ms) ops in
  ∀ u r1 r2, is_Some (member (roomSvc s) r1 u) → is_Some (member (roomSvc s) r2 u) → r1 = r2.
Proof.
  intros Hok He Hops.
  assert (members_inv (NewServer empty id dt rt vn t0 t0_ms)) as Hinv.
  { destruct (coherent_new empty id dt rt vn t0 t0_ms Hok He) as (? & ? & _ & ?). done. }
  revert Hinv Hops. generalize (NewServer empty id dt rt vn t0 t0_ms).
  induction ops as [|op ops IH]; intros s Hinv Hops; simpl.
  - intros u r1 r2 [m1 H1] [m2 H2]. destruct Hinv as (_ & Hms & _).
    apply Hms in H1 as (p1 & ? & <-). apply Hms in H2 as (p2 & ? & <-). congruence.
  - destruct Hops as [Hop Hops]. apply IH; [|done]. by apply members_inv_step.
Qed.

(** C26. The timeout check removes exactly the users that have been
    disconnected for at least the timeout, each at the time when its turn
    comes, from the session table and from the room of their session, in
    whatever order the users are visited. *)
Theorem checkDisconnectTimeout_exact `{O : MapOrder} tmo (clock : string → Z) s :
  server_wf s →
  let s' := checkDisconnectTimeout_at tmo clock s in
  presence s' = filter (λ kp, ¬ expired tmo (clock kp.1) kp.2) (presence s) ∧
  ∀ rid u, member (roomSvc s') rid u =
    match presence s !! u with
    | Some p => if decide (expired tmo (clock u) p ∧ p_room p = rid) then None
                else member (roomSvc s) rid u
    | None => member (roomSvc s) rid u
    end.
Proof. intros Hwf. apply (checkDisconnectTimeout_at_spec tmo clock s Hwf). Qed.

(** C27. Resume answers by the session and the room table: without a
    session, [UserNotInRoom]; with one in another room, [RoomMismatch] with
    that room; when the room is gone, [RoomClosed]; in these cases nothing
    changes.  Otherwise it succeeds: the session has the user online on the
    new gateway, in the room the user's entry, if there is one, is moved
    there and online again, so that the room notifies that gateway, and all
    other members stay as they are. *)
Theorem Resume_outcomes `{O : MapOrder} u rid g now s :
  store_ok (sessionSvc s) →
  let '(code, current, s') := Resume u rid g now s in
  (code = ErrCodeUserNotInRoom ∧ presence s !! u = None ∧ s' = s) ∨
  (∃ p, presence s !! u = Some p ∧
    (code = ErrCodeRoomMismatch ∧ p_room p ≠ rid ∧ current = p_room p ∧ s' = s ∨
     code = ErrCodeRoomClosed ∧ p_room p = rid ∧ rooms (roomSvc s) !! rid = None ∧ s' = s ∨
     code = ErrCodeSuccess ∧ p_room p = rid ∧ is_Some (rooms (roomSvc s) !! rid) ∧
       presence s' = <[u := mkPresence rid g MemberStatusOnline None]> (presence s) ∧
       (∀ rid' v, member (roomSvc s') rid' v =
          if decide (rid' = rid ∧ v = u)
          then (λ m, mkRoomMember (rm_UserID m) g MemberStatusOnline (rm_JoinTime m) None) <$>
                 member (roomSvc s) rid u
          else member (roomSvc s) rid' v) ∧
       (rooms_wf (roomSvc s) → is_Some (member (roomSvc s) rid u) →
          g ∈ GetRoomGatewayIDs rid (roomSvc s')))).
Proof.
  intros Hok. pose proof (Resume_cases u rid g now s Hok) as Hr.
  destruct (presence s !! u) as [p|] eqn:Hp; [|rewrite Hr; by left].
  destruct (decide (p_room p = rid)) as [Hpr|Hpr].
  - rewrite decide_False in Hr by naive_solver. case_decide as Hroom.
    + rewrite Hr. right. exists p. auto 10.
    + destruct Hr as (s' & -> & _ & Hrs & Hs'). right. exists p. split; [done|].
      assert (∀ rid' v, member (roomSvc s') rid' v =
        if decide (rid' = rid ∧ v = u)
        then (λ m, mkRoomMember (rm_UserID m) g MemberStatusOnline (rm_JoinTime m) None) <$>
               member (roomSvc s) rid u
        else member (roomSvc s) rid' v) as Hm by (intros; by rewrite Hrs, member_UpdateUserGateway).
      right. right. split_and!; [done|done| |done|done|].
      * destruct (rooms (roomSvc s) !! rid); [eauto|done].
      * intros Hwf [m Hmu].
        assert (rooms_wf (roomSvc s')) by (rewrite Hrs; by apply UpdateUserGateway_wf).
        specialize (Hm rid u). rewrite decide_True, Hmu in Hm by done.
        by apply (GetRoomGatewayIDs_member _ rid u _ ltac:(done) Hm).
  - rewrite decide_True in Hr by done. rewrite Hr. right. exists p. auto 10.
Qed.

(** A leave that names another room than the user's strands the
    member: the session goes, the room entry stays, and no later timeout
    check ever removes it. *)
Theorem LeaveRoom_mismatch_strands `{O : MapOrder} u rid s p m tmo now :
  server_wf s → presence s !! u = Some p → p_room p ≠ rid →
  member (roomSvc s) (p_room p) u = Some m →
  let s' := checkDisconnectTimeout tmo now (LeaveRoom u rid s) in
  presence s' !! u = None ∧ member (roomSvc s') (p_room p) u = Some m.
Proof.
  intros Hwf Hp Hne Hm. destruct (presence_LeaveRoom u rid s (proj1 Hwf)) as [_ Hpl].
  destruct (checkDisconnectTimeout_spec tmo now _ (LeaveRoom_wf u rid s Hwf))
    as (_ & Hp' & Hm'). simpl. rewrite Hp', Hm', Hpl. split.
  - rewrite map_lookup_filter, lookup_delete_eq. done.
  - rewrite lookup_delete_eq. simpl. rewrite member_RemoveUser.
    by rewrite decide_False by naive_solver.
Qed.

(** Closing a room strands its sessions: when the room is opened again
    by somebody else, a resume of the old user is answered with success
    although the user is not a member, so the room will not notify its
    gateway on its behalf. *)
Theorem CloseRoom_strands_sessions u rid g now v g' now' s p :
  server_wf s → presence s !! u = Some p → p_room p = rid → u ≠ v →
  let s1 := (JoinRoom v rid g' now' (CloseRoomOf rid s)).2 in
  let '(code, _, s2) := Resume u rid g now s1 in
  code = ErrCodeSuccess ∧ is_Some (presence s2 !! u) ∧ member (roomSvc s2) rid u = None.
Proof.
  intros Hwf Hp Hpr Huv. set (s0 := CloseRoomOf rid s).
  pose proof (CloseRoomOf_wf rid s Hwf) as Hwf0. fold s0 in Hwf0. simpl.
  destruct (presence_JoinRoom v rid g' now' s0 (proj1 Hwf0)) as [Hok1 Hp1].
  set (s1 := (JoinRoom v rid g' now' s0).2) in *.
  assert (presence s1 !! u = Some p) as Hp1u by (by rewrite Hp1, lookup_insert_ne).
  assert (member (roomSvc s1) rid u = None) as Hm1.
  { unfold s1. rewrite member_JoinRoom, decide_False by done. simpl.
    by rewrite member_CloseRoom, decide_True. }
  assert (rooms (roomSvc s1) !! rid ≠ None) as Hr1.
  { assert (is_Some (member (roomSvc s1) rid v)) as [m Hm].
    { unfold s1. rewrite member_JoinRoom, !decide_True by done. eauto. }
    unfold member in Hm. by destruct (rooms (roomSvc s1) !! rid). }
  pose proof (Resume_cases u rid g now s1 Hok1) as Hr. rewrite Hp1u in Hr.
  rewrite decide_False in Hr by naive_solver. rewrite decide_False in Hr by done.
  destruct Hr as (s2 & -> & _ & Hrs & Hp2). split_and!; [done| |].
  - rewrite Hp2, lookup_insert_eq. eauto.
  - rewrite Hrs, member_UpdateUserGateway, decide_True by done. by rewrite Hm1.
Qed.

(** A late disconnect notice evicts a user that has already joined
    again: the notice is not matched against the gateway it comes from, so
    the user is marked disconnected and dropped at the next check after
    the timeout, although it is online on the new gateway. *)
Theorem stale_disconnect_evicts `{O : MapOrder} u rid g t1 t2 t3 tmo s :
  coherent s → rid ≠ ""%string →
  0 <= tmo <= t3 - t2 → t3 - t2 <= maxDuration →
  let s' := checkDisconnectTimeout tmo t3 (UserDisconnect u rid t2 (JoinRoom u rid g t1 s).2) in
  presence s' !! u = None ∧ ∀ r, member (roomSvc s') r u = None.
Proof.
  intros Hco Hrid Ht Hmax. simpl.
  destruct (coherent_Join u rid g t1 s Hco Hrid) as [Hco1 Hp1].
  destruct (coherent_Disconnect u rid t2 _ Hco1) as [Hco2 Hp2].
  { intros p. rewrite Hp1, lookup_insert_eq. by intros [= <-]. }
  destruct (coherent_Tick tmo t3 _ Hco2) as [Hco3 Hp3].
  assert (presence (checkDisconnectTimeout tmo t3
    (UserDisconnect u rid t2 (JoinRoom u rid g t1 s).2)) !! u = None) as Hnone.
  { rewrite Hp3, map_lookup_filter, Hp2, lookup_alter_eq, Hp1, lookup_insert_eq. simpl.
    rewrite option_guard_False; [done|]. intros He. apply He. split; [done|]. simpl.
    unfold minDuration, maxDuration in *. lia. }
  split; [done|]. intros r. by apply coherent_absent.
Qed.

(** The empty room id is accepted but never left: a user that joined
    it and then joins another room is a member of both. *)
Theorem empty_room_never_left u rid g1 t1 g2 t2 s :
  server_wf s → rid ≠ ""%string →
  let s' := (JoinRoom u rid g2 t2 (JoinRoom u "" g1 t1 s).2).2 in
  is_Some (member (roomSvc s') "" u) ∧ is_Some (member (roomSvc s') rid u).
Proof.
  intros Hwf Hrid. simpl.
  destruct (presence_JoinRoom u "" g1 t1 s (proj1 Hwf)) as [Hok Hp].
  set (s1 := (JoinRoom u "" g1 t1 s).2) in *.
  assert (left_room u rid s1 = None) as Hl.
  { unfold left_room. rewrite GetUserRoom_presence, Hp, lookup_insert_eq by done.
    cbn [p_room]. case_decide; naive_solver. }
  rewrite !member_JoinRoom, Hl, !(decide_True (P := u = u)) by done.
  split; [|rewrite decide_True by done; eauto].
  rewrite decide_False, decide_False by done. unfold s1.
  rewrite member_JoinRoom, !decide_True by done. eauto.
Qed.
End properties.

(** ** Concrete instances *)

(** A fresh roomserver, and one with "u1" in "r1" and "u2" in "r2". *)
Definition demo_server : Server SessionService :=
  NewServer NewSessionService "rs-1" 60 20 150 0 0.

Definition demo_ops : list CtlOp :=
  [CtlJoin "u1" "r1" "g1" 1; CtlJoin "u2" "r2" "g1" 2].

Definition demo_joined : Server SessionService := foldl run_ctl demo_server demo_ops.

(** Applied to a history with a move, a disconnect and a timeout. *)
Lemma control_plane_refines_presence_witness :
  let s := foldl run_ctl demo_server
    (demo_ops ++ [CtlJoin "u1" "r2" "g2" 3; CtlDisconnect "u2" "r2" 4;
                  CtlTick default_order 10 20]) in
  coherent s ∧
  presence s = foldl spec_ctl ∅
    (demo_ops ++ [CtlJoin "u1" "r2" "g2" 3; CtlDisconnect "u2" "r2" 4;
                  CtlTick default_order 10 20]).
Proof.
  apply (control_plane_refines_presence (H0 := SessionService_laws)); [apply NewSessionService_wf|
    by_computation|].
  vm_compute. split_and!; try done. by intros p [= <-].
Defined.

(** Applied to the same users, with a room closed and resumed in between. *)
Lemma user_in_one_room_witness :
  let s := foldl run_ctl demo_server
    (demo_ops ++ [CtlJoin "u1" "r2" "g2" 3; CtlClose "r1"; CtlLeave "u2" "r2"]) in
  (∀ u r1 r2, is_Some (member (roomSvc s) r1 u) → is_Some (member (roomSvc s) r2 u) → r1 = r2) ∧
  is_Some (member (roomSvc s) "r2" "u1").
Proof.
  split; [|vm_compute; by eexists].
  apply (user_in_one_room (H0 := SessionService_laws)); [apply NewSessionService_wf|by_computation|].
  vm_compute. split_and!; try done. by intros p [= <-].
Defined.

Lemma demo_joined_coherent : coherent (H0 := SessionService_laws) demo_joined.
Proof.
  unfold demo_joined, demo_ops. cbn [foldl].
  apply (coherent_Join (H0 := SessionService_laws)); [|done].
  apply (coherent_Join (H0 := SessionService_laws)); [|done].
  apply (coherent_new (H0 := SessionService_laws)); [apply NewSessionService_wf|by_computation].
Qed.

Lemma demo_joined_wf : server_wf (H0 := SessionService_laws) demo_joined.
Proof. apply demo_joined_coherent. Qed.

(** The user that disconnected at 5 is gone at 100 with a timeout of 60. *)
Lemma checkDisconnectTimeout_exact_witness :
  let s := UserDisconnect "u1" "r1" 5 demo_joined in
  let clock u := if decide (u = "u1") then 100 else 101 in
  let s' := checkDisconnectTimeout_at (O := default_order) 60 clock s in
  (presence s' = filter (λ kp, ¬ expired 60 (clock kp.1) kp.2) (presence s) ∧
   ∀ rid u, member (roomSvc s') rid u =
     match presence s !! u with
     | Some p => if decide (expired 60 (clock u) p ∧ p_room p = rid) then None
                 else member (roomSvc s) rid u
     | None => member (roomSvc s) rid u
     end) ∧ presence s' !! "u1" = None ∧ is_Some (presence s' !! "u2").
Proof.
  split; [|split; [by_computation|vm_compute; by eexists]].
  apply (checkDisconnectTimeout_exact (H0 := SessionService_laws)).
  apply UserDisconnect_wf, demo_joined_wf.
Defined.

(** The user of "r1" resumes there from another gateway. *)
Lemma Resume_outcomes_witness :
  let '(code, current, s') := Resume "u1" "r1" "g7" 9 demo_joined in
  (code = ErrCodeUserNotInRoom ∧ presence demo_joined !! "u1" = None ∧ s' = demo_joined) ∨
  (∃ p, presence demo_joined !! "u1" = Some p ∧
    (code = ErrCodeRoomMismatch ∧ p_room p ≠ "r1" ∧ current = p_room p ∧ s' = demo_joined ∨
     code = ErrCodeRoomClosed ∧ p_room p = "r1" ∧
       rooms (roomSvc demo_joined) !! "r1" = None ∧ s' = demo_joined ∨
     code = ErrCodeSuccess ∧ p_room p = "r1" ∧ is_Some (rooms (roomSvc demo_joined) !! "r1") ∧
       presence s' = <["u1" := mkPresence "r1" "g7" MemberStatusOnline None]>
         (presence demo_joined) ∧
       (∀ rid' v, member (roomSvc s') rid' v =
          if decide (rid' = "r1" ∧ v = "u1")
          then (λ m, mkRoomMember (rm_UserID m) "g7" MemberStatusOnline (rm_JoinTime m) None) <$>
                 member (roomSvc demo_joined) "r1" "u1"
          else member (roomSvc demo_joined) rid' v) ∧
       (rooms_wf (roomSvc demo_joined) → is_Some (member (roomSvc demo_joined) "r1" "u1") →
          "g7" ∈ GetRoomGatewayIDs (H := default_order) "r1" (roomSvc s')))).
Proof.
  apply (Resume_outcomes (H0 := SessionService_laws) (O := default_order)). apply demo_joined_wf.
Defined.

Lemma LeaveRoom_mismatch_strands_witness :
  let s' := checkDisconnectTimeout (O := default_order) 60 1000
    (LeaveRoom "u1" "r9" demo_joined) in
  presence s' !! "u1" = None ∧
  member (roomSvc s') "r1" "u1" = Some (mkRoomMember "u1" "g1" MemberStatusOnline (Some 1) None).
Proof.
  apply (LeaveRoom_mismatch_strands (H0 := SessionService_laws) (O := default_order)
    "u1" "r9" demo_joined (mkPresence "r1" "g1" MemberStatusOnline None));
    [apply demo_joined_wf|by_computation..].
Defined.

Lemma CloseRoom_strands_sessions_witness :
  let s1 := (JoinRoom "u2" "r1" "g2" 8 (CloseRoomOf "r1" demo_joined)).2 in
  let '(code, _, s2) := Resume "u1" "r1" "g1" 9 s1 in
  code = ErrCodeSuccess ∧ is_Some (presence s2 !! "u1") ∧ member (roomSvc s2) "r1" "u1" = None.
Proof.
  apply (CloseRoom_strands_sessions (H0 := SessionService_laws) "u1" "r1" "g1" 9 "u2" "g2" 8
    demo_joined (mkPresence "r1" "g1" MemberStatusOnline None));
    [apply demo_joined_wf|by_computation..|done].
Defined.

Lemma stale_disconnect_evicts_witness :
  let s' := checkDisconnectTimeout (O := default_order) 60 100
    (UserDisconnect "u1" "r1" 20 (JoinRoom "u1" "r1" "g2" 10 demo_joined).2) in
  presence s' !! "u1" = None ∧ ∀ r, member (roomSvc s') r "u1" = None.
Proof.
  apply (stale_disconnect_evicts (H0 := SessionService_laws) (O := default_order));
    [apply demo_joined_coherent|done|lia|by_computation].
Defined.

Lemma empty_room_never_left_witness :
  let s' := (JoinRoom "u1" "r1" "g2" 2 (JoinRoom "u1" "" "g1" 1 demo_server).2).2 in
  is_Some (member (roomSvc s') "" "u1") ∧ is_Some (member (roomSvc s') "r1" "u1").
Proof.
  apply (empty_room_never_left (H0 := SessionService_laws)); [|done].
  apply (coherent_new (H0 := SessionService_laws)); [apply NewSessionService_wf|by_computation].
Defined.
