(* ===== verification/Threads.v ===== *)
(** The control plane of the roomserver as it is scheduled: the goroutines of
    the gateway streams, of the HTTP server and of the timeout check run the
    operations of [server.go], [room_service.go] and [session_service.go]
    section by section.  A section is what happens under one lock, or one
    read of a session that the code does without the lock (such a read is
    taken as atomic).  Rooms and sessions are objects that the tables and the
    goroutines share: a goroutine that has looked a room up keeps its pointer
    while others go on.

    [Roomserver.v] has every operation as one step.  Here an operation is a
    [thread]; alone, a thread does what that step does, and the theorems say
    when that picture is right for threads that run together. *)

From Stdlib Require Import ZArith Lia.
From stdpp Require Import base tactics functions gmap strings numbers list.
From S2P Require Import Prelude Protocol SessionStore SessionService RoomService Recovery HashRing Roomserver.

Local Open Scope Z_scope.

(** ** The shared store *)
Abbreviation RoomRef := nat.
Abbreviation SessRef := nat.

(** [rs.rooms] and the shards' [sessions] hold pointers; addresses from
    [sh_next] on are free.  A user id names its shard, so the tables of the
    shards are one table here. *)
Record Shared := mkShared {
  sh_rooms : gmap string RoomRef;
  sh_room : RoomRef → Room;
  sh_metricRooms : Z;
  sh_metricUsers : Z;
  sh_sessions : gmap string SessRef;
  sh_session : SessRef → Session;
  sh_next : nat;
}.

Definition set_room (p : RoomRef) (r : Room) (users : Z) (sh : Shared) : Shared :=
  mkShared (sh_rooms sh) (<[p := r]> (sh_room sh)) (sh_metricRooms sh)
    (sh_metricUsers sh + users) (sh_sessions sh) (sh_session sh) (sh_next sh).

Definition set_session (l : SessRef) (se : Session) (sh : Shared) : Shared :=
  mkShared (sh_rooms sh) (sh_room sh) (sh_metricRooms sh) (sh_metricUsers sh)
    (sh_sessions sh) (<[l := se]> (sh_session sh)) (sh_next sh).

(** What the tables say when nobody is at work. *)
Definition rooms_of (sh : Shared) : RoomService :=
  mkRoomService (sh_room sh <$> sh_rooms sh) (sh_metricRooms sh) (sh_metricUsers sh).

Definition sessions_of (sh : Shared) : gmap string Session := sh_session sh <$> sh_sessions sh.

(** The plain map as a session store. *)
#[export] Instance map_store : SessionStore (gmap string Session) := {
  GetSession u m := m !! u;
  CreateSession u r g now m := <[u := new_session u r g now]> m;
  UpdateSession u r g now m := <[u := updated_session u r g now (m !! u)]> m;
  SetDisconnected u now m := alter (disconnected_session now) u m;
  DeleteSession u m := delete u m;
  GetAllUserIDs O m := @range_keys O _ m;
}.

#[export, refine] Instance map_store_laws : SessionStoreLaws (gmap string Session) := {
  sessions m := m;
  store_ok _ := True;
}.
Proof.
  all: try done.
  intros O m _. split; [apply NoDup_range_keys|]. intros u. apply elem_of_range_keys.
Defined.

(** The server of [Roomserver.v] with these tables. *)
Definition snapshot (base : Server (gmap string Session)) (sh : Shared) :
    Server (gmap string Session) :=
  set_sessionSvc (sessions_of sh) (set_roomSvc (rooms_of sh) base).

(** ** Threads: what a goroutine has still to do

    [Crit eff next]: the next section changes the store by [eff]; what it has
    read decides how to go on. *)
Inductive thread (A : Type) : Type :=
  | Ret (a : A)
  | Crit (eff : Shared → Shared) (next : Shared → thread A).
Arguments Ret {A} a.
Arguments Crit {A} eff next.

#[export] Instance thread_ret : MRet thread := @Ret.
#[export] Instance thread_bind : MBind thread :=
  fix bind {A B} (k : A → thread B) (t : thread A) {struct t} : thread B :=
    match t with
    | Ret a => k a
    | Crit eff next => Crit eff (λ sh, bind k (next sh))
    end.

(** A section that computes a result. *)
Definition section {A} (f : Shared → A * Shared) : thread A :=
  Crit (λ sh, (f sh).2) (λ sh, Ret (f sh).1).

(** A section that only reads. *)
Definition read {A} (f : Shared → A) : thread A := section (λ sh, (f sh, sh)).

(** [room.mu.Lock() ... Unlock()] around [f], which also says by how much the
    gauge of users changes. *)
Definition room_section {A} (p : RoomRef) (f : Room → A * Room * Z) (sh : Shared) : A * Shared :=
  let '(a, r, users) := f (sh_room sh p) in (a, set_room p r users sh).

Definition with_room {A} (p : RoomRef) (f : Room → A * Room * Z) : thread A :=
  section (room_section p f).

(** ** Rooms (room_service.go) *)
Definition GetRoom_t (roomID : string) : thread (option RoomRef) :=
  read (λ sh, sh_rooms sh !! roomID).

Definition get_or_create (roomID : string) (sh : Shared) : RoomRef * Shared :=
  match sh_rooms sh !! roomID with
  | Some room => (room, sh)
  | None =>
    let p := sh_next sh in
    (p, mkShared (<[roomID := p]> (sh_rooms sh)) (<[p := NewRoom roomID]> (sh_room sh))
          (sh_metricRooms sh + 1) (sh_metricUsers sh) (sh_sessions sh) (sh_session sh) (S p))
  end.

Definition GetOrCreateRoom_t (roomID : string) : thread RoomRef :=
  section (get_or_create roomID).

Definition delete_room (roomID : string) (sh : Shared) : Shared :=
  mkShared (delete roomID (sh_rooms sh)) (sh_room sh) (sh_metricRooms sh)
    (sh_metricUsers sh) (sh_sessions sh) (sh_session sh) (sh_next sh).

Definition rooms_gauge_dec (sh : Shared) : Shared :=
  mkShared (sh_rooms sh) (sh_room sh) (sh_metricRooms sh - 1) (sh_metricUsers sh)
    (sh_sessions sh) (sh_session sh) (sh_next sh).

(** The gauge goes down after the lock is released. *)
Definition CloseRoom_t (roomID : string) : thread (option RoomRef * bool) :=
  room ← section (λ sh, (sh_rooms sh !! roomID, delete_room roomID sh));
  match room with
  | Some p => _ ← section (λ sh, (tt, rooms_gauge_dec sh)); Ret (Some p, true)
  | None => Ret (None, false)
  end.

Definition room_add (userID gatewayID : string) (now : Z) (room : Room) :
    option string * Room * Z :=
  let member := mkRoomMember userID gatewayID MemberStatusOnline (Some now) None in
  (None, mkRoom (r_RoomID room) (<[userID := member]> (r_Members room))
           (view_add gatewayID userID (r_Gateways room)), 1).

Definition room_remove (userID : string) (room : Room) : unit * Room * Z :=
  match r_Members room !! userID with
  | None => (tt, room, 0)
  | Some member =>
    (tt, mkRoom (r_RoomID room) (delete userID (r_Members room))
           (view_remove (rm_GatewayID member) userID (r_Gateways room)), -1)
  end.

Definition room_disconnect (userID : string) (now : Z) (room : Room) : unit * Room * Z :=
  match r_Members room !! userID with
  | None => (tt, room, 0)
  | Some m =>
    let m := mkRoomMember (rm_UserID m) (rm_GatewayID m) MemberStatusDisconnected
               (rm_JoinTime m) (Some now) in
    (tt, mkRoom (r_RoomID room) (<[userID := m]> (r_Members room)) (r_Gateways room), 0)
  end.

Definition room_update_gateway (userID newGatewayID : string) (room : Room) :
    bool * Room * Z :=
  match r_Members room !! userID with
  | None => (false, room, 0)
  | Some m =>
    let oldGatewayID := rm_GatewayID m in
    let gws :=
      if decide (oldGatewayID ≠ newGatewayID) then
        view_add newGatewayID userID (view_remove oldGatewayID userID (r_Gateways room))
      else r_Gateways room in
    let gw := if decide (oldGatewayID ≠ newGatewayID) then newGatewayID else oldGatewayID in
    let m := mkRoomMember (rm_UserID m) gw MemberStatusOnline (rm_JoinTime m) None in
    (true, mkRoom (r_RoomID room) (<[userID := m]> (r_Members room)) gws, 0)
  end.

Definition AddUser_t (roomID userID gatewayID : string) (now : Z) : thread (option string) :=
  room ← GetOrCreateRoom_t roomID; with_room room (room_add userID gatewayID now).

Definition RemoveUser_t (roomID userID : string) : thread () :=
  room ← GetRoom_t roomID;
  match room with
  | None => Ret tt
  | Some p => with_room p (room_remove userID)
  end.

Definition SetUserDisconnected_t (roomID userID : string) (now : Z) : thread () :=
  room ← GetRoom_t roomID;
  match room with
  | None => Ret tt
  | Some p => with_room p (room_disconnect userID now)
  end.

Definition UpdateUserGateway_t (roomID userID newGatewayID : string) : thread bool :=
  room ← GetRoom_t roomID;
  match room with
  | None => Ret false
  | Some p => with_room p (room_update_gateway userID newGatewayID)
  end.

Definition RoomExists_t (roomID : string) : thread bool :=
  read (λ sh, bool_decide (is_Some (sh_rooms sh !! roomID))).

(** ** Sessions (session_service.go) *)
Definition GetSession_t (userID : string) : thread (option SessRef) :=
  read (λ sh, sh_sessions sh !! userID).

(** [session.RoomID], [session.Status], ... on a pointer that [GetSession]
    has returned: no lock is held. *)
Definition field {A} (l : SessRef) (f : Session → A) : thread A :=
  read (λ sh, f (sh_session sh l)).

Definition GetUserRoom_t (userID : string) : thread string :=
  session ← GetSession_t userID;
  match session with
  | None => Ret ""%string
  | Some l => field l s_RoomID
  end.

Definition update_session (userID roomID gatewayID : string) (now : Z) (sh : Shared) : Shared :=
  match sh_sessions sh !! userID with
  | Some l =>
    set_session l (updated_session userID roomID gatewayID now (Some (sh_session sh l))) sh
  | None =>
    let l := sh_next sh in
    mkShared (sh_rooms sh) (sh_room sh) (sh_metricRooms sh) (sh_metricUsers sh)
      (<[userID := l]> (sh_sessions sh))
      (<[l := new_session userID roomID gatewayID now]> (sh_session sh)) (S l)
  end.

Definition UpdateSession_t (userID roomID gatewayID : string) (now : Z) : thread () :=
  section (λ sh, (tt, update_session userID roomID gatewayID now sh)).

Definition set_disconnected (userID : string) (now : Z) (sh : Shared) : Shared :=
  match sh_sessions sh !! userID with
  | Some l => set_session l (disconnected_session now (sh_session sh l)) sh
  | None => sh
  end.

Definition SetDisconnected_t (userID : string) (now : Z) : thread () :=
  section (λ sh, (tt, set_disconnected userID now sh)).

Definition delete_session (userID : string) (sh : Shared) : Shared :=
  mkShared (sh_rooms sh) (sh_room sh) (sh_metricRooms sh) (sh_metricUsers sh)
    (delete userID (sh_sessions sh)) (sh_session sh) (sh_next sh).

Definition DeleteSession_t (userID : string) : thread () :=
  section (λ sh, (tt, delete_session userID sh)).

Definition IsUserDisconnected_t (userID : string) : thread bool :=
  session ← GetSession_t userID;
  match session with
  | None => Ret false
  | Some l => st ← field l s_Status; Ret (bool_decide (st = MemberStatusDisconnected))
  end.

Definition GetDisconnectedDuration_t (userID : string) (now : Z) : thread Z :=
  session ← GetSession_t userID;
  match session with
  | None => Ret 0
  | Some l =>
    st ← field l s_Status;
    if decide (st ≠ MemberStatusDisconnected) then Ret 0
    else at_ ← field l s_DisconnectedAt; Ret (time_since now at_)
  end.

(** One shard after the other, each under its lock. *)
Definition GetAllUserIDs_t `{MapOrder} : thread (list string) :=
  foldl (λ t i,
    result ← t;
    keys ← read (λ sh, range_keys
      (filter (λ ul : string * SessRef, shard_index ul.1 = i) (sh_sessions sh)));
    Ret (result ++ keys)) (Ret []) (seq 0 (Z.to_nat SessionShardCount)).

(** ** The operations of the server (server.go) *)
Definition JoinRoom_t (userID roomID gatewayID : string) (now : Z) : thread (option string) :=
  oldRoomID ← GetUserRoom_t userID;
  _ ← (if decide (oldRoomID ≠ ""%string ∧ oldRoomID ≠ roomID)
       then RemoveUser_t oldRoomID userID else Ret tt);
  err ← AddUser_t roomID userID gatewayID now;
  match err with
  | Some e => Ret (Some e)
  | None => _ ← UpdateSession_t userID roomID gatewayID now; Ret None
  end.

Definition LeaveRoom_t (userID roomID : string) : thread () :=
  _ ← RemoveUser_t roomID userID; DeleteSession_t userID.

(** The session's room is read again for the answer. *)
Definition Resume_t (userID roomID gatewayID : string) (now : Z) : thread (Z * string) :=
  session ← GetSession_t userID;
  match session with
  | None => Ret (ErrCodeUserNotInRoom, ""%string)
  | Some l =>
    current ← field l s_RoomID;
    if decide (current ≠ roomID) then
      current ← field l s_RoomID; Ret (ErrCodeRoomMismatch, current)
    else
      ex ← RoomExists_t roomID;
      if negb ex then Ret (ErrCodeRoomClosed, ""%string) else
      _ ← UpdateUserGateway_t roomID userID gatewayID;
      _ ← UpdateSession_t userID roomID gatewayID now;
      Ret (ErrCodeSuccess, ""%string)
  end.

Definition UserDisconnect_t (userID roomID : string) (now : Z) : thread () :=
  _ ← SetUserDisconnected_t roomID userID now; SetDisconnected_t userID now.

(** The body of the loop of [checkDisconnectTimeout]. *)
Definition check_user_t (timeout now : Z) (userID : string) : thread () :=
  disconnected ← IsUserDisconnected_t userID;
  if (disconnected : bool) then
    duration ← GetDisconnectedDuration_t userID now;
    if timeout <=? duration then
      session ← GetSession_t userID;
      match session with
      | Some l => room ← field l s_RoomID; LeaveRoom_t userID room
      | None => Ret tt
      end
    else Ret tt
  else Ret tt.

Definition checkDisconnectTimeout_t `{MapOrder} (timeout now : Z) : thread () :=
  userIDs ← GetAllUserIDs_t;
  foldl (λ t u, _ ← t; check_user_t timeout now u) (Ret tt) userIDs.

(** ** Requests *)

(** What concerns one user. *)
Inductive UserOp :=
  | OpJoin (rid g : string) (now : Z)
  | OpLeave (rid : string)
  | OpResume (rid g : string) (now : Z)
  | OpDisconnect (rid : string) (now : Z)
  | OpCheck (tmo now : Z).

Inductive Reply :=
  | ReplyJoin (err : option string)
  | ReplyResume (code : Z) (current : string)
  | ReplyDone.

#[export] Instance Reply_eq_dec : EqDecision Reply.
Proof. solve_decision. Defined.

Definition user_thread (u : string) (op : UserOp) : thread Reply :=
  match op with
  | OpJoin rid g now => err ← JoinRoom_t u rid g now; Ret (ReplyJoin err)
  | OpLeave rid => _ ← LeaveRoom_t u rid; Ret ReplyDone
  | OpResume rid g now => r ← Resume_t u rid g now; Ret (ReplyResume r.1 r.2)
  | OpDisconnect rid now => _ ← UserDisconnect_t u rid now; Ret ReplyDone
  | OpCheck tmo now => _ ← check_user_t tmo now u; Ret ReplyDone
  end.

(** A goroutine that serves the requests of one user, one after the other. *)
Fixpoint user_program (u : string) (ops : list UserOp) : thread (list Reply) :=
  match ops with
  | [] => Ret []
  | op :: ops => r ← user_thread u op; rs ← user_program u ops; Ret (r :: rs)
  end.

(** All requests. *)
Inductive Request :=
  | ReqUser (u : string) (ops : list UserOp)
  | ReqClose (rid : string)
  | ReqTick (ord : MapOrder) (tmo now : Z).

Definition request_thread (req : Request) : thread (list Reply) :=
  match req with
  | ReqUser u ops => user_program u ops
  | ReqClose rid => _ ← CloseRoom_t rid; Ret []
  | ReqTick ord tmo now => _ ← @checkDisconnectTimeout_t ord tmo now; Ret []
  end.

(** ** Scheduling *)
Abbreviation pool A := (list (thread A)).

(** The scheduler lets goroutine [i] run its next section. *)
Definition sched_step {A} (st : pool A * Shared) (i : nat) : pool A * Shared :=
  match st.1 !! i with
  | Some (Crit eff next) => (<[i := next st.2]> st.1, eff st.2)
  | _ => st
  end.

Definition run_schedule {A} (sched : list nat) (st : pool A * Shared) : pool A * Shared :=
  foldl sched_step st sched.

Definition finished {A} (p : pool A) (results : list A) : Prop := p = Ret <$> results.

(** A goroutine that nobody disturbs. *)
Fixpoint run_alone {A} (t : thread A) (sh : Shared) : A * Shared :=
  match t with
  | Ret a => (a, sh)
  | Crit eff next => run_alone (next sh) (eff sh)
  end.

(** The number of its sections. *)
Fixpoint sections_alone {A} (t : thread A) (sh : Shared) : nat :=
  match t with
  | Ret _ => 0
  | Crit eff next => S (sections_alone (next sh) (eff sh))
  end.

(** ** The same requests as steps of the server *)
Section atomic.
Context {SS : Type} `{SessionStore SS}.
Implicit Types s : Server SS.

Definition run_user (u : string) (op : UserOp) s : Reply * Server SS :=
  match op with
  | OpJoin rid g now => let '(err, s) := JoinRoom u rid g now s in (ReplyJoin err, s)
  | OpLeave rid => (ReplyDone, LeaveRoom u rid s)
  | OpResume rid g now =>
    let '((code, current), s) := Resume u rid g now s in (ReplyResume code current, s)
  | OpDisconnect rid now => (ReplyDone, UserDisconnect u rid now s)
  | OpCheck tmo now => (ReplyDone, check_user tmo now s u)
  end.

Fixpoint run_user_ops (u : string) (ops : list UserOp) s : list Reply * Server SS :=
  match ops with
  | [] => ([], s)
  | op :: ops =>
    let '(r, s) := run_user u op s in
    let '(rs, s) := run_user_ops u ops s in (r :: rs, s)
  end.

(** One goroutine after the other. *)
Fixpoint run_in_turn (progs : list (string * list UserOp)) s : list (list Reply) * Server SS :=
  match progs with
  | [] => ([], s)
  | (u, ops) :: progs =>
    let '(rs, s) := run_user_ops u ops s in
    let '(rss, s) := run_in_turn progs s in (rs :: rss, s)
  end.
End atomic.

(** The contract for one user. *)
Definition spec_user (σ : option Presence) (op : UserOp) : option Presence :=
  match op with
  | OpJoin rid g _ => Some (mkPresence rid g MemberStatusOnline None)
  | OpLeave _ => None
  | OpResume rid g _ =>
    match σ with
    | Some p => if decide (p_room p = rid) then Some (mkPresence rid g MemberStatusOnline None)
                else σ
    | None => None
    end
  | OpDisconnect _ now => go_offline now <$> σ
  | OpCheck tmo now => σ ≫= λ p, if decide (expired tmo now p) then None else Some p
  end.

Definition spec_reply (σ : option Presence) (op : UserOp) : Reply :=
  match op with
  | OpJoin _ _ _ => ReplyJoin None
  | OpResume rid _ _ =>
    match σ with
    | Some p => if decide (p_room p = rid) then ReplyResume ErrCodeSuccess ""
                else ReplyResume ErrCodeRoomMismatch (p_room p)
    | None => ReplyResume ErrCodeUserNotInRoom ""
    end
  | _ => ReplyDone
  end.

Fixpoint spec_replies (σ : option Presence) (ops : list UserOp) : list Reply :=
  match ops with
  | [] => []
  | op :: ops => spec_reply σ op :: spec_replies (spec_user σ op) ops
  end.

(** As [respectful]: joins name a room, leaves and disconnects the room the
    user is in. *)
Definition user_respectful (σ : option Presence) (op : UserOp) : Prop :=
  match op with
  | OpJoin rid _ _ => rid ≠ ""%string
  | OpLeave rid | OpDisconnect rid _ => ∀ p, σ = Some p → p_room p = rid
  | _ => True
  end.

Fixpoint user_respectful_history (σ : option Presence) (ops : list UserOp) : Prop :=
  match ops with
  | [] => True
  | op :: ops => user_respectful σ op ∧ user_respectful_history (spec_user σ op) ops
  end.

#[global] Arguments get_or_create : simpl never.
#[global] Arguments room_section : simpl never.
#[global] Arguments update_session : simpl never.
#[global] Arguments set_disconnected : simpl never.

(** ** The store *)

(** No two keys share an object, and new objects are new. *)
Definition heap_wf (sh : Shared) : Prop :=
  (∀ r p, sh_rooms sh !! r = Some p → (p < sh_next sh)%nat) ∧
  (∀ r1 r2 p, sh_rooms sh !! r1 = Some p → sh_rooms sh !! r2 = Some p → r1 = r2) ∧
  (∀ u l, sh_sessions sh !! u = Some l → (l < sh_next sh)%nat) ∧
  (∀ u1 u2 l, sh_sessions sh !! u1 = Some l → sh_sessions sh !! u2 = Some l → u1 = u2).

(** What every section keeps. *)
Definition inv (sh : Shared) : Prop := heap_wf sh ∧ rooms_wf (rooms_of sh).

(** An empty server. *)
Definition empty_shared : Shared :=
  mkShared ∅ (λ _, NewRoom "") 0 0 ∅ (λ _, mkSession "" "" "" MemberStatusOnline None None) 0.

Section store.
Implicit Types (sh : Shared) (p : RoomRef) (l : SessRef) (u rid g : string).

(** Updating an object that only [k] can name. *)
Lemma fmap_object {V} (h : nat → V) (m : gmap string nat) k p v :
  m !! k = Some p → (∀ k1 k2 q, m !! k1 = Some q → m !! k2 = Some q → k1 = k2) →
  <[p := v]> h <$> m = <[k := v]> (h <$> m).
Proof.
  intros Hk Hinj. apply map_eq. intros k'. rewrite lookup_fmap.
  destruct (decide (k' = k)) as [->|Hne].
  - rewrite lookup_insert_eq, Hk. simpl. by rewrite fn_lookup_insert.
  - rewrite lookup_insert_ne, lookup_fmap by done.
    destruct (m !! k') as [q|] eqn:Hq; [|done]. simpl. f_equal.
    apply fn_lookup_insert_ne. intros <-. naive_solver.
Qed.

(** Updating an object that no key names. *)
Lemma fmap_object_none {V} (h : nat → V) (m : gmap string nat) p v :
  (∀ k, m !! k ≠ Some p) → <[p := v]> h <$> m = h <$> m.
Proof.
  intros Hk. apply map_fmap_ext. intros k q Hq. apply fn_lookup_insert_ne.
  intros <-. by apply (Hk k).
Qed.

Lemma fresh_object (n : nat) (m : gmap string nat) k :
  (∀ k' q, m !! k' = Some q → (q < n)%nat) → m !! k ≠ Some n.
Proof. intros Hn Hk. apply Hn in Hk. lia. Qed.

Lemma rooms_of_lookup sh rid :
  rooms (rooms_of sh) !! rid = sh_room sh <$> sh_rooms sh !! rid.
Proof. apply lookup_fmap. Qed.

Lemma sessions_of_lookup sh u :
  sessions_of sh !! u = sh_session sh <$> sh_sessions sh !! u.
Proof. apply lookup_fmap. Qed.

(** Writing a room through a live pointer. *)
Lemma rooms_of_set_room sh rid p r d :
  heap_wf sh → sh_rooms sh !! rid = Some p →
  rooms_of (set_room p r d sh) =
    mkRoomService (<[rid := r]> (rooms (rooms_of sh))) (sh_metricRooms sh) (sh_metricUsers sh + d).
Proof.
  intros (_ & Hinj & _ & _) Hp. unfold rooms_of. simpl. f_equal. by apply fmap_object.
Qed.

(** [GetOrCreateRoom] on the store is the operation on the table. *)
Lemma get_or_create_spec sh rid :
  heap_wf sh →
  let '(p, sh') := get_or_create rid sh in
  heap_wf sh' ∧ sh_rooms sh' !! rid = Some p ∧ sh_rooms sh ⊆ sh_rooms sh' ∧
  sh_sessions sh' = sh_sessions sh ∧ sh_session sh' = sh_session sh ∧
  GetOrCreateRoom rid (rooms_of sh) = (sh_room sh' p, rooms_of sh').
Proof.
  unfold get_or_create.
  intros Hwf. unfold GetOrCreateRoom. rewrite rooms_of_lookup.
  destruct (sh_rooms sh !! rid) as [p|] eqn:Hp; simpl; [done|].
  destruct Hwf as (Hlt & Hinj & Hlts & Hinjs). split_and!; try done.
  - split_and!; simpl; [| |intros; apply Nat.lt_lt_succ_r; eauto|done].
    + intros r q [[<- <-]|[_ Hq]]%lookup_insert_Some; [lia|]. apply Hlt in Hq. lia.
    + intros r1 r2 q [[<- <-]|[Hn1 H1]]%lookup_insert_Some [[<- Hq]|[Hn2 H2]]%lookup_insert_Some;
        subst; try done; [apply Hlt in H2; lia|apply Hlt in H1; lia|eauto].
  - simpl. by rewrite lookup_insert_eq.
  - simpl. by apply insert_subseteq.
  - rewrite fn_lookup_insert. f_equal. unfold rooms_of. simpl. f_equal.
    rewrite fmap_insert, fn_lookup_insert. f_equal.
    symmetry. apply fmap_object_none. intros k. by apply fresh_object.
Qed.
(** A section under the lock of a room, and the operation of the table. *)
Definition implements {A} rid (f : Room → A * Room * Z) (F : RoomService → A * RoomService) : Prop :=
  ∀ rs room, rooms rs !! rid = Some room →
    F rs = let '(a, r, d) := f room in
           (a, mkRoomService (<[rid := r]> (rooms rs)) (metricRooms rs) (metricUsers rs + d)).

Lemma unchanged_room rs rid room :
  rooms rs !! rid = Some room →
  rs = mkRoomService (<[rid := room]> (rooms rs)) (metricRooms rs) (metricUsers rs + 0).
Proof. intros Hr. rewrite insert_id, Z.add_0_r by done. by destruct rs. Qed.

Lemma room_add_implements rid u g now :
  implements rid (room_add u g now) (AddUser rid u g now).
Proof. intros rs room Hr. unfold AddUser, GetOrCreateRoom. by rewrite Hr. Qed.

Lemma room_remove_implements rid u :
  implements rid (room_remove u) (λ rs, (tt, RemoveUser rid u rs)).
Proof.
  intros rs room Hr. unfold RemoveUser, GetRoom, room_remove. rewrite Hr.
  case_match; [done|]. f_equal. by apply unchanged_room.
Qed.

Lemma room_disconnect_implements rid u now :
  implements rid (room_disconnect u now) (λ rs, (tt, SetUserDisconnected rid u now rs)).
Proof.
  intros rs room Hr. unfold SetUserDisconnected, GetRoom, room_disconnect. rewrite Hr.
  case_match; [by rewrite Z.add_0_r|]. f_equal. by apply unchanged_room.
Qed.

Lemma room_update_gateway_implements rid u g :
  implements rid (room_update_gateway u g) (UpdateUserGateway rid u g).
Proof.
  intros rs room Hr. unfold UpdateUserGateway, GetRoom, room_update_gateway. rewrite Hr.
  case_match; [by rewrite Z.add_0_r|]. f_equal. by apply unchanged_room.
Qed.

(** Such a section through a live pointer. *)
Lemma room_section_live {A} (f : Room → A * Room * Z) F rid p sh :
  implements rid f F → heap_wf sh → sh_rooms sh !! rid = Some p →
  let '(a, sh') := room_section p f sh in
  heap_wf sh' ∧ F (rooms_of sh) = (a, rooms_of sh') ∧
  sh_rooms sh' = sh_rooms sh ∧ sh_sessions sh' = sh_sessions sh ∧ sh_session sh' = sh_session sh.
Proof.
  intros Himp Hwf Hp. unfold room_section.
  assert (rooms (rooms_of sh) !! rid = Some (sh_room sh p)) as Hr
    by (by rewrite rooms_of_lookup, Hp).
  rewrite (Himp _ _ Hr). destruct (f (sh_room sh p)) as [[a r] d].
  split_and!; try done. by rewrite (rooms_of_set_room sh rid).
Qed.

(** Sessions. *)
Lemma update_session_spec u r g now sh :
  heap_wf sh →
  let sh' := update_session u r g now sh in
  heap_wf sh' ∧ sessions_of sh' = UpdateSession u r g now (sessions_of sh) ∧
  rooms_of sh' = rooms_of sh ∧ sh_rooms sh' = sh_rooms sh ∧
  (∀ v, v ≠ u → sh_sessions sh' !! v = sh_sessions sh !! v) ∧
  (∀ v l, v ≠ u → sh_sessions sh !! v = Some l → sh_session sh' l = sh_session sh l).
Proof.
  intros Hwf. pose proof Hwf as (Hlt & Hinj & Hlts & Hinjs). simpl.
  rewrite sessions_of_lookup. unfold update_session.
  destruct (sh_sessions sh !! u) as [l|] eqn:Hu; simpl; (split; [|split; [|split_and!]]); try done.
  - unfold sessions_of. simpl. by apply fmap_object.
  - intros v l' Hv Hl'. simpl. apply fn_lookup_insert_ne. intros <-. naive_solver.
  - split_and!; simpl; [|done| |].
    + intros. apply Nat.lt_lt_succ_r. eauto.
    + intros v q [[<- <-]|[_ Hq]]%lookup_insert_Some; [lia|]. apply Hlts in Hq. lia.
    + intros v1 v2 q [[<- <-]|[Hn1 H1]]%lookup_insert_Some [[<- Hq]|[Hn2 H2]]%lookup_insert_Some;
        subst; try done; [apply Hlts in H2; lia|apply Hlts in H1; lia|eauto].
  - unfold sessions_of. simpl. rewrite fmap_insert, fn_lookup_insert. f_equal.
    apply fmap_object_none. intros k. by apply fresh_object.
  - intros v Hv. simpl. by rewrite lookup_insert_ne.
  - intros v l' Hv Hl'. simpl. apply fn_lookup_insert_ne. apply Hlts in Hl'. lia.
Qed.

Lemma set_disconnected_spec u now sh :
  heap_wf sh →
  let sh' := set_disconnected u now sh in
  heap_wf sh' ∧ sessions_of sh' = SetDisconnected u now (sessions_of sh) ∧
  rooms_of sh' = rooms_of sh ∧ sh_rooms sh' = sh_rooms sh ∧ sh_sessions sh' = sh_sessions sh ∧
  (∀ v l, v ≠ u → sh_sessions sh !! v = Some l → sh_session sh' l = sh_session sh l).
Proof.
  intros Hwf. pose proof Hwf as (Hlt & Hinj & Hlts & Hinjs). simpl. unfold set_disconnected.
  destruct (sh_sessions sh !! u) as [l|] eqn:Hu; split_and!; try done.
  - unfold sessions_of. simpl. rewrite (fmap_object _ _ u) by done.
    apply map_eq. intros v. destruct (decide (v = u)) as [->|Hv].
    + by rewrite lookup_insert_eq, lookup_alter_eq, lookup_fmap, Hu.
    + by rewrite lookup_insert_ne, lookup_alter_ne.
  - intros v l' Hv Hl'. simpl. apply fn_lookup_insert_ne. intros <-. naive_solver.
  - apply map_eq. intros v. destruct (decide (v = u)) as [->|Hv].
    + by rewrite lookup_alter_eq, sessions_of_lookup, Hu.
    + by rewrite lookup_alter_ne.
Qed.

Lemma delete_session_spec u sh :
  heap_wf sh →
  let sh' := delete_session u sh in
  heap_wf sh' ∧ sessions_of sh' = DeleteSession u (sessions_of sh) ∧
  rooms_of sh' = rooms_of sh ∧ sh_rooms sh' = sh_rooms sh ∧ sh_session sh' = sh_session sh.
Proof.
  intros (Hlt & Hinj & Hlts & Hinjs). simpl. split_and!; try done.
  - split_and!; simpl; [done|done| |].
    + intros v l [_ Hl]%lookup_delete_Some. eauto.
    + intros v1 v2 l [_ H1]%lookup_delete_Some [_ H2]%lookup_delete_Some. eauto.
  - unfold sessions_of. simpl. apply fmap_delete.
Qed.

Lemma delete_room_spec rid sh :
  heap_wf sh →
  let sh' := delete_room rid sh in
  heap_wf sh' ∧ rooms (rooms_of sh') = delete rid (rooms (rooms_of sh)) ∧
  sh_rooms sh' = delete rid (sh_rooms sh) ∧
  sh_sessions sh' = sh_sessions sh ∧ sh_session sh' = sh_session sh.
Proof.
  intros (Hlt & Hinj & Hlts & Hinjs). simpl. split_and!; try done.
  - split_and!; simpl; [| |done|done].
    + intros v l [_ Hl]%lookup_delete_Some. eauto.
    + intros v1 v2 l [_ H1]%lookup_delete_Some [_ H2]%lookup_delete_Some. eauto.
  - apply fmap_delete.
Qed.
End store.

(** Creating a room changes no membership. *)
Lemma member_GetOrCreateRoom rid rs r v :
  member (GetOrCreateRoom rid rs).2 r v = member rs r v.
Proof.
  unfold GetOrCreateRoom. destruct (rooms rs !! rid) as [room|] eqn:Hr; [done|]. simpl.
  rewrite member_insert. case_decide as Hd; [|done]. subst. unfold member. by rewrite Hr.
Qed.

Lemma rooms_wf_GetOrCreateRoom rid rs : rooms_wf rs → rooms_wf (GetOrCreateRoom rid rs).2.
Proof. exact (run_room_op_wf (OpGetOrCreateRoom rid) rs). Qed.

(** ** A goroutine alone *)
Section alone.
Context {A B : Type}.
Implicit Types (t : thread A) (k : A → thread B) (sh : Shared).

Lemma run_alone_bind t k sh :
  run_alone (t ≫= k) sh = run_alone (k (run_alone t sh).1) (run_alone t sh).2.
Proof.
  revert sh. induction t as [a|eff next IH]; intros sh; [done|]. apply (IH sh).
Qed.

(** Giving goroutine [i] as many turns as it has sections finishes it and
    leaves the others where they are. *)
Lemma run_schedule_alone i t (ts : pool A) sh :
  ts !! i = Some t →
  run_schedule (replicate (sections_alone t sh) i) (ts, sh) =
    (<[i := Ret (run_alone t sh).1]> ts, (run_alone t sh).2).
Proof.
  revert ts sh. induction t as [a|eff next IH]; intros ts sh Hi; simpl.
  - by rewrite list_insert_id.
  - unfold sched_step. simpl. rewrite Hi.
    rewrite (IH sh), list_insert_insert_eq; [done|].
    apply list_lookup_insert_eq. by eapply lookup_lt_Some.
Qed.
End alone.

Lemma run_schedule_app {A} s1 s2 (st : pool A * Shared) :
  run_schedule (s1 ++ s2) st = run_schedule s2 (run_schedule s1 st).
Proof. apply foldl_app. Qed.

(** Alone, the thread [t] does to the rooms what [F] does. *)
Definition rooms_alone {A} (t : thread A) (F : RoomService → A * RoomService) : Prop :=
  ∀ sh, heap_wf sh →
  let '(a, sh') := run_alone t sh in
  heap_wf sh' ∧ F (rooms_of sh) = (a, rooms_of sh') ∧ sessions_of sh' = sessions_of sh.

Section rooms_alone.
Implicit Types (rid u g : string).

Lemma AddUser_created rid u g now rs :
  AddUser rid u g now rs = AddUser rid u g now (GetOrCreateRoom rid rs).2.
Proof.
  unfold AddUser, GetOrCreateRoom. destruct (rooms rs !! rid) eqn:Hr; simpl; [by rewrite Hr|].
  by rewrite lookup_insert_eq.
Qed.

Lemma with_room_alone {A} (f : Room → A * Room * Z) F rid p sh :
  implements rid f F → heap_wf sh → sh_rooms sh !! rid = Some p →
  let '(a, sh') := run_alone (with_room p f) sh in
  heap_wf sh' ∧ F (rooms_of sh) = (a, rooms_of sh') ∧ sessions_of sh' = sessions_of sh.
Proof.
  intros Himp Hwf Hp. pose proof (room_section_live f F rid p sh Himp Hwf Hp) as Hl. simpl.
  destruct (room_section p f sh) as [a sh2]. destruct Hl as (Hwf2 & HF & _ & Hss & Hs). simpl.
  split_and!; [done..|]. unfold sessions_of. by rewrite Hss, Hs.
Qed.

Lemma AddUser_alone rid u g now : rooms_alone (AddUser_t rid u g now) (AddUser rid u g now).
Proof.
  intros sh Hwf. unfold AddUser_t. rewrite run_alone_bind.
  pose proof (get_or_create_spec sh rid Hwf) as Hg.
  change (run_alone (GetOrCreateRoom_t rid) sh)
    with ((get_or_create rid sh).1, (get_or_create rid sh).2).
  destruct (get_or_create rid sh) as [p sh1]. cbn [fst snd].
  destruct Hg as (Hwf1 & Hp & _ & Hss & Hs & Hrs).
  pose proof (with_room_alone _ _ rid p sh1 (room_add_implements rid u g now) Hwf1 Hp) as Hl.
  destruct (run_alone _ sh1) as [a sh2]. destruct Hl as (Hwf2 & HF & Hs2).
  split_and!; [done| |by rewrite Hs2; unfold sessions_of; rewrite Hss, Hs].
  by rewrite AddUser_created, Hrs.
Qed.

(** Operations that look the room up and then work in it. *)
Lemma found_alone {A} rid (f : Room → A * Room * Z) F (none : A) :
  implements rid f F → (∀ rs, rooms rs !! rid = None → F rs = (none, rs)) →
  rooms_alone (room ← GetRoom_t rid;
               match room with None => Ret none | Some p => with_room p f end) F.
Proof.
  intros Himp Hnone sh Hwf. rewrite run_alone_bind. cbn [run_alone GetRoom_t read section fst snd].
  destruct (sh_rooms sh !! rid) as [p|] eqn:Hp.
  - by apply (with_room_alone f F rid).
  - split_and!; [done| |done]. apply Hnone. by rewrite rooms_of_lookup, Hp.
Qed.

Lemma RemoveUser_alone rid u : rooms_alone (RemoveUser_t rid u) (λ rs, (tt, RemoveUser rid u rs)).
Proof.
  apply found_alone; [apply room_remove_implements|].
  intros rs Hr. unfold RemoveUser, GetRoom. by rewrite Hr.
Qed.

Lemma SetUserDisconnected_alone rid u now :
  rooms_alone (SetUserDisconnected_t rid u now) (λ rs, (tt, SetUserDisconnected rid u now rs)).
Proof.
  apply found_alone; [apply room_disconnect_implements|].
  intros rs Hr. unfold SetUserDisconnected, GetRoom. by rewrite Hr.
Qed.

Lemma UpdateUserGateway_alone rid u g :
  rooms_alone (UpdateUserGateway_t rid u g) (UpdateUserGateway rid u g).
Proof.
  apply found_alone; [apply room_update_gateway_implements|].
  intros rs Hr. unfold UpdateUserGateway, GetRoom. by rewrite Hr.
Qed.
End rooms_alone.

(** Sessions as the goroutine sees them when it looks them up. *)
Section sessions_alone.
Implicit Types (u rid g : string) (sh : Shared).

Lemma GetUserRoom_alone u sh :
  run_alone (GetUserRoom_t u) sh = (GetUserRoom u (sessions_of sh), sh).
Proof.
  unfold GetUserRoom, GetSession, map_store. rewrite sessions_of_lookup. simpl.
  by destruct (sh_sessions sh !! u).
Qed.

Lemma IsUserDisconnected_alone u sh :
  run_alone (IsUserDisconnected_t u) sh = (IsUserDisconnected u (sessions_of sh), sh).
Proof.
  unfold IsUserDisconnected, GetSession, map_store. rewrite sessions_of_lookup. simpl.
  by destruct (sh_sessions sh !! u).
Qed.

Lemma GetDisconnectedDuration_alone u now sh :
  run_alone (GetDisconnectedDuration_t u now) sh =
    (GetDisconnectedDuration u now (sessions_of sh), sh).
Proof.
  unfold GetDisconnectedDuration, GetSession, map_store. rewrite sessions_of_lookup. simpl.
  destruct (sh_sessions sh !! u) as [l|]; simpl; [|done]. by case_decide.
Qed.
End sessions_alone.

(** Alone, the thread [t] does to the server what [F] does. *)
Definition server_alone {A} (t : thread A)
    (F : Server (gmap string Session) → A * Server (gmap string Session)) : Prop :=
  ∀ base sh, heap_wf sh →
  let '(a, sh') := run_alone t sh in
  heap_wf sh' ∧ F (snapshot base sh) = (a, snapshot base sh').

Section server_alone.
Implicit Types (u rid g : string).

Lemma server_alone_rooms {A} (t : thread A) F :
  rooms_alone t F →
  server_alone t (λ s, let '(a, rs) := F (roomSvc s) in (a, set_roomSvc rs s)).
Proof.
  intros Ht base sh Hwf. specialize (Ht sh Hwf). destruct (run_alone t sh) as [a sh'].
  destruct Ht as (Hwf' & HF & Hs). split; [done|]. simpl. rewrite HF. unfold snapshot.
  by rewrite Hs.
Qed.

Lemma server_alone_bind {A B} (t : thread A) (k : A → thread B) F K :
  server_alone t F → (∀ a, server_alone (k a) (K a)) →
  server_alone (t ≫= k) (λ s, let '(a, s) := F s in K a s).
Proof.
  intros Ht Hk base sh Hwf. specialize (Ht base sh Hwf). rewrite run_alone_bind.
  destruct (run_alone t sh) as [a sh']. destruct Ht as (Hwf' & ->). by apply Hk.
Qed.

Lemma server_alone_ret {A} (a : A) : server_alone (Ret a) (λ s, (a, s)).
Proof. done. Qed.

Lemma server_alone_ext {A} (t : thread A) F G :
  server_alone t F → (∀ base sh, F (snapshot base sh) = G (snapshot base sh)) → server_alone t G.
Proof.
  intros Ht HFG base sh Hwf. specialize (Ht base sh Hwf).
  destruct (run_alone t sh) as [a sh']. by rewrite <-HFG.
Qed.

Lemma server_alone_get {A} (t : thread A) (f : gmap string Session → A) :
  (∀ sh, run_alone t sh = (f (sessions_of sh), sh)) →
  server_alone t (λ s, (f (sessionSvc s), s)).
Proof. intros Ht base sh Hwf. by rewrite Ht. Qed.

Lemma UpdateSession_alone u rid g now :
  server_alone (UpdateSession_t u rid g now)
    (λ s, (tt, set_sessionSvc (UpdateSession u rid g now (sessionSvc s)) s)).
Proof.
  intros base sh Hwf. destruct (update_session_spec u rid g now sh Hwf) as (Hwf' & Hs & Hr & _).
  split; [done|]. unfold snapshot. simpl. by rewrite Hr, Hs.
Qed.

Lemma SetDisconnected_alone u now :
  server_alone (SetDisconnected_t u now)
    (λ s, (tt, set_sessionSvc (SetDisconnected u now (sessionSvc s)) s)).
Proof.
  intros base sh Hwf. destruct (set_disconnected_spec u now sh Hwf) as (Hwf' & Hs & Hr & _).
  split; [done|]. unfold snapshot. simpl. by rewrite Hr, Hs.
Qed.

Lemma DeleteSession_alone u :
  server_alone (DeleteSession_t u)
    (λ s, (tt, set_sessionSvc (DeleteSession u (sessionSvc s)) s)).
Proof.
  intros base sh Hwf. destruct (delete_session_spec u sh Hwf) as (Hwf' & Hs & Hr & _).
  split; [done|]. unfold snapshot. simpl. by rewrite Hr, Hs.
Qed.

(** The rest of [JoinRoom] after the old room is left. *)
Definition join_new u rid g now (s : Server (gmap string Session)) :=
  let '(err, rs) := AddUser rid u g now (roomSvc s) in
  let s := set_roomSvc rs s in
  match err with
  | Some e => (Some e, s)
  | None => (None, set_sessionSvc (UpdateSession u rid g now (sessionSvc s)) s)
  end.

Lemma join_new_alone u rid g now :
  server_alone
    (err ← AddUser_t rid u g now;
     match err with
     | Some e => Ret (Some e)
     | None => _ ← UpdateSession_t u rid g now; Ret None
     end)
    (join_new u rid g now).
Proof.
  eapply server_alone_ext.
  { apply (server_alone_bind _ _ _ (λ err s, match err with
      | Some e => (Some e, s)
      | None => let '(_, s) := (tt, set_sessionSvc (UpdateSession u rid g now (sessionSvc s)) s) in
                (None, s)
      end) (server_alone_rooms _ _ (AddUser_alone rid u g now))).
    intros [e|]; [apply (server_alone_ret (Some e))|].
    by apply (server_alone_bind _ _ _ (λ _ s, (None, s)) (UpdateSession_alone u rid g now)). }
  intros base sh. unfold join_new. simpl. by destruct (AddUser _ _ _ _ _) as [[e|] rs].
Qed.

Lemma JoinRoom_alone u rid g now :
  server_alone (JoinRoom_t u rid g now) (JoinRoom u rid g now).
Proof.
  eapply server_alone_ext.
  { apply (server_alone_bind _ _ _ (λ old s,
      let '(_, s) := (tt, if decide (old ≠ ""%string ∧ old ≠ rid)
                          then set_roomSvc (RemoveUser old u (roomSvc s)) s else s) in
      join_new u rid g now s)
      (server_alone_get _ _ (GetUserRoom_alone u))).
    intros old. refine (server_alone_bind _ _ (λ s, (tt, if decide (old ≠ ""%string ∧ old ≠ rid)
                          then set_roomSvc (RemoveUser old u (roomSvc s)) s else s))
      (λ _, join_new u rid g now) _ (λ _, join_new_alone u rid g now)).
    case_decide; [|done]. apply (server_alone_rooms _ _ (RemoveUser_alone old u)). }
  done.
Qed.

Lemma LeaveRoom_alone u rid :
  server_alone (LeaveRoom_t u rid) (λ s, (tt, LeaveRoom u rid s)).
Proof.
  exact (server_alone_bind _ _ _ (λ _, _) (server_alone_rooms _ _ (RemoveUser_alone rid u))
    (λ _, DeleteSession_alone u)).
Qed.

Lemma UserDisconnect_alone u rid now :
  server_alone (UserDisconnect_t u rid now) (λ s, (tt, UserDisconnect u rid now s)).
Proof.
  exact (server_alone_bind _ _ _ (λ _, _)
    (server_alone_rooms _ _ (SetUserDisconnected_alone rid u now))
    (λ _, SetDisconnected_alone u now)).
Qed.

Lemma resume_found_alone u rid g now :
  server_alone
    (_ ← UpdateUserGateway_t rid u g; _ ← UpdateSession_t u rid g now;
     Ret (ErrCodeSuccess, ""%string))
    (λ s, let '(_, rs) := UpdateUserGateway rid u g (roomSvc s) in
          let s := set_roomSvc rs s in
          let s := set_sessionSvc (UpdateSession u rid g now (sessionSvc s)) s in
          ((ErrCodeSuccess, ""%string), s)).
Proof.
  eapply server_alone_ext.
  { apply (server_alone_bind _ _ _ (λ _ s,
      let '(_, s) := (tt, set_sessionSvc (UpdateSession u rid g now (sessionSvc s)) s) in
      ((ErrCodeSuccess, ""%string), s)) (server_alone_rooms _ _ (UpdateUserGateway_alone rid u g))).
    intros _. by apply (server_alone_bind _ _ _ (λ _ s, (_, s)) (UpdateSession_alone u rid g now)). }
  intros base sh. simpl. by destruct (UpdateUserGateway _ _ _ _) as [b rs].
Qed.

Lemma Resume_alone u rid g now : server_alone (Resume_t u rid g now) (Resume u rid g now).
Proof.
  intros base sh Hwf. unfold Resume_t. rewrite run_alone_bind.
  unfold Resume, GetSession, map_store. cbn [sessionSvc snapshot set_sessionSvc].
  rewrite sessions_of_lookup. cbn [run_alone GetSession_t read section fst snd].
  destruct (sh_sessions sh !! u) as [l|] eqn:Hl; cbn [fmap option_fmap option_map]; [|done].
  rewrite run_alone_bind. cbn [run_alone field read section fst snd].
  case_decide as Hd; [done|]. rewrite run_alone_bind.
  cbn [run_alone RoomExists_t read section fst snd].
  assert (RoomExists rid (roomSvc (snapshot base sh)) =
    bool_decide (is_Some (sh_rooms sh !! rid))) as ->.
  { unfold RoomExists. simpl. apply bool_decide_ext. by rewrite lookup_fmap, fmap_is_Some. }
  destruct (bool_decide _); simpl negb; [|done]. cbn iota.
  exact (resume_found_alone u rid g now base sh Hwf).
Qed.

Lemma check_user_alone tmo now u :
  server_alone (check_user_t tmo now u) (λ s, (tt, check_user tmo now s u)).
Proof.
  intros base sh Hwf. unfold check_user_t, check_user. rewrite run_alone_bind.
  rewrite IsUserDisconnected_alone. cbn [sessionSvc snapshot set_sessionSvc fst snd].
  destruct (IsUserDisconnected u (sessions_of sh)); [|done].
  rewrite run_alone_bind, GetDisconnectedDuration_alone. cbn [fst snd].
  destruct (tmo <=? _); [|done]. rewrite run_alone_bind.
  unfold GetSession, map_store. rewrite sessions_of_lookup.
  cbn [run_alone GetSession_t read section fst snd].
  destruct (sh_sessions sh !! u) as [l|] eqn:Hl; cbn [fmap option_fmap option_map]; [|done].
  rewrite run_alone_bind. exact (LeaveRoom_alone u (s_RoomID (sh_session sh l)) base sh Hwf).
Qed.

Lemma user_thread_alone u op : server_alone (user_thread u op) (run_user u op).
Proof.
  assert (∀ A (t : thread A) F (r : A → Reply) G, server_alone t F →
    (∀ s, G s = let '(a, s) := F s in (r a, s)) → server_alone (a ← t; Ret (r a)) G) as Hmap.
  { intros A t F r G Ht HG. eapply server_alone_ext.
    - by apply (server_alone_bind _ _ _ (λ a s, (r a, s)) Ht).
    - intros. by rewrite HG. }
  destruct op as [rid g now|rid|rid g now|rid now|tmo now]; simpl.
  - by apply (Hmap _ _ _ ReplyJoin _ (JoinRoom_alone u rid g now)).
  - by apply (Hmap _ _ _ (λ _, ReplyDone) _ (LeaveRoom_alone u rid)).
  - apply (Hmap _ _ _ (λ r, ReplyResume r.1 r.2) _ (Resume_alone u rid g now)).
    intros s. simpl. by destruct (Resume u rid g now s) as [[code cur] s'].
  - by apply (Hmap _ _ _ (λ _, ReplyDone) _ (UserDisconnect_alone u rid now)).
  - by apply (Hmap _ _ _ (λ _, ReplyDone) _ (check_user_alone tmo now u)).
Qed.

Lemma user_program_alone u ops : server_alone (user_program u ops) (run_user_ops u ops).
Proof.
  induction ops as [|op ops IH]; [done|].
  apply (server_alone_bind _ _ _ (λ r s, let '(rs, s) := run_user_ops u ops s in (r :: rs, s))
    (user_thread_alone u op)).
  intros r. by apply (server_alone_bind _ _ _ (λ rs s, (r :: rs, s)) IH).
Qed.
End server_alone.
