(* ===== verification/UserThreads.v ===== *)
(** Reasoning about one goroutine of Threads.v among others: what the others
    leave alone of a user ([frame]), what a goroutine does whatever they do
    ([safe]), this for every operation of the server and for pools of
    goroutines, and the same requests one after the other. *)

From Stdlib Require Import ZArith Lia.
From stdpp Require Import base tactics functions gmap strings numbers list.
From S2P Require Import Prelude Protocol SessionStore SessionService RoomService Recovery HashRing Roomserver Threads.

Local Open Scope Z_scope.

(** ** Reasoning about one goroutine among others

    [frame v sh sh'] is what the others leave alone of user [v]: the session,
    its pointer, the memberships, and every room in the table.  A goroutine
    that is [safe] for user [u] does what it should although others, which
    keep the frame of [u], run between its sections; in return its own
    sections keep the frames of all other users. *)
Definition frame (v : string) (sh sh' : Shared) : Prop :=
  sh_sessions sh' !! v = sh_sessions sh !! v ∧
  (∀ l, sh_sessions sh !! v = Some l → sh_session sh' l = sh_session sh l) ∧
  (∀ rid, member (rooms_of sh') rid v = member (rooms_of sh) rid v) ∧
  sh_rooms sh ⊆ sh_rooms sh'.

Definition others (u : string) (sh sh' : Shared) : Prop :=
  inv sh' ∧ ∀ v, v ≠ u → frame v sh sh'.

Fixpoint safe {A} (u : string) (t : thread A) (Q : A → Shared → Prop) (sh : Shared) : Prop :=
  ∀ sh', inv sh' → frame u sh sh' →
  match t with
  | Ret a => Q a sh'
  | Crit eff next => others u sh' (eff sh') ∧ safe u (next sh') Q (eff sh')
  end.

#[export] Instance frame_preorder v : PreOrder (frame v).
Proof.
  split.
  - intros sh. by split_and!.
  - intros s1 s2 s3 (Ht1 & Hs1 & Hm1 & Hr1) (Ht2 & Hs2 & Hm2 & Hr2). split_and!.
    + congruence.
    + intros l Hl. rewrite Hs2 by congruence. eauto.
    + intros rid. by rewrite Hm2, Hm1.
    + by etrans.
Qed.

Section safe.
Context (u : string).
Implicit Types sh : Shared.

Lemma safe_frame {A} (t : thread A) (Q : A → Shared → Prop) sh sh' :
  safe u t Q sh → frame u sh sh' → safe u t Q sh'.
Proof. destruct t; intros Hs Hf sh2 Hinv Hf2; apply Hs; [done|by etrans|done|by etrans]. Qed.

Lemma safe_intro {A} (t : thread A) (Q : A → Shared → Prop) sh :
  (∀ sh', inv sh' → frame u sh sh' → safe u t Q sh') → safe u t Q sh.
Proof. destruct t; intros Hs sh2 Hinv Hf2; by eapply Hs. Qed.

Lemma safe_bind {A B} (t : thread A) (k : A → thread B) (Q : B → Shared → Prop) sh :
  safe u t (λ a, safe u (k a) Q) sh → safe u (t ≫= k) Q sh.
Proof.
  revert sh. induction t as [a|eff next IH]; intros sh Hs; simpl.
  - apply safe_intro. exact Hs.
  - intros sh' Hinv Hf. destruct (Hs sh' Hinv Hf) as [Ho Hn]. split; [done|]. by apply IH.
Qed.

Lemma safe_mono {A} (t : thread A) (Q Q' : A → Shared → Prop) sh :
  (∀ a sh', inv sh' → Q a sh' → Q' a sh') → safe u t Q sh → safe u t Q' sh.
Proof.
  intros HQ. revert sh. induction t as [a|eff next IH]; intros sh Hs sh' Hinv Hf.
  - apply HQ; [done|]. by apply Hs.
  - destruct (Hs sh' Hinv Hf) as [Ho Hn]. split; [done|]. by apply IH.
Qed.

(** A section and what is left after it. *)
Lemma safe_section {A B} (f : Shared → A * Shared) (k : A → thread B) (Q : B → Shared → Prop) sh :
  (∀ sh', inv sh' → frame u sh sh' →
     others u sh' (f sh').2 ∧ safe u (k (f sh').1) Q (f sh').2) →
  safe u (section f ≫= k) Q sh.
Proof. intros Hf sh' Hinv Hfr. by apply Hf. Qed.

Lemma safe_read {A B} (f : Shared → A) (k : A → thread B) (Q : B → Shared → Prop) sh :
  (∀ sh', inv sh' → frame u sh sh' → safe u (k (f sh')) Q sh') →
  safe u (read f ≫= k) Q sh.
Proof. intros Hf. apply safe_section. intros sh' Hinv Hfr. split; [done|]. by apply Hf. Qed.
End safe.

(** ** Pools of goroutines that each look after a user of their own *)
Section pools.
Context {A : Type}.
Implicit Types (ts : pool A) (sh : Shared).

Lemma safe_pool_step us (Q : nat → A → Shared → Prop) ts sh i :
  NoDup us → inv sh →
  (∀ j u t, us !! j = Some u → ts !! j = Some t → safe u t (Q j) sh) →
  length ts = length us →
  let '(ts', sh') := sched_step (ts, sh) i in
  inv sh' ∧ (∀ v, v ∉ us → frame v sh sh') ∧ length ts' = length us ∧
  (∀ j u t, us !! j = Some u → ts' !! j = Some t → safe u t (Q j) sh').
Proof.
  intros Hnd Hinv Hsafe Hlen. unfold sched_step. simpl.
  destruct (ts !! i) as [[a|eff next]|] eqn:Hi; [done| |done].
  assert (is_Some (us !! i)) as [u Hu]
    by (apply lookup_lt_is_Some; rewrite <-Hlen; by eapply lookup_lt_Some).
  destruct (Hsafe i u _ Hu Hi sh Hinv (reflexivity sh)) as [[Hinv' Hfr] Hnext].
  split_and!; [done| |by rewrite length_insert|].
  - intros v Hv. apply Hfr. intros ->. apply Hv. by eapply list_elem_of_lookup_2.
  - intros j v t Hv. destruct (decide (i = j)) as [<-|Hne].
    + rewrite list_lookup_insert_eq by (by eapply lookup_lt_Some). naive_solver.
    + rewrite list_lookup_insert_ne by done. intros Ht.
      apply (safe_frame v t _ sh); [eauto|]. apply Hfr. intros ->.
      apply Hne. by eapply NoDup_lookup.
Qed.

Lemma safe_pool us (Q : nat → A → Shared → Prop) sched ts sh :
  NoDup us → inv sh →
  (∀ j u t, us !! j = Some u → ts !! j = Some t → safe u t (Q j) sh) →
  length ts = length us →
  let '(ts', sh') := run_schedule sched (ts, sh) in
  inv sh' ∧ (∀ v, v ∉ us → frame v sh sh') ∧
  (∀ j u a, us !! j = Some u → ts' !! j = Some (Ret a) → Q j a sh').
Proof.
  intros Hnd. revert ts sh. induction sched as [|i sched IH]; intros ts sh Hinv Hsafe Hlen; simpl.
  - split_and!; [done|done|]. intros j u a Hu Hj. by apply (Hsafe j u _ Hu Hj).
  - pose proof (safe_pool_step us Q ts sh i Hnd Hinv Hsafe Hlen) as Hstep.
    destruct (sched_step (ts, sh) i) as [ts' sh']. destruct Hstep as (Hinv' & Hfr & Hlen' & Hsafe').
    specialize (IH ts' sh' Hinv' Hsafe' Hlen').
    destruct (run_schedule sched (ts', sh')) as [ts2 sh2]. destruct IH as (? & Hfr2 & ?).
    split_and!; [done| |done]. intros v Hv. etrans; eauto.
Qed.
End pools.

(** ** One user at a time *)

(** The session and the memberships of user [u]. *)
Definition at_user (u : string) (sh : Shared) (so : option Session)
    (ms : string → option RoomMember) : Prop :=
  sessions_of sh !! u = so ∧ ∀ rid, member (rooms_of sh) rid u = ms rid.

(** An operation of the table that changes one entry of user [u]. *)
Definition user_local {A} (u rid : string) (F : RoomService → A * RoomService)
    (g : option RoomMember → option RoomMember) : Prop :=
  ∀ rs, (rooms_wf rs → rooms_wf (F rs).2) ∧
    ∀ rid' v, member (F rs).2 rid' v =
      if decide (rid' = rid ∧ v = u) then g (member rs rid u) else member rs rid' v.

Section user_rules.
Context (u : string).
Implicit Types (sh : Shared) (so : option Session) (ms : string → option RoomMember)
  (rid g : string).

Lemma at_user_frame sh sh' so ms : at_user u sh so ms → frame u sh sh' → at_user u sh' so ms.
Proof.
  intros [Hs Hm] (Ht & Hse & Hmem & _). split.
  - rewrite sessions_of_lookup, Ht, <-Hs, sessions_of_lookup.
    destruct (sh_sessions sh !! u) as [l|]; simpl; [|done]. f_equal. auto.
  - intros rid. by rewrite Hmem.
Qed.

Lemma at_user_ext sh so ms ms' :
  (∀ r, ms r = ms' r) → at_user u sh so ms → at_user u sh so ms'.
Proof. intros Heq [Hs Hm]. split; [done|]. intros r. by rewrite Hm. Qed.

Lemma section_safe {A} (f : Shared → A * Shared) (Q : A → Shared → Prop) sh :
  (∀ sh', inv sh' → frame u sh sh' →
     others u sh' (f sh').2 ∧
     ∀ sh2, inv sh2 → frame u (f sh').2 sh2 → Q (f sh').1 sh2) →
  safe u (section f) Q sh.
Proof. intros Hf sh' Hinv Hfr. destruct (Hf sh' Hinv Hfr) as [Ho HQ]. by split. Qed.

Lemma read_safe {A} (f : Shared → A) (Q : A → Shared → Prop) sh :
  (∀ sh', inv sh' → frame u sh sh' → ∀ sh2, inv sh2 → frame u sh' sh2 → Q (f sh') sh2) →
  safe u (read f) Q sh.
Proof.
  intros Hf. apply section_safe. intros sh' Hinv Hfr. split; [|by apply Hf].
  by split.
Qed.

(** Work in a room through a live pointer. *)
Lemma with_room_safe {A} (P : A → Prop) (f : Room → A * Room * Z) F rid G p sh so ms
    (Q : A → Shared → Prop) :
  implements rid f F → user_local u rid F G → (∀ rs, P (F rs).1) →
  at_user u sh so ms → sh_rooms sh !! rid = Some p →
  (∀ a sh', inv sh' → at_user u sh' so (<[rid := G (ms rid)]> ms) → P a → Q a sh') →
  safe u (with_room p f) Q sh.
Proof.
  intros Himp Hloc HP Hat Hp HQ. apply section_safe. intros sh1 [Hwf1 Hrs1] Hfr1.
  assert (sh_rooms sh1 !! rid = Some p) as Hp1 by (eapply lookup_weaken; [done|apply Hfr1]).
  pose proof (room_section_live f F rid p sh1 Himp Hwf1 Hp1) as Hl.
  pose proof (HP (rooms_of sh1)) as HPa. destruct (Hloc (rooms_of sh1)) as [Hwfl Hml].
  destruct (room_section p f sh1) as [a sh2]. cbn [fst snd].
  destruct Hl as (Hwf2 & HF & Hr2 & Hss2 & Hs2). rewrite HF in *. cbn [fst snd] in *.
  split; [split; [by split; [|apply Hwfl]|]|].
  - intros v Hv. split_and!; [by rewrite Hss2|by rewrite Hs2| |by rewrite Hr2].
    intros r. rewrite Hml. by rewrite decide_False by naive_solver.
  - intros sh3 Hinv3 Hfr3. apply HQ; [done| |done].
    apply (at_user_frame sh2); [|done]. apply (at_user_frame _ sh1) in Hat as [Hs Hm]; [|done].
    split; [unfold sessions_of in *; by rewrite Hss2, Hs2|].
    intros r. rewrite Hml. rewrite !Hm. destruct (decide (r = rid)) as [->|Hne].
    + rewrite decide_True by done. by rewrite fn_lookup_insert.
    + rewrite decide_False by naive_solver. by rewrite fn_lookup_insert_ne.
Qed.

(** Look the room up and work in it, if it is there. *)
Lemma found_safe {A} (P : A → Prop) (f : Room → A * Room * Z) F rid G none sh so ms
    (Q : A → Shared → Prop) :
  implements rid f F → user_local u rid F G → (∀ rs, P (F rs).1) → P none → G None = None →
  at_user u sh so ms →
  (∀ a sh', inv sh' → at_user u sh' so (<[rid := G (ms rid)]> ms) → P a → Q a sh') →
  safe u (room ← GetRoom_t rid;
          match room with None => Ret none | Some p => with_room p f end) Q sh.
Proof.
  intros Himp Hloc HP HPn HG Hat HQ. apply safe_read. intros sh1 Hinv1 Hfr1.
  apply (at_user_frame _ sh1) in Hat; [|done].
  destruct (sh_rooms sh1 !! rid) as [p|] eqn:Hp.
  - by eapply with_room_safe.
  - intros sh2 Hinv2 Hfr2. apply HQ; [done| |done].
    eapply at_user_frame; [|done]. eapply at_user_ext; [|done]. intros r.
    destruct (decide (r = rid)) as [->|]; [|by rewrite fn_lookup_insert_ne].
    rewrite fn_lookup_insert. destruct Hat as [_ Hm]. rewrite <-Hm.
    unfold member. by rewrite rooms_of_lookup, Hp.
Qed.

Lemma AddUser_local rid g now :
  user_local u rid (AddUser rid u g now)
    (λ _, Some (mkRoomMember u g MemberStatusOnline (Some now) None)).
Proof.
  intros rs. split; [auto with rooms|]. intros rid' v. rewrite member_AddUser. done.
Qed.

Lemma RemoveUser_local rid : user_local u rid (λ rs, (tt, RemoveUser rid u rs)) (λ _, None).
Proof. intros rs. simpl. split; [auto with rooms|]. intros. apply member_RemoveUser. Qed.

Definition member_offline now : option RoomMember → option RoomMember :=
  fmap (λ m, mkRoomMember (rm_UserID m) (rm_GatewayID m) MemberStatusDisconnected
               (rm_JoinTime m) (Some now)).

Lemma SetUserDisconnected_local rid now :
  user_local u rid (λ rs, (tt, SetUserDisconnected rid u now rs)) (member_offline now).
Proof. intros rs. simpl. split; [auto with rooms|]. intros. apply member_SetUserDisconnected. Qed.

Definition member_online g : option RoomMember → option RoomMember :=
  fmap (λ m, mkRoomMember (rm_UserID m) g MemberStatusOnline (rm_JoinTime m) None).

Lemma UpdateUserGateway_local rid g :
  user_local u rid (UpdateUserGateway rid u g) (member_online g).
Proof. intros rs. split; [auto with rooms|]. intros. apply member_UpdateUserGateway. Qed.

Lemma AddUser_safe rid g now sh so ms (Q : option string → Shared → Prop) :
  at_user u sh so ms →
  (∀ sh', inv sh' →
     at_user u sh' so (<[rid := Some (mkRoomMember u g MemberStatusOnline (Some now) None)]> ms) →
     Q None sh') →
  safe u (AddUser_t rid u g now) Q sh.
Proof.
  intros Hat HQ. apply safe_section. intros sh1 [Hwf1 Hrs1] Hfr1.
  apply (at_user_frame _ sh1) in Hat; [|done].
  pose proof (get_or_create_spec sh1 rid Hwf1) as Hg.
  destruct (get_or_create rid sh1) as [p sh2]. cbn [fst snd].
  destruct Hg as (Hwf2 & Hp & Hsub & Hss & Hs & Hgr).
  assert (∀ r v, member (rooms_of sh2) r v = member (rooms_of sh1) r v) as Hmem.
  { intros r v. replace (rooms_of sh2) with (GetOrCreateRoom rid (rooms_of sh1)).2 by (by rewrite Hgr).
    apply member_GetOrCreateRoom. }
  split.
  - split; [split; [done|]|].
    + replace (rooms_of sh2) with (GetOrCreateRoom rid (rooms_of sh1)).2 by (by rewrite Hgr).
      by apply rooms_wf_GetOrCreateRoom.
    + intros v _. split_and!; [by rewrite Hss|by rewrite Hs|done|done].
  - eapply (with_room_safe (λ a, a = None)); [apply room_add_implements|apply AddUser_local| |
      |exact Hp|].
    + intros rs. by rewrite AddUser_no_error.
    + destruct Hat as [Hso Hm]. split; [|intros; by rewrite Hmem].
      unfold sessions_of in *. rewrite Hss, Hs. exact Hso.
    + intros a sh' Hinv' Hat' ->. by apply HQ.
Qed.

Lemma RemoveUser_safe rid sh so ms (Q : () → Shared → Prop) :
  at_user u sh so ms →
  (∀ sh', inv sh' → at_user u sh' so (<[rid := None]> ms) → Q tt sh') →
  safe u (RemoveUser_t rid u) Q sh.
Proof.
  intros Hat HQ. eapply (found_safe (λ _, True)); [apply room_remove_implements|
    apply RemoveUser_local|done..|]. by intros [] ????; apply HQ.
Qed.

Lemma SetUserDisconnected_safe rid now sh so ms (Q : () → Shared → Prop) :
  at_user u sh so ms →
  (∀ sh', inv sh' → at_user u sh' so (<[rid := member_offline now (ms rid)]> ms) → Q tt sh') →
  safe u (SetUserDisconnected_t rid u now) Q sh.
Proof.
  intros Hat HQ. eapply (found_safe (λ _, True)); [apply room_disconnect_implements|
    apply SetUserDisconnected_local|done..|]. by intros [] ????; apply HQ.
Qed.

Lemma UpdateUserGateway_safe rid g sh so ms (Q : bool → Shared → Prop) :
  at_user u sh so ms →
  (∀ b sh', inv sh' → at_user u sh' so (<[rid := member_online g (ms rid)]> ms) → Q b sh') →
  safe u (UpdateUserGateway_t rid u g) Q sh.
Proof.
  intros Hat HQ. eapply (found_safe (λ _, True)); [apply room_update_gateway_implements|
    apply UpdateUserGateway_local|done..|]. by intros b ????; apply HQ.
Qed.
End user_rules.

(** ** The operations, for one user *)

(** The user is where [σ] says, and nowhere else. *)
Definition user_ok (σ : option Presence) (ms : string → option RoomMember) : Prop :=
  match σ with
  | Some p => p_room p ≠ ""%string ∧
    ∀ rid, if decide (p_room p = rid) then ∃ m, ms rid = Some m ∧ member_matches rid m p
           else ms rid = None
  | None => ∀ rid, ms rid = None
  end.

Definition user_state (u : string) (sh : Shared) (σ : option Presence) : Prop :=
  ∃ so ms, at_user u sh so ms ∧ presence_of <$> so = σ ∧ user_ok σ ms.

Section user_ops.
Context (u : string).
Implicit Types (sh : Shared) (so : option Session) (ms : string → option RoomMember)
  (rid g : string).

Lemma UpdateSession_safe rid g now sh so ms (Q : () → Shared → Prop) :
  at_user u sh so ms →
  (∀ sh', inv sh' → at_user u sh' (Some (updated_session u rid g now so)) ms → Q tt sh') →
  safe u (UpdateSession_t u rid g now) Q sh.
Proof.
  intros Hat HQ. apply section_safe. intros sh1 [Hwf1 Hrs1] Hfr1. cbn [fst snd].
  apply (at_user_frame _ _ sh1) in Hat as [Hso Hm]; [|done].
  destruct (update_session_spec u rid g now sh1 Hwf1) as (Hwf2 & Hs2 & Hr2 & Hrt & Hoth & Hobj).
  split; [split; [split; [done|by rewrite Hr2]|]|].
  - intros v Hv. split_and!; [by apply Hoth|by eauto|by rewrite Hr2|by rewrite Hrt].
  - intros sh3 Hinv3 Hfr3. apply HQ; [done|]. eapply at_user_frame; [|done]. split.
    + rewrite Hs2. simpl. by rewrite lookup_insert_eq, Hso.
    + intros r. by rewrite Hr2.
Qed.

Lemma SetDisconnected_safe now sh so ms (Q : () → Shared → Prop) :
  at_user u sh so ms →
  (∀ sh', inv sh' → at_user u sh' (disconnected_session now <$> so) ms → Q tt sh') →
  safe u (SetDisconnected_t u now) Q sh.
Proof.
  intros Hat HQ. apply section_safe. intros sh1 [Hwf1 Hrs1] Hfr1. cbn [fst snd].
  apply (at_user_frame _ _ sh1) in Hat as [Hso Hm]; [|done].
  destruct (set_disconnected_spec u now sh1 Hwf1) as (Hwf2 & Hs2 & Hr2 & Hrt & Hoth & Hobj).
  split; [split; [split; [done|by rewrite Hr2]|]|].
  - intros v Hv. split_and!; [by rewrite Hoth|by eauto|by rewrite Hr2|by rewrite Hrt].
  - intros sh3 Hinv3 Hfr3. apply HQ; [done|]. eapply at_user_frame; [|done]. split.
    + rewrite Hs2. simpl. by rewrite lookup_alter_eq, Hso.
    + intros r. by rewrite Hr2.
Qed.

Lemma DeleteSession_safe sh so ms (Q : () → Shared → Prop) :
  at_user u sh so ms → (∀ sh', inv sh' → at_user u sh' None ms → Q tt sh') →
  safe u (DeleteSession_t u) Q sh.
Proof.
  intros Hat HQ. apply section_safe. intros sh1 [Hwf1 Hrs1] Hfr1. cbn [fst snd].
  apply (at_user_frame _ _ sh1) in Hat as [Hso Hm]; [|done].
  destruct (delete_session_spec u sh1 Hwf1) as (Hwf2 & Hs2 & Hr2 & Hrt & Hobj).
  split; [split; [split; [done|by rewrite Hr2]|]|].
  - intros v Hv. split_and!; [by simpl; rewrite lookup_delete_ne|by rewrite Hobj|by rewrite Hr2|
      by rewrite Hrt].
  - intros sh3 Hinv3 Hfr3. apply HQ; [done|]. eapply at_user_frame; [|done]. split.
    + rewrite Hs2. simpl. by rewrite lookup_delete_eq.
    + intros r. by rewrite Hr2.
Qed.

(** The pointer [GetSession] returns stays the user's, with its contents. *)
Lemma GetSession_safe {B} (k : option SessRef → thread B) (Q : B → Shared → Prop) sh so ms :
  at_user u sh so ms →
  (so = None → ∀ sh', inv sh' → at_user u sh' so ms → safe u (k None) Q sh') →
  (∀ se l sh', so = Some se → inv sh' → at_user u sh' so ms → sh_sessions sh' !! u = Some l →
     safe u (k (Some l)) Q sh') →
  safe u (GetSession_t u ≫= k) Q sh.
Proof.
  intros Hat Hnone Hsome. apply safe_read. intros sh1 Hinv1 Hfr1.
  apply (at_user_frame _ _ sh1) in Hat; [|done].
  pose proof Hat as [Hso _]. rewrite sessions_of_lookup in Hso.
  destruct (sh_sessions sh1 !! u) as [l|] eqn:Hl; simpl in Hso; subst so; eauto.
Qed.

Lemma field_safe {A B} l (f : Session → A) (k : A → thread B) (Q : B → Shared → Prop) sh se ms :
  at_user u sh (Some se) ms → sh_sessions sh !! u = Some l →
  (∀ sh', inv sh' → at_user u sh' (Some se) ms → sh_sessions sh' !! u = Some l →
     safe u (k (f se)) Q sh') →
  safe u (field l f ≫= k) Q sh.
Proof.
  intros Hat Hl Hk. apply safe_read. intros sh1 Hinv1 Hfr1.
  assert (sh_sessions sh1 !! u = Some l) as Hl1 by (by rewrite (proj1 Hfr1)).
  apply (at_user_frame _ _ sh1) in Hat; [|done].
  pose proof Hat as [Hso _]. rewrite sessions_of_lookup, Hl1 in Hso. simpl in Hso.
  injection Hso as Hso. rewrite Hso. by apply Hk.
Qed.

Lemma ret_safe {A} (a : A) (Q : A → Shared → Prop) sh so ms :
  at_user u sh so ms → (∀ sh', inv sh' → at_user u sh' so ms → Q a sh') → safe u (Ret a) Q sh.
Proof. intros Hat HQ sh' Hinv Hfr. apply HQ; [done|]. by eapply at_user_frame. Qed.

Lemma JoinRoom_safe rid g now sh so ms (Q : option string → Shared → Prop) :
  at_user u sh so ms →
  (∀ sh', inv sh' →
     at_user u sh' (Some (updated_session u rid g now so))
       (<[rid := Some (mkRoomMember u g MemberStatusOnline (Some now) None)]>
          (if decide (default ""%string (s_RoomID <$> so) ≠ ""%string ∧
                      default ""%string (s_RoomID <$> so) ≠ rid)
           then <[default ""%string (s_RoomID <$> so) := None]> ms else ms)) →
     Q None sh') →
  safe u (JoinRoom_t u rid g now) Q sh.
Proof.
  intros Hat HQ.
  assert (∀ old sh1, at_user u sh1 so ms → old = default ""%string (s_RoomID <$> so) →
    safe u (_ ← (if decide (old ≠ ""%string ∧ old ≠ rid) then RemoveUser_t old u else Ret tt);
            err ← AddUser_t rid u g now;
            match err with
            | Some e => Ret (Some e)
            | None => _ ← UpdateSession_t u rid g now; Ret None
            end) Q sh1) as Hrest.
  { intros old sh1 Hat1 ->. apply safe_bind.
    assert (∀ sh2 ms2, at_user u sh2 so ms2 → (∀ sh', inv sh' →
       at_user u sh' (Some (updated_session u rid g now so))
         (<[rid := Some (mkRoomMember u g MemberStatusOnline (Some now) None)]> ms2) → Q None sh') →
      safe u (err ← AddUser_t rid u g now;
            match err with
            | Some e => Ret (Some e)
            | None => _ ← UpdateSession_t u rid g now; Ret None
            end) Q sh2) as Hadd.
    { intros sh2 ms2 Hat2 HQ2. apply safe_bind. eapply AddUser_safe; [done|].
      intros sh3 Hinv3 Hat3. apply safe_bind. eapply UpdateSession_safe; [done|].
      intros sh4 Hinv4 Hat4. by eapply ret_safe. }
    case_decide.
    - eapply RemoveUser_safe; [done|]. intros sh2 Hinv2 Hat2. by eapply Hadd.
    - eapply ret_safe; [done|]. intros sh2 Hinv2 Hat2. by eapply Hadd. }
  unfold JoinRoom_t. apply safe_bind. unfold GetUserRoom_t. eapply GetSession_safe; [done| |].
  - intros -> sh1 Hinv1 Hat1. eapply ret_safe; [done|]. intros sh2 Hinv2 Hat2. by apply Hrest.
  - intros se l sh1 -> Hinv1 Hat1 Hl.
    apply (field_safe l s_RoomID Ret _ _ se ms); [done..|].
    intros sh2 Hinv2 Hat2 Hl2. eapply ret_safe; [done|]. intros sh3 Hinv3 Hat3. by apply Hrest.
Qed.

Lemma LeaveRoom_safe rid sh so ms (Q : () → Shared → Prop) :
  at_user u sh so ms →
  (∀ sh', inv sh' → at_user u sh' None (<[rid := None]> ms) → Q tt sh') →
  safe u (LeaveRoom_t u rid) Q sh.
Proof.
  intros Hat HQ. unfold LeaveRoom_t. apply safe_bind. eapply RemoveUser_safe; [done|].
  intros sh1 Hinv1 Hat1. by eapply DeleteSession_safe.
Qed.

Lemma UserDisconnect_safe rid now sh so ms (Q : () → Shared → Prop) :
  at_user u sh so ms →
  (∀ sh', inv sh' → at_user u sh' (disconnected_session now <$> so)
     (<[rid := member_offline now (ms rid)]> ms) → Q tt sh') →
  safe u (UserDisconnect_t u rid now) Q sh.
Proof.
  intros Hat HQ. unfold UserDisconnect_t. apply safe_bind.
  eapply SetUserDisconnected_safe; [done|].
  intros sh1 Hinv1 Hat1. by eapply SetDisconnected_safe.
Qed.

(** [Resume] of a user whose room, if any, has the user as a member. *)
Lemma Resume_safe rid g now sh so ms (Q : Z * string → Shared → Prop) :
  at_user u sh so ms →
  (∀ se, so = Some se → s_RoomID se = rid → ms rid ≠ None) →
  (∀ sh', inv sh' →
     match so with
     | None => at_user u sh' so ms → Q (ErrCodeUserNotInRoom, ""%string) sh'
     | Some se =>
       if decide (s_RoomID se = rid)
       then at_user u sh' (Some (updated_session u rid g now so))
              (<[rid := member_online g (ms rid)]> ms) → Q (ErrCodeSuccess, ""%string) sh'
       else at_user u sh' so ms → Q (ErrCodeRoomMismatch, s_RoomID se) sh'
     end) →
  safe u (Resume_t u rid g now) Q sh.
Proof.
  intros Hat Hmem HQ. unfold Resume_t. eapply GetSession_safe; [done| |].
  - intros -> sh1 Hinv1 Hat1. eapply ret_safe; [done|]. intros. by apply HQ.
  - intros se l sh1 -> Hinv1 Hat1 Hl. eapply field_safe; [done..|].
    intros sh2 Hinv2 Hat2 Hl2. destruct (decide (s_RoomID se ≠ rid)) as [Hd|Hd].
    + eapply field_safe; [done..|]. intros sh3 Hinv3 Hat3 Hl3. eapply ret_safe; [done|].
      intros sh4 Hinv4. specialize (HQ sh4 Hinv4). simpl in HQ. by rewrite decide_False in HQ.
    + apply safe_read. intros sh3 Hinv3 Hfr3.
      apply (at_user_frame _ _ sh3) in Hat2; [|done].
      destruct (decide (s_RoomID se = rid)) as [Hr|]; [|done].
      assert (is_Some (sh_rooms sh3 !! rid)) as Hroom.
      { destruct Hat2 as [_ Hm2]. specialize (Hm2 rid). specialize (Hmem se eq_refl Hr).
        unfold member in Hm2. rewrite rooms_of_lookup in Hm2.
        destruct (sh_rooms sh3 !! rid); [done|]. by rewrite <-Hm2 in Hmem. }
      rewrite bool_decide_true by done. simpl negb. cbn iota.
      apply safe_bind. eapply UpdateUserGateway_safe; [done|]. intros b sh4 Hinv4 Hat4.
      apply safe_bind. eapply UpdateSession_safe; [done|]. intros sh5 Hinv5 Hat5.
      eapply ret_safe; [done|]. intros sh6 Hinv6. by apply HQ.
Qed.

(** The timeout check of one user that nobody else looks after. *)
Lemma check_user_safe tmo now sh so ms (Q : () → Shared → Prop) :
  at_user u sh so ms →
  (∀ sh', inv sh' →
     match so with
     | Some se =>
       if decide (expired tmo now (presence_of se))
       then at_user u sh' None (<[s_RoomID se := None]> ms) → Q tt sh'
       else at_user u sh' so ms → Q tt sh'
     | None => at_user u sh' so ms → Q tt sh'
     end) →
  safe u (check_user_t tmo now u) Q sh.
Proof.
  intros Hat HQ. unfold check_user_t, IsUserDisconnected_t.
  apply safe_bind. eapply GetSession_safe; [done| |].
  { intros -> sh1 Hinv1 Hat1. eapply ret_safe; [done|]. intros sh2 Hinv2 Hat2.
    eapply ret_safe; [done|]. intros. by apply HQ. }
  intros se l sh1 -> Hinv1 Hat1 Hl. eapply field_safe; [done..|].
  intros sh2 Hinv2 Hat2 Hl2. eapply ret_safe; [done|]. intros sh3 Hinv3 Hat3.
  case_bool_decide as Hdis.
  2: { eapply ret_safe; [done|]. intros sh4 Hinv4. specialize (HQ sh4 Hinv4).
    rewrite decide_False in HQ; [done|]. by intros []. }
  unfold GetDisconnectedDuration_t. apply safe_bind. eapply GetSession_safe; [done|done|].
  intros se' l' sh4 [= <-] Hinv4 Hat4 Hl4. eapply field_safe; [done..|].
  intros sh5 Hinv5 Hat5 Hl5. rewrite decide_False by naive_solver.
  eapply field_safe; [done..|]. intros sh6 Hinv6 Hat6 Hl6.
  eapply ret_safe; [done|]. intros sh7 Hinv7 Hat7.
  destruct (Z.leb_spec tmo (time_since now (s_DisconnectedAt se))) as [Hle|Hgt].
  2: { eapply ret_safe; [done|]. intros sh8 Hinv8. specialize (HQ sh8 Hinv8).
    rewrite decide_False in HQ; [done|]. intros [_ He]. simpl in He. lia. }
  eapply GetSession_safe; [done|done|]. intros se' l'' sh8 [= <-] Hinv8 Hat8 Hl8.
  eapply field_safe; [done..|]. intros sh9 Hinv9 Hat9 Hl9.
  eapply LeaveRoom_safe; [done|]. intros sh10 Hinv10. specialize (HQ sh10 Hinv10).
  by rewrite decide_True in HQ.
Qed.
End user_ops.

Section user_contract.
Context (u : string).
Implicit Types (sh : Shared) (σ : option Presence) (ms : string → option RoomMember)
  (rid g : string).

Lemma default_room (so : option Session) :
  default ""%string (s_RoomID <$> so) = default ""%string (p_room <$> (presence_of <$> so)).
Proof. by destruct so. Qed.

Lemma user_ok_join σ ms rid g now old :
  user_ok σ ms → rid ≠ ""%string → old = default ""%string (p_room <$> σ) →
  user_ok (Some (mkPresence rid g MemberStatusOnline None))
    (<[rid := Some (mkRoomMember u g MemberStatusOnline (Some now) None)]>
       (if decide (old ≠ ""%string ∧ old ≠ rid) then <[old := None]> ms else ms)).
Proof.
  intros Hok Hrid ->. split; [done|]. intros r. simpl. case_decide as Hr.
  - subst. rewrite fn_lookup_insert. eexists. by split.
  - rewrite fn_lookup_insert_ne by done. destruct σ as [p|]; simpl in *.
    + destruct Hok as [Hne Hms]. specialize (Hms r).
      destruct (decide (p_room p = r)) as [Hp|Hp].
      * rewrite decide_True by (split; congruence). by rewrite Hp, fn_lookup_insert.
      * by case_decide; [rewrite fn_lookup_insert_ne|].
    + apply Hok.
Qed.

Lemma user_ok_leave σ ms rid :
  user_ok σ ms → (∀ p, σ = Some p → p_room p = rid) → user_ok None (<[rid := None]> ms).
Proof.
  intros Hok Hin r. destruct (decide (r = rid)) as [->|Hne]; [by rewrite fn_lookup_insert|].
  rewrite fn_lookup_insert_ne by done. destruct σ as [p|]; [|done].
  destruct Hok as [_ Hms]. specialize (Hms r). rewrite (Hin p eq_refl) in Hms.
  by rewrite decide_False in Hms.
Qed.

Lemma user_ok_member p ms : user_ok (Some p) ms → ms (p_room p) ≠ None.
Proof. intros [_ Hms]. specialize (Hms (p_room p)). rewrite decide_True in Hms by done. naive_solver. Qed.

(** An update of the member of the user's room. *)
Lemma user_ok_update p p' ms rid h :
  user_ok (Some p) ms → p_room p = rid → p_room p' = rid →
  (∀ m, ms rid = Some m → member_matches rid m p → ∃ m', h (Some m) = Some m' ∧ member_matches rid m' p') →
  user_ok (Some p') (<[rid := h (ms rid)]> ms).
Proof.
  intros [Hne Hms] Hp Hp' Hh. split; [congruence|]. intros r. rewrite Hp'.
  pose proof (Hms r) as Hr. rewrite Hp in Hr. case_decide as Hd.
  - subst r. rewrite fn_lookup_insert. destruct Hr as (m & Hm & Hmm). rewrite Hm. by apply Hh.
  - by rewrite fn_lookup_insert_ne.
Qed.

Lemma user_thread_safe op sh σ (Q : Reply → Shared → Prop) :
  user_state u sh σ → user_respectful σ op →
  (∀ sh', inv sh' → user_state u sh' (spec_user σ op) → Q (spec_reply σ op) sh') →
  safe u (user_thread u op) Q sh.
Proof.
  intros (so & ms & Hat & Hσ & Hok) Hresp HQ.
  assert (∀ sh2 r so2 ms2, at_user u sh2 so2 ms2 → presence_of <$> so2 = spec_user σ op →
    user_ok (spec_user σ op) ms2 → r = spec_reply σ op → safe u (Ret r) Q sh2) as Hret.
  { intros sh2 r so2 ms2 Hat2 Hσ2 Hok2 ->. eapply ret_safe; [done|].
    intros sh3 Hinv3 Hat3. apply HQ; [done|]. by exists so2, ms2. }
  destruct op as [rid g now|rid|rid g now|rid now|tmo now]; simpl in Hresp;
    apply safe_bind; cbn [spec_user spec_reply] in Hret.
  - eapply JoinRoom_safe; [done|]. intros sh1 Hinv1 Hat1. eapply Hret; [done| | |done].
    + by destruct so.
    + apply (user_ok_join σ); [done..|]. by rewrite default_room, Hσ.
  - eapply LeaveRoom_safe; [done|]. intros sh1 Hinv1 Hat1. eapply Hret; [done|done| |done].
    by apply (user_ok_leave σ).
  - eapply (Resume_safe u rid g now); [done| |].
    + intros se -> <-. subst σ. by apply (user_ok_member (presence_of se)).
    + intros sh1 Hinv1. destruct so as [se|]; simpl in Hσ; subst σ; simpl in *.
      * destruct (decide (s_RoomID se = rid)) as [Hr|Hr]; intros Hat1.
        -- eapply Hret; [done|done| |done].
           apply (user_ok_update (presence_of se)); [done..|].
           intros m _ _. eexists. split; [done|]. done.
        -- by eapply Hret.
      * intros Hat1. by eapply Hret.
  - eapply UserDisconnect_safe; [done|]. intros sh1 Hinv1 Hat1. eapply Hret; [done| | |done].
    + by rewrite <-Hσ; destruct so.
    + destruct σ as [p|]; simpl.
      * pose proof (Hresp p eq_refl) as Hp.
        apply (user_ok_update p (go_offline now p) ms rid (member_offline now)); [done..|].
        intros m _ (_ & Hg & _). eexists. split; [done|]. by split_and!.
      * intros r. destruct (decide (r = rid)) as [->|Hne]; [|by rewrite fn_lookup_insert_ne].
        rewrite fn_lookup_insert. by rewrite (Hok rid).
  - eapply (check_user_safe u tmo now); [done|]. intros sh1 Hinv1.
    destruct so as [se|]; simpl in Hσ; subst σ; simpl in *.
    + case_decide as He; intros Hat1.
      * eapply Hret; [done|done| |done]. apply (user_ok_leave (Some (presence_of se))); [done|].
        by intros p [= <-].
      * by eapply Hret.
    + intros Hat1. by eapply Hret.
Qed.

Lemma user_program_safe ops sh σ (Q : list Reply → Shared → Prop) :
  user_state u sh σ → user_respectful_history σ ops →
  (∀ sh', inv sh' → user_state u sh' (foldl spec_user σ ops) → Q (spec_replies σ ops) sh') →
  safe u (user_program u ops) Q sh.
Proof.
  revert sh σ Q. induction ops as [|op ops IH]; intros sh σ Q Hst Hresp HQ; simpl.
  - destruct Hst as (so & ms & Hat & Hσ & Hok). eapply ret_safe; [done|].
    intros sh' Hinv' Hat'. apply HQ; [done|]. by exists so, ms.
  - destruct Hresp as [Hop Hops]. apply safe_bind. eapply user_thread_safe; [done..|].
    intros sh1 Hinv1 Hst1. apply safe_bind. eapply IH; [done..|].
    intros sh2 Hinv2 Hst2. destruct Hst2 as (so & ms & Hat & Hσ & Hok).
    eapply ret_safe; [done|]. intros sh3 Hinv3 Hat3. apply HQ; [done|]. by exists so, ms.
Qed.
End user_contract.

(** Coherence of the server is that every user is where the sessions say. *)
Lemma coherent_user base sh u :
  coherent (snapshot base sh) → user_state u sh (presence (snapshot base sh) !! u).
Proof.
  intros Hco. exists (sessions_of sh !! u), (λ rid, member (rooms_of sh) rid u).
  rewrite presence_lookup. split_and!; [done|done|].
  pose proof (λ rid, coherent_elim (snapshot base sh) u rid Hco) as Hel.
  pose proof Hco as (_ & _ & _ & Hne). specialize (Hne u).
  rewrite presence_lookup in Hel, Hne. simpl in *.
  destruct (sessions_of sh !! u) as [se|]; simpl in *; [|done]. split; [exact (Hne _ eq_refl)|done].
Qed.

Lemma user_coherent base sh :
  inv sh → (∀ u, ∃ σ, user_state u sh σ) → coherent (snapshot base sh).
Proof.
  intros [Hwf Hrs] Hall.
  assert (∀ u, ∃ ms, (∀ rid, member (rooms_of sh) rid u = ms rid) ∧
    user_ok (presence (snapshot base sh) !! u) ms) as Hall'.
  { intros u. destruct (Hall u) as (σ & so & ms & [Hso Hm] & Hσ & Hok). exists ms.
    split; [done|]. rewrite presence_lookup. simpl. by rewrite Hso, Hσ. }
  apply coherent_intro; [by split|..].
  - intros u p Hp. destruct (Hall' u) as (ms & _ & Hok). rewrite Hp in Hok. apply Hok.
  - intros u rid. destruct (Hall' u) as (ms & Hm & Hok). simpl. rewrite Hm.
    destruct (presence (snapshot base sh) !! u); apply Hok.
Qed.

(** ** The same requests one after the other *)
Section in_turn.
Context {SS : Type} `{SessionStoreLaws SS}.
Implicit Types (s : Server SS) (u rid g : string).

Lemma run_user_spec u op s :
  coherent s → user_respectful (presence s !! u) op →
  let '(r, s') := run_user u op s in
  coherent s' ∧ r = spec_reply (presence s !! u) op ∧
  presence s' !! u = spec_user (presence s !! u) op ∧
  ∀ v, v ≠ u → presence s' !! v = presence s !! v.
Proof.
  intros Hco Hresp. destruct op as [rid g now|rid|rid g now|rid now|tmo now]; simpl in *.
  - destruct (coherent_Join u rid g now s Hco Hresp) as [Hco' Hp].
    assert ((JoinRoom u rid g now s).1 = None) as Herr
      by (unfold JoinRoom; by rewrite AddUser_no_error).
    destruct (JoinRoom u rid g now s) as [err s']. simpl in *. subst err.
    split_and!; [done|done| |]; intros; rewrite Hp.
    + by rewrite lookup_insert_eq.
    + by rewrite lookup_insert_ne.
  - destruct (coherent_Leave u rid s Hco Hresp) as [Hco' Hp].
    split_and!; [done|done| |]; intros; rewrite Hp.
    + by rewrite lookup_delete_eq.
    + by rewrite lookup_delete_ne.
  - destruct (coherent_Resume u rid g now s Hco) as [Hco' Hp].
    pose proof (Resume_cases u rid g now s (proj1 (proj1 Hco))) as Hr.
    pose proof (coherent_elim s u rid Hco) as Hel. simpl in Hp.
    destruct (presence s !! u) as [p|] eqn:Hpu; [|by rewrite Hr].
    destruct (decide (p_room p = rid)) as [Hpr|Hpr].
    2: { rewrite decide_True in Hr by done. by rewrite Hr. }
    rewrite decide_False in Hr by naive_solver. destruct Hel as (m & Hm & _).
    rewrite decide_False in Hr.
    2: { intros Hn. unfold member in Hm. by rewrite Hn in Hm. }
    destruct Hr as (s' & Hres & _). rewrite Hres in *. simpl in *.
    split_and!; [done|done| |]; intros; rewrite Hp.
    + by rewrite lookup_insert_eq.
    + by rewrite lookup_insert_ne.
  - destruct (coherent_Disconnect u rid now s Hco Hresp) as [Hco' Hp].
    split_and!; [done|done| |]; intros; rewrite Hp.
    + by rewrite lookup_alter_eq.
    + by rewrite lookup_alter_ne.
  - pose proof (presence_check_user tmo now u s (proj1 Hco)) as Hp.
    assert (coherent (check_user tmo now s u)) as Hco'.
    { rewrite check_user_spec by apply Hco. destruct (presence s !! u) as [p|] eqn:Hpu; [|done].
      case_decide; [|done]. apply coherent_Leave; [done|]. intros p'. by rewrite Hpu; intros [= <-]. }
    split_and!; [done|done| |]; intros; rewrite Hp.
    + by rewrite decide_True.
    + by rewrite decide_False.
Qed.

Lemma run_user_ops_spec u ops s :
  coherent s → user_respectful_history (presence s !! u) ops →
  let '(rs, s') := run_user_ops u ops s in
  coherent s' ∧ rs = spec_replies (presence s !! u) ops ∧
  presence s' !! u = foldl spec_user (presence s !! u) ops ∧
  ∀ v, v ≠ u → presence s' !! v = presence s !! v.
Proof.
  revert s. induction ops as [|op ops IH]; intros s Hco Hresp; simpl; [done|].
  destruct Hresp as [Hop Hops]. pose proof (run_user_spec u op s Hco Hop) as H1.
  destruct (run_user u op s) as [r s1]. destruct H1 as (Hco1 & -> & Hp1 & Ho1).
  rewrite <-Hp1 in *. specialize (IH s1 Hco1 Hops).
  destruct (run_user_ops u ops s1) as [rs s2]. destruct IH as (Hco2 & -> & Hp2 & Ho2).
  split_and!; [done|done|done|]. intros v Hv. by rewrite Ho2, Ho1.
Qed.

Lemma run_in_turn_spec progs s :
  NoDup progs.*1 → coherent s →
  (∀ u ops, (u, ops) ∈ progs → user_respectful_history (presence s !! u) ops) →
  let '(rss, s') := run_in_turn progs s in
  coherent s' ∧ rss = (λ p, spec_replies (presence s !! p.1) p.2) <$> progs ∧
  (∀ u ops, (u, ops) ∈ progs → presence s' !! u = foldl spec_user (presence s !! u) ops) ∧
  (∀ v, v ∉ progs.*1 → presence s' !! v = presence s !! v).
Proof.
  revert s. induction progs as [|[u ops] progs IH]; intros s Hnd Hco Hresp; simpl.
  { split_and!; [done|done| |done]. by intros u ops ?%elem_of_nil. }
  simpl in Hnd. apply NoDup_cons in Hnd as [Hu Hnd].
  pose proof (run_user_ops_spec u ops s Hco (Hresp u ops ltac:(by left))) as H1.
  destruct (run_user_ops u ops s) as [rs s1]. destruct H1 as (Hco1 & -> & Hp1 & Ho1).
  assert (∀ v ops', (v, ops') ∈ progs → presence s1 !! v = presence s !! v) as Hsame.
  { intros v ops' Hv. apply Ho1. intros ->. apply Hu. apply list_elem_of_fmap. by exists (u, ops'). }
  specialize (IH s1 Hnd Hco1).
  destruct (run_in_turn progs s1) as [rss s2]. destruct IH as (Hco2 & -> & Hp2 & Ho2).
  { intros v ops' Hv. rewrite (Hsame v ops' Hv). apply Hresp. by right. }
  split_and!; [done| | |].
  - f_equal. apply list_fmap_ext. intros i [v ops'] Hv. simpl. f_equal.
    eapply Hsame. by eapply list_elem_of_lookup_2.
  - intros v ops' [[= -> ->]|Hv]%elem_of_cons.
    + by rewrite Ho2.
    + rewrite <-(Hsame v ops' Hv). by apply Hp2.
  - intros v Hv. rewrite not_elem_of_cons in Hv. destruct Hv as [Hvu Hv].
    by rewrite Ho2, Ho1.
Qed.
End in_turn.
