(* ===== verification/Interleaving.v ===== *)
(** The theorems about goroutines of the roomserver that run together, on
    Threads.v and UserThreads.v: they are serializable when they serve
    different users, they finish, rooms stay consistent whatever runs; and
    the races of requests of one user, of the timeout check and of the closing
    of a room. *)

From Stdlib Require Import ZArith Lia.
From stdpp Require Import base tactics functions gmap strings numbers list.
From S2P Require Import Prelude Protocol SessionStore SessionService RoomService Recovery HashRing Roomserver Threads UserThreads.

Local Open Scope Z_scope.

(** ** How long a goroutine runs *)

(** At most [n] sections, whatever it reads. *)
Fixpoint bounded {A} (n : nat) (t : thread A) : Prop :=
  match t, n with
  | Ret _, _ => True
  | Crit _ _, O => False
  | Crit _ next, S n => ∀ sh, bounded n (next sh)
  end.

Section bounded.
Implicit Types (u rid g : string) (n m : nat).

Lemma bounded_mono {A} (t : thread A) n m : (n ≤ m)%nat → bounded n t → bounded m t.
Proof.
  revert n m. induction t as [a|eff next IH]; intros [|n] [|m] Hle Hb; simpl in *; try done; [lia|].
  intros sh. apply (IH sh n); [lia|done].
Qed.

Lemma bounded_bind {A B} (t : thread A) (k : A → thread B) n m :
  bounded n t → (∀ a, bounded m (k a)) → bounded (n + m) (t ≫= k).
Proof.
  revert n. induction t as [a|eff next IH]; intros n Hb Hk.
  - apply (bounded_mono (k a) m); [lia|apply Hk].
  - destruct n as [|n]; [done|]. intros sh. by apply IH.
Qed.

Lemma bounded_section {A B} (f : Shared → A * Shared) (k : A → thread B) n :
  (∀ a, bounded n (k a)) → bounded (S n) (section f ≫= k).
Proof. intros Hk sh. apply Hk. Qed.
End bounded.

Section op_bounds.
Implicit Types (u rid g : string) (n : nat).

Lemma found_bounded {A} rid (f : Room → A * Room * Z) none :
  bounded 2 (room ← GetRoom_t rid;
             match room with None => Ret none | Some p => with_room p f end).
Proof. apply bounded_section. by intros [p|]. Qed.

Lemma AddUser_bounded rid u g now : bounded 2 (AddUser_t rid u g now).
Proof. by apply bounded_section. Qed.

Lemma JoinRoom_bounded u rid g now : bounded 7 (JoinRoom_t u rid g now).
Proof.
  apply (bounded_bind _ _ 2 5).
  { apply bounded_section. by intros [l|]. }
  intros old. apply (bounded_bind _ _ 2 3).
  { case_decide; [apply found_bounded|done]. }
  intros _. apply (bounded_bind _ _ 2 1); [apply AddUser_bounded|].
  by intros [e|].
Qed.

Lemma LeaveRoom_bounded u rid : bounded 3 (LeaveRoom_t u rid).
Proof. by apply (bounded_bind _ _ 2 1); [apply found_bounded|]. Qed.

Lemma Resume_bounded u rid g now : bounded 6 (Resume_t u rid g now).
Proof.
  apply bounded_section. intros [l|]; [|done]. apply bounded_section. intros r.
  case_decide; [by apply bounded_section|]. apply bounded_section. intros [|]; [|done].
  apply (bounded_bind _ _ 2 1); [apply found_bounded|done].
Qed.

Lemma check_user_bounded tmo now u : bounded 10 (check_user_t tmo now u).
Proof.
  apply (bounded_bind _ _ 2 8).
  { apply bounded_section. intros [l|]; [by apply bounded_section|done]. }
  intros [|]; [|done]. apply (bounded_bind _ _ 3 5).
  { apply bounded_section. intros [l|]; [|done]. apply bounded_section. intros st.
    case_decide; [done|by apply bounded_section]. }
  intros d. destruct (tmo <=? d); [|done]. apply bounded_section. intros [l|]; [|done].
  apply bounded_section. intros r. apply LeaveRoom_bounded.
Qed.

Lemma user_thread_bounded u op : bounded 10 (user_thread u op).
Proof.
  destruct op; cbn [user_thread]; apply (bounded_bind _ _ 10 0); try done.
  - apply (bounded_mono _ 7); [lia|apply JoinRoom_bounded].
  - apply (bounded_mono _ 3); [lia|apply LeaveRoom_bounded].
  - apply (bounded_mono _ 6); [lia|apply Resume_bounded].
  - apply (bounded_mono _ 3); [lia|]. apply (bounded_bind _ _ 2 1); [apply found_bounded|done].
  - apply check_user_bounded.
Qed.

Lemma user_program_bounded u ops : bounded (10 * length ops) (user_program u ops).
Proof.
  induction ops as [|op ops IH]; [done|].
  replace (10 * length (op :: ops))%nat with (10 + (10 * length ops + 0))%nat by (simpl; lia).
  apply bounded_bind; [apply user_thread_bounded|]. intros r.
  by apply bounded_bind.
Qed.

(** The turns goroutine [i] gets. *)
Definition turns (i : nat) (sched : list nat) : nat := length (filter (eq i) sched).

Lemma run_schedule_length {A} sched (ts : pool A) sh :
  length (run_schedule sched (ts, sh)).1 = length ts.
Proof.
  revert ts sh. induction sched as [|j sched IH]; intros ts sh; [done|].
  change (run_schedule (j :: sched) (ts, sh)) with (run_schedule sched (sched_step (ts, sh) j)).
  unfold sched_step. simpl. destruct (ts !! j) as [[a|eff next]|]; [apply IH| |apply IH].
  by rewrite IH, length_insert.
Qed.

Lemma bounded_finishes {A} sched i n (ts : pool A) sh t :
  ts !! i = Some t → bounded n t → (n ≤ turns i sched)%nat →
  ∃ a, (run_schedule sched (ts, sh)).1 !! i = Some (Ret a).
Proof.
  revert n ts sh t. induction sched as [|j sched IH]; intros n ts sh t Hi Hb Hn.
  - destruct t as [a|eff next]; [by exists a|]. destruct n; [done|].
    unfold turns in Hn. simpl in Hn. lia.
  - unfold turns in Hn. rewrite filter_cons in Hn.
    change (run_schedule (j :: sched) (ts, sh))
      with (run_schedule sched (sched_step (ts, sh) j)).
    unfold sched_step. simpl. destruct (decide (i = j)) as [<-|Hne].
    + rewrite Hi. destruct t as [a|eff next].
      * by apply (IH 0%nat _ _ (Ret a)); [|by destruct n|lia].
      * destruct n as [|n]; [done|]. simpl in Hn.
        apply (IH n _ _ (next sh)); [|apply Hb|unfold turns; lia].
        apply list_lookup_insert_eq. by eapply lookup_lt_Some.
    + destruct (ts !! j) as [[a|eff next]|] eqn:Hj; [by eapply IH| |by eapply IH].
      apply (IH n _ _ t); [by rewrite list_lookup_insert_ne|done|done].
Qed.

Lemma all_finished {A} (ts : pool A) :
  (∀ i, (i < length ts)%nat → ∃ a, ts !! i = Some (Ret a)) → ∃ rs, finished ts rs.
Proof.
  intros Hall. induction ts as [|t ts IH]; [by exists []|].
  destruct (Hall 0%nat) as [a Ha]; [simpl; lia|]. simpl in Ha. injection Ha as ->.
  destruct IH as [rs ->].
  { intros i Hi. apply (Hall (S i)). simpl. lia. }
  by exists (a :: rs).
Qed.
End op_bounds.

(** ** What no interleaving can break *)

(** Every section keeps the store and the rooms well formed, also when it
    works in a room that is no longer in the table. *)
Fixpoint keeps {A} (t : thread A) : Prop :=
  match t with
  | Ret _ => True
  | Crit eff next => (∀ sh, inv sh → inv (eff sh)) ∧ ∀ sh, keeps (next sh)
  end.

Section keeps.
Implicit Types (u rid g : string) (sh : Shared).

Lemma keeps_seq {A B} (t : thread A) (k : A → thread B) :
  keeps t → (∀ a, keeps (k a)) → keeps (t ≫= k).
Proof.
  intros Ht Hk. induction t as [a|eff next IH]; [apply Hk|]. destruct Ht as [He Hn].
  split; [done|]. intros sh. by apply IH.
Qed.

Lemma keeps_section {A} (f : Shared → A * Shared) :
  (∀ sh, inv sh → inv (f sh).2) → keeps (section f).
Proof. done. Qed.

Lemma keeps_read {A} (f : Shared → A) : keeps (read f).
Proof. done. Qed.

Lemma keeps_with_room {A} p (f : Room → A * Room * Z) (F : string → RoomService → A * RoomService) :
  (∀ rid, implements rid f (F rid)) →
  (∀ rid rs, rooms_wf rs → rooms_wf (F rid rs).2) → keeps (with_room p f).
Proof.
  intros Himp HF. apply keeps_section. intros sh [Hwf Hrs].
  destruct (decide (map_Exists (λ _ q, q = p) (sh_rooms sh))) as [(rid & q & Hp & ->)|Hno].
  - pose proof (room_section_live f (F rid) rid p sh (Himp rid) Hwf Hp) as Hl.
    specialize (HF rid _ Hrs). destruct (room_section p f sh) as [a sh']. cbn [snd] in *.
    destruct Hl as (Hwf' & HFr & _). rewrite HFr in HF. by split.
  - unfold room_section. destruct (f (sh_room sh p)) as [[a r] d]. cbn [snd].
    split; [done|]. intros rid room. simpl. rewrite fmap_object_none; [apply Hrs|].
    intros k Hk. apply Hno. by exists k, p.
Qed.

Lemma keeps_found {A} rid (f : Room → A * Room * Z) F none :
  (∀ rid, implements rid f (F rid)) →
  (∀ rid rs, rooms_wf rs → rooms_wf (F rid rs).2) →
  keeps (room ← GetRoom_t rid;
         match room with None => Ret none | Some p => with_room p f end).
Proof.
  intros Himp HF. apply keeps_seq; [apply keeps_read|]. intros [p|]; [|done].
  by apply (keeps_with_room p f F).
Qed.

Lemma keeps_AddUser rid u g now : keeps (AddUser_t rid u g now).
Proof.
  apply keeps_seq.
  - apply keeps_section. intros sh [Hwf Hrs]. pose proof (get_or_create_spec sh rid Hwf) as Hg.
    destruct (get_or_create rid sh) as [p sh1]. destruct Hg as (Hwf1 & _ & _ & _ & _ & Hgr).
    split; [done|]. cbn [snd]. replace (rooms_of sh1) with (GetOrCreateRoom rid (rooms_of sh)).2
      by (by rewrite Hgr). by apply rooms_wf_GetOrCreateRoom.
  - intros p. apply (keeps_with_room p _ (λ r, AddUser r u g now)); [|auto with rooms].
    intros r. apply room_add_implements.
Qed.

Lemma keeps_RemoveUser rid u : keeps (RemoveUser_t rid u).
Proof.
  apply (keeps_found rid _ (λ r rs, (tt, RemoveUser r u rs))); [|simpl; auto with rooms].
  intros r. apply room_remove_implements.
Qed.

Lemma keeps_SetUserDisconnected rid u now : keeps (SetUserDisconnected_t rid u now).
Proof.
  apply (keeps_found rid _ (λ r rs, (tt, SetUserDisconnected r u now rs))); [|simpl; auto with rooms].
  intros r. apply room_disconnect_implements.
Qed.

Lemma keeps_UpdateUserGateway rid u g : keeps (UpdateUserGateway_t rid u g).
Proof.
  apply (keeps_found rid _ (λ r, UpdateUserGateway r u g)); [|auto with rooms].
  intros r. apply room_update_gateway_implements.
Qed.

Lemma keeps_UpdateSession u rid g now : keeps (UpdateSession_t u rid g now).
Proof.
  apply keeps_section. intros sh [Hwf Hrs]. cbn [snd].
  destruct (update_session_spec u rid g now sh Hwf) as (? & _ & Hr & _). split; [done|].
  by rewrite Hr.
Qed.

Lemma keeps_SetDisconnected u now : keeps (SetDisconnected_t u now).
Proof.
  apply keeps_section. intros sh [Hwf Hrs]. cbn [snd].
  destruct (set_disconnected_spec u now sh Hwf) as (? & _ & Hr & _). split; [done|].
  by rewrite Hr.
Qed.

Lemma keeps_DeleteSession u : keeps (DeleteSession_t u).
Proof.
  apply keeps_section. intros sh [Hwf Hrs]. cbn [snd].
  destruct (delete_session_spec u sh Hwf) as (? & _ & Hr & _). split; [done|]. by rewrite Hr.
Qed.

Lemma keeps_LeaveRoom u rid : keeps (LeaveRoom_t u rid).
Proof. apply keeps_seq; [apply keeps_RemoveUser|]. intros _. apply keeps_DeleteSession. Qed.

Lemma keeps_check_user tmo now u : keeps (check_user_t tmo now u).
Proof.
  apply keeps_seq.
  { apply keeps_seq; [apply keeps_read|]. intros [l|]; [|done]. by apply keeps_seq. }
  intros [|]; [|done]. apply keeps_seq.
  { apply keeps_seq; [apply keeps_read|]. intros [l|]; [|done]. apply keeps_seq; [done|].
    intros st. case_decide; [done|]. by apply keeps_seq. }
  intros d. destruct (tmo <=? d); [|done]. apply keeps_seq; [done|]. intros [l|]; [|done].
  apply keeps_seq; [done|]. intros r. apply keeps_LeaveRoom.
Qed.

Lemma keeps_user_thread u op : keeps (user_thread u op).
Proof.
  destruct op as [rid g now|rid|rid g now|rid now|tmo now]; cbn [user_thread];
    (apply keeps_seq; [|done]).
  - apply keeps_seq; [|intros old; apply keeps_seq;
      [case_decide; [apply keeps_RemoveUser|done]|]].
    { apply keeps_seq; [apply keeps_read|]. by intros [l|]. }
    intros _. apply keeps_seq; [apply keeps_AddUser|]. intros [e|]; [done|].
    by apply keeps_seq; [apply keeps_UpdateSession|].
  - apply keeps_LeaveRoom.
  - apply keeps_seq; [done|]. intros [l|]; [|done]. apply keeps_seq; [done|]. intros r.
    case_decide; [by apply keeps_seq|]. apply keeps_seq; [done|]. intros [|]; [|done].
    apply keeps_seq; [apply keeps_UpdateUserGateway|]. intros _.
    by apply keeps_seq; [apply keeps_UpdateSession|].
  - apply keeps_seq; [apply keeps_SetUserDisconnected|]. intros _. apply keeps_SetDisconnected.
  - apply keeps_check_user.
Qed.

Lemma keeps_foldl {A B} (f : thread A → B → thread A) (l : list B) t :
  keeps t → (∀ t b, keeps t → keeps (f t b)) → keeps (foldl f t l).
Proof. intros Ht Hf. revert t Ht. induction l as [|b l IH]; intros t Ht; simpl; auto. Qed.

Lemma keeps_request req : keeps (request_thread req).
Proof.
  destruct req as [u ops|rid|ord tmo now]; cbn [request_thread].
  - induction ops as [|op ops IH]; [done|]. apply keeps_seq; [apply keeps_user_thread|].
    intros r. by apply keeps_seq.
  - apply keeps_seq; [|done]. apply keeps_seq.
    + apply keeps_section. intros sh [Hwf Hrs]. cbn [snd].
      destruct (delete_room_spec rid sh Hwf) as (Hwf' & Hr & _). split; [done|].
      intros r room. rewrite Hr. intros [_ Hroom]%lookup_delete_Some. by apply Hrs.
    + intros [p|]; [|done]. by apply keeps_seq.
  - apply keeps_seq; [|done]. apply keeps_seq.
    + apply keeps_foldl; [done|]. intros t i Ht. apply keeps_seq; [done|]. intros result.
      by apply keeps_seq.
    + intros us. apply keeps_foldl; [done|]. intros t v Ht.
      apply keeps_seq; [done|]. intros _. apply keeps_check_user.
Qed.

Lemma keeps_pool {A} sched (ts : pool A) sh :
  (∀ t, t ∈ ts → keeps t) → inv sh → inv (run_schedule sched (ts, sh)).2.
Proof.
  revert ts sh. induction sched as [|i sched IH]; intros ts sh Hts Hinv; [done|].
  change (run_schedule (i :: sched) (ts, sh)) with (run_schedule sched (sched_step (ts, sh) i)).
  unfold sched_step. simpl. destruct (ts !! i) as [[a|eff next]|] eqn:Hi; [by apply IH| |by apply IH].
  destruct (Hts (Crit eff next)) as [He Hn]; [by eapply list_elem_of_lookup_2|].
  apply IH; [|by apply He]. intros t Ht.
  apply list_elem_of_lookup in Ht as [j [(? & <- & _)|[_ Hj]]%list_lookup_insert_Some]; [apply Hn|].
  apply Hts. by eapply list_elem_of_lookup_2.
Qed.
End keeps.

(** ** Properties *)
Section properties.
Implicit Types (u rid g : string) (sh : Shared) (base : Server (gmap string Session)).

(** Alone, a goroutine that serves the requests of a user does what the
    steps of [Roomserver.v] do, and gives the same answers: the sections of
    an operation add up to its step. *)
Theorem alone_is_atomic u ops base sh :
  heap_wf sh →
  let '(replies, sh') := run_alone (user_program u ops) sh in
  heap_wf sh' ∧ run_user_ops u ops (snapshot base sh) = (replies, snapshot base sh').
Proof. apply user_program_alone. Qed.

(** C11. Goroutines that serve different users are serializable: however the
    scheduler interleaves the sections of their operations, once all have
    finished, every answer and every user's presence are those of serving
    one user after the other, and rooms and sessions agree about everybody.
    (Requests are respectful, and no room is closed meanwhile.) *)
Theorem interleaving_serializable base progs sched sh rss sh' :
  NoDup progs.*1 → inv sh → coherent (snapshot base sh) →
  (∀ u ops, (u, ops) ∈ progs →
     user_respectful_history (presence (snapshot base sh) !! u) ops) →
  run_schedule sched ((λ p, user_program p.1 p.2) <$> progs, sh) = (Ret <$> rss, sh') →
  let '(rss', s') := run_in_turn progs (snapshot base sh) in
  rss = rss' ∧ presence (snapshot base sh') = presence s' ∧ coherent (snapshot base sh').
Proof.
  intros Hnd Hinv Hco Hresp Hrun.
  set (Q := λ (i : nat) (rs : list Reply) (sh2 : Shared), ∃ u ops, progs !! i = Some (u, ops) ∧
    rs = spec_replies (presence (snapshot base sh) !! u) ops ∧
    user_state u sh2 (foldl spec_user (presence (snapshot base sh) !! u) ops)).
  pose proof (safe_pool progs.*1 Q sched ((λ p, user_program p.1 p.2) <$> progs) sh Hnd Hinv)
    as Hpool. rewrite Hrun in Hpool.
  destruct Hpool as (Hinv' & Hfr & Hfin).
  { intros j u t Hu Ht. rewrite list_lookup_fmap in Hu. rewrite list_lookup_fmap in Ht.
    destruct (progs !! j) as [[u' ops]|] eqn:Hj; simplify_eq/=.
    eapply user_program_safe; [by apply coherent_user|eapply Hresp; by eapply list_elem_of_lookup_2|].
    intros sh2 _ Hst. by exists u, ops. }
  { by rewrite !length_fmap. }
  pose proof (run_in_turn_spec progs (snapshot base sh) Hnd Hco Hresp) as Hseq.
  destruct (run_in_turn progs (snapshot base sh)) as [rss' s'].
  destruct Hseq as (Hco' & -> & Hin & Hout).
  assert (length rss = length progs) as Hlen.
  { pose proof (run_schedule_length sched ((λ p, user_program p.1 p.2) <$> progs) sh) as Hl.
    rewrite Hrun in Hl. simpl in Hl. by rewrite !length_fmap in Hl. }
  assert (∀ i u ops, progs !! i = Some (u, ops) →
    rss !! i = Some (spec_replies (presence (snapshot base sh) !! u) ops) ∧
    user_state u sh' (foldl spec_user (presence (snapshot base sh) !! u) ops)) as Hdone.
  { intros i u ops Hi. destruct (lookup_lt_is_Some_2 rss i) as [rs Hrs].
    { rewrite Hlen. by eapply lookup_lt_Some. }
    destruct (Hfin i u rs) as (u' & ops' & Hi' & -> & Hst);
      [by rewrite list_lookup_fmap, Hi|by rewrite list_lookup_fmap, Hrs|].
    by simplify_eq. }
  assert (∀ u, user_state u sh' (presence s' !! u)) as Hall.
  { intros u. destruct (decide (u ∈ progs.*1)) as [Hu|Hu].
    - apply list_elem_of_fmap in Hu as [[u' ops] [-> Hu]].
      simpl. rewrite (Hin _ _ Hu). apply list_elem_of_lookup in Hu as [i Hi]. by eapply Hdone.
    - rewrite Hout by done. destruct (coherent_user base sh u Hco) as (so & ms & Hat & Hσ & Hok).
      exists so, ms. split; [|done]. eapply at_user_frame; [done|]. by apply Hfr. }
  split_and!.
  - apply list_eq. intros i. rewrite list_lookup_fmap.
    destruct (progs !! i) as [[u ops]|] eqn:Hi; simpl; [by apply Hdone|].
    apply lookup_ge_None in Hi. apply lookup_ge_None. lia.
  - apply map_eq. intros u. rewrite presence_lookup. simpl.
    by destruct (Hall u) as (so & ms & [-> _] & -> & _).
  - apply user_coherent; [done|]. eauto.
Qed.

(** The histories that [interleaving_serializable] speaks of exist: a
    goroutine that the scheduler gives ten turns per request is done with all
    of them, whatever the others do in between. *)
Lemma user_goroutines_finish progs sched sh :
  (∀ i p, progs !! i = Some p → (10 * length p.2 ≤ turns i sched)%nat) →
  ∃ rss, finished (run_schedule sched ((λ p, user_program p.1 p.2) <$> progs, sh)).1 rss.
Proof.
  intros Hturns. apply all_finished. intros i Hi.
  rewrite run_schedule_length, length_fmap in Hi.
  apply lookup_lt_is_Some in Hi as [[u ops] Hp].
  apply (bounded_finishes sched i (10 * length ops) _ _ (user_program u ops)).
  - by rewrite list_lookup_fmap, Hp.
  - apply user_program_bounded.
  - exact (Hturns i _ Hp).
Qed.

(** C13. Whatever runs together (requests of the same user, closing of rooms,
    timeout checks) and however it is scheduled, also in mid-operation every
    room in the table has its own id, and every member is listed by the
    view of the gateway it is on. *)
Theorem any_interleaving_keeps_rooms reqs sched sh :
  inv sh → let sh' := (run_schedule sched (request_thread <$> reqs, sh)).2 in
  heap_wf sh' ∧ rooms_wf (rooms_of sh').
Proof.
  intros Hinv. apply keeps_pool; [|done]. intros t Ht.
  apply list_elem_of_fmap in Ht as [req [-> _]]. apply keeps_request.
Qed.

(** Two joins of one user into different rooms, from two gateways. *)
Lemma join_first_section u rid g now sh :
  sh_sessions sh !! u = None →
  ∃ next, JoinRoom_t u rid g now = Crit (λ sh, sh) next ∧
    next sh = (err ← AddUser_t rid u g now;
               match err with
               | Some e => Ret (Some e)
               | None => _ ← UpdateSession_t u rid g now; Ret None
               end).
Proof. intros Hu. eexists. split; [reflexivity|]. cbv beta. by rewrite Hu. Qed.

Lemma join_new_result u rid g now (s : Server (gmap string Session)) :
  (join_new u rid g now s).1 = None ∧
  roomSvc (join_new u rid g now s).2 = (AddUser rid u g now (roomSvc s)).2 ∧
  presence (join_new u rid g now s).2 = <[u := mkPresence rid g MemberStatusOnline None]> (presence s).
Proof.
  unfold join_new. rewrite AddUser_no_error. split_and!; [done..|].
  unfold presence. simpl. rewrite fmap_insert. f_equal. by destruct (sessionSvc s !! u).
Qed.

(** C39. Two joins of one user without a session into different rooms, over
    two gateways, can leave the user in both: there is a schedule of the two
    goroutines, each looking for the old room before the other has recorded
    its own, after which both joins have returned without an error, the user
    is a member of both rooms, and the session names only the second. *)
Theorem racing_joins_two_rooms base u r1 g1 t1 r2 g2 t2 sh :
  inv sh → sessions_of sh !! u = None → r1 ≠ r2 →
  ∃ sched sh',
    run_schedule sched ([JoinRoom_t u r1 g1 t1; JoinRoom_t u r2 g2 t2], sh) =
      ([Ret None; Ret None], sh') ∧
    is_Some (member (rooms_of sh') r1 u) ∧ is_Some (member (rooms_of sh') r2 u) ∧
    presence (snapshot base sh') !! u = Some (mkPresence r2 g2 MemberStatusOnline None).
Proof.
  intros [Hwf Hrs] Hu Hr. rewrite sessions_of_lookup, fmap_None in Hu.
  destruct (join_first_section u r1 g1 t1 sh Hu) as (n1 & H1 & Hn1).
  destruct (join_first_section u r2 g2 t2 sh Hu) as (n2 & H2 & Hn2).
  pose proof (join_new_alone u r1 g1 t1 base sh Hwf) as Ha1. rewrite <-Hn1 in Ha1.
  destruct (run_alone (n1 sh) sh) as [a1 sh1] eqn:Hr1. destruct Ha1 as (Hwf1 & Ha1).
  pose proof (join_new_alone u r2 g2 t2 base sh1 Hwf1) as Ha2. rewrite <-Hn2 in Ha2.
  destruct (run_alone (n2 sh) sh1) as [a2 sh2] eqn:Hr2. destruct Ha2 as (Hwf2 & Ha2).
  destruct (join_new_result u r1 g1 t1 (snapshot base sh)) as (E1 & R1 & P1).
  destruct (join_new_result u r2 g2 t2 (snapshot base sh1)) as (E2 & R2 & P2).
  rewrite Ha1 in *. rewrite Ha2 in *. simpl in E1, R1, P1, E2, R2, P2. subst a1 a2.
  exists ([0; 1] ++ replicate (sections_alone (n1 sh) sh) 0 ++
          replicate (sections_alone (n2 sh) sh1) 1)%nat, sh2. split_and!.
  - rewrite !run_schedule_app, H1, H2.
    change (run_schedule [0; 1]%nat _) with ([n1 sh; n2 sh], sh).
    rewrite (run_schedule_alone 0 (n1 sh)) by done. rewrite Hr1. simpl.
    rewrite (run_schedule_alone 1 (n2 sh)) by done. by rewrite Hr2.
  - rewrite R2, member_AddUser, decide_False by naive_solver.
    rewrite R1, member_AddUser, decide_True by done. eauto.
  - rewrite R2, member_AddUser, decide_True by done. eauto.
  - rewrite P2. by rewrite lookup_insert_eq.
Qed.
(** A join up to the moment it holds the pointer to its room. *)
Lemma join_two_sections u rid g now sh :
  sh_sessions sh !! u = None →
  ∃ next k, request_thread (ReqUser u [OpJoin rid g now]) = Crit (λ sh, sh) next ∧
    next sh = Crit (λ sh, (get_or_create rid sh).2) k ∧
    ∀ shx, run_alone (k sh) shx =
      ([ReplyJoin None], update_session u rid g now
         (room_section (get_or_create rid sh).1 (room_add u g now) shx).2).
Proof.
  intros Hu. eexists _, _. split; [reflexivity|]. cbv beta. rewrite Hu.
  split; [reflexivity|]. by intros shx.
Qed.

(** Closing a room while a join holds the pointer to it loses the join: it
    adds the user to a room that is no longer in the table, and succeeds. *)
Theorem close_loses_join base u rid g now sh g' now' :
  inv sh → sessions_of sh !! u = None →
  ∃ sched sh',
    run_schedule sched
      ([request_thread (ReqUser u [OpJoin rid g now]); request_thread (ReqClose rid)], sh) =
      ([Ret [ReplyJoin None]; Ret []], sh') ∧
    presence (snapshot base sh') !! u = Some (mkPresence rid g MemberStatusOnline None) ∧
    rooms (rooms_of sh') !! rid = None ∧
    Resume u rid g' now' (snapshot base sh') =
      ((ErrCodeRoomClosed, ""%string), snapshot base sh').
Proof.
  intros [Hwf Hrs] Hu. rewrite sessions_of_lookup, fmap_None in Hu.
  destruct (join_two_sections u rid g now sh Hu) as (next & k & -> & Hnext & Hk).
  pose proof (get_or_create_spec sh rid Hwf) as Hg.
  destruct (get_or_create rid sh) as [p sh1] eqn:Hgoc. cbn [fst] in Hk.
  destruct Hg as (Hwf1 & Hp & _).
  set (sh2 := rooms_gauge_dec (delete_room rid sh1)).
  assert (run_alone (request_thread (ReqClose rid)) sh1 = ([], sh2)) as Hclose
    by (simpl; by rewrite Hp).
  assert (heap_wf sh2) as Hwf2 by apply (delete_room_spec rid sh1 Hwf1).
  set (sh3 := (room_section p (room_add u g now) sh2).2) in *.
  assert (heap_wf sh3) as Hwf3 by done.
  destruct (update_session_spec u rid g now sh3 Hwf3) as (Hwf4 & Hs4 & Hr4 & _).
  set (sh4 := update_session u rid g now sh3) in *.
  assert (presence (snapshot base sh4) !! u = Some (mkPresence rid g MemberStatusOnline None)) as Hp4.
  { rewrite presence_lookup. simpl. rewrite Hs4. simpl. rewrite lookup_insert_eq.
    by destruct (sessions_of sh3 !! u). }
  assert (rooms (rooms_of sh4) !! rid = None) as Hr.
  { rewrite Hr4, rooms_of_lookup. simpl. by rewrite lookup_delete_eq. }
  exists ([0; 0] ++ replicate (sections_alone (request_thread (ReqClose rid)) sh1) 1 ++
          replicate (sections_alone (k sh) sh2) 0)%nat, sh4. split_and!; [|done|done|].
  - rewrite !run_schedule_app.
    assert (run_schedule [0; 0]%nat ([Crit (λ sh, sh) next; request_thread (ReqClose rid)], sh) =
      ([k sh; request_thread (ReqClose rid)], sh1)) as ->.
    { unfold run_schedule. simpl. unfold sched_step at 2. simpl. rewrite Hnext.
      unfold sched_step. simpl. by rewrite Hgoc. }
    rewrite (run_schedule_alone 1 (request_thread (ReqClose rid))) by done.
    rewrite Hclose. cbn [fst snd].
    change (<[1%nat := ?x]> [?a; ?b]) with [a; x].
    rewrite (run_schedule_alone 0 (k sh)) by done. by rewrite Hk.
  - pose proof (Resume_cases u rid g' now' (snapshot base sh4) I) as Hres.
    rewrite Hp4 in Hres. simpl in Hres. rewrite decide_False in Hres by naive_solver.
    by rewrite decide_True in Hres.
Qed.

(** The rest of a timeout check that has found the user overdue. *)
Definition evict_t (u : string) : thread Reply :=
  _ ← (session ← GetSession_t u;
       match session with
       | Some l => room ← field l s_RoomID; LeaveRoom_t u room
       | None => Ret tt
       end); Ret ReplyDone.

Lemma check_five_sections tmo now u sh l (ts : pool Reply) :
  sh_sessions sh !! u = Some l → expired tmo now (presence_of (sh_session sh l)) →
  run_schedule (replicate 5 0%nat) (user_thread u (OpCheck tmo now) :: ts, sh) =
    (evict_t u :: ts, sh).
Proof.
  intros Hl [Hst Htmo]. simpl in Hst, Htmo.
  unfold run_schedule, sched_step. simpl. rewrite Hl. simpl.
  rewrite bool_decide_true by done. simpl. rewrite Hl. simpl.
  rewrite decide_False by naive_solver. simpl.
  by rewrite (proj2 (Z.leb_le _ _) Htmo).
Qed.

Lemma evict_alone base u sh :
  heap_wf sh →
  let '(r, sh') := run_alone (evict_t u) sh in
  r = ReplyDone ∧ heap_wf sh' ∧
  snapshot base sh' =
    match presence (snapshot base sh) !! u with
    | Some p => LeaveRoom u (p_room p) (snapshot base sh)
    | None => snapshot base sh
    end.
Proof.
  intros Hwf. unfold evict_t. rewrite !run_alone_bind.
  rewrite presence_lookup. cbn [sessionSvc snapshot set_sessionSvc map_store_laws sessions].
  rewrite sessions_of_lookup. cbn [run_alone GetSession_t read section fst snd].
  destruct (sh_sessions sh !! u) as [l|] eqn:Hl; [|done]. rewrite run_alone_bind.
  cbn [run_alone field read section fst snd fmap option_fmap option_map].
  pose proof (LeaveRoom_alone u (s_RoomID (sh_session sh l)) base sh Hwf) as Hleave.
  destruct (run_alone (LeaveRoom_t _ _) sh) as [[] sh']. destruct Hleave as [Hwf' Hleave].
  cbn [fst snd]. split_and!; [done|done|]. exact (eq_sym (f_equal snd Hleave)).
Qed.

(** A user who comes back in time is thrown out all the same: when the
    timeout check has just found the user overdue, a resume can run to its
    end, be answered with success, and the check then removes the user. *)
Theorem timeout_evicts_resumed base u p tmo now g t sh :
  inv sh → coherent (snapshot base sh) →
  presence (snapshot base sh) !! u = Some p → expired tmo now p →
  ∃ sched sh',
    run_schedule sched
      ([user_thread u (OpCheck tmo now); user_thread u (OpResume (p_room p) g t)], sh) =
      ([Ret ReplyDone; Ret (ReplyResume ErrCodeSuccess "")], sh') ∧
    presence (snapshot base sh') !! u = None ∧
    ∀ rid, member (rooms_of sh') rid u = None.
Proof.
  intros [Hwf Hrs] Hco Hp Hexp.
  destruct (sh_sessions sh !! u) as [l|] eqn:Hl.
  2: { rewrite presence_lookup in Hp. simpl in Hp. by rewrite sessions_of_lookup, Hl in Hp. }
  assert (presence_of (sh_session sh l) = p) as Hpl.
  { rewrite presence_lookup in Hp. simpl in Hp. rewrite sessions_of_lookup, Hl in Hp.
    by injection Hp. }
  pose proof (user_thread_alone u (OpResume (p_room p) g t) base sh Hwf) as Hres.
  pose proof (run_user_spec u (OpResume (p_room p) g t) (snapshot base sh) Hco I) as Hspec.
  destruct (run_alone (user_thread u (OpResume (p_room p) g t)) sh) as [r1 sh1] eqn:Hrun1.
  destruct Hres as [Hwf1 Hres]. rewrite Hres in Hspec. destruct Hspec as (Hco1 & -> & Hp1 & _).
  rewrite Hp in Hp1, Hrun1. cbn [spec_user spec_reply] in Hp1, Hrun1.
  rewrite decide_True in Hp1 by done. rewrite decide_True in Hrun1 by done.
  pose proof (evict_alone base u sh1 Hwf1) as Hev.
  destruct (run_alone (evict_t u) sh1) as [r2 sh2] eqn:Hrun2.
  destruct Hev as (-> & Hwf2 & Hsnap). rewrite Hp1 in Hsnap. simpl in Hsnap.
  destruct (coherent_Leave u (p_room p) (snapshot base sh1) Hco1) as [Hco2 Hp2].
  { intros p'. rewrite Hp1. by intros [= <-]. }
  rewrite <-Hsnap in Hco2, Hp2.
  assert (presence (snapshot base sh2) !! u = None) as Hnone by (by rewrite Hp2, lookup_delete_eq).
  exists (replicate 5 0 ++
          replicate (sections_alone (user_thread u (OpResume (p_room p) g t)) sh) 1 ++
          replicate (sections_alone (evict_t u) sh1) 0)%nat, sh2. split_and!; [|done|].
  - rewrite !run_schedule_app. rewrite (check_five_sections tmo now u sh l) by (done || by rewrite Hpl).
    rewrite (run_schedule_alone 1 (user_thread u (OpResume (p_room p) g t))) by done.
    rewrite Hrun1. cbn [fst snd].
    change (<[1%nat := ?x]> [?a; ?b]) with [a; x].
    rewrite (run_schedule_alone 0 (evict_t u)) by done. by rewrite Hrun2.
  - intros rid. exact (coherent_absent (snapshot base sh2) u rid Hco2 Hnone).
Qed.
End properties.

(** ** Witnesses *)
Section examples.

Definition demo_base : Server (gmap string Session) := NewServer ∅ "rs-1" 60 30 4 0 0.

Lemma empty_inv : inv empty_shared.
Proof.
  split; [|apply NewRoomService_wf].
  split_and!; simpl; intros *; rewrite lookup_empty; done.
Qed.

Lemma empty_coherent : coherent (snapshot demo_base empty_shared).
Proof. by apply (coherent_new (∅ : gmap string Session)). Qed.

(** A user that joined at 1 and lost its connection at 5. *)
Definition demo_away : Shared :=
  (run_alone (user_program "u1" [OpJoin "r1" "g1" 1; OpDisconnect "r1" 5]) empty_shared).2.

Lemma demo_away_ok : inv demo_away ∧ coherent (snapshot demo_base demo_away).
Proof.
  pose proof (user_program_alone "u1" [OpJoin "r1" "g1" 1; OpDisconnect "r1" 5] demo_base
    empty_shared (proj1 empty_inv)) as Hal.
  pose proof (run_user_ops_spec "u1" [OpJoin "r1" "g1" 1; OpDisconnect "r1" 5]
    (snapshot demo_base empty_shared) empty_coherent) as Hs.
  unfold demo_away. destruct (run_alone _ empty_shared) as [rs sh]. destruct Hal as [Hwf Hal].
  rewrite Hal in Hs. destruct Hs as (Hco & _); [split; [done|split; [by intros p [= <-]|done]]|].
  split; [split; [done|]|done]. apply (proj2 (proj1 Hco)).
Qed.

Definition demo_progs : list (string * list UserOp) :=
  [("u1", [OpJoin "r1" "g1" 1; OpDisconnect "r1" 2; OpResume "r1" "g2" 3]);
   ("u2", [OpJoin "r1" "g2" 1; OpJoin "r2" "g2" 2; OpLeave "r2"])]%string.

Definition demo_sched : list nat := concat (replicate 30 [0; 1; 1; 0])%nat.

Lemma alone_is_atomic_witness :
  let '(replies, sh') := run_alone (user_program "u1" [OpJoin "r1" "g1" 1; OpResume "r2" "g1" 2])
                           empty_shared in
  (heap_wf sh' ∧
   run_user_ops "u1" [OpJoin "r1" "g1" 1; OpResume "r2" "g1" 2] (snapshot demo_base empty_shared) =
     (replies, snapshot demo_base sh')) ∧
  replies = [ReplyJoin None; ReplyResume ErrCodeRoomMismatch "r1"].
Proof.
  pose proof (alone_is_atomic "u1" [OpJoin "r1" "g1" 1; OpResume "r2" "g1" 2] demo_base
    empty_shared (proj1 empty_inv)) as H.
  split; [exact H|]. vm_compute. reflexivity.
Defined.

Lemma interleaving_serializable_witness :
  let '(ts, sh') := run_schedule demo_sched
    ((λ p, user_program p.1 p.2) <$> demo_progs, empty_shared) in
  ts = Ret <$> [[ReplyJoin None; ReplyDone; ReplyResume ErrCodeSuccess ""];
                [ReplyJoin None; ReplyJoin None; ReplyDone]] ∧
  presence (snapshot demo_base sh') =
    presence (run_in_turn demo_progs (snapshot demo_base empty_shared)).2.
Proof.
  assert ((run_schedule demo_sched ((λ p, user_program p.1 p.2) <$> demo_progs, empty_shared)).1 =
    Ret <$> [[ReplyJoin None; ReplyDone; ReplyResume ErrCodeSuccess ""];
             [ReplyJoin None; ReplyJoin None; ReplyDone]]) as Hts by (vm_compute; reflexivity).
  destruct (run_schedule demo_sched ((λ p, user_program p.1 p.2) <$> demo_progs, empty_shared))
    as [ts sh'] eqn:Hrun. simpl in Hts. subst ts. split; [done|].
  pose proof (interleaving_serializable demo_base demo_progs demo_sched empty_shared
    [[ReplyJoin None; ReplyDone; ReplyResume ErrCodeSuccess ""];
     [ReplyJoin None; ReplyJoin None; ReplyDone]] sh') as H.
  destruct (run_in_turn demo_progs (snapshot demo_base empty_shared)) as [rss' s'] eqn:Hturn.
  apply H; [by_computation|apply empty_inv|apply empty_coherent| |exact Hrun].
  intros u ops Hin. assert (presence (snapshot demo_base empty_shared) !! u = None) as ->
    by (by rewrite presence_lookup).
  apply elem_of_cons in Hin as [Hin|Hin]; [injection Hin as -> ->|].
  - split; [discriminate|]. split; [by intros p [= <-]|]. by split.
  - apply list_elem_of_singleton in Hin. injection Hin as -> ->.
    split; [discriminate|]. split; [discriminate|]. split; [by intros p [= <-]|done].
Defined.

Lemma any_interleaving_keeps_rooms_witness :
  let reqs := [ReqUser "u1" [OpJoin "r1" "g1" 1]; ReqUser "u1" [OpJoin "r2" "g2" 1];
               ReqClose "r1"; ReqTick default_order 60 100] in
  let sh' := (run_schedule [0; 1; 0; 2; 0; 1; 0; 3; 1]%nat (request_thread <$> reqs, empty_shared)).2 in
  (heap_wf sh' ∧ rooms_wf (rooms_of sh')) ∧ is_Some (rooms (rooms_of sh') !! "r2"%string).
Proof.
  split; [|vm_compute; by eexists].
  apply (any_interleaving_keeps_rooms
    [ReqUser "u1" [OpJoin "r1" "g1" 1]; ReqUser "u1" [OpJoin "r2" "g2" 1];
     ReqClose "r1"; ReqTick default_order 60 100]), empty_inv.
Defined.

Lemma racing_joins_two_rooms_witness :
  ∃ sched sh',
    run_schedule sched ([JoinRoom_t "u1" "r1" "g1" 1; JoinRoom_t "u1" "r2" "g2" 2], empty_shared) =
      ([Ret None; Ret None], sh') ∧
    is_Some (member (rooms_of sh') "r1" "u1") ∧ is_Some (member (rooms_of sh') "r2" "u1") ∧
    presence (snapshot demo_base sh') !! "u1"%string =
      Some (mkPresence "r2" "g2" MemberStatusOnline None).
Proof.
  by apply (racing_joins_two_rooms demo_base "u1" "r1" "g1" 1 "r2" "g2" 2 empty_shared empty_inv).
Defined.

Lemma close_loses_join_witness :
  ∃ sched sh',
    run_schedule sched
      ([request_thread (ReqUser "u1" [OpJoin "r1" "g1" 1]); request_thread (ReqClose "r1")],
       empty_shared) = ([Ret [ReplyJoin None]; Ret []], sh') ∧
    presence (snapshot demo_base sh') !! "u1"%string =
      Some (mkPresence "r1" "g1" MemberStatusOnline None) ∧
    rooms (rooms_of sh') !! "r1"%string = None ∧
    Resume "u1" "r1" "g1" 2 (snapshot demo_base sh') =
      ((ErrCodeRoomClosed, ""%string), snapshot demo_base sh').
Proof. by apply (close_loses_join demo_base "u1" "r1" "g1" 1 empty_shared "g1" 2 empty_inv). Defined.

Lemma timeout_evicts_resumed_witness :
  ∃ sched sh',
    run_schedule sched
      ([user_thread "u1" (OpCheck 60 100); user_thread "u1" (OpResume "r1" "g2" 101)], demo_away) =
      ([Ret ReplyDone; Ret (ReplyResume ErrCodeSuccess "")], sh') ∧
    presence (snapshot demo_base sh') !! "u1"%string = None ∧
    ∀ rid, member (rooms_of sh') rid "u1" = None.
Proof.
  apply (timeout_evicts_resumed demo_base "u1" (mkPresence "r1" "g1" MemberStatusDisconnected (Some 5))
    60 100 "g2" 101 demo_away); [apply demo_away_ok|apply demo_away_ok|vm_compute; reflexivity|].
  split; [done|]. vm_compute. discriminate.
Defined.
End examples.
