(* ===== verification/GrpcServer.v ===== *)
(** [internal/roomserver/grpc_server.go]: the gateway streams of the
    roomserver.

    A stream object is an address in [conns]; the table [gateways] shares it
    with the goroutine of [Channel], so that closing it through one of them
    is seen by the other.  [now] is the clock reading of a handler. *)

From Stdlib Require Import ZArith Lia.
From stdpp Require Import base tactics gmap strings numbers list.
From S2P Require Import Prelude GoInt Protocol Chan SessionStore SessionService RoomService Recovery HashRing Roomserver.

Local Open Scope Z_scope.

Definition gatewaySendCap : nat := 10000.

(** Field updates of a stream object. *)
Definition conn_set_info (id addr : string) (c : GatewayConnection) : GatewayConnection :=
  mkGatewayConnection id addr (gc_sendCh c) (gc_closed c).
Definition conn_set_ch (ch : chan Envelope) (c : GatewayConnection) : GatewayConnection :=
  mkGatewayConnection (gc_id c) (gc_addr c) ch (gc_closed c).
Definition conn_set_closed (c : GatewayConnection) : GatewayConnection :=
  mkGatewayConnection (gc_id c) (gc_addr c) (gc_sendCh c) true.

Section grpc.
Context {SS : Type} `{SessionStore SS}.
Context `{Msgpack GatewayInfo, Msgpack JoinRoomRequest, Msgpack LeaveRoomRequest,
  Msgpack ResumeRequest, Msgpack DisconnectNotify, Msgpack BatchReSync,
  Msgpack ReSyncComplete, Msgpack JoinRoomAck, Msgpack EpochNotify}.
Implicit Types (s : Server SS) (conn : ConnRef).

(** Reading and writing a stream object through its address. *)
Definition get_conn conn s : outcome GatewayConnection :=
  match conns s !! conn with
  | Some c => Done c
  | None => Panic "invalid memory address or nil pointer dereference"
  end.

Definition put_conn conn (c : GatewayConnection) s : Server SS :=
  set_conns (<[conn := c]> (conns s)) s.

(** [conn.closed = true; close(conn.sendCh)], under [conn.mu]. *)
Definition close_conn conn s : outcome (Server SS) :=
  c ← get_conn conn s;
  ch ← close_chan (gc_sendCh c);
  mret (put_conn conn (conn_set_ch ch (conn_set_closed c)) s).

(** [sendToGateway] reads the flag under the lock, releases the lock, and
    then sends: two separate steps. *)
Definition sendToGateway_closed conn s : outcome bool :=
  c ← get_conn conn s; mret (gc_closed c).

Definition sendToGateway_send conn (msgType : Z) (payload : list byte) s : outcome (Server SS) :=
  c ← get_conn conn s;
  sch ← try_send (mkEnvelope msgType payload) (gc_sendCh c);
  mret (put_conn conn (conn_set_ch sch.2 c) s).

Definition sendToGateway conn (msgType : Z) (payload : list byte) s : outcome (Server SS) :=
  closed ← sendToGateway_closed conn s;
  if closed : bool then mret s else sendToGateway_send conn msgType payload s.

Definition addGateway conn s : outcome (Server SS) :=
  c ← get_conn conn s;
  s ← match gateways s !! gc_id c with
      | Some old => close_conn old s
      | None => mret s
      end;
  mret (set_gateways (<[gc_id c := conn]> (gateways s)) s).

Definition removeGateway (gatewayID : string) s : Server SS :=
  set_gateways (delete gatewayID (gateways s)) s.

Definition getGateway (gatewayID : string) s : option ConnRef := gateways s !! gatewayID.

Definition sendJoinRoomAck conn (userID roomID : string) (success : bool) (code : Z)
    (message : string) s : outcome (Server SS) :=
  let ack := mkJoinRoomAck userID roomID success code message in
  sendToGateway conn InternalMsgJoinRoomAck (Encode_ ack) s.

Definition sendEpochNotify conn s : outcome (Server SS) :=
  let notify := mkEpochNotify (srv_id s) (epoch s) 0 in
  sendToGateway conn InternalMsgEpochNotify (Encode_ notify) s.

Definition handleGatewayInfo conn (payload : list byte) s : outcome (Server SS) :=
  match Decode payload with
  | None => mret s
  | Some info =>
    c ← get_conn conn s;
    let s := put_conn conn (conn_set_info (gi_GatewayID info) (gi_Addr info) c) s in
    s ← addGateway conn s;
    sendEpochNotify conn s
  end.

Definition handleJoinRoom conn (payload : list byte) (now : Z) s : outcome (Server SS) :=
  match Decode payload with
  | None => mret s
  | Some req =>
    let '(err, s) := JoinRoom (jrr_UserID req) (jrr_RoomID req) (jrr_GatewayID req) now s in
    let '(success, code, message) :=
      match err with
      | None => (true, ErrCodeSuccess, ""%string)
      | Some e => (false, ErrCodeInternalError, e)
      end in
    sendJoinRoomAck conn (jrr_UserID req) (jrr_RoomID req) success code message s
  end.

Definition handleLeaveRoom conn (payload : list byte) s : outcome (Server SS) :=
  match Decode payload with
  | None => mret s
  | Some req => mret (LeaveRoom (lrr_UserID req) (lrr_RoomID req) s)
  end.

Definition handleResume conn (payload : list byte) (now : Z) s : outcome (Server SS) :=
  match Decode payload with
  | None => mret s
  | Some req =>
    let '((code, _), s) := Resume (rr_UserID req) (rr_RoomID req) (rr_GatewayID req) now s in
    let success := bool_decide (code = ErrCodeSuccess) in
    sendJoinRoomAck conn (rr_UserID req) (rr_RoomID req) success code (err_message code) s
  end.

Definition handleDisconnect conn (payload : list byte) (now : Z) s : outcome (Server SS) :=
  match Decode payload with
  | None => mret s
  | Some notify => mret (UserDisconnect (dn_UserID notify) (dn_RoomID notify) now s)
  end.

Definition handleBatchReSync conn (payload : list byte) (now : Z) s : outcome (Server SS) :=
  match Decode payload with
  | None => mret s
  | Some req =>
    let s := foldl (λ s pair,
      (JoinRoom (urp_UserID pair) (urp_RoomID pair) (brs_GatewayID req) now s).2) s
      (brs_Users req) in
    mret (set_recovery (OnUsersReceived (Z.of_nat (length (brs_Users req))) (recovery s)) s)
  end.

Definition handleReSyncComplete conn (payload : list byte) s : outcome (Server SS) :=
  match Decode (A := ReSyncComplete) payload with
  | None => mret s
  | Some req => mret (set_recovery (OnGatewayComplete (recovery s)) s)
  end.

Definition handleGatewayMessage conn (envelope : Envelope) (now : Z) s : outcome (Server SS) :=
  let t := env_MsgType envelope in
  let payload := env_Payload envelope in
  if t =? InternalMsgGatewayInfo then handleGatewayInfo conn payload s
  else if t =? InternalMsgJoinRoom then handleJoinRoom conn payload now s
  else if t =? InternalMsgLeaveRoom then handleLeaveRoom conn payload s
  else if t =? InternalMsgResume then handleResume conn payload now s
  else if t =? InternalMsgDisconnect then handleDisconnect conn payload now s
  else if t =? InternalMsgBatchReSync then handleBatchReSync conn payload now s
  else if t =? InternalMsgReSyncComplete then handleReSyncComplete conn payload s
  else mret s.

(** ** [Channel], in three parts: the new stream object, the receive loop
    over what [stream.Recv] delivers before it fails, the clean-up. *)
Definition Channel_open s : ConnRef * Server SS :=
  let conn := fresh (dom (conns s)) in
  (conn, put_conn conn (mkGatewayConnection "" "" (make_chan gatewaySendCap) false) s).

Fixpoint Channel_loop conn (received : list (Envelope * Z)) s : outcome (Server SS) :=
  match received with
  | [] => mret s
  | (envelope, now) :: received =>
    s ← handleGatewayMessage conn envelope now s;
    Channel_loop conn received s
  end.

Definition Channel_cleanup conn s : outcome (Server SS) :=
  s ← close_conn conn s;
  c ← get_conn conn s;
  mret (if decide (gc_id c ≠ ""%string) then removeGateway (gc_id c) s else s).

Definition Channel (received : list (Envelope * Z)) s : outcome (Server SS) :=
  let '(conn, s) := Channel_open s in
  s ← Channel_loop conn received s;
  Channel_cleanup conn s.

(** One iteration of [gatewayWriteLoop]: [None] blocks on the channel; the
    flag says whether the loop goes on; [send] is [stream.Send]. *)
Definition gatewayWriteLoop_step (send : Envelope → bool) conn s :
    outcome (option (bool * Server SS)) :=
  c ← get_conn conn s;
  mret match recv (gc_sendCh c) with
  | None => None
  | Some (None, _) => Some (false, s)
  | Some (Some envelope, ch) => Some (send envelope, put_conn conn (conn_set_ch ch c) s)
  end.

(** ** Notifications to gateways (server.go) *)

(** [for _, gwID := range ids { if gw, ok := s.gateways[gwID]; ok {
    s.sendToGateway(gw, ...) } }], with the message for each gateway. *)
Fixpoint send_each (msgs : list (string * Envelope)) s : outcome (Server SS) :=
  match msgs with
  | [] => mret s
  | (gwID, e) :: msgs =>
    s ← match gateways s !! gwID with
        | Some gw => sendToGateway gw (env_MsgType e) (env_Payload e) s
        | None => mret s
        end;
    send_each msgs s
  end.

(** The same message to all of them. *)
Definition send_to_all (ids : list string) (msgType : Z) (payload : list byte) s :
    outcome (Server SS) :=
  send_each ((λ gwID, (gwID, mkEnvelope msgType payload)) <$> ids) s.
End grpc.

Section notify.
Context {SS : Type} `{SessionStore SS} `{Msgpack RoomCloseNotify, Msgpack EpochNotify}.
Context `{MapOrder}.

Definition NotifyRoomClose (roomID reason : string) (s : Server SS) : outcome (Server SS) :=
  let gatewayIDs := GetRoomGatewayIDs roomID (roomSvc s) in
  send_to_all gatewayIDs InternalMsgRoomClose (Encode_ (mkRoomCloseNotify roomID reason)) s.

Definition NotifyEpochChange (now_ms : Z) (s : Server SS) : outcome (Server SS) :=
  let notify := mkEpochNotify (srv_id s) (epoch s) now_ms in
  send_to_all (range_keys (gateways s)) InternalMsgEpochNotify (Encode_ notify) s.
End notify.

(** ** The state of a stream object *)

(** The flag and the channel are closed together (both under [conn.mu]). *)
Definition conn_ok (c : GatewayConnection) : Prop := gc_closed c = ch_closed (gc_sendCh c).

(** What a queue holds after sends that drop when it is full. *)
Definition deliver (es : list Envelope) (c : GatewayConnection) : GatewayConnection :=
  if gc_closed c then c else conn_set_ch (foldl (λ ch e, sent e ch) (gc_sendCh c) es) c.

Lemma deliver_nil c : deliver [] c = c.
Proof. unfold deliver. destruct c as [? ? ? []]; done. Qed.

Lemma foldl_sent_closed es (ch : chan Envelope) :
  ch_closed (foldl (λ ch e, sent e ch) ch es) = ch_closed ch.
Proof. revert ch. induction es as [|e es IH]; intros ch; simpl; [done|]. by rewrite IH, sent_closed. Qed.

Lemma deliver_ok es c : conn_ok c → conn_ok (deliver es c).
Proof.
  unfold conn_ok, deliver. intros Hok. destruct (gc_closed c) eqn:E; [congruence|].
  simpl. by rewrite E, foldl_sent_closed.
Qed.

Lemma deliver_id es c : gc_id (deliver es c) = gc_id c.
Proof. unfold deliver. by case_match. Qed.

Lemma deliver_closed es c : gc_closed (deliver es c) = gc_closed c.
Proof. unfold deliver. destruct (gc_closed c) eqn:E; done. Qed.

Lemma deliver_app es1 es2 c : deliver es2 (deliver es1 c) = deliver (es1 ++ es2) c.
Proof.
  unfold deliver at 1. rewrite deliver_closed. unfold deliver.
  destruct (gc_closed c) eqn:E; [done|]. simpl. by rewrite foldl_app.
Qed.

Lemma deliver_cap es c : ch_cap (gc_sendCh (deliver es c)) = ch_cap (gc_sendCh c).
Proof.
  unfold deliver. case_match; [done|]. simpl. generalize (gc_sendCh c).
  induction es as [|e es IH]; intros ch; [done|]. simpl. by rewrite IH, sent_cap.
Qed.

(** While there is room, nothing is lost and the order is kept. *)
Lemma deliver_fits es c :
  gc_closed c = false → (length (ch_buf (gc_sendCh c)) + length es ≤ ch_cap (gc_sendCh c))%nat →
  ch_buf (gc_sendCh (deliver es c)) = ch_buf (gc_sendCh c) ++ es.
Proof.
  intros Hc. unfold deliver. rewrite Hc. simpl. generalize (gc_sendCh c). clear.
  induction es as [|e es IH]; intros ch Hl; simpl in *; [by rewrite app_nil_r|].
  rewrite IH; unfold sent; rewrite decide_True by lia; simpl.
  - by rewrite <-app_assoc.
  - rewrite length_app. simpl. lia.
Qed.

Section spec.
Context {SS : Type}.
Implicit Types (s : Server SS) (conn : ConnRef).

Definition conns_wf s : Prop := ∀ conn c, conns s !! conn = Some c → conn_ok c.

Lemma set_conns_id s cs : cs = conns s → set_conns cs s = s.
Proof. intros ->. by destruct s. Qed.

Lemma get_conn_Some conn s c : conns s !! conn = Some c → get_conn conn s = Done c.
Proof. intros Hc. unfold get_conn. by rewrite Hc. Qed.

(** Without interference a send never panics. *)
Lemma sendToGateway_spec conn t p s c :
  conns s !! conn = Some c → conn_ok c →
  sendToGateway conn t p s = Done (put_conn conn (deliver [mkEnvelope t p] c) s).
Proof.
  intros Hc Hok. unfold sendToGateway, sendToGateway_closed.
  rewrite (get_conn_Some conn s c Hc). simpl. unfold deliver.
  destruct (gc_closed c) eqn:E.
  - unfold put_conn. by rewrite set_conns_id by (by apply insert_id).
  - unfold sendToGateway_send. rewrite (get_conn_Some conn s c Hc). simpl.
    rewrite try_send_open by (by rewrite <-Hok). done.
Qed.

Lemma close_conn_open conn s c :
  conns s !! conn = Some c → ch_closed (gc_sendCh c) = false →
  close_conn conn s =
    Done (put_conn conn (mkGatewayConnection (gc_id c) (gc_addr c)
      (mkChan (ch_buf (gc_sendCh c)) (ch_cap (gc_sendCh c)) true) true) s).
Proof.
  intros Hc Ho. unfold close_conn. rewrite (get_conn_Some conn s c Hc). simpl.
  unfold close_chan. by rewrite Ho.
Qed.

Lemma close_conn_closed conn s c :
  conns s !! conn = Some c → ch_closed (gc_sendCh c) = true →
  close_conn conn s = Panic "close of closed channel".
Proof.
  intros Hc Ho. unfold close_conn. rewrite (get_conn_Some conn s c Hc). simpl.
  unfold close_chan. by rewrite Ho.
Qed.

Lemma conns_wf_put conn c s : conn_ok c → conns_wf s → conns_wf (put_conn conn c s).
Proof.
  intros Hok Hwf conn' c'. simpl. intros [[_ <-]|[_ ?]]%lookup_insert_Some; eauto.
Qed.
End spec.

(** ** Sending to the gateways of a list *)
Section sending.
Context {SS : Type}.
Implicit Types (s : Server SS) (conn : ConnRef) (msgs : list (string * Envelope)).

(** The messages of the list that go to one stream. *)
Definition msgs_for (gws : gmap string ConnRef) msgs conn : list Envelope :=
  snd <$> filter (λ m, gws !! m.1 = Some conn) msgs.

Definition delivered (gws : gmap string ConnRef) msgs
    (cs : gmap ConnRef GatewayConnection) : gmap ConnRef GatewayConnection :=
  map_imap (λ conn c, Some (deliver (msgs_for gws msgs conn) c)) cs.

(** Table entries point to existing stream objects. *)
Definition gateways_exist s : Prop :=
  ∀ g conn, gateways s !! g = Some conn → is_Some (conns s !! conn).

Lemma lookup_delivered gws msgs cs conn :
  delivered gws msgs cs !! conn = deliver (msgs_for gws msgs conn) <$> cs !! conn.
Proof. unfold delivered. rewrite map_lookup_imap. by destruct (cs !! conn). Qed.

Lemma send_each_spec msgs s :
  conns_wf s → gateways_exist s →
  send_each msgs s = Done (set_conns (delivered (gateways s) msgs (conns s)) s).
Proof.
  revert s. induction msgs as [|[g e] msgs IH]; intros s Hwf Hex; cbn [send_each].
  - rewrite set_conns_id; [done|]. apply map_eq. intros conn.
    rewrite lookup_delivered. destruct (conns s !! conn); [|done]. simpl. by rewrite deliver_nil.
  - destruct (gateways s !! g) as [gw|] eqn:Hg.
    + destruct (Hex g gw Hg) as [c Hc]. rewrite (sendToGateway_spec gw _ _ s c) by eauto.
      cbn [mbind outcome_bind]. rewrite IH.
      * destruct e as [t p]. f_equal. unfold set_conns. simpl. f_equal. apply map_eq. intros conn.
        rewrite !lookup_delivered. unfold msgs_for. rewrite filter_cons. simpl. rewrite Hg.
        destruct (decide (conn = gw)) as [->|Hne].
        -- rewrite lookup_insert_eq, decide_True, Hc by done. simpl. by rewrite deliver_app.
        -- by rewrite lookup_insert_ne, decide_False by congruence.
      * apply conns_wf_put; [apply deliver_ok; eauto|done].
      * intros g' conn Hg'. simpl. apply lookup_insert_is_Some'. right. by eapply Hex.
    + cbn [mbind outcome_bind mret outcome_ret]. rewrite IH by done. f_equal. f_equal.
      apply map_eq. intros conn. rewrite !lookup_delivered. unfold msgs_for.
      rewrite filter_cons. simpl. by rewrite Hg.
Qed.

(** One message per id of a duplicate-free list, to a table that knows each
    stream by one id: a stream gets at most one message. *)
Lemma msgs_for_ids gws ids (f : string → Envelope) g conn :
  NoDup ids → gws !! g = Some conn → (∀ g', gws !! g' = Some conn → g' = g) →
  msgs_for gws ((λ i, (i, f i)) <$> ids) conn = if decide (g ∈ ids) then [f g] else [].
Proof.
  intros Hnd Hg Hinj. unfold msgs_for. induction Hnd as [|i ids Hi Hnd IH]; [done|].
  rewrite fmap_cons, filter_cons. cbn [fst].
  destruct (decide (gws !! i = Some conn)) as [Hic|Hic].
  - apply Hinj in Hic as ->. rewrite fmap_cons, IH. cbn [snd].
    by rewrite decide_False, decide_True by (done || by left).
  - rewrite IH. assert (i ≠ g) by congruence.
    destruct (decide (g ∈ ids)); [rewrite decide_True by (by right)|
      rewrite decide_False by (by rewrite elem_of_cons; naive_solver)]; done.
Qed.

Lemma msgs_for_unregistered gws msgs conn :
  (∀ g, gws !! g ≠ Some conn) → msgs_for gws msgs conn = [].
Proof.
  intros Hno. unfold msgs_for. rewrite filter_none; [done|]. intros m _. apply Hno.
Qed.
End sending.

(** ** What a message does, as a specification *)
Section effect.
Context {SS : Type} `{SessionStore SS}.
Context `{Msgpack GatewayInfo, Msgpack JoinRoomRequest, Msgpack LeaveRoomRequest,
  Msgpack ResumeRequest, Msgpack DisconnectNotify, Msgpack BatchReSync,
  Msgpack ReSyncComplete, Msgpack JoinRoomAck, Msgpack EpochNotify}.
Implicit Types (s : Server SS) (conn : ConnRef) (e : Envelope).

(** The control-plane operations a message asks for. *)
Definition requested e (now : Z) : list CtlOp :=
  let t := env_MsgType e in
  if t =? InternalMsgJoinRoom then
    match Decode (env_Payload e) with
    | Some r => [CtlJoin (jrr_UserID r) (jrr_RoomID r) (jrr_GatewayID r) now] | None => [] end
  else if t =? InternalMsgLeaveRoom then
    match Decode (env_Payload e) with
    | Some r => [CtlLeave (lrr_UserID r) (lrr_RoomID r)] | None => [] end
  else if t =? InternalMsgResume then
    match Decode (env_Payload e) with
    | Some r => [CtlResume (rr_UserID r) (rr_RoomID r) (rr_GatewayID r) now] | None => [] end
  else if t =? InternalMsgDisconnect then
    match Decode (env_Payload e) with
    | Some r => [CtlDisconnect (dn_UserID r) (dn_RoomID r) now] | None => [] end
  else if t =? InternalMsgBatchReSync then
    match Decode (env_Payload e) with
    | Some r => (λ p, CtlJoin (urp_UserID p) (urp_RoomID p) (brs_GatewayID r) now) <$> brs_Users r
    | None => [] end
  else [].

(** The acknowledgements it is answered with: joins always succeed, the
    answer to a resume is the outcome of [Resume]; nothing else is
    answered. *)
Definition answers e (now : Z) s : list Envelope :=
  let t := env_MsgType e in
  if t =? InternalMsgJoinRoom then
    match Decode (env_Payload e) with
    | Some r => [mkEnvelope InternalMsgJoinRoomAck (Encode_
        (mkJoinRoomAck (jrr_UserID r) (jrr_RoomID r) true ErrCodeSuccess ""))]
    | None => [] end
  else if t =? InternalMsgResume then
    match Decode (env_Payload e) with
    | Some r =>
      let code := (Resume (rr_UserID r) (rr_RoomID r) (rr_GatewayID r) now s).1.1 in
      [mkEnvelope InternalMsgJoinRoomAck (Encode_
        (mkJoinRoomAck (rr_UserID r) (rr_RoomID r) (bool_decide (code = ErrCodeSuccess)) code
           (err_message code)))]
    | None => [] end
  else [].

(** The progress reports it makes to the recovery. *)
Definition reported e (r : RecoveryState) : RecoveryState :=
  let t := env_MsgType e in
  if t =? InternalMsgBatchReSync then
    match Decode (env_Payload e) with
    | Some req => OnUsersReceived (Z.of_nat (length (brs_Users req))) r | None => r end
  else if t =? InternalMsgReSyncComplete then
    match Decode (A := ReSyncComplete) (env_Payload e) with
    | Some _ => OnGatewayComplete r | None => r end
  else r.

(** The tables that only the stream handlers touch. *)
Lemma run_ctl_frame s op :
  conns (run_ctl s op) = conns s ∧ gateways (run_ctl s op) = gateways s ∧
  recovery (run_ctl s op) = recovery s.
Proof.
  destruct op as [u rid g now|u rid|u rid g now|u rid now|ord tmo now|rid]; simpl.
  - unfold JoinRoom. destruct (AddUser _ _ _ _ _) as [[] ?]; case_decide; done.
  - done.
  - unfold Resume. repeat (case_match; try done).
  - done.
  - unfold checkDisconnectTimeout, checkDisconnectTimeout_at. generalize (GetAllUserIDs ord (sessionSvc s)). intros us.
    revert s. induction us as [|u us IH]; intros s; simpl; [done|].
    destruct (IH (check_user tmo now s u)) as (-> & -> & ->).
    unfold check_user. repeat (case_match; try done).
  - done.
Qed.

Lemma foldl_join_run_ctl g now us s :
  foldl (λ s pair, (JoinRoom (urp_UserID pair) (urp_RoomID pair) g now s).2) s us =
  foldl run_ctl s ((λ p, CtlJoin (urp_UserID p) (urp_RoomID p) g now) <$> us).
Proof. revert s. induction us as [|p us IH]; intros s; simpl; [done|]. apply IH. Qed.

Lemma foldl_run_ctl_frame ops s :
  conns (foldl run_ctl s ops) = conns s ∧ gateways (foldl run_ctl s ops) = gateways s ∧
  recovery (foldl run_ctl s ops) = recovery s.
Proof.
  revert s. induction ops as [|op ops IH]; intros s; simpl; [done|].
  destruct (IH (run_ctl s op)) as (-> & -> & ->). apply run_ctl_frame.
Qed.

Lemma JoinRoom_no_error u rid g now s : (JoinRoom u rid g now s).1 = None.
Proof. unfold JoinRoom. by rewrite AddUser_no_error. Qed.

Lemma put_conn_self conn s c : conns s !! conn = Some c → put_conn conn c s = s.
Proof. intros Hc. apply set_conns_id. by apply insert_id. Qed.

Lemma set_recovery_id s : set_recovery (recovery s) s = s.
Proof. by destruct s. Qed.

Lemma handled conn e now s c :
  conns s !! conn = Some c → conn_ok c → env_MsgType e ≠ InternalMsgGatewayInfo →
  handleGatewayMessage conn e now s =
    Done (put_conn conn (deliver (answers e now s) c)
      (set_recovery (reported e (recovery s)) (foldl run_ctl s (requested e now)))).
Proof.
  intros Hc Hok Hne. destruct e as [t p]. simpl in Hne.
  unfold handleGatewayMessage, answers, requested, reported. cbn [env_MsgType env_Payload].
  rewrite (proj2 (Z.eqb_neq _ _) Hne).
  assert (∀ op, conns (run_ctl s op) !! conn = Some c) as Hc'
    by (intros op; by rewrite (proj1 (run_ctl_frame s op))).
  assert (∀ s', recovery s' = recovery s → conns s' !! conn = Some c →
    Done s' = Done (put_conn conn (deliver [] c) (set_recovery (recovery s) s'))) as Hid.
  { intros s' <- Hs'. rewrite set_recovery_id, deliver_nil. by rewrite put_conn_self. }
  assert (∀ op, recovery (run_ctl s op) = recovery s) as Hr by (intros; apply run_ctl_frame).
  destruct (t =? InternalMsgJoinRoom) eqn:E1.
  { apply Z.eqb_eq in E1 as ->. unfold handleJoinRoom.
    destruct (Decode p) as [r|]; simpl; [|by apply Hid].
    pose proof (Hc' (CtlJoin (jrr_UserID r) (jrr_RoomID r) (jrr_GatewayID r) now)) as Hj.
    pose proof (Hr (CtlJoin (jrr_UserID r) (jrr_RoomID r) (jrr_GatewayID r) now)) as Hrj.
    simpl in Hj, Hrj.
    pose proof (JoinRoom_no_error (jrr_UserID r) (jrr_RoomID r) (jrr_GatewayID r) now s) as He.
    destruct (JoinRoom _ _ _ _ s) as [err s']. simpl in *. subst err.
    unfold sendJoinRoomAck. rewrite (sendToGateway_spec _ _ _ _ c) by done.
    by rewrite <-Hrj, set_recovery_id. }
  destruct (t =? InternalMsgLeaveRoom) eqn:E2.
  { apply Z.eqb_eq in E2 as ->. unfold handleLeaveRoom.
    destruct (Decode p) as [r|]; simpl; by apply Hid. }
  destruct (t =? InternalMsgResume) eqn:E3.
  { apply Z.eqb_eq in E3 as ->. unfold handleResume.
    destruct (Decode p) as [r|]; simpl; [|by apply Hid].
    pose proof (Hc' (CtlResume (rr_UserID r) (rr_RoomID r) (rr_GatewayID r) now)) as Hj.
    pose proof (Hr (CtlResume (rr_UserID r) (rr_RoomID r) (rr_GatewayID r) now)) as Hrj.
    simpl in Hj, Hrj. destruct (Resume _ _ _ _ s) as [[code ?] s']. simpl in *.
    unfold sendJoinRoomAck. rewrite (sendToGateway_spec _ _ _ _ c) by done.
    by rewrite <-Hrj, set_recovery_id. }
  destruct (t =? InternalMsgDisconnect) eqn:E4.
  { apply Z.eqb_eq in E4 as ->. unfold handleDisconnect.
    destruct (Decode p) as [r|]; simpl; by apply Hid. }
  assert (∀ s' r, conns s' !! conn = Some c →
    Done (set_recovery r s') = Done (put_conn conn (deliver [] c) (set_recovery r s'))) as Hset.
  { intros s' r Hs'. by rewrite deliver_nil, put_conn_self. }
  destruct (t =? InternalMsgBatchReSync) eqn:E5.
  { apply Z.eqb_eq in E5 as ->. unfold handleBatchReSync.
    destruct (Decode p) as [r|]; [|by apply Hid].
    rewrite foldl_join_run_ctl. cbv zeta.
    destruct (foldl_run_ctl_frame
      ((λ p0, CtlJoin (urp_UserID p0) (urp_RoomID p0) (brs_GatewayID r) now) <$> brs_Users r) s)
      as (Hfc & _ & ->). apply Hset. by rewrite Hfc. }
  destruct (t =? InternalMsgReSyncComplete) eqn:E6; [|by apply Hid].
  apply Z.eqb_eq in E6 as ->. unfold handleReSyncComplete.
  destruct (Decode p) as [r|]; simpl; [by apply Hset|by apply Hid].
Qed.
End effect.

(** ** Interleavings of several streams *)
Inductive StreamEvent :=
  | SEOpen                                              (* a gateway connects *)
  | SERecv (conn : ConnRef) (e : Envelope) (now : Z)    (* its stream delivers a message *)
  | SEWrite (conn : ConnRef) (send_ok : bool)           (* its write loop takes a step *)
  | SEEnd (conn : ConnRef).                             (* its stream fails or ends *)

Section streams.
Context {SS : Type} `{SessionStore SS}.
Context `{Msgpack GatewayInfo, Msgpack JoinRoomRequest, Msgpack LeaveRoomRequest,
  Msgpack ResumeRequest, Msgpack DisconnectNotify, Msgpack BatchReSync,
  Msgpack ReSyncComplete, Msgpack JoinRoomAck, Msgpack EpochNotify}.
Implicit Types (s : Server SS) (conn : ConnRef) (e : Envelope) (R : gset ConnRef).

(** The set [R] holds the streams whose receive loop is running. *)
Definition run_stream (Rs : gset ConnRef * Server SS) (ev : StreamEvent) :
    outcome (gset ConnRef * Server SS) :=
  let '(R, s) := Rs in
  match ev with
  | SEOpen => let '(conn, s) := Channel_open s in mret (R ∪ {[conn]}, s)
  | SERecv conn e now => s ← handleGatewayMessage conn e now s; mret (R, s)
  | SEWrite conn send_ok =>
    r ← gatewayWriteLoop_step (λ _, send_ok) conn s;
    mret (R, match r with Some (_, s') => s' | None => s end)
  | SEEnd conn => s ← Channel_cleanup conn s; mret (R ∖ {[conn]}, s)
  end.

Fixpoint run_streams (Rs : gset ConnRef * Server SS) (evs : list StreamEvent) :
    outcome (gset ConnRef * Server SS) :=
  match evs with
  | [] => mret Rs
  | ev :: evs => Rs ← run_stream Rs ev; run_streams Rs evs
  end.

(** The id a message registers its stream under. *)
Definition registers e : option string :=
  if env_MsgType e =? InternalMsgGatewayInfo
  then gi_GatewayID <$> Decode (env_Payload e) else None.

(** Events of running streams; a stream registers once, under an id that
    is not in use. *)
Definition calm (Rs : gset ConnRef * Server SS) (ev : StreamEvent) : Prop :=
  match ev with
  | SEOpen => True
  | SERecv conn e _ => conn ∈ Rs.1 ∧
    match registers e with
    | Some id => id ≠ ""%string ∧ gateways Rs.2 !! id = None ∧
                 gc_id <$> conns Rs.2 !! conn = Some ""%string
    | None => True
    end
  | SEWrite conn _ | SEEnd conn => conn ∈ Rs.1
  end.

Fixpoint calm_history Rs (evs : list StreamEvent) : Prop :=
  match evs with
  | [] => True
  | ev :: evs => calm Rs ev ∧ ∀ Rs', run_stream Rs ev = Done Rs' → calm_history Rs' evs
  end.

(** Running streams are open, and the table holds exactly the registered
    ones. *)
Definition streams_inv R s : Prop :=
  conns_wf s ∧
  (∀ conn, conn ∈ R → ∃ c, conns s !! conn = Some c ∧ gc_closed c = false) ∧
  (∀ id conn, gateways s !! id = Some conn ↔
     conn ∈ R ∧ gc_id <$> conns s !! conn = Some id ∧ id ≠ ""%string).

(** A step that leaves the streams and their names alone. *)
Lemma streams_inv_frame R s s' conn c c' :
  streams_inv R s → conns s !! conn = Some c →
  conns s' = <[conn := c']> (conns s) → gateways s' = gateways s →
  conn_ok c' → gc_id c' = gc_id c → gc_closed c' = gc_closed c →
  streams_inv R s'.
Proof.
  intros (Hwf & Hopen & Htab) Hc Hcs Hgw Hok Hid Hcl. split_and!.
  - intros conn' c''. rewrite Hcs. intros [[_ <-]|[_ ?]]%lookup_insert_Some; eauto.
  - intros conn' (c'' & Hc'' & Ho)%Hopen. rewrite Hcs. destruct (decide (conn' = conn)) as [->|].
    + rewrite lookup_insert_eq. simplify_eq. exists c'. split; [done|congruence].
    + rewrite lookup_insert_ne by done. eauto.
  - intros id conn'. rewrite Hgw, Htab, Hcs. destruct (decide (conn' = conn)) as [->|].
    + by rewrite lookup_insert_eq, Hc; simpl; rewrite Hid.
    + by rewrite lookup_insert_ne.
Qed.

Lemma streams_inv_open R s :
  streams_inv R s → streams_inv (R ∪ {[(Channel_open s).1]}) (Channel_open s).2.
Proof.
  intros (Hwf & Hopen & Htab). unfold Channel_open. cbn [fst snd].
  set (conn := fresh (dom (conns s))).
  assert (conns s !! conn = None) as Hn by (apply not_elem_of_dom, is_fresh).
  assert (conn ∉ R) as HnR by (intros (c & Hc & _)%Hopen; congruence).
  split_and!.
  - by apply conns_wf_put.
  - intros conn' [Hin| ->%elem_of_singleton]%elem_of_union; simpl.
    + rewrite lookup_insert_ne by set_solver. eauto.
    + rewrite lookup_insert_eq. eauto.
  - intros id conn'. simpl. rewrite Htab. destruct (decide (conn' = conn)) as [->|Hne].
    + rewrite lookup_insert_eq. simpl. split; [naive_solver|].
      intros (_ & [= <-] & Hid). done.
    + rewrite lookup_insert_ne by done. set_solver.
Qed.

Lemma streams_inv_register R s conn payload info :
  streams_inv R s → conn ∈ R → Decode payload = Some info → gi_GatewayID info ≠ ""%string →
  gateways s !! gi_GatewayID info = None → gc_id <$> conns s !! conn = Some ""%string →
  ∃ s', handleGatewayInfo conn payload s = Done s' ∧ streams_inv R s'.
Proof.
  intros (Hwf & Hopen & Htab) HR Hd Hne Hfree Hun.
  destruct (Hopen conn HR) as (c & Hc & Ho).
  pose proof (Hwf conn c Hc) as Hok.
  unfold handleGatewayInfo. rewrite Hd. rewrite (get_conn_Some conn s c Hc). simpl.
  set (c1 := conn_set_info (gi_GatewayID info) (gi_Addr info) c).
  set (s1 := put_conn conn c1 s).
  assert (conns s1 !! conn = Some c1) as Hc1 by (simpl; by rewrite lookup_insert_eq).
  unfold addGateway. rewrite (get_conn_Some conn s1 c1 Hc1). simpl. rewrite Hfree. simpl.
  unfold sendEpochNotify. erewrite (sendToGateway_spec conn); [|done|exact Hok].
  eexists. split; [done|]. eapply (streams_inv_frame R
    (set_gateways (<[gi_GatewayID info := conn]> (gateways s)) s1)); [|done|done|done| | |].
  - split_and!.
    + apply conns_wf_put; [exact Hok|done].
    + intros conn' (c'' & Hc'' & Ho')%Hopen. simpl. destruct (decide (conn' = conn)) as [->|].
      * rewrite lookup_insert_eq. simplify_eq. eauto.
      * rewrite lookup_insert_ne by done. eauto.
    + intros id conn'. simpl. destruct (decide (id = gi_GatewayID info)) as [->|Hid].
      * rewrite lookup_insert_eq. split.
        -- intros [= <-]. by rewrite lookup_insert_eq.
        -- intros (HR' & Hid & _). f_equal. destruct (decide (conn' = conn)) as [|Hcn]; [done|].
           rewrite lookup_insert_ne in Hid by done.
           assert (gateways s !! gi_GatewayID info = Some conn') by (apply Htab; done).
           congruence.
      * rewrite lookup_insert_ne, Htab by done. destruct (decide (conn' = conn)) as [->|].
        -- rewrite lookup_insert_eq, Hun. simpl. naive_solver.
        -- by rewrite lookup_insert_ne.
  - apply deliver_ok. exact Hok.
  - by rewrite deliver_id.
  - by rewrite deliver_closed.
Qed.

Lemma streams_inv_message R s conn e now :
  streams_inv R s → conn ∈ R → env_MsgType e ≠ InternalMsgGatewayInfo →
  ∃ s', handleGatewayMessage conn e now s = Done s' ∧ streams_inv R s'.
Proof.
  intros Hinv HR Hne. pose proof Hinv as (Hwf & Hopen & _).
  destruct (Hopen conn HR) as (c & Hc & Ho).
  eexists. split; [by apply handled, Hne; eauto|].
  destruct (foldl_run_ctl_frame (requested e now) s) as (Hcs & Hgw & _).
  eapply (streams_inv_frame R s _ conn c); [done|done| |done|..].
  - simpl. by rewrite Hcs.
  - apply deliver_ok. eauto.
  - apply deliver_id.
  - apply deliver_closed.
Qed.

Lemma streams_inv_end R s conn :
  streams_inv R s → conn ∈ R →
  ∃ s', Channel_cleanup conn s = Done s' ∧ streams_inv (R ∖ {[conn]}) s'.
Proof.
  intros (Hwf & Hopen & Htab) HR. destruct (Hopen conn HR) as (c & Hc & Ho).
  unfold Channel_cleanup. erewrite close_conn_open by (done || by rewrite <-(Hwf conn c)).
  simpl. unfold get_conn at 1. simpl. rewrite lookup_insert_eq. simpl.
  eexists. split; [done|]. set (c' := mkGatewayConnection _ _ _ _).
  assert (∀ s1, conns s1 = <[conn := c']> (conns s) →
    (∀ id, gateways s1 !! id = if decide (id = gc_id c) then None else gateways s !! id) →
    streams_inv (R ∖ {[conn]}) s1) as Hgen.
  { intros s1 Hcs Hgw. split_and!.
    - intros conn' c''. rewrite Hcs. intros [[_ <-]|[_ ?]]%lookup_insert_Some; [done|eauto].
    - intros conn' [Hin Hn]%elem_of_difference. rewrite Hcs, lookup_insert_ne by set_solver. eauto.
    - intros id conn'. rewrite Hgw, Hcs. destruct (decide (conn' = conn)) as [->|Hcn].
      + rewrite lookup_insert_eq. simpl. split; [|set_solver]. case_decide as Hid; [done|].
        rewrite Htab, Hc. simpl. naive_solver.
      + rewrite lookup_insert_ne by done. case_decide as Hid.
        * split; [done|]. intros (Hin & Hgc & Hne). subst id.
          assert (gateways s !! gc_id c = Some conn') as Hg1 by (apply Htab; set_solver).
          assert (gateways s !! gc_id c = Some conn) as Hg2 by (apply Htab; by rewrite Hc).
          congruence.
        * rewrite Htab. set_solver. }
  case_decide as Hid; apply Hgen; try done; intros id; simpl.
  - case_decide; [subst; apply lookup_delete_eq|by apply lookup_delete_ne].
  - case_decide; [|done]. subst. destruct (gateways s !! gc_id c) as [cn|] eqn:E; [|done].
    apply Htab in E as (_ & _ & ?). tauto.
Qed.

Lemma streams_inv_write R s conn b :
  streams_inv R s → conn ∈ R →
  ∃ s', run_stream (R, s) (SEWrite conn b) = Done (R, s') ∧ streams_inv R s'.
Proof.
  intros Hinv HR. pose proof Hinv as (Hwf & Hopen & _).
  destruct (Hopen conn HR) as (c & Hc & Ho).
  simpl. unfold gatewayWriteLoop_step. rewrite (get_conn_Some conn s c Hc). simpl.
  unfold recv. pose proof (Hwf conn c Hc) as Hok.
  destruct (ch_buf (gc_sendCh c)) as [|e es] eqn:E.
  - rewrite <-Hok, Ho. eauto.
  - eexists. split; [done|]. by eapply (streams_inv_frame R s _ conn c).
Qed.

Lemma run_stream_inv R s ev :
  streams_inv R s → calm (R, s) ev →
  ∃ R' s', run_stream (R, s) ev = Done (R', s') ∧ streams_inv R' s'.
Proof.
  intros Hinv Hcalm. destruct ev as [|conn e now|conn b|conn]; simpl in Hcalm.
  - pose proof (streams_inv_open R s Hinv). simpl in *. eauto.
  - destruct Hcalm as [HR Hreg]. cbn [run_stream].
    destruct (decide (env_MsgType e = InternalMsgGatewayInfo)) as [Ht|Hne].
    + unfold registers in Hreg. rewrite (proj2 (Z.eqb_eq _ _) Ht) in Hreg.
      unfold handleGatewayMessage. rewrite (proj2 (Z.eqb_eq _ _) Ht).
      destruct (Decode (env_Payload e)) as [info|] eqn:Hd; simpl in Hreg.
      * destruct Hreg as (? & ? & ?).
        destruct (streams_inv_register R s conn (env_Payload e) info) as (s' & -> & ?); [done..|].
        simpl. eauto.
      * unfold handleGatewayInfo. rewrite Hd. simpl. eauto.
    + destruct (streams_inv_message R s conn e now) as (s' & -> & ?); [done..|]. simpl. eauto.
  - destruct (streams_inv_write R s conn b) as (s' & -> & ?); eauto.
  - cbn [run_stream]. destruct (streams_inv_end R s conn) as (s' & -> & ?); [done..|].
    simpl. eauto.
Qed.

Lemma streams_inv_new (empty : SS) id dt rt vn now now_ms :
  streams_inv ∅ (NewServer empty id dt rt vn now now_ms).
Proof. split_and!; [done|set_solver|]. intros g conn. simpl. rewrite !lookup_empty. set_solver. Qed.

Lemma run_streams_inv R s evs :
  streams_inv R s → calm_history (R, s) evs →
  ∃ R' s', run_streams (R, s) evs = Done (R', s') ∧ streams_inv R' s'.
Proof.
  revert R s. induction evs as [|ev evs IH]; intros R s Hinv Hcalm; [by exists R, s|].
  destruct Hcalm as [Hev Hcalm].
  destruct (run_stream_inv R s ev Hinv Hev) as (R' & s' & Hrun & Hinv').
  cbn [run_streams]. rewrite Hrun. apply IH; [done|]. by apply Hcalm.
Qed.

Lemma streams_inv_same R s s' :
  conns s' = conns s → gateways s' = gateways s → streams_inv R s → streams_inv R s'.
Proof. unfold streams_inv, conns_wf. by intros -> ->. Qed.

(** *** Pushes from other goroutines
    A handler of the push interface holds the pointer of a stream that it
    found in the table, perhaps long ago; it reads the flag, and sends in a
    second step.  Between the two anything may happen. *)
Inductive ServerEvent :=
  | SEStream (ev : StreamEvent)
  | SEPushCheck (conn : ConnRef) (msgType : Z) (payload : list byte)
  | SEPushSend (i : nat).                     (* the [i]-th of the sends that are under way *)

Definition Sends : Type := list (ConnRef * Z * list byte).

Definition run_server (st : gset ConnRef * Server SS * Sends) (ev : ServerEvent) :
    outcome (gset ConnRef * Server SS * Sends) :=
  let '(R, s, P) := st in
  match ev with
  | SEStream ev => Rs ← run_stream (R, s) ev; mret (Rs, P)
  | SEPushCheck conn msgType payload =>
    closed ← sendToGateway_closed conn s;
    mret (R, s, if closed : bool then P else P ++ [(conn, msgType, payload)])
  | SEPushSend i =>
    match P !! i with
    | Some (conn, msgType, payload) =>
      s ← sendToGateway_send conn msgType payload s;
      mret (R, s, delete i P)
    | None => mret (R, s, P)
    end
  end.

Fixpoint run_servers (st : gset ConnRef * Server SS * Sends) (evs : list ServerEvent) :
    outcome (gset ConnRef * Server SS * Sends) :=
  match evs with
  | [] => mret st
  | ev :: evs => st ← run_server st ev; run_servers st evs
  end.

(** No stream ends between the two steps of a push to it; a push goes to a
    stream that was opened at some time. *)
Definition calm_server (st : gset ConnRef * Server SS * Sends) (ev : ServerEvent) : Prop :=
  match ev with
  | SEStream ev =>
    calm st.1 ev ∧ match ev with SEEnd conn => Forall (λ x, x.1.1 ≠ conn) st.2 | _ => True end
  | SEPushCheck conn _ _ => is_Some (conns st.1.2 !! conn)
  | SEPushSend _ => True
  end.

Fixpoint calm_run st (evs : list ServerEvent) : Prop :=
  match evs with
  | [] => True
  | ev :: evs => calm_server st ev ∧ ∀ st', run_server st ev = Done st' → calm_run st' evs
  end.

(** A stream that is open is running. *)
Definition open_runs R s : Prop :=
  ∀ conn c, conns s !! conn = Some c → gc_closed c = false → conn ∈ R.

Lemma open_runs_put R s s' conn c :
  open_runs R s → conns s' = <[conn := c]> (conns s) → (gc_closed c = false → conn ∈ R) →
  open_runs R s'.
Proof.
  intros Ho Hcs Hc conn' c'. rewrite Hcs. intros [[<- <-]|[_ ?]]%lookup_insert_Some; [done|].
  by eapply Ho.
Qed.

Lemma run_stream_open R s ev R' s' :
  streams_inv R s → calm (R, s) ev → open_runs R s →
  run_stream (R, s) ev = Done (R', s') → open_runs R' s'.
Proof.
  intros Hinv Hcalm Ho Hrun. pose proof Hinv as (Hwf & Hopen & _).
  destruct ev as [|conn e now|conn b|conn]; cbn in Hcalm; cbn [run_stream] in Hrun.
  - unfold Channel_open in Hrun. injection Hrun as <- <-.
    eapply open_runs_put; [|done|set_solver]. intros conn c Hc Hcl.
    apply elem_of_union_l. by eapply Ho.
  - destruct Hcalm as [HR Hreg]. destruct (Hopen conn HR) as (c & Hc & Hcl).
    apply outcome_bind_Done in Hrun as (s1 & Hrun & [= <- <-]).
    destruct (decide (env_MsgType e = InternalMsgGatewayInfo)) as [Ht|Hne].
    + unfold registers in Hreg. rewrite (proj2 (Z.eqb_eq _ _) Ht) in Hreg.
      unfold handleGatewayMessage in Hrun. rewrite (proj2 (Z.eqb_eq _ _) Ht) in Hrun.
      unfold handleGatewayInfo in Hrun.
      destruct (Decode (env_Payload e)) as [info|] eqn:Hd; [|by injection Hrun as <-].
      cbn in Hreg. destruct Hreg as (_ & Hfree & _). rewrite (get_conn_Some conn s c Hc) in Hrun.
      cbn [mbind outcome_bind] in Hrun.
      set (c1 := conn_set_info _ _ c) in Hrun. set (s0 := put_conn conn c1 s) in Hrun.
      assert (conns s0 !! conn = Some c1) as Hc1 by (cbn; apply lookup_insert_eq).
      unfold addGateway in Hrun. rewrite (get_conn_Some conn s0 c1 Hc1) in Hrun.
      cbn [mbind outcome_bind gateways s0 put_conn set_conns gc_id c1 conn_set_info] in Hrun.
      rewrite Hfree in Hrun. cbn [mbind outcome_bind mret outcome_ret] in Hrun.
      unfold sendEpochNotify in Hrun.
      erewrite (sendToGateway_spec conn) in Hrun; [|exact Hc1|exact (Hwf conn c Hc)].
      injection Hrun as <-. eapply (open_runs_put R s0); [|done|done].
      by eapply (open_runs_put R s).
    + rewrite (handled conn e now s c) in Hrun by (done || by eapply Hwf).
      injection Hrun as <-. eapply (open_runs_put R s); [done| |done]. cbn.
      by rewrite (proj1 (foldl_run_ctl_frame (requested e now) s)).
  - destruct (Hopen conn Hcalm) as (c & Hc & Hcl). unfold gatewayWriteLoop_step in Hrun.
    rewrite (get_conn_Some conn s c Hc) in Hrun. cbn in Hrun. injection Hrun as <- <-.
    destruct (recv _) as [[[e|] ch]|]; [|done..]. by eapply open_runs_put.
  - destruct (Hopen conn Hcalm) as (c & Hc & Hcl).
    apply outcome_bind_Done in Hrun as (s1 & Hrun & [= <- <-]). unfold Channel_cleanup in Hrun.
    erewrite close_conn_open in Hrun by (done || by rewrite <-(Hwf conn c)).
    cbn in Hrun. unfold get_conn in Hrun. cbn in Hrun. rewrite lookup_insert_eq in Hrun.
    cbn in Hrun. injection Hrun as <-.
    assert (open_runs (R ∖ {[conn]}) (put_conn conn (mkGatewayConnection (gc_id c) (gc_addr c)
      (mkChan (ch_buf (gc_sendCh c)) (ch_cap (gc_sendCh c)) true) true) s)) as Hput; [|by case_decide].
    intros conn' c'. cbn. intros [[<- <-]|[Hne Hc']]%lookup_insert_Some; [done|].
    intros ?. apply elem_of_difference. split; [by eapply Ho|set_solver].
Qed.

(** The running streams are safe, and a send under way goes to one. *)
Definition server_inv (st : gset ConnRef * Server SS * Sends) : Prop :=
  streams_inv st.1.1 st.1.2 ∧ open_runs st.1.1 st.1.2 ∧ Forall (λ x, x.1.1 ∈ st.1.1) st.2.

Lemma run_stream_running R s ev R' s' conn :
  run_stream (R, s) ev = Done (R', s') → conn ∈ R → ev ≠ SEEnd conn → conn ∈ R'.
Proof.
  destruct ev as [|conn' e now|conn' b|conn']; cbn [run_stream];
    [|intros (s1 & _ & [= <- <-])%outcome_bind_Done..].
  - destruct (Channel_open s). intros [= <- <-]. set_solver.
  - done.
  - done.
  - intros ? Hne. assert (conn ≠ conn') by congruence. set_solver.
Qed.

Lemma run_server_inv st ev :
  server_inv st → calm_server st ev → ∃ st', run_server st ev = Done st' ∧ server_inv st'.
Proof.
  destruct st as [[R s] P]. intros (Hinv & Ho & HP) Hcalm. cbn [fst snd] in *.
  destruct ev as [ev|conn t p|i]; cbn [calm_server run_server fst snd] in *.
  - destruct Hcalm as [Hcalm Hend].
    destruct (run_stream_inv R s ev Hinv Hcalm) as (R' & s' & Hrun & Hinv').
    rewrite Hrun. eexists. split; [done|]. split_and!; cbn [fst snd]; [done|by apply (run_stream_open R s ev)|].
    apply Forall_forall. intros x Hx. cbn.
    apply (run_stream_running R s ev R' s'); [done|by apply (proj1 (Forall_forall _ _) HP x)|].
    intros ->. by apply (proj1 (Forall_forall _ _) Hend x Hx).
  - destruct Hcalm as [c Hc]. unfold sendToGateway_closed. rewrite (get_conn_Some conn s c Hc).
    eexists. split; [done|]. split_and!; cbn [fst snd]; [done..|].
    destruct (gc_closed c) eqn:Hcl; [done|]. apply Forall_app. split; [done|].
    apply Forall_singleton. by eapply Ho.
  - destruct (P !! i) as [[[conn t] p]|] eqn:Hi; [|by eexists].
    pose proof Hinv as (Hwf & Hopen & _). pose proof (Forall_lookup_1 _ _ _ _ HP Hi) as HR. cbn in HR.
    destruct (Hopen conn HR) as (c & Hc & Hcl). pose proof (Hwf conn c Hc) as Hok.
    unfold sendToGateway_send. rewrite (get_conn_Some conn s c Hc). cbn [mbind outcome_bind].
    rewrite try_send_open by (by rewrite <-Hok). cbn [mbind outcome_bind].
    eexists. split; [done|]. split_and!; cbn [fst snd].
    + eapply (streams_inv_frame R s _ conn c); [done|done|done|done| |done|done].
      unfold conn_ok. cbn. by rewrite sent_closed.
    + by eapply (open_runs_put R s).
    + by apply Forall_delete.
Qed.

Lemma run_servers_inv st evs :
  server_inv st → calm_run st evs → ∃ st', run_servers st evs = Done st' ∧ server_inv st'.
Proof.
  revert st. induction evs as [|ev evs IH]; intros st Hinv Hcalm; [by exists st|].
  destruct Hcalm as [Hev Hcalm]. destruct (run_server_inv st ev Hinv Hev) as (st' & Hrun & Hinv').
  cbn [run_servers]. rewrite Hrun. apply IH; [done|]. by apply Hcalm.
Qed.
End streams.

(** ** Properties *)
Section properties.
Context {SS : Type} `{SessionStoreLaws SS}.
Context `{Msgpack GatewayInfo, Msgpack JoinRoomRequest, Msgpack LeaveRoomRequest,
  Msgpack ResumeRequest, Msgpack DisconnectNotify, Msgpack BatchReSync,
  Msgpack ReSyncComplete, MsgpackLaws JoinRoomAck, Msgpack EpochNotify}.
Implicit Types (s : Server SS) (conn : ConnRef) (e : Envelope).


(** C12. A gateway that registers while its id is still in the table, on a
    new stream (a reconnect the server has not noticed yet) or a second
    time on the same one, takes over the id and closes the queue of the
    old stream; when the old stream ends, its clean-up closes the queue
    again and the roomserver panics. *)
Theorem reregistration_crashes conn old payload info s c co :
  gateways s !! gi_GatewayID info = Some old →
  conns s !! conn = Some c → conns s !! old = Some co → conn_ok c → conn_ok co →
  gc_closed co = false → Decode payload = Some info →
  ∃ s', handleGatewayInfo conn payload s = Done s' ∧
    gateways s' !! gi_GatewayID info = Some conn ∧
    Channel_cleanup old s' = Panic "close of closed channel".
Proof.
  intros Hg Hc Hco Hok Hoko Ho Hd. unfold handleGatewayInfo. rewrite Hd.
  rewrite (get_conn_Some conn s c Hc). simpl.
  set (c1 := conn_set_info (gi_GatewayID info) (gi_Addr info) c).
  set (s1 := put_conn conn c1 s).
  assert (conns s1 !! conn = Some c1) as Hc1 by (simpl; by rewrite lookup_insert_eq).
  assert (∃ co1, conns s1 !! old = Some co1 ∧ ch_closed (gc_sendCh co1) = false)
    as (co1 & Hco1 & Ho1).
  { simpl. destruct (decide (old = conn)) as [->|].
    - rewrite lookup_insert_eq. exists c1. split; [done|]. simplify_eq. simpl. by rewrite <-Hoko.
    - rewrite lookup_insert_ne by done. exists co. split; [done|]. by rewrite <-Hoko. }
  unfold addGateway. rewrite (get_conn_Some conn s1 c1 Hc1).
  cbn [mbind outcome_bind conn_set_info gc_id c1]. change (gateways s1) with (gateways s).
  rewrite Hg, (close_conn_open old s1 co1 Hco1 Ho1). simpl.
  set (co2 := mkGatewayConnection _ _ _ true). unfold sendEpochNotify.
  set (s2 := set_gateways _ _).
  assert (∃ c2, conns s2 !! conn = Some c2 ∧ conn_ok c2) as (c2 & Hc2 & Hok2).
  { simpl. destruct (decide (conn = old)) as [->|].
    - rewrite lookup_insert_eq. by exists co2.
    - rewrite lookup_insert_ne by done. rewrite lookup_insert_eq. by exists c1. }
  rewrite (sendToGateway_spec conn _ _ s2 c2 Hc2 Hok2). eexists. split; [done|]. split.
  - simpl. apply lookup_insert_eq.
  - unfold Channel_cleanup. set (s3 := put_conn _ _ _).
    assert (∃ c3, conns s3 !! old = Some c3 ∧ ch_closed (gc_sendCh c3) = true)
      as (c3 & Hc3 & Hcl3).
    { simpl. destruct (decide (old = conn)) as [->|].
      - rewrite lookup_insert_eq. eexists. split; [done|].
        simpl in Hc2. rewrite lookup_insert_eq in Hc2. simplify_eq.
        by unfold deliver.
      - rewrite lookup_insert_ne, lookup_insert_eq by done. by exists co2. }
    by rewrite (close_conn_closed old s3 c3).
Qed.

(** C16. Every message other than a registration, on an open stream whose
    queue has a free slot, does to rooms and sessions exactly the
    control-plane operations it asks for, touches the queue of its own stream
    only, and an acknowledgement tells the truth: after a positive one the
    user is online in that room, and a negative one means that nothing was
    changed. *)
Theorem handleGatewayMessage_effect conn e now s c :
  server_wf s → conns s !! conn = Some c → conn_ok c → gc_closed c = false →
  (length (ch_buf (gc_sendCh c)) < ch_cap (gc_sendCh c))%nat →
  env_MsgType e ≠ InternalMsgGatewayInfo →
  let s1 := foldl run_ctl s (requested e now) in
  ∃ s', handleGatewayMessage conn e now s = Done s' ∧
    roomSvc s' = roomSvc s1 ∧ sessionSvc s' = sessionSvc s1 ∧ gateways s' = gateways s ∧
    conns s' = <[conn := deliver (answers e now s) c]> (conns s) ∧
    ch_buf (gc_sendCh (deliver (answers e now s) c)) =
      ch_buf (gc_sendCh c) ++ answers e now s ∧
    (∀ ack : JoinRoomAck, mkEnvelope InternalMsgJoinRoomAck (Encode_ ack) ∈ answers e now s →
      if jra_Success ack
      then ∃ p, presence s' !! jra_UserID ack = Some p ∧ p_room p = jra_RoomID ack ∧
                p_status p = MemberStatusOnline
      else roomSvc s' = roomSvc s ∧ sessionSvc s' = sessionSvc s).
Proof.
  intros Hwf Hc Hok Ho Hlen Hne s1. rewrite (handled conn e now s c) by done.
  eexists. split; [done|]. destruct (foldl_run_ctl_frame (requested e now) s) as (Hcs & Hgw & _).
  split_and!; [done|done|done|simpl; by rewrite Hcs| |].
  - apply deliver_fits; [done|]. enough (length (answers e now s) ≤ 1)%nat by lia.
    unfold answers. repeat case_match; simpl; lia.
  - assert (∀ ack1 ack2 : JoinRoomAck, mkEnvelope InternalMsgJoinRoomAck (Encode_ ack1) ∈
      [mkEnvelope InternalMsgJoinRoomAck (Encode_ ack2)] → ack1 = ack2) as Hinj.
    { intros ack1 ack2 Hin%list_elem_of_singleton. injection Hin as Hin.
      pose proof (Decode_Encode_ ack1) as H1'. rewrite Hin, Decode_Encode_ in H1'. congruence. }
    intros ack. unfold answers, requested. destruct e as [t p]. cbn [env_MsgType env_Payload].
    destruct (t =? InternalMsgJoinRoom) eqn:E1.
    { destruct (Decode p) as [r|]; [|by intros ?%not_elem_of_nil].
      intros ->%Hinj. cbn [jra_Success jra_UserID jra_RoomID foldl run_ctl].
      destruct (presence_JoinRoom (jrr_UserID r) (jrr_RoomID r) (jrr_GatewayID r) now s
        (proj1 Hwf)) as [_ Hp].
      unfold presence in *. simpl in *. rewrite Hp, lookup_insert_eq. eauto. }
    destruct (t =? InternalMsgResume) eqn:E3; [|by intros ?%not_elem_of_nil].
    destruct (Decode p) as [r|]; [|by intros ?%not_elem_of_nil].
    intros ->%Hinj. cbn [jra_Success jra_UserID jra_RoomID foldl run_ctl].
    replace (t =? InternalMsgLeaveRoom) with false
      by (apply Z.eqb_eq in E3 as ->; reflexivity). cbn [foldl run_ctl].
    pose proof (Resume_cases (rr_UserID r) (rr_RoomID r) (rr_GatewayID r) now s (proj1 Hwf)) as Hr.
    destruct (Resume _ _ _ _ s) as [[code cur] s2]. cbn [fst snd].
    destruct (presence s !! rr_UserID r) as [q|]; [|by simplify_eq].
    destruct (decide (p_room q ≠ rr_RoomID r)); [by simplify_eq|].
    destruct (decide (rooms (roomSvc s) !! rr_RoomID r = None)); [by simplify_eq|].
    destruct Hr as (s' & ? & _ & _ & Hp). simplify_eq. unfold presence in *. simpl in *.
    rewrite Hp, lookup_insert_eq. eauto.
Qed.

(** [sendToGateway] reads the closed flag and sends in two steps: when
    the stream is closed in between (a clean-up or a re-registration), the
    sending goroutine panics. *)
Theorem sendToGateway_race conn t p s c :
  conns s !! conn = Some c → conn_ok c → gc_closed c = false →
  sendToGateway_closed conn s = Done false ∧
  ∃ s', close_conn conn s = Done s' ∧
    sendToGateway_send conn t p s' = Panic "send on closed channel".
Proof.
  intros Hc Hok Ho. unfold sendToGateway_closed. rewrite (get_conn_Some conn s c Hc).
  split; [simpl; by rewrite Ho|].
  rewrite (close_conn_open conn s c Hc) by (by rewrite <-Hok).
  eexists. split; [done|]. unfold sendToGateway_send, get_conn. simpl.
  by rewrite lookup_insert_eq.
Qed.
End properties.

(** ** Concrete instances *)
Section examples.
Import ToyCodec.

Definition msg_info (id : string) : Envelope :=
  mkEnvelope InternalMsgGatewayInfo (Encode_ (mkGatewayInfo id "10.0.0.1" 0)).
Definition msg_join (u rid g : string) : Envelope :=
  mkEnvelope InternalMsgJoinRoom (Encode_ (mkJoinRoomRequest u rid g)).

(** A server with the stream 0 registered as "g1". *)
Definition demo_registered : outcome (gset ConnRef * Server SessionService) :=
  run_streams (∅, demo_server) [SEOpen; SERecv 0 (msg_info "g1") 1].

Definition demo_stream_server : Server SessionService :=
  match demo_registered with Done Rs => Rs.2 | _ => demo_server end.

Definition demo_stream : GatewayConnection :=
  default (mkGatewayConnection "" "" (make_chan 0) true) (conns demo_stream_server !! 0%nat).

Lemma demo_stream_inv : streams_inv {[0%nat]} demo_stream_server.
Proof.
  destruct (run_streams_inv ∅ demo_server [SEOpen; SERecv 0 (msg_info "g1") 1])
    as (R & s & Hrun & Hinv).
  - apply streams_inv_new.
  - split; [done|]. intros ? HR. vm_compute in HR. injection HR as <-.
    split; [by vm_compute|]. done.
  - assert (R = {[0%nat]} ∧ s = demo_stream_server) as [-> ->]; [|done].
    vm_compute in Hrun. injection Hrun as <- <-. split; vm_compute; reflexivity.
Qed.

(** "g1" registers, a push to it is under way while its write loop runs,
    then the message is sent and the stream ends. *)
Definition demo_push_events : list ServerEvent :=
  [SEStream SEOpen; SEStream (SERecv 0 (msg_info "g1") 1); SEPushCheck 0 InternalMsgUnicast [];
   SEStream (SEWrite 0 true); SEPushSend 0; SEStream (SEEnd 0);
   SEPushCheck 0 InternalMsgUnicast []].


(** "g1" reconnects: its new stream 1 registers before stream 0 ends. *)
Lemma reregistration_crashes_witness :
  let s := (Channel_open demo_stream_server).2 in
  ∃ s', handleGatewayInfo 1%nat (env_Payload (msg_info "g1")) s = Done s' ∧
    gateways s' !! "g1"%string = Some 1%nat ∧
    Channel_cleanup 0%nat s' = Panic "close of closed channel".
Proof.
  apply (reregistration_crashes 1%nat 0%nat (env_Payload (msg_info "g1"))
    (mkGatewayInfo "g1" "10.0.0.1" 0) (Channel_open demo_stream_server).2
    (mkGatewayConnection "" "" (make_chan gatewaySendCap) false) demo_stream);
    vm_compute; reflexivity.
Defined.

Lemma handleGatewayMessage_effect_witness :
  let s := demo_stream_server in
  let e := msg_join "u1" "r1" "g1" in
  let s1 := foldl run_ctl s (requested e 5) in
  ∃ s', handleGatewayMessage 0%nat e 5 s = Done s' ∧
    roomSvc s' = roomSvc s1 ∧ sessionSvc s' = sessionSvc s1 ∧ gateways s' = gateways s ∧
    conns s' = <[0%nat := deliver (answers e 5 s) demo_stream]> (conns s) ∧
    ch_buf (gc_sendCh (deliver (answers e 5 s) demo_stream)) =
      ch_buf (gc_sendCh demo_stream) ++ answers e 5 s ∧
    (∀ ack : JoinRoomAck,
      mkEnvelope InternalMsgJoinRoomAck (Encode_ ack) ∈ answers e 5 s →
      if jra_Success ack
      then ∃ p, presence s' !! jra_UserID ack = Some p ∧ p_room p = jra_RoomID ack ∧
                p_status p = MemberStatusOnline
      else roomSvc s' = roomSvc s ∧ sessionSvc s' = sessionSvc s).
Proof.
  apply (handleGatewayMessage_effect (H0 := SessionService_laws)).
  - split; [apply NewSessionService_wf|]. apply NewRoomService_wf.
  - by vm_compute.
  - by vm_compute.
  - by vm_compute.
  - vm_compute. lia.
  - by vm_compute.
Defined.

Lemma sendToGateway_race_witness :
  sendToGateway_closed 0%nat demo_stream_server = Done false ∧
  ∃ s', close_conn 0%nat demo_stream_server = Done s' ∧
    sendToGateway_send 0%nat InternalMsgUnicast [] s' = Panic "send on closed channel".
Proof. apply (sendToGateway_race 0%nat _ _ _ demo_stream); vm_compute; reflexivity. Defined.
End examples.
