(* ===== verification/PushApi.v ===== *)
(** [internal/roomserver/push_api.go]: the HTTP push interface, and
    [gateway_conn.go], the queue object kept for frame-based gateway links. *)

From Stdlib Require Import ZArith Lia.
From stdpp Require Import base tactics gmap strings numbers list.
From S2P Require Import Prelude GoInt Protocol Frame Chan SessionStore SessionService RoomService Recovery HashRing Roomserver GrpcServer.

Local Open Scope Z_scope.

(** ** HTTP *)
Record HttpRequest := mkHttpRequest { hr_Method : string; hr_Body : list byte }.

Inductive HttpBody :=
  | TextBody (text : string)                         (* http.Error *)
  | JsonBody (fields : list (string * string)).      (* json.NewEncoder(w).Encode *)

(** The response, and the label under which [RoomserverBroadcasts] counts
    the request. *)
Record HttpResponse := mkHttpResponse {
  resp_code : Z; resp_body : HttpBody; resp_counted : option string }.

Definition StatusOK : Z := 200.
Definition StatusBadRequest : Z := 400.
Definition StatusNotFound : Z := 404.
Definition StatusMethodNotAllowed : Z := 405.
Definition StatusServiceUnavailable : Z := 503.

Definition http_Error (text : string) (code : Z) : HttpResponse :=
  mkHttpResponse code (TextBody text) None.

Definition http_OK (label : option string) : HttpResponse :=
  mkHttpResponse StatusOK (JsonBody [("status", "ok")%string]) label.

(** Request bodies; [message] is a [json.RawMessage]. *)
Record UnicastRequest := mkUnicastRequest {
  ur_RoomID : string; ur_UserID : string; ur_Message : list byte }.
Record MulticastRequest := mkMulticastRequest {
  mr_RoomID : string; mr_UserIDs : list string; mr_Message : list byte }.
Record RoomBroadcastRequest := mkRoomBroadcastRequest {
  rbr_RoomID : string; rbr_Message : list byte }.
Record GlobalBroadcastRequest := mkGlobalBroadcastRequest { gbr_Message : list byte }.
Record RoomCloseRequest := mkRoomCloseRequest { rcr_RoomID : string; rcr_Reason : string }.

(** [json.NewDecoder(r.Body).Decode(&req)] of encoding/json, one parameter
    per request type; [None] is an error. *)
Class JsonRequest (A : Type) := decode_request : list byte → option A.

Section push.
Context {SS : Type} `{SessionStore SS}.
Context `{JsonRequest UnicastRequest, JsonRequest MulticastRequest,
  JsonRequest RoomBroadcastRequest, JsonRequest GlobalBroadcastRequest,
  JsonRequest RoomCloseRequest}.
Context `{Msgpack UnicastMessage, Msgpack MulticastMessage, Msgpack BroadcastMessage,
  Msgpack RoomCloseNotify}.
Context `{MapOrder}.
Implicit Types (s : Server SS) (r : HttpRequest).

(** The checks every push handler starts with. *)
Definition handleUnicastHTTP r s : outcome (HttpResponse * Server SS) :=
  if decide (hr_Method r ≠ "POST"%string)
  then mret (http_Error "method not allowed" StatusMethodNotAllowed, s)
  else if decide (GetStatus s = ServerStatusRecovering)
  then mret (http_Error "service recovering" StatusServiceUnavailable, s)
  else match decode_request (hr_Body r) with
  | None => mret (http_Error "invalid request" StatusBadRequest, s)
  | Some req =>
    match GetSession (ur_UserID req) (sessionSvc s) with
    | None => mret (http_Error "user not found" StatusNotFound, s)
    | Some session =>
      match GetGatewayByID (s_GatewayID session) s with
      | None => mret (http_Error "gateway not found" StatusNotFound, s)
      | Some gw =>
        let msg := mkUnicastMessage (ur_UserID req) (ur_Message req) in
        s ← sendToGateway gw InternalMsgUnicast (Encode_ msg) s;
        mret (http_OK (Some "unicast"%string), s)
      end
    end
  end.

(** [gatewayUsers[gw] = append(gatewayUsers[gw], userID)] for each user
    that has a session. *)
Definition group_by_gateway (userIDs : list string) s : gmap string (list string) :=
  foldl (λ groups userID,
    match GetSession userID (sessionSvc s) with
    | Some session =>
      <[s_GatewayID session := default [] (groups !! s_GatewayID session) ++ [userID]]> groups
    | None => groups
    end) ∅ userIDs.

Definition handleMulticastHTTP r s : outcome (HttpResponse * Server SS) :=
  if decide (hr_Method r ≠ "POST"%string)
  then mret (http_Error "method not allowed" StatusMethodNotAllowed, s)
  else if decide (GetStatus s = ServerStatusRecovering)
  then mret (http_Error "service recovering" StatusServiceUnavailable, s)
  else match decode_request (hr_Body r) with
  | None => mret (http_Error "invalid request" StatusBadRequest, s)
  | Some req =>
    let gatewayUsers := group_by_gateway (mr_UserIDs req) s in
    s ← send_each ((λ '(gwID, userIDs), (gwID, mkEnvelope InternalMsgMulticast (Encode_
          (mkMulticastMessage (mr_RoomID req) userIDs (mr_Message req)))))
          <$> range_map gatewayUsers) s;
    mret (http_OK (Some "multicast"%string), s)
  end.

Definition handleRoomBroadcastHTTP r s : outcome (HttpResponse * Server SS) :=
  if decide (hr_Method r ≠ "POST"%string)
  then mret (http_Error "method not allowed" StatusMethodNotAllowed, s)
  else if decide (GetStatus s = ServerStatusRecovering)
  then mret (http_Error "service recovering" StatusServiceUnavailable, s)
  else match decode_request (hr_Body r) with
  | None => mret (http_Error "invalid request" StatusBadRequest, s)
  | Some req =>
    match GetRoom (rbr_RoomID req) (roomSvc s) with
    | None => mret (http_Error "room not found" StatusNotFound, s)
    | Some _ =>
      let gatewayIDs := GetRoomGatewayIDs (rbr_RoomID req) (roomSvc s) in
      if decide (length gatewayIDs = 0%nat)
      then mret (mkHttpResponse StatusOK
             (JsonBody [("status", "ok")%string; ("note", "no gateways")%string]) None, s)
      else
        let msg := mkBroadcastMessage (rbr_RoomID req) 0 (rbr_Message req) in
        s ← send_to_all gatewayIDs InternalMsgBroadcast (Encode_ msg) s;
        mret (http_OK (Some "room"%string), s)
    end
  end.

(** The keys of [allGatewayIDs]. *)
Definition all_gateway_ids s : gset string :=
  foldl (λ ids roomID, foldl (λ ids gwID, ids ∪ {[gwID]}) ids
    (GetRoomGatewayIDs roomID (roomSvc s))) ∅ (GetAllRoomIDs (roomSvc s)).

Definition handleGlobalBroadcastHTTP r s : outcome (HttpResponse * Server SS) :=
  if decide (hr_Method r ≠ "POST"%string)
  then mret (http_Error "method not allowed" StatusMethodNotAllowed, s)
  else if decide (GetStatus s = ServerStatusRecovering)
  then mret (http_Error "service recovering" StatusServiceUnavailable, s)
  else match decode_request (hr_Body r) with
  | None => mret (http_Error "invalid request" StatusBadRequest, s)
  | Some req =>
    let msg := mkBroadcastMessage "" 0 (gbr_Message req) in
    s ← send_to_all (range_set (all_gateway_ids s)) InternalMsgBroadcast (Encode_ msg) s;
    mret (http_OK (Some "global"%string), s)
  end.

Definition handleRoomCloseHTTP r s : outcome (HttpResponse * Server SS) :=
  if decide (hr_Method r ≠ "POST"%string)
  then mret (http_Error "method not allowed" StatusMethodNotAllowed, s)
  else match decode_request (hr_Body r) with
  | None => mret (http_Error "invalid request" StatusBadRequest, s)
  | Some req =>
    match GetRoom (rcr_RoomID req) (roomSvc s) with
    | None => mret (http_Error "room not found" StatusNotFound, s)
    | Some _ =>
      let gatewayIDs := GetRoomGatewayIDs (rcr_RoomID req) (roomSvc s) in
      let closeMsg := mkRoomCloseNotify (rcr_RoomID req) (rcr_Reason req) in
      s ← send_to_all gatewayIDs InternalMsgRoomClose (Encode_ closeMsg) s;
      mret (http_OK None, CloseRoomOf (rcr_RoomID req) s)
    end
  end.

(** The multiplexer of [runHTTPServer]: net/http serves a pattern without a
    trailing slash for exactly its path, and answers 404 where there is none. *)
Definition routes : list (string * (HttpRequest → Server SS → outcome (HttpResponse * Server SS))) :=
  [("/api/v1/push/unicast", handleUnicastHTTP);
   ("/api/v1/push/multicast", handleMulticastHTTP);
   ("/api/v1/push/room_broadcast", handleRoomBroadcastHTTP);
   ("/api/v1/push/global_broadcast", handleGlobalBroadcastHTTP);
   ("/api/v1/room/close", handleRoomCloseHTTP)]%string.

Definition serveHTTP (path : string) r s : outcome (HttpResponse * Server SS) :=
  match List.find (λ ph, bool_decide (ph.1 = path)) routes with
  | Some (_, handler) => handler r s
  | None => mret (http_Error "404 page not found" StatusNotFound, s)
  end.
End push.

(** ** The frame-based gateway link (gateway_conn.go) *)
Record GatewayConn := mkGatewayConn {
  gcn_GatewayID : string;
  gcn_Addr : string;
  gcn_sendCh : chan Frame;
  gcn_closeCh : bool;           (* closeCh is closed *)
  gcn_closeOnce : bool;         (* the sync.Once has run *)
}.

Definition NewGatewayConn (gatewayID addr : string) : GatewayConn :=
  mkGatewayConn gatewayID addr (make_chan 10000) false false.

Module Link.
Definition Close (c : GatewayConn) : GatewayConn :=
  if gcn_closeOnce c then c
  else mkGatewayConn (gcn_GatewayID c) (gcn_Addr c) (gcn_sendCh c) true true.

(** A [select] with a ready send and a closed [closeCh] takes either
    branch; [pick] says whether it is the send. *)
Definition send (pick : bool) (frame : Frame) (c : GatewayConn) : GatewayConn :=
  let ready := bool_decide (length (ch_buf (gcn_sendCh c)) < ch_cap (gcn_sendCh c))%nat in
  if ready && (negb (gcn_closeCh c) || pick)
  then mkGatewayConn (gcn_GatewayID c) (gcn_Addr c) (sent frame (gcn_sendCh c))
         (gcn_closeCh c) (gcn_closeOnce c)
  else c.

Section messages.
Context `{Msgpack BroadcastMessage, Msgpack UnicastMessage, Msgpack MulticastMessage,
  Msgpack JoinRoomAck, Msgpack EpochNotify, Msgpack RoomCloseNotify}.

(** The six senders differ in the message and its type only. *)
Definition send_encoded (payload : option (list byte)) (msgType : Z) (pick : bool)
    (c : GatewayConn) : GatewayConn :=
  match payload with
  | None => c
  | Some payload => send pick (mkFrame msgType 0 payload) c
  end.

Definition SendBroadcast (msg : BroadcastMessage) :=
  send_encoded (Encode msg) InternalMsgBroadcast.
Definition SendUnicast (msg : UnicastMessage) :=
  send_encoded (Encode msg) InternalMsgUnicast.
Definition SendMulticast (msg : MulticastMessage) :=
  send_encoded (Encode msg) InternalMsgMulticast.
Definition SendJoinRoomAck (ack : JoinRoomAck) :=
  send_encoded (Encode ack) InternalMsgJoinRoomAck.
Definition SendEpochNotify (notify : EpochNotify) :=
  send_encoded (Encode notify) InternalMsgEpochNotify.
Definition SendRoomClose (msg : RoomCloseNotify) :=
  send_encoded (Encode msg) InternalMsgRoomClose.
End messages.

(** Closing twice is closing once, and the queue itself is never closed:
    no interleaving of sends and closes can panic. *)
Lemma Close_idemp c : Close (Close c) = Close c.
Proof. unfold Close. destruct (gcn_closeOnce c) eqn:E; [by rewrite E|done]. Qed.

(** The accepted frames are a subsequence of the sent ones, in order. *)
Lemma sends_sublist (fs : list (bool * Frame)) c :
  ∃ accepted, accepted `sublist_of` fs.*2 ∧
    ch_buf (gcn_sendCh (foldl (λ c pf, send pf.1 pf.2 c) c fs)) =
    ch_buf (gcn_sendCh c) ++ accepted.
Proof.
  revert c. induction fs as [|[pick f] fs IH]; intros c; simpl.
  - exists []. by rewrite app_nil_r.
  - destruct (IH (send pick f c)) as (acc & Hsub & ->). unfold send.
    destruct (bool_decide _ && _) eqn:E; simpl.
    + apply andb_true_iff in E as [?%bool_decide_eq_true _]. unfold sent.
      rewrite decide_True by done. simpl. exists (f :: acc). rewrite <-app_assoc.
      split; [by apply sublist_skip|done].
    + exists acc. split; [by apply sublist_cons|done].
Qed.
End Link.

(** ** What the push handlers do *)
Section spec.
Context {SS : Type} `{SessionStore SS}.
Context `{MapOrder}.
Implicit Types (s : Server SS).

Lemma elem_of_foldl_ids (ids : list string) (acc : gset string) g :
  g ∈ foldl (λ ids gwID, ids ∪ {[gwID]}) acc ids ↔ g ∈ acc ∨ g ∈ ids.
Proof.
  revert acc. induction ids as [|i ids IH]; intros acc; simpl; [set_solver|].
  rewrite IH. set_solver.
Qed.

Lemma elem_of_all_gateway_ids s g :
  g ∈ all_gateway_ids s ↔ ∃ rid, g ∈ GetRoomGatewayIDs rid (roomSvc s).
Proof.
  unfold all_gateway_ids.
  assert (∀ rids (acc : gset string),
    g ∈ foldl (λ ids roomID, foldl (λ ids gwID, ids ∪ {[gwID]}) ids
      (GetRoomGatewayIDs roomID (roomSvc s))) acc rids ↔
    g ∈ acc ∨ ∃ rid, rid ∈ rids ∧ g ∈ GetRoomGatewayIDs rid (roomSvc s)) as Hgen.
  { induction rids as [|rid rids IH]; intros acc; simpl; [set_solver|].
    rewrite IH, elem_of_foldl_ids. set_solver. }
  rewrite Hgen. split; [set_solver|]. intros [rid Hg]. right. exists rid. split; [|done].
  apply elem_of_range_keys. unfold GetRoomGatewayIDs, GetRoom in Hg.
  destruct (rooms (roomSvc s) !! rid); [eauto|by apply not_elem_of_nil in Hg].
Qed.

(** The users of a request that have their session on gateway [g]. *)
Definition users_on s (g : string) (us : list string) : list string :=
  filter (λ u, s_GatewayID <$> GetSession u (sessionSvc s) = Some g) us.

Lemma group_by_gateway_lookup us s g :
  group_by_gateway us s !! g =
  if decide (users_on s g us = []) then None else Some (users_on s g us).
Proof.
  unfold group_by_gateway.
  assert (∀ acc : gmap string (list string),
    foldl (λ groups userID,
      match GetSession userID (sessionSvc s) with
      | Some session =>
        <[s_GatewayID session := default [] (groups !! s_GatewayID session) ++ [userID]]> groups
      | None => groups
      end) acc us !! g =
    if decide (users_on s g us = []) then acc !! g
    else Some (default [] (acc !! g) ++ users_on s g us)) as Hgen.
  { induction us as [|u us IH]; intros acc; [done|]. cbn [foldl]. rewrite IH.
    change (users_on s g (u :: us)) with
      (filter (λ u, s_GatewayID <$> GetSession u (sessionSvc s) = Some g) (u :: us)).
    rewrite filter_cons. fold (users_on s g us).
    destruct (GetSession u (sessionSvc s)) as [se|] eqn:Hse; cbn [fmap option_fmap option_map];
      [|rewrite (decide_False (P := None = Some g)) by done; done].
    destruct (decide (s_GatewayID se = g)) as [<-|Hne].
    - rewrite (decide_True (P := Some (s_GatewayID se) = Some (s_GatewayID se))) by done.
      rewrite lookup_insert_eq, (decide_False (P := u :: _ = [])) by done. simpl.
      case_decide as Hn; [by rewrite Hn|by rewrite <-app_assoc].
    - rewrite (decide_False (P := Some (s_GatewayID se) = Some g)) by congruence.
      by rewrite lookup_insert_ne. }
  rewrite Hgen, lookup_empty. by case_decide.
Qed.
End spec.

Lemma fst_fmap_pair {A B} (f : A → B) (l : list A) : ((λ x, (x, f x)) <$> l).*1 = l.
Proof. induction l; csimpl; congruence. Qed.

Section registered.
Context {SS : Type}.
Implicit Types (s : Server SS) (R : gset ConnRef).

Lemma streams_inv_exist R s : streams_inv R s → gateways_exist s.
Proof. intros (_ & Hopen & Htab) g conn [HR _]%Htab. destruct (Hopen conn HR) as (c & -> & _). eauto. Qed.

Lemma streams_inv_inj R s g g' conn :
  streams_inv R s → gateways s !! g = Some conn → gateways s !! g' = Some conn → g' = g.
Proof. intros (_ & _ & Htab) (_ & Hg & _)%Htab (_ & Hg' & _)%Htab. congruence. Qed.

(** One message for each gateway of a duplicate-free list: every registered
    stream gets its own and no other. *)
Lemma send_each_registered R s (ids : list string) (f : string → Envelope) :
  streams_inv R s → NoDup ids →
  ∃ s', send_each ((λ i, (i, f i)) <$> ids) s = Done s' ∧
    roomSvc s' = roomSvc s ∧ sessionSvc s' = sessionSvc s ∧ gateways s' = gateways s ∧
    ∀ g conn, gateways s !! g = Some conn →
      conns s' !! conn = deliver (if decide (g ∈ ids) then [f g] else []) <$> conns s !! conn.
Proof.
  intros Hinv Hnd. rewrite send_each_spec by (apply Hinv || by eapply streams_inv_exist).
  eexists. split; [done|]. split_and!; [done..|]. intros g conn Hg. simpl.
  rewrite lookup_delivered. erewrite msgs_for_ids; [done|done..|].
  intros g' Hg'. by eapply streams_inv_inj.
Qed.
End registered.

(** ** Properties *)
Section properties.
Context {SS : Type} `{SessionStoreLaws SS}.
Context `{JsonRequest UnicastRequest, JsonRequest MulticastRequest,
  JsonRequest RoomBroadcastRequest, JsonRequest GlobalBroadcastRequest,
  JsonRequest RoomCloseRequest}.
Context `{Msgpack UnicastMessage, Msgpack MulticastMessage, Msgpack BroadcastMessage,
  Msgpack RoomCloseNotify}.
Context `{MapOrder}.
Implicit Types (s : Server SS) (r : HttpRequest) (R : gset ConnRef).

(** A POST request that reaches a server in service. *)
Definition accepted r s : Prop := hr_Method r = "POST"%string ∧ status s = ServerStatusReady.

(** What was not answered with 200 changed nothing. *)
Definition refusal_harmless s (a : HttpResponse * Server SS) : Prop :=
  resp_code a.1 ≠ StatusOK → a.2 = s.

Lemma handlers_refuse_harmlessly path handler r s :
  (path, handler) ∈ routes → returns (refusal_harmless s) (handler r s).
Proof.
  intros Hin. unfold routes in Hin. repeat setoid_rewrite elem_of_cons in Hin.
  destruct_or! Hin; try (by apply not_elem_of_nil in Hin); injection Hin as _ ->;
    [unfold handleUnicastHTTP|unfold handleMulticastHTTP|unfold handleRoomBroadcastHTTP|
     unfold handleGlobalBroadcastHTTP|unfold handleRoomCloseHTTP];
    repeat case_match; cbv zeta; first [by apply returns_ret|
      apply (returns_bind (λ _, True)); [by intros ? _|intros s' _];
        apply returns_ret; intros Hne; by destruct Hne].
Qed.

(** Whatever path a request names: an unknown one is answered 404, a known
    one needs POST, a push needs a server that is not recovering; and a
    request that is not answered with 200 leaves the server as it was. *)
Theorem serveHTTP_refusals path r s :
  returns (λ a, refusal_harmless s a ∧
      (path ∉ routes.*1 → resp_code a.1 = StatusNotFound) ∧
      (path ∈ routes.*1 → hr_Method r ≠ "POST"%string →
         resp_code a.1 = StatusMethodNotAllowed) ∧
      (path ∈ routes.*1 → hr_Method r = "POST"%string → GetStatus s = ServerStatusRecovering →
         path ≠ "/api/v1/room/close"%string → resp_code a.1 = StatusServiceUnavailable))
    (serveHTTP path r s).
Proof.
  intros [resp s'] Hrun. unfold serveHTTP in Hrun.
  destruct (List.find _ routes) as [[path' handler]|] eqn:E.
  - apply List.find_some in E as [Hin Hp]. apply list_elem_of_In in Hin.
    apply bool_decide_eq_true in Hp. cbn in Hp. subst path'.
    split; [by eapply handlers_refuse_harmlessly|]. split.
    { intros []. apply list_elem_of_fmap. by eexists (_, _). }
    unfold routes in Hin. repeat setoid_rewrite elem_of_cons in Hin.
    destruct_or! Hin; try (by apply not_elem_of_nil in Hin); injection Hin as -> ->.
    all: split; [intros _ Hm|intros _ Hm Hrec Hne].
    all: unfold handleUnicastHTTP, handleMulticastHTTP, handleRoomBroadcastHTTP,
      handleGlobalBroadcastHTTP, handleRoomCloseHTTP in Hrun.
    all: first [rewrite decide_True in Hrun by done; by injection Hrun as <- _
      |rewrite decide_False, decide_True in Hrun by naive_solver; by injection Hrun as <- _
      |done].
  - injection Hrun as <- <-. split; [done|]. split; [done|].
    assert (path ∉ routes.*1) as Hno; [|by split; intros ?%Hno].
    intros ((path' & handler) & -> & Hin)%list_elem_of_fmap.
    eapply List.find_none in E; [|by apply list_elem_of_In].
    apply bool_decide_eq_false in E. by apply E.
Qed.

(** A unicast is answered 404 exactly when the user has no session or
    its gateway no stream; otherwise one message naming the user goes to
    the stream of the session's gateway, and to no other. *)
Theorem handleUnicastHTTP_spec R s r req :
  server_wf s → streams_inv R s → accepted r s → decode_request (hr_Body r) = Some req →
  ∃ resp s', handleUnicastHTTP r s = Done (resp, s') ∧
    match presence s !! ur_UserID req ≫= λ p, gateways s !! p_gateway p with
    | None => resp_code resp = StatusNotFound ∧ s' = s
    | Some conn => resp_code resp = StatusOK ∧
        ∃ c, conns s !! conn = Some c ∧
          conns s' = <[conn := deliver [mkEnvelope InternalMsgUnicast
            (Encode_ (mkUnicastMessage (ur_UserID req) (ur_Message req)))] c]> (conns s)
    end.
Proof.
  intros Hwf Hinv [Hpost Hready] Hreq. unfold handleUnicastHTTP, GetStatus, GetGatewayByID.
  rewrite Hready, Hreq, decide_False, decide_False by naive_solver.
  rewrite (presence_GetSession s) by apply Hwf.
  destruct (GetSession _ _) as [se|]; simpl; [|eauto].
  destruct (gateways s !! s_GatewayID se) as [conn|] eqn:Hg; [|eauto].
  destruct (streams_inv_exist R s Hinv _ _ Hg) as [c Hc].
  rewrite (sendToGateway_spec conn _ _ s c) by (done || by apply (proj1 Hinv conn)).
  simpl. eauto 10.
Qed.

(** C9. A multicast splits the users by the gateway of their session.  When
    the request is accepted, it is answered with OK and each registered
    gateway is offered one message on its stream, with exactly its users, in
    the order of the request; a gateway that has no user in the list is
    offered nothing, and users without a session are left out.  (An offer is
    lost when the queue of the stream is full or the stream has ended.) *)
Theorem handleMulticastHTTP_partition R s r req :
  streams_inv R s → accepted r s → decode_request (hr_Body r) = Some req →
  ∃ resp s', handleMulticastHTTP r s = Done (resp, s') ∧ resp_code resp = StatusOK ∧
    ∀ g conn, gateways s !! g = Some conn →
      let us := users_on s g (mr_UserIDs req) in
      conns s' !! conn = deliver (if decide (us = []) then [] else
        [mkEnvelope InternalMsgMulticast (Encode_
           (mkMulticastMessage (mr_RoomID req) us (mr_Message req)))]) <$> conns s !! conn.
Proof.
  intros Hinv [Hpost Hready] Hreq. unfold handleMulticastHTTP, GetStatus.
  rewrite Hready, Hreq, decide_False, decide_False by naive_solver.
  set (groups := group_by_gateway (mr_UserIDs req) s).
  set (f := λ g, mkEnvelope InternalMsgMulticast (Encode_
    (mkMulticastMessage (mr_RoomID req) (default [] (groups !! g)) (mr_Message req)))).
  assert ((λ '(gwID, userIDs), (gwID, mkEnvelope InternalMsgMulticast (Encode_
    (mkMulticastMessage (mr_RoomID req) userIDs (mr_Message req))))) <$> range_map groups =
    (λ i, (i, f i)) <$> range_keys groups) as ->.
  { unfold range_keys. rewrite <-list_fmap_compose. apply list_fmap_ext.
    intros i [g us] Hin%list_elem_of_lookup_2%elem_of_range_map. simpl. unfold f.
    by rewrite Hin. }
  destruct (send_each_registered R s (range_keys groups) f) as (s' & -> & _ & _ & _ & Hs');
    [done|apply NoDup_range_keys|].
  eexists _, s'. split; [done|]. split; [done|]. intros g conn Hg. rewrite (Hs' g conn Hg).
  do 2 f_equal. unfold f, groups. rewrite group_by_gateway_lookup.
  destruct (decide (users_on s g (mr_UserIDs req) = [])) as [Hn|Hn].
  - rewrite decide_False; [done|]. rewrite elem_of_range_keys, group_by_gateway_lookup.
    rewrite decide_True by done. by intros [].
  - rewrite decide_True; [done|]. apply elem_of_range_keys. rewrite group_by_gateway_lookup.
    rewrite decide_False by done. eauto.
Qed.

(** A room broadcast to an existing room puts one message with that
    room id on the stream of the gateway of every member, and leaves the
    streams of gateways the room does not know alone. *)
Theorem handleRoomBroadcastHTTP_reaches_members R s r req :
  server_wf s → streams_inv R s → accepted r s → decode_request (hr_Body r) = Some req →
  is_Some (rooms (roomSvc s) !! rbr_RoomID req) →
  let e := mkEnvelope InternalMsgBroadcast (Encode_
    (mkBroadcastMessage (rbr_RoomID req) 0 (rbr_Message req))) in
  ∃ resp s', handleRoomBroadcastHTTP r s = Done (resp, s') ∧ resp_code resp = StatusOK ∧
    (∀ u m conn c, member (roomSvc s) (rbr_RoomID req) u = Some m →
      gateways s !! rm_GatewayID m = Some conn → conns s !! conn = Some c →
      conns s' !! conn = Some (deliver [e] c)) ∧
    (∀ g conn, gateways s !! g = Some conn →
      g ∉ GetRoomGatewayIDs (rbr_RoomID req) (roomSvc s) →
      conns s' !! conn = conns s !! conn).
Proof.
  intros [_ Hwf] Hinv [Hpost Hready] Hreq [room Hroom] e.
  unfold handleRoomBroadcastHTTP, GetStatus.
  rewrite Hready, Hreq, decide_False, decide_False by naive_solver.
  unfold GetRoom at 1. rewrite Hroom.
  set (ids := GetRoomGatewayIDs (rbr_RoomID req) (roomSvc s)).
  assert (NoDup ids) as Hnd by apply NoDup_GetRoomGatewayIDs.
  assert (∀ u m, member (roomSvc s) (rbr_RoomID req) u = Some m → rm_GatewayID m ∈ ids) as Hin.
  { intros u m Hm. by eapply GetRoomGatewayIDs_member. }
  destruct (decide (length ids = 0%nat)) as [Hl|Hl].
  - apply nil_length_inv in Hl. rewrite Hl in Hin. eexists _, s. split; [done|].
    split_and!; [done| |done]. intros u m conn c Hm%Hin. by apply not_elem_of_nil in Hm.
  - destruct (send_each_registered R s ids (λ _, e)) as (s' & Hs & _ & _ & _ & Hs'); [done..|].
    unfold send_to_all. fold e. rewrite Hs. eexists _, s'. split; [done|].
    split_and!; [done|..].
    + intros u m conn c Hm Hg Hc. rewrite (Hs' _ _ Hg), Hc, decide_True by eauto. done.
    + intros g conn Hg Hnin. rewrite (Hs' _ _ Hg), decide_False by done.
      destruct (conns s !! conn); [|done]. simpl. by rewrite deliver_nil.
Qed.
End properties.

(** ** Concrete instances *)
Section examples.
Import ToyCodec.

(** Stand-ins for the JSON decoder: the whole body is the message. *)
#[local] Instance demo_unicast : JsonRequest UnicastRequest :=
  λ body, Some (mkUnicastRequest "r1" "u1" body).
#[local] Instance demo_multicast : JsonRequest MulticastRequest :=
  λ body, Some (mkMulticastRequest "r1" ["u1"; "u9"; "u2"]%string body).
#[local] Instance demo_room_broadcast : JsonRequest RoomBroadcastRequest :=
  λ body, Some (mkRoomBroadcastRequest "r1" body).
#[local] Existing Instance default_order.

Definition demo_post : HttpRequest := mkHttpRequest "POST" [Byte.x01].

(** The server of the stream examples, in service, with two users of
    gateway "g1" in "r1". *)
Definition demo_push : Server SessionService :=
  set_status ServerStatusReady (foldl run_ctl demo_stream_server
    [CtlJoin "u1" "r1" "g1" 1; CtlJoin "u2" "r1" "g1" 2]).

Lemma demo_push_inv : streams_inv {[0%nat]} demo_push.
Proof. apply (streams_inv_same _ demo_stream_server); [done..|apply demo_stream_inv]. Qed.

Lemma demo_push_wf : server_wf (H0 := SessionService_laws) demo_push.
Proof.
  apply (server_wf_status (H0 := SessionService_laws)). cbn [foldl run_ctl].
  do 2 apply (JoinRoom_wf (H0 := SessionService_laws)).
  split; [apply NewSessionService_wf|apply NewRoomService_wf].
Qed.

#[local] Instance demo_global_request : JsonRequest GlobalBroadcastRequest :=
  λ body, Some (mkGlobalBroadcastRequest body).
#[local] Instance demo_close_request : JsonRequest RoomCloseRequest :=
  λ _, Some (mkRoomCloseRequest "r1" "").

Example serve_unknown :
  serveHTTP "/api/v2/push/unicast" demo_post demo_push =
    Done (http_Error "404 page not found" StatusNotFound, demo_push).
Proof. reflexivity. Qed.

Lemma handleUnicastHTTP_spec_witness :
  let req := mkUnicastRequest "r1" "u1" [Byte.x01] in
  ∃ resp s', handleUnicastHTTP demo_post demo_push = Done (resp, s') ∧
    match presence demo_push !! ur_UserID req ≫= λ p, gateways demo_push !! p_gateway p with
    | None => resp_code resp = StatusNotFound ∧ s' = demo_push
    | Some conn => resp_code resp = StatusOK ∧
        ∃ c, conns demo_push !! conn = Some c ∧
          conns s' = <[conn := deliver [mkEnvelope InternalMsgUnicast
            (Encode_ (mkUnicastMessage (ur_UserID req) (ur_Message req)))] c]> (conns demo_push)
    end.
Proof.
  apply (handleUnicastHTTP_spec (H0 := SessionService_laws) {[0%nat]} demo_push demo_post);
    [apply demo_push_wf|apply demo_push_inv|by split|done].
Defined.

Lemma handleMulticastHTTP_partition_witness :
  ∃ resp s', handleMulticastHTTP demo_post demo_push = Done (resp, s') ∧
    resp_code resp = StatusOK ∧
    ∀ g conn, gateways demo_push !! g = Some conn →
      let us := users_on demo_push g ["u1"; "u9"; "u2"]%string in
      conns s' !! conn = deliver (if decide (us = []) then [] else
        [mkEnvelope InternalMsgMulticast (Encode_
           (mkMulticastMessage "r1" us [Byte.x01]))]) <$> conns demo_push !! conn.
Proof.
  apply (handleMulticastHTTP_partition {[0%nat]} demo_push demo_post
    (mkMulticastRequest "r1" ["u1"; "u9"; "u2"]%string [Byte.x01]));
    [apply demo_push_inv|by split|done].
Defined.

Lemma handleRoomBroadcastHTTP_reaches_members_witness :
  let e := mkEnvelope InternalMsgBroadcast
    (Encode_ (mkBroadcastMessage "r1" 0 [Byte.x01])) in
  ∃ resp s', handleRoomBroadcastHTTP demo_post demo_push = Done (resp, s') ∧
    resp_code resp = StatusOK ∧
    (∀ u m conn c, member (roomSvc demo_push) "r1" u = Some m →
      gateways demo_push !! rm_GatewayID m = Some conn → conns demo_push !! conn = Some c →
      conns s' !! conn = Some (deliver [e] c)) ∧
    (∀ g conn, gateways demo_push !! g = Some conn →
      g ∉ GetRoomGatewayIDs "r1" (roomSvc demo_push) →
      conns s' !! conn = conns demo_push !! conn).
Proof.
  apply (handleRoomBroadcastHTTP_reaches_members (H0 := SessionService_laws) {[0%nat]}
    demo_push demo_post (mkRoomBroadcastRequest "r1" [Byte.x01]));
    [apply demo_push_wf|apply demo_push_inv|by split|done|].
  vm_compute. by eexists.
Defined.
End examples.
