(* ===== verification/Connection.v ===== *)
(** [internal/gateway/connection.go]: the part of a client connection that
    does not involve the server: its bounded send queue with the health
    counters, the batching write loop, and the packing of messages.
    Closing and the dispatch of received frames are in Gateway.v and
    GatewayHandler.v.

    Queue usage is a float64 in the code: the model uses the IEEE binary64
    operations of the Standard Library's [SpecFloat]. *)

From Stdlib Require Import ZArith Lia SpecFloat.
From stdpp Require Import base tactics gmap strings numbers list.
From S2P Require Import Prelude GoInt Protocol Frame Chan.

Local Open Scope Z_scope.

(** ** float64 *)
Abbreviation float64 := spec_float.

Definition f64_of_Z (n : Z) : float64 := binary_normalize 53 1024 n 0 false.
Definition f64_div (a b : float64) : float64 := SFdiv 53 1024 a b.
(** [a >= b]; false when one of them is NaN. *)
Definition f64_ge (a b : float64) : bool := SFleb b a.
(** The constant [n/d]: the division of two exact floats rounds correctly,
    as the compiler does. *)
Definition f64_const (n d : Z) : float64 := f64_div (f64_of_Z n) (f64_of_Z d).

(** ** Data *)
Record ConnHealth := mkConnHealth {
  QueueFullSince : gotime;
  DropCount : Z;
  ConsecutiveDrops : Z;
  WriteTimeoutCount : Z;
  ConsecutiveWriteTimeouts : Z;
  LastWriteTime : gotime;
}.

(** The fields used of [config.ConnectionConfig] and
    [config.ProtectionConfig]. *)
Record ConnectionConfig := mkConnectionConfig {
  SendChSize : nat;
  BatchMaxSize : nat;
}.
Record ProtectionConfig := mkProtectionConfig {
  QueueWarningRatio : float64;
  QueueSevereRatio : float64;
  QueueCriticalRatio : float64;
  QueueFullTimeout : Z;
  MaxConsecutiveDrops : Z;
  MaxConsecutiveWriteTimeouts : Z;
}.

(** What [ws.WriteMessage] answers; [isTimeout] tells the errors apart. *)
Inductive WriteResult := WriteOk | WriteTimeout | WriteFailed.

(** A client connection.  [c_distributor] is the index of its distributor;
    [c_wire] records the calls of [ws.WriteMessage], the message with the
    answer.  The pointer
    to the configuration and to the server are arguments of the operations. *)
Record Connection := mkConnection {
  c_UserID : string;
  c_ConnID : string;
  c_sendCh : chan (list byte);
  c_JoinState : JoinState;
  c_RoomID : string;
  c_health : ConnHealth;
  c_distributor : option nat;
  c_closeOnce : bool;                (* the sync.Once has run *)
  c_closeCh : bool;                  (* closeCh is closed *)
  c_wire : list (WriteResult * list byte);
}.

Definition set_c_sendCh ch (c : Connection) : Connection :=
  mkConnection (c_UserID c) (c_ConnID c) ch (c_JoinState c) (c_RoomID c) (c_health c)
    (c_distributor c) (c_closeOnce c) (c_closeCh c) (c_wire c).
Definition set_c_join js rid (c : Connection) : Connection :=
  mkConnection (c_UserID c) (c_ConnID c) (c_sendCh c) js rid (c_health c)
    (c_distributor c) (c_closeOnce c) (c_closeCh c) (c_wire c).
Definition set_c_health h (c : Connection) : Connection :=
  mkConnection (c_UserID c) (c_ConnID c) (c_sendCh c) (c_JoinState c) (c_RoomID c) h
    (c_distributor c) (c_closeOnce c) (c_closeCh c) (c_wire c).
Definition set_c_distributor d (c : Connection) : Connection :=
  mkConnection (c_UserID c) (c_ConnID c) (c_sendCh c) (c_JoinState c) (c_RoomID c) (c_health c)
    d (c_closeOnce c) (c_closeCh c) (c_wire c).
Definition set_c_closed (c : Connection) : Connection :=
  mkConnection (c_UserID c) (c_ConnID c) (c_sendCh c) (c_JoinState c) (c_RoomID c) (c_health c)
    (c_distributor c) true true (c_wire c).
Definition set_c_wire w (c : Connection) : Connection :=
  mkConnection (c_UserID c) (c_ConnID c) (c_sendCh c) (c_JoinState c) (c_RoomID c) (c_health c)
    (c_distributor c) (c_closeOnce c) (c_closeCh c) w.

Definition NewConnection (userID connID : string) (cfg : ConnectionConfig) : Connection :=
  mkConnection userID connID (make_chan (SendChSize cfg)) JoinStateInit ""
    (mkConnHealth None 0 0 0 0 None) None false false [].

(** ** Sending *)

(** One more drop, counted by [Send] and by the distributors. *)
Definition count_drop (h : ConnHealth) : ConnHealth :=
  mkConnHealth (QueueFullSince h) (DropCount h + 1) (ConsecutiveDrops h + 1)
    (WriteTimeoutCount h) (ConsecutiveWriteTimeouts h) (LastWriteTime h).

Definition Send (data : list byte) (now : Z) (c : Connection) : bool * Connection :=
  if decide (length (ch_buf (c_sendCh c)) < ch_cap (c_sendCh c))%nat then
    let h := c_health c in
    (true, set_c_health
      (mkConnHealth None (DropCount h) 0 (WriteTimeoutCount h)
         (ConsecutiveWriteTimeouts h) (LastWriteTime h))
      (set_c_sendCh (sent data (c_sendCh c)) c))
  else
    let h := count_drop (c_health c) in
    let h := if is_zero_time (QueueFullSince h) then
               mkConnHealth (Some now) (DropCount h) (ConsecutiveDrops h)
                 (WriteTimeoutCount h) (ConsecutiveWriteTimeouts h) (LastWriteTime h)
             else h in
    (false, set_c_health h c).

Definition QueueUsage (c : Connection) : float64 :=
  f64_div (f64_of_Z (Z.of_nat (length (ch_buf (c_sendCh c)))))
          (f64_of_Z (Z.of_nat (ch_cap (c_sendCh c)))).

(** ** Packing *)

(** [result = append(result, m...)] for each message. *)
Definition packMessages (messages : list (list byte)) : list byte :=
  foldl (λ result m, result ++ m) [] messages.

(** ** The write loop *)

Definition isTimeout (r : WriteResult) : bool :=
  match r with WriteTimeout => true | _ => false end.

Definition ws_write (r : WriteResult) (packed : list byte) (c : Connection) : Connection :=
  set_c_wire (c_wire c ++ [(r, packed)]) c.

Definition flushBatch (batch : list (list byte)) (r : WriteResult) (c : Connection) : Connection :=
  if decide (length batch = 0%nat) then c else ws_write r (packMessages batch) c.

(** The flag of the code, and the reason it calls [c.Close] with, if any. *)
Definition flushBatchWithTimeout (maxTimeouts : Z) (batch : list (list byte))
    (r : WriteResult) (now : Z) (c : Connection) : bool * option string * Connection :=
  if decide (length batch = 0%nat) then (true, None, c) else
  let c := ws_write r (packMessages batch) c in
  let h := c_health c in
  match r with
  | WriteOk =>
    (true, None, set_c_health (mkConnHealth (QueueFullSince h) (DropCount h)
       (ConsecutiveDrops h) (WriteTimeoutCount h) 0 (Some now)) c)
  | _ =>
    if isTimeout r then
      let h := mkConnHealth (QueueFullSince h) (DropCount h) (ConsecutiveDrops h)
                 (WriteTimeoutCount h + 1) (ConsecutiveWriteTimeouts h + 1) (LastWriteTime h) in
      let c := set_c_health h c in
      if maxTimeouts <=? ConsecutiveWriteTimeouts h
      then (false, Some "write_timeout_exceeded"%string, c)
      else (true, None, c)
    else (false, Some "write_error"%string, c)
  end.

(** The branch of the [select] that is taken. *)
Inductive WriteEvent := OnClose | OnMessage | OnTick.

(** The local state of the loop: the batch; whether it still runs; the
    reason of the [Close] it made. *)
Record WriteLoop := mkWriteLoop {
  wl_conn : Connection;
  wl_batch : list (list byte);
  wl_running : bool;
  wl_close : option string;
}.

(** [flushBatchWithTimeout] inside the loop: return, or empty the batch. *)
Definition writeLoop_flush (maxTimeouts : Z) (r : WriteResult) (now : Z)
    (batch : list (list byte)) (c : Connection) : WriteLoop :=
  let '(ok, close, c) := flushBatchWithTimeout maxTimeouts batch r now c in
  if ok then mkWriteLoop c [] true close else mkWriteLoop c batch false close.

(** One iteration; [None] when the branch is not ready.  [sendCh] is never
    closed, so its [!ok] case does not arise. *)
Definition writeLoop_step (batchMax : nat) (maxTimeouts : Z) (ev : WriteEvent)
    (r : WriteResult) (now : Z) (w : WriteLoop) : option WriteLoop :=
  let c := wl_conn w in
  match ev with
  | OnClose =>
    if c_closeCh c then Some (mkWriteLoop (flushBatch (wl_batch w) r c) (wl_batch w) false None)
    else None
  | OnMessage =>
    match recv (c_sendCh c) with
    | Some (Some msg, ch) =>
      let c := set_c_sendCh ch c in
      let batch := wl_batch w ++ [msg] in
      if (batchMax <=? length batch)%nat
      then Some (writeLoop_flush maxTimeouts r now batch c)
      else Some (mkWriteLoop c batch true None)
    | Some (None, _) => Some (mkWriteLoop (flushBatch (wl_batch w) r c) (wl_batch w) false None)
    | None => None
    end
  | OnTick =>
    if (0 <? length (wl_batch w))%nat
    then Some (writeLoop_flush maxTimeouts r now (wl_batch w) c)
    else Some w
  end.

Definition msgTypeName (msgType : Z) : string :=
  if msgType =? MsgTypeAuth then "auth"
  else if msgType =? MsgTypeJoinRoom then "join_room"
  else if msgType =? MsgTypeLeaveRoom then "leave_room"
  else if msgType =? MsgTypeResume then "resume"
  else if msgType =? MsgTypeHeartbeat then "heartbeat"
  else if msgType =? MsgTypeBizRequest then "biz_request"
  else "unknown".

(** ** Lemmas *)
Lemma packMessages_concat ms : packMessages ms = concat ms.
Proof.
  unfold packMessages. assert (∀ acc, foldl (λ result m, result ++ m) acc ms = acc ++ concat ms)
    as Hgen; [|by rewrite Hgen].
  induction ms as [|m ms IH]; intros acc; simpl; [by rewrite app_nil_r|].
  by rewrite IH, app_assoc.
Qed.

(** A connection as [NewConnection] makes it and the operations keep it. *)
Definition queue_ok (c : Connection) : Prop :=
  chan_ok (c_sendCh c) ∧ ch_closed (c_sendCh c) = false.

Lemma NewConnection_ok u id cfg : queue_ok (NewConnection u id cfg).
Proof. split; [unfold chan_ok; simpl; lia|done]. Qed.

Lemma Send_ok data now c : queue_ok c → queue_ok (Send data now c).2.
Proof.
  intros [Hok Hcl]. unfold Send. case_decide; simpl; [|done]. split; simpl.
  - by apply sent_ok.
  - by rewrite sent_closed.
Qed.

Lemma Send_frame data now c :
  let c' := (Send data now c).2 in
  c_UserID c' = c_UserID c ∧ c_JoinState c' = c_JoinState c ∧ c_RoomID c' = c_RoomID c ∧
  c_distributor c' = c_distributor c ∧ c_closeOnce c' = c_closeOnce c ∧
  c_closeCh c' = c_closeCh c ∧ c_wire c' = c_wire c.
Proof. unfold Send. by case_decide. Qed.

(** A connection that is offered a message takes it when its queue has a
    free slot, and otherwise counts it as dropped. *)
Definition offered (data : list byte) (c c' : Connection) : Prop :=
  if decide (length (ch_buf (c_sendCh c)) < ch_cap (c_sendCh c))%nat
  then ch_buf (c_sendCh c') = ch_buf (c_sendCh c) ++ [data]
  else ch_buf (c_sendCh c') = ch_buf (c_sendCh c) ∧
       DropCount (c_health c') = DropCount (c_health c) + 1.

Lemma Send_offered data now c : offered data c (Send data now c).2.
Proof.
  unfold offered, Send. case_decide as Hr; cbn; [unfold sent; by rewrite decide_True|].
  split; [done|]. by case_match.
Qed.

(** What happens to a queue between the two sides. *)
Inductive QueueOp :=
  | QSend (data : list byte) (now : Z)
  | QTake.                                   (* the write loop receives *)

(** The connection, the accepted messages, the refused ones, the taken ones,
    and the run of refusals that is going on. *)
Record QueueLog := mkQueueLog {
  ql_conn : Connection;
  ql_accepted : list (list byte);
  ql_refused : list (list byte);
  ql_taken : list (list byte);
  ql_run : list (list byte * Z);             (* refused since the last accepted *)
}.

Definition run_queue (q : QueueLog) (op : QueueOp) : QueueLog :=
  let c := ql_conn q in
  match op with
  | QSend data now =>
    match Send data now c with
    | (true, c) => mkQueueLog c (ql_accepted q ++ [data]) (ql_refused q) (ql_taken q) []
    | (false, c) => mkQueueLog c (ql_accepted q) (ql_refused q ++ [data]) (ql_taken q)
                      (ql_run q ++ [(data, now)])
    end
  | QTake =>
    match ch_buf (c_sendCh c) with
    | m :: buf =>
      mkQueueLog (set_c_sendCh (mkChan buf (ch_cap (c_sendCh c)) (ch_closed (c_sendCh c))) c)
        (ql_accepted q) (ql_refused q) (ql_taken q ++ [m]) (ql_run q)
    | [] => q
    end
  end.

Definition queue_inv (n : nat) (q : QueueLog) : Prop :=
  let c := ql_conn q in
  queue_ok c ∧ ch_cap (c_sendCh c) = n ∧
  ql_accepted q = ql_taken q ++ ch_buf (c_sendCh c) ∧
  DropCount (c_health c) = Z.of_nat (length (ql_refused q)) ∧
  ConsecutiveDrops (c_health c) = Z.of_nat (length (ql_run q)) ∧
  QueueFullSince (c_health c) = snd <$> head (ql_run q).

Lemma run_queue_inv n q op : queue_inv n q → queue_inv n (run_queue q op).
Proof.
  destruct q as [c acc ref taken run]. intros (Hok & Hcap & Hacc & Hd & Hcd & Hfs).
  cbn [ql_conn ql_accepted ql_refused ql_taken ql_run] in *.
  destruct op as [data now|]; unfold run_queue; cbn [ql_conn ql_accepted ql_refused ql_taken ql_run].
  - pose proof (Send_ok data now c Hok) as Hok'. unfold Send in *.
    case_decide as Hlt; (split_and!; [done|..]); cbn in *.
    + by rewrite sent_cap.
    + unfold sent. rewrite decide_True by done. cbn. by rewrite Hacc, app_assoc.
    + done.
    + done.
    + done.
    + by destruct (is_zero_time _).
    + by destruct (is_zero_time _).
    + rewrite length_app. simpl. destruct (is_zero_time _); cbn; lia.
    + rewrite length_app. simpl. destruct (is_zero_time _); cbn; lia.
    + rewrite Hfs. destruct run as [|[? ?] run]; done.
  - destruct (ch_buf (c_sendCh c)) as [|m buf] eqn:E.
    + split_and!; try done. cbn. by rewrite E.
    + split_and!; try done; cbn.
      * destruct Hok as [Hok Hcl]. split; [|done]. unfold chan_ok in *. cbn.
        rewrite E in Hok. simpl in Hok. lia.
      * by rewrite Hacc, <-app_assoc.
Qed.

(** ** Runs of the write loop, with senders in between *)
#[export] Instance WriteResult_eq_dec : EqDecision WriteResult.
Proof. solve_decision. Defined.

Inductive LoopEvent :=
  | LSend (data : list byte) (now : Z)
  | LCloseCh                                              (* another goroutine closes closeCh *)
  | LStep (ev : WriteEvent) (r : WriteResult) (now : Z).

Section write_loop.
Context (batchMax : nat) (maxTimeouts : Z).

(** The loop and the messages [Send] has accepted; [None]: not a possible
    step. *)
Definition run_loop (wa : WriteLoop * list (list byte)) (e : LoopEvent) :
    option (WriteLoop * list (list byte)) :=
  let '(w, accepted) := wa in
  match e with
  | LSend data now =>
    let '(ok, c) := Send data now (wl_conn w) in
    Some (mkWriteLoop c (wl_batch w) (wl_running w) (wl_close w),
          if ok then accepted ++ [data] else accepted)
  | LCloseCh => Some (mkWriteLoop (set_c_closed (wl_conn w)) (wl_batch w) (wl_running w)
                        (wl_close w), accepted)
  | LStep ev r now =>
    if wl_running w then w ← writeLoop_step batchMax maxTimeouts ev r now w; Some (w, accepted)
    else None
  end.

Fixpoint run_loops wa (es : list LoopEvent) : option (WriteLoop * list (list byte)) :=
  match es with
  | [] => Some wa
  | e :: es => wa ← run_loop wa e; run_loops wa es
  end.

Definition pending (w : WriteLoop) : list (list byte) :=
  (if wl_running w then wl_batch w else []) ++ ch_buf (c_sendCh (wl_conn w)).

(** The calls of [ws.WriteMessage] for these batches. *)
Definition written (bs : list (WriteResult * list (list byte))) : list (WriteResult * list byte) :=
  (λ b, (b.1, packMessages b.2)) <$> bs.

(** [bs] are the batches handed to the socket so far. *)
Definition loop_inv (w : WriteLoop) (accepted : list (list byte)) bs : Prop :=
  queue_ok (wl_conn w) ∧
  accepted = concat bs.*2 ++ pending w ∧
  c_wire (wl_conn w) = written bs ∧
  Forall (λ b, 1 ≤ length b.2 ≤ batchMax)%nat bs ∧
  (wl_running w → length (wl_batch w) < batchMax)%nat.

Lemma written_snoc bs r b : written (bs ++ [(r, b)]) = written bs ++ [(r, packMessages b)].
Proof. unfold written. by rewrite fmap_app. Qed.

Lemma ws_write_sendCh r packed c : c_sendCh (ws_write r packed c) = c_sendCh c.
Proof. by destruct r. Qed.

(** A flush hands its batch over, whatever becomes of it. *)
Lemma flush_effect batch r now c :
  batch ≠ [] →
  let w := writeLoop_flush maxTimeouts r now batch c in
  c_sendCh (wl_conn w) = c_sendCh c ∧
  c_wire (wl_conn w) = c_wire c ++ [(r, packMessages batch)] ∧
  (wl_running w → wl_batch w = []).
Proof.
  intros Hne. unfold writeLoop_flush, flushBatchWithTimeout.
  rewrite decide_False by (by intros ?%nil_length_inv).
  destruct r; simpl; repeat case_match; naive_solver.
Qed.

Lemma loop_inv_flush w accepted bs r now batch c :
  queue_ok c → accepted = concat bs.*2 ++ batch ++ ch_buf (c_sendCh c) →
  c_wire c = written bs → Forall (λ b, 1 ≤ length b.2 ≤ batchMax)%nat bs →
  (1 ≤ length batch ≤ batchMax)%nat →
  w = writeLoop_flush maxTimeouts r now batch c →
  loop_inv w accepted (bs ++ [(r, batch)]).
Proof.
  intros Hok Hacc Hw Hbs Hlen ->.
  assert (batch ≠ []) as Hne by (intros ->; simpl in Hlen; lia).
  destruct (flush_effect batch r now c Hne) as (Hch & Hwire & Hb).
  split_and!.
  - unfold queue_ok. by rewrite Hch.
  - unfold pending. rewrite Hch, fmap_app, concat_app. simpl. rewrite app_nil_r.
    destruct (wl_running _); [rewrite Hb by done|]; by rewrite Hacc, <-app_assoc.
  - by rewrite Hwire, written_snoc, Hw.
  - apply Forall_app; split; [done|]. by apply Forall_singleton.
  - intros Hr. rewrite Hb by done. simpl. lia.
Qed.

Lemma loop_inv_exit accepted bs r w close :
  loop_inv w accepted bs → wl_running w = true →
  ∃ bs', loop_inv (mkWriteLoop (flushBatch (wl_batch w) r (wl_conn w)) (wl_batch w) false close)
           accepted bs'.
Proof.
  intros (Hok & Hacc & Hw & Hbs & Hlt) Hr. unfold pending in Hacc. rewrite Hr in *.
  specialize (Hlt I). unfold flushBatch. destruct (decide (length (wl_batch w) = 0%nat)) as [Hl|Hl].
  - exists bs. apply nil_length_inv in Hl. split_and!; simpl; try done.
    unfold pending. simpl. by rewrite Hacc, Hl.
  - exists (bs ++ [(r, wl_batch w)]). unfold loop_inv, pending.
    split_and!; cbn [wl_conn wl_batch wl_running].
    + unfold queue_ok. by rewrite ws_write_sendCh.
    + rewrite ws_write_sendCh, fmap_app, concat_app. simpl.
      by rewrite Hacc, app_nil_r, <-app_assoc.
    + cbn. by rewrite written_snoc, Hw.
    + apply Forall_app; split; [done|]. apply Forall_singleton. simpl. lia.
    + done.
Qed.

Lemma run_loop_inv w accepted bs e w' accepted' :
  (1 ≤ batchMax)%nat → loop_inv w accepted bs →
  run_loop (w, accepted) e = Some (w', accepted') →
  ∃ bs', loop_inv w' accepted' bs'.
Proof.
  intros Hmax Hinv. pose proof Hinv as (Hok & Hacc & Hw & Hbs & Hlt).
  destruct e as [data now| |ev r now]; cbn [run_loop].
  - pose proof (Send_ok data now (wl_conn w) Hok) as Hok'.
    pose proof (Send_frame data now (wl_conn w)) as (_ & _ & _ & _ & _ & _ & Hw').
    unfold Send in *. case_decide as Hl; intros [= <- <-]; exists bs; cbn in *;
      (split_and!; [done| |by rewrite ?Hw'|done|done]).
    + unfold pending, sent in *. cbn. rewrite decide_True by done. cbn. rewrite Hacc.
      by rewrite <-!app_assoc.
    + done.
  - intros [= <- <-]. by exists bs.
  - destruct (wl_running w) eqn:Hr; [|done]. intros Hs.
    apply bind_Some in Hs as (w1 & Hs & [= -> ->]).
    unfold pending in Hacc. rewrite Hr in *. specialize (Hlt I).
    destruct ev; simpl in Hs.
    + case_match; [|done]. simplify_eq. by eapply loop_inv_exit.
    + unfold recv in Hs. destruct (ch_buf (c_sendCh (wl_conn w))) as [|m buf] eqn:E.
      { destruct Hok as [_ Hcl]. by rewrite Hcl in Hs. }
      set (c := set_c_sendCh _ _) in Hs.
      assert (queue_ok c) as Hok1.
      { destruct Hok as [Hok Hcl]. split; [|done]. unfold chan_ok in *. simpl.
        rewrite E in Hok. simpl in Hok. lia. }
      assert (length (wl_batch w ++ [m]) = S (length (wl_batch w))) as Hlen
        by (rewrite length_app; simpl; lia).
      assert (accepted' = concat bs.*2 ++ (wl_batch w ++ [m]) ++ ch_buf (c_sendCh c)) as Hacc1
        by (by rewrite Hacc, <-app_assoc).
      destruct (batchMax <=? length (wl_batch w ++ [m]))%nat eqn:Hb; injection Hs as <-.
      * exists (bs ++ [(r, wl_batch w ++ [m])]). eapply loop_inv_flush; [..|done]; try done.
        lia.
      * exists bs. apply Nat.leb_gt in Hb. split_and!; done.
    + destruct (0 <? length (wl_batch w))%nat eqn:Hl; simplify_eq.
      * apply Nat.ltb_lt in Hl. exists (bs ++ [(r, wl_batch w)]).
        eapply loop_inv_flush; [..|done]; try done. lia.
      * exists bs. split_and!; try done. by unfold pending; rewrite Hr.
Qed.

Lemma run_loops_inv w accepted bs es w' accepted' :
  (1 ≤ batchMax)%nat → loop_inv w accepted bs →
  run_loops (w, accepted) es = Some (w', accepted') →
  ∃ bs', loop_inv w' accepted' bs'.
Proof.
  intros Hmax. revert w accepted bs. induction es as [|e es IH]; intros w accepted bs Hinv.
  - intros [= <- <-]. eauto.
  - cbn [run_loops]. intros ([w1 acc1] & H1 & Hes)%bind_Some.
    destruct (run_loop_inv _ _ _ _ _ _ Hmax Hinv H1) as [bs1 Hinv1]. by eapply IH.
Qed.
End write_loop.

(** ** Properties *)

(** C29. The send queue of a client: whatever is sent and received in
    whatever order, it holds at most its capacity, the client gets the
    accepted messages in order and without gaps, [DropCount] counts exactly
    the refused ones, [ConsecutiveDrops] those since the last acceptance, and
    [QueueFullSince] is the time of the first of these. *)
Theorem Send_queue_history cfg u id ops :
  let q := foldl run_queue (mkQueueLog (NewConnection u id cfg) [] [] [] []) ops in
  let c := ql_conn q in
  (length (ch_buf (c_sendCh c)) ≤ SendChSize cfg)%nat ∧
  ql_accepted q = ql_taken q ++ ch_buf (c_sendCh c) ∧
  DropCount (c_health c) = Z.of_nat (length (ql_refused q)) ∧
  ConsecutiveDrops (c_health c) = Z.of_nat (length (ql_run q)) ∧
  QueueFullSince (c_health c) = snd <$> head (ql_run q).
Proof.
  assert (queue_inv (SendChSize cfg)
    (foldl run_queue (mkQueueLog (NewConnection u id cfg) [] [] [] []) ops)) as Hinv.
  { set (q0 := mkQueueLog _ _ _ _ _).
    assert (queue_inv (SendChSize cfg) q0) as H0 by (split_and!; try done; apply NewConnection_ok).
    generalize dependent q0. induction ops as [|op ops IH]; intros q0 H0; [done|].
    apply IH. by apply run_queue_inv. }
  destruct Hinv as ((Hok & _) & Hcap & Hacc & Hd & Hcd & Hfs). intros q c.
  split_and!; try done. unfold chan_ok in Hok. by rewrite Hcap in Hok.
Qed.

(** C30. The write loop neither loses, reorders nor duplicates.  [c_wire]
    lists the calls of [ws.WriteMessage] that the loop has made, with their
    answers; at any time these calls are one per batch, each with the
    messages of its batch packed into one, each batch holds between one
    message and the configured maximum, and the accepted messages are the
    batches in order, then the batch being filled, then the queue.  (The
    code does not repeat a write that failed: the messages of such a batch
    are handed over once and never reach the client.) *)
Theorem writeLoop_stream cfg u id maxTimeouts es w accepted :
  (1 ≤ BatchMaxSize cfg)%nat →
  run_loops (BatchMaxSize cfg) maxTimeouts
    (mkWriteLoop (NewConnection u id cfg) [] true None, []) es = Some (w, accepted) →
  ∃ bs : list (WriteResult * list (list byte)),
    accepted = concat bs.*2 ++ (if wl_running w then wl_batch w else []) ++
               ch_buf (c_sendCh (wl_conn w)) ∧
    c_wire (wl_conn w) = (λ b, (b.1, packMessages b.2)) <$> bs ∧
    Forall (λ b, 1 ≤ length b.2 ≤ BatchMaxSize cfg)%nat bs.
Proof.
  intros Hmax Hrun.
  assert (loop_inv (BatchMaxSize cfg) (mkWriteLoop (NewConnection u id cfg) [] true None) [] [])
    as Hinv.
  { split_and!; [apply NewConnection_ok|done|done|constructor|simpl; lia]. }
  destruct (run_loops_inv _ _ _ _ _ _ _ _ Hmax Hinv Hrun) as (bs & _ & Hacc & Hw & Hbs & _).
  by exists bs.
Qed.

Definition demo_conn_cfg : ConnectionConfig := mkConnectionConfig 4 2.

Lemma writeLoop_stream_witness :
  let w0 := mkWriteLoop (NewConnection "u1" "c1" demo_conn_cfg) [] true None in
  let es := [LSend [Byte.x01] 1; LSend [Byte.x02] 2; LSend [Byte.x03] 3;
             LStep OnMessage WriteOk 4; LStep OnMessage WriteOk 5; LStep OnMessage WriteOk 6] in
  ∃ w accepted, run_loops 2 10 (w0, []) es = Some (w, accepted) ∧
    c_wire (wl_conn w) = [(WriteOk, [Byte.x01; Byte.x02])] ∧
    ∃ bs : list (WriteResult * list (list byte)),
      accepted = concat bs.*2 ++ (if wl_running w then wl_batch w else []) ++
                 ch_buf (c_sendCh (wl_conn w)) ∧
      c_wire (wl_conn w) = (λ b, (b.1, packMessages b.2)) <$> bs ∧
      Forall (λ b, 1 ≤ length b.2 ≤ 2)%nat bs.
Proof.
  eexists _, _. split; [vm_compute; reflexivity|]. split; [reflexivity|].
  eapply (writeLoop_stream demo_conn_cfg "u1" "c1" 10
    [LSend [Byte.x01] 1; LSend [Byte.x02] 2; LSend [Byte.x03] 3;
     LStep OnMessage WriteOk 4; LStep OnMessage WriteOk 5; LStep OnMessage WriteOk 6]);
    [simpl; lia|vm_compute; reflexivity].
Defined.

(** A WebSocket message of several frames is the frames one after the
    other: a client that reads frames until the end gets all of them, one
    that decodes a single frame per WebSocket message gets the first and
    never sees the others. *)
Theorem packed_batch_decoding f fs :
  Forall frame_ok (f :: fs) →
  let packed := packMessages (EncodeFrame <$> f :: fs) in
  ReadFrames (S (length (f :: fs))) (mkReader packed EOF) = (f :: fs, ErrRead EOF) ∧
  DecodeFrame packed = Done (Ok f).
Proof.
  intros Hok packed. unfold packed. rewrite packMessages_concat. split.
  - apply ReadFrames_all; [done|lia].
  - rewrite Forall_cons in Hok. destruct Hok as [Hf _]. cbn [fmap list_fmap concat].
    by apply DecodeFrame_app.
Qed.

Lemma packed_batch_decoding_witness :
  let f1 := mkFrame MsgTypePushMessage 1 [Byte.x0a] in
  let f2 := mkFrame MsgTypePushMessage 2 [] in
  let packed := packMessages (EncodeFrame <$> [f1; f2]) in
  ReadFrames 3 (mkReader packed EOF) = ([f1; f2], ErrRead EOF) ∧ DecodeFrame packed = Done (Ok f1).
Proof.
  apply (packed_batch_decoding (mkFrame MsgTypePushMessage 1 [Byte.x0a])
    [mkFrame MsgTypePushMessage 2 []]).
  repeat constructor; by vm_compute.
Defined.

(** Consecutive write timeouts: the connection is closed by the write
    loop exactly at the configured number of timeouts in a row, and not
    before, however many messages are in the batches. *)
Theorem write_timeouts_close k batch now c :
  batch ≠ [] → ConsecutiveWriteTimeouts (c_health c) = 0 → 1 <= k →
  let timeout := λ c, (flushBatchWithTimeout k batch WriteTimeout now c).2 in
  ∀ n : nat, (flushBatchWithTimeout k batch WriteTimeout now (Nat.iter n timeout c)).1 =
    if k <=? Z.of_nat n + 1 then (false, Some "write_timeout_exceeded"%string) else (true, None).
Proof.
  intros Hne H0 Hk timeout.
  assert (∀ c, flushBatchWithTimeout k batch WriteTimeout now c =
    let h := c_health c in
    let h' := mkConnHealth (QueueFullSince h) (DropCount h) (ConsecutiveDrops h)
      (WriteTimeoutCount h + 1) (ConsecutiveWriteTimeouts h + 1) (LastWriteTime h) in
    ((if k <=? ConsecutiveWriteTimeouts h + 1
      then (false, Some "write_timeout_exceeded"%string) else (true, None)),
     set_c_health h' (ws_write WriteTimeout (packMessages batch) c))) as Hf.
  { intros c'. unfold flushBatchWithTimeout. rewrite decide_False by (by intros ?%nil_length_inv).
    simpl. by destruct (k <=? _). }
  assert (∀ n : nat, ConsecutiveWriteTimeouts (c_health (Nat.iter n timeout c)) = Z.of_nat n)
    as Hn.
  { induction n as [|n IH]; [done|]. rewrite Nat.iter_succ. unfold timeout at 1. rewrite Hf.
    cbn -[Z.of_nat Nat.iter]. rewrite IH. lia. }
  intros n. rewrite Hf. cbn [fst]. by rewrite Hn.
Qed.

Lemma write_timeouts_close_witness :
  let c := NewConnection "u1" "c1" demo_conn_cfg in
  let timeout := λ c, (flushBatchWithTimeout 10 [[Byte.x01]] WriteTimeout 7 c).2 in
  ∀ n : nat, (flushBatchWithTimeout 10 [[Byte.x01]] WriteTimeout 7 (Nat.iter n timeout c)).1 =
    if 10 <=? Z.of_nat n + 1 then (false, Some "write_timeout_exceeded"%string) else (true, None).
Proof. apply (write_timeouts_close 10 [[Byte.x01]] 7); [done|done|lia]. Defined.
