(* ===== verification/Gateway.v ===== *)
(** [internal/gateway/server.go] (state, connections, rooms, degraded mode)
    and the sending half of [roomserver_client.go].

    A handler runs in one goroutine and is a function on the gateway state
    that finishes, panics or deadlocks.  The state carries the locks the
    goroutine holds: taking a lock it already holds blocks for ever, as
    [sync.Mutex] and [sync.RWMutex] are not reentrant (a second read lock is
    granted).  Connections are objects in a store, since the connection
    table, the distributors and the goroutines of a connection share them.
    Counters of the metrics package are left out; the gauge of open
    connections is kept. *)

From Stdlib Require Import ZArith Lia.
From stdpp Require Import base tactics gmap strings numbers list.
From S2P Require Import Prelude GoInt Protocol Frame Chan Connection.

Local Open Scope Z_scope.

(** ** State *)
Inductive GatewayStatus := StatusNormal | StatusDegraded.
#[export] Instance GatewayStatus_eq_dec : EqDecision GatewayStatus.
Proof. solve_decision. Defined.

Inductive Lock := ConnsMu | LocalRoomsMu | LocalUsersMu | PendingMu | DistributorMu (id : nat).
Inductive LockMode := Exclusive | Shared.
#[export] Instance Lock_eq_dec : EqDecision Lock.
Proof. solve_decision. Defined.
#[export] Instance LockMode_eq_dec : EqDecision LockMode.
Proof. solve_decision. Defined.

(** [*Connection]: an address in the store of connections. *)
Abbreviation CRef := nat.

Inductive PendingType := PendingLeave | PendingDisconnect.
Record PendingRequest := mkPendingRequest {
  pr_UserID : string; pr_RoomID : string; pr_Type : PendingType; pr_Time : Z }.

Record DispatchMessage := mkDispatchMessage {
  dm_Priority : Z; dm_Payload : list byte; dm_RoomID : string; dm_UserIDs : list string }.

Record Distributor := mkDistributor {
  d_id : nat;
  d_inputQueue : chan DispatchMessage;
  d_conns : gmap string CRef;
}.

Definition NewDistributor (id : nat) (queueSize : nat) : Distributor :=
  mkDistributor id (make_chan queueSize) ∅.

(** The fields used of [config.GatewayConfig]. *)
Record GatewayConfig := mkGatewayConfig {
  cfg_ID : string;                   (* Gateway.ID *)
  cfg_Addr : string;                 (* Server.Addr *)
  cfg_Shards : nat;                  (* Distributor.Shards *)
  cfg_InputQueueSize : nat;          (* Distributor.InputQueueSize *)
  cfg_Connection : ConnectionConfig;
  cfg_Protection : ProtectionConfig;
}.

Record Gateway := mkGateway {
  g_cfg : GatewayConfig;
  g_status : GatewayStatus;
  degradedSince : gotime;
  connections : gmap string CRef;           (* user_id → connection *)
  objects : gmap CRef Connection;           (* the connection objects *)
  distributors : list Distributor;
  localRooms : gmap string (gset string);   (* room_id → users *)
  localUsers : gset string;                 (* the keys of the Go map *)
  knownEpochs : gmap string Z;              (* roomserver_id → epoch (uint64) *)
  pendingLeaves : list PendingRequest;
  pendingDisconnects : list PendingRequest;
  rs_connected : bool;                      (* RoomserverClient.connected *)
  rs_sendCh : chan Envelope;                (* RoomserverClient.sendCh *)
  gauge : Z;                                (* metrics.GatewayConnections *)
  clock : Z;                                (* what time.Now() reads *)
  held : list (Lock * LockMode);            (* locks of the running goroutine *)
}.

Definition set_g_status (x : GatewayStatus) (g : Gateway) : Gateway :=
  mkGateway (g_cfg g) x (degradedSince g) (connections g) (objects g) (distributors g) (localRooms g)
    (localUsers g) (knownEpochs g) (pendingLeaves g) (pendingDisconnects g) (rs_connected
    g) (rs_sendCh g) (gauge g) (clock g) (held g).
Definition set_degradedSince (x : gotime) (g : Gateway) : Gateway :=
  mkGateway (g_cfg g) (g_status g) x (connections g) (objects g) (distributors g) (localRooms g)
    (localUsers g) (knownEpochs g) (pendingLeaves g) (pendingDisconnects g) (rs_connected
    g) (rs_sendCh g) (gauge g) (clock g) (held g).
Definition set_connections (x : gmap string CRef) (g : Gateway) : Gateway :=
  mkGateway (g_cfg g) (g_status g) (degradedSince g) x (objects g) (distributors g) (localRooms g)
    (localUsers g) (knownEpochs g) (pendingLeaves g) (pendingDisconnects g) (rs_connected
    g) (rs_sendCh g) (gauge g) (clock g) (held g).
Definition set_objects (x : gmap CRef Connection) (g : Gateway) : Gateway :=
  mkGateway (g_cfg g) (g_status g) (degradedSince g) (connections g) x (distributors g) (localRooms g)
    (localUsers g) (knownEpochs g) (pendingLeaves g) (pendingDisconnects g) (rs_connected
    g) (rs_sendCh g) (gauge g) (clock g) (held g).
Definition set_distributors (x : list Distributor) (g : Gateway) : Gateway :=
  mkGateway (g_cfg g) (g_status g) (degradedSince g) (connections g) (objects g) x (localRooms g)
    (localUsers g) (knownEpochs g) (pendingLeaves g) (pendingDisconnects g) (rs_connected
    g) (rs_sendCh g) (gauge g) (clock g) (held g).
Definition set_localRooms (x : gmap string (gset string)) (g : Gateway) : Gateway :=
  mkGateway (g_cfg g) (g_status g) (degradedSince g) (connections g) (objects g) (distributors g) x
    (localUsers g) (knownEpochs g) (pendingLeaves g) (pendingDisconnects g) (rs_connected
    g) (rs_sendCh g) (gauge g) (clock g) (held g).
Definition set_localUsers (x : gset string) (g : Gateway) : Gateway :=
  mkGateway (g_cfg g) (g_status g) (degradedSince g) (connections g) (objects g) (distributors g)
    (localRooms g) x (knownEpochs g) (pendingLeaves g) (pendingDisconnects g)
    (rs_connected g) (rs_sendCh g) (gauge g) (clock g) (held g).
Definition set_knownEpochs (x : gmap string Z) (g : Gateway) : Gateway :=
  mkGateway (g_cfg g) (g_status g) (degradedSince g) (connections g) (objects g) (distributors g)
    (localRooms g) (localUsers g) x (pendingLeaves g) (pendingDisconnects g) (rs_connected
    g) (rs_sendCh g) (gauge g) (clock g) (held g).
Definition set_pendingLeaves (x : list PendingRequest) (g : Gateway) : Gateway :=
  mkGateway (g_cfg g) (g_status g) (degradedSince g) (connections g) (objects g) (distributors g)
    (localRooms g) (localUsers g) (knownEpochs g) x (pendingDisconnects g) (rs_connected
    g) (rs_sendCh g) (gauge g) (clock g) (held g).
Definition set_pendingDisconnects (x : list PendingRequest) (g : Gateway) : Gateway :=
  mkGateway (g_cfg g) (g_status g) (degradedSince g) (connections g) (objects g) (distributors g)
    (localRooms g) (localUsers g) (knownEpochs g) (pendingLeaves g) x (rs_connected g)
    (rs_sendCh g) (gauge g) (clock g) (held g).
Definition set_rs_connected (x : bool) (g : Gateway) : Gateway :=
  mkGateway (g_cfg g) (g_status g) (degradedSince g) (connections g) (objects g) (distributors g)
    (localRooms g) (localUsers g) (knownEpochs g) (pendingLeaves g) (pendingDisconnects g)
    x (rs_sendCh g) (gauge g) (clock g) (held g).
Definition set_rs_sendCh (x : chan Envelope) (g : Gateway) : Gateway :=
  mkGateway (g_cfg g) (g_status g) (degradedSince g) (connections g) (objects g) (distributors g)
    (localRooms g) (localUsers g) (knownEpochs g) (pendingLeaves g) (pendingDisconnects g)
    (rs_connected g) x (gauge g) (clock g) (held g).
Definition set_gauge (x : Z) (g : Gateway) : Gateway :=
  mkGateway (g_cfg g) (g_status g) (degradedSince g) (connections g) (objects g) (distributors g)
    (localRooms g) (localUsers g) (knownEpochs g) (pendingLeaves g) (pendingDisconnects g)
    (rs_connected g) (rs_sendCh g) x (clock g) (held g).
Definition set_clock (x : Z) (g : Gateway) : Gateway :=
  mkGateway (g_cfg g) (g_status g) (degradedSince g) (connections g) (objects g) (distributors g)
    (localRooms g) (localUsers g) (knownEpochs g) (pendingLeaves g) (pendingDisconnects g)
    (rs_connected g) (rs_sendCh g) (gauge g) x (held g).
Definition set_held (x : list (Lock * LockMode)) (g : Gateway) : Gateway :=
  mkGateway (g_cfg g) (g_status g) (degradedSince g) (connections g) (objects g) (distributors g)
    (localRooms g) (localUsers g) (knownEpochs g) (pendingLeaves g) (pendingDisconnects g)
    (rs_connected g) (rs_sendCh g) (gauge g) (clock g) x.

Definition clientSendCap : nat := 10000.

Definition NewGateway (cfg : GatewayConfig) (now : Z) : Gateway :=
  mkGateway cfg StatusNormal None ∅ ∅
    ((λ i, NewDistributor i (cfg_InputQueueSize cfg)) <$> seq 0 (cfg_Shards cfg))
    ∅ ∅ ∅ [] [] false (make_chan clientSendCap) 0 now [].

(** ** Handlers *)
Definition G (A : Type) : Type := Gateway → outcome (A * Gateway).

#[export] Instance G_ret : MRet G := λ A a g, Done (a, g).
#[export] Instance G_bind : MBind G := λ A B f m g,
  match m g with
  | Done (a, g) => f a g
  | Panic w => Panic w
  | Deadlock l => Deadlock l
  end.

Definition gets {A} (f : Gateway → A) : G A := λ g, Done (f g, g).
Definition modify (f : Gateway → Gateway) : G unit := λ g, Done (tt, f g).
Definition panic {A} (why : string) : G A := λ _, Panic why.
(** A computation that does not touch the gateway. *)
Definition lift {A} (m : outcome A) : G A := λ g, a ← m; Done (a, g).

Definition lock_name (l : Lock) : string :=
  match l with
  | ConnsMu => "connsMu" | LocalRoomsMu => "localRoomsMu" | LocalUsersMu => "localUsersMu"
  | PendingMu => "pendingMu" | DistributorMu _ => "Distributor.mu"
  end.

(** [mu.Lock()], [mu.RLock()] and the matching unlocks. *)
Definition lock (l : Lock) : G unit := λ g,
  if decide (l ∈ (held g).*1) then Deadlock (lock_name l)
  else Done (tt, set_held ((l, Exclusive) :: held g) g).
Definition rlock (l : Lock) : G unit := λ g,
  if decide ((l, Exclusive) ∈ held g) then Deadlock (lock_name l)
  else Done (tt, set_held ((l, Shared) :: held g) g).
Fixpoint remove_first (x : Lock * LockMode) (l : list (Lock * LockMode)) :
    list (Lock * LockMode) :=
  match l with [] => [] | y :: l => if decide (x = y) then l else y :: remove_first x l end.
Definition release (x : Lock * LockMode) (g : Gateway) : Gateway :=
  set_held (remove_first x (held g)) g.
Definition unlock (l : Lock) : G unit := modify (release (l, Exclusive)).
Definition runlock (l : Lock) : G unit := modify (release (l, Shared)).

(** A critical section without an early exit. *)
Definition with_lock {A} (l : Lock) (m : G A) : G A := lock l;; a ← m; unlock l;; mret a.
Definition with_rlock {A} (l : Lock) (m : G A) : G A := rlock l;; a ← m; runlock l;; mret a.

(** Access to a connection object. *)
Definition get_c (ref : CRef) : G Connection := λ g,
  match objects g !! ref with
  | Some c => Done (c, g)
  | None => Panic "invalid memory address or nil pointer dereference"
  end.
Definition put_c (ref : CRef) (c : Connection) : G unit :=
  modify (λ g, set_objects (<[ref := c]> (objects g)) g).
Definition update_c (ref : CRef) (f : Connection → Connection) : G unit :=
  c ← get_c ref; put_c ref (f c).

(** [conn.Send(data)] *)
Definition send_c (ref : CRef) (data : list byte) : G bool :=
  c ← get_c ref;
  now ← gets clock;
  let '(ok, c) := Send data now c in
  put_c ref c;; mret ok.

Definition for_each {A} (f : A → G unit) : list A → G unit :=
  fix go xs := match xs with [] => mret tt | x :: xs => f x;; go xs end.

(** ** The sending half of the roomserver client *)
Section client.
Context `{Msgpack GatewayInfo, Msgpack JoinRoomRequest, Msgpack LeaveRoomRequest,
  Msgpack ResumeRequest, Msgpack DisconnectNotify, Msgpack BatchReSync,
  Msgpack ReSyncComplete}.

(** [sendCh] is never closed: a message is queued or dropped. *)
Definition client_send (msgType : Z) (payload : list byte) : G unit :=
  modify (λ g, set_rs_sendCh (sent (mkEnvelope msgType payload) (rs_sendCh g)) g).

Definition sendGatewayInfo : G unit :=
  cfg ← gets g_cfg;
  client_send InternalMsgGatewayInfo (Encode_ (mkGatewayInfo (cfg_ID cfg) (cfg_Addr cfg) 0)).
Definition SendJoinRoom (userID roomID : string) : G unit :=
  cfg ← gets g_cfg;
  client_send InternalMsgJoinRoom (Encode_ (mkJoinRoomRequest userID roomID (cfg_ID cfg))).
Definition SendLeaveRoom (userID roomID : string) : G unit :=
  client_send InternalMsgLeaveRoom (Encode_ (mkLeaveRoomRequest userID roomID)).
Definition SendResume (userID roomID : string) : G unit :=
  cfg ← gets g_cfg;
  client_send InternalMsgResume (Encode_ (mkResumeRequest userID roomID (cfg_ID cfg))).
Definition SendDisconnect (userID roomID : string) : G unit :=
  cfg ← gets g_cfg;
  client_send InternalMsgDisconnect
    (Encode_ (mkDisconnectNotify userID roomID (cfg_ID cfg) None)).
Definition SendBatchReSync (users : list UserRoomPair) : G unit :=
  cfg ← gets g_cfg;
  client_send InternalMsgBatchReSync (Encode_ (mkBatchReSync (cfg_ID cfg) users)).
End client.

(** ** Rooms *)
Definition AddUserToRoom (roomID userID : string) : G unit :=
  lock LocalRoomsMu;;
  modify (λ g, set_localRooms
    (<[roomID := default ∅ (localRooms g !! roomID) ∪ {[userID]}]> (localRooms g)) g);;
  unlock LocalRoomsMu.

Definition remove_from_room (roomID userID : string) (rooms : gmap string (gset string)) :
    gmap string (gset string) :=
  match rooms !! roomID with
  | None => rooms
  | Some users =>
    let users := users ∖ {[userID]} in
    if decide (size users = 0%nat) then delete roomID rooms else <[roomID := users]> rooms
  end.

Definition RemoveUserFromRoom (roomID userID : string) : G unit :=
  lock LocalRoomsMu;;
  modify (λ g, set_localRooms (remove_from_room roomID userID (localRooms g)) g);;
  unlock LocalRoomsMu.

Section room_lists.
Context `{MapOrder}.

Definition GetRoomUsers (roomID : string) : G (list string) :=
  rlock LocalRoomsMu;;
  rooms ← gets localRooms;
  runlock LocalRoomsMu;;
  mret match rooms !! roomID with None => [] | Some users => range_set users end.

Definition ClearRoom (roomID : string) : G (list string) :=
  lock LocalRoomsMu;;
  rooms ← gets localRooms;
  modify (λ g, set_localRooms (delete roomID (localRooms g)) g);;
  unlock LocalRoomsMu;;
  mret match rooms !! roomID with None => [] | Some users => range_set users end.

Definition GetConfirmedUsers : G (gmap string (list string)) :=
  rlock LocalRoomsMu;;
  rooms ← gets localRooms;
  runlock LocalRoomsMu;;
  mret (range_set <$> rooms).
End room_lists.

(** ** The shard of a user *)

Definition continuation (b : Z) : bool := (0x80 <=? b) && (b <=? 0xBF).

(** [for _, c := range userID]: the runes of the string; a byte that does
    not start a valid UTF-8 sequence gives U+FFFD and is skipped alone. *)
Fixpoint runes (s : list Z) : list Z :=
  match s with
  | [] => []
  | b0 :: t =>
    if b0 <? 0x80 then b0 :: runes t else
    match t with
    | [] => 0xFFFD :: runes t
    | b1 :: t1 =>
      if (0xC2 <=? b0) && (b0 <=? 0xDF) && continuation b1
      then Z.lor (Z.shiftl (Z.land b0 0x1F) 6) (Z.land b1 0x3F) :: runes t1
      else match t1 with
      | [] => 0xFFFD :: runes t
      | b2 :: t2 =>
        if (0xE0 <=? b0) && (b0 <=? 0xEF) && continuation b2 && continuation b1 &&
           (negb (b0 =? 0xE0) || (0xA0 <=? b1)) && (negb (b0 =? 0xED) || (b1 <=? 0x9F))
        then Z.lor (Z.lor (Z.shiftl (Z.land b0 0x0F) 12) (Z.shiftl (Z.land b1 0x3F) 6))
               (Z.land b2 0x3F) :: runes t2
        else match t2 with
        | [] => 0xFFFD :: runes t
        | b3 :: t3 =>
          if (0xF0 <=? b0) && (b0 <=? 0xF4) && continuation b3 && continuation b2 &&
             continuation b1 &&
             (negb (b0 =? 0xF0) || (0x90 <=? b1)) && (negb (b0 =? 0xF4) || (b1 <=? 0x8F))
          then Z.lor (Z.lor (Z.lor (Z.shiftl (Z.land b0 0x07) 18) (Z.shiftl (Z.land b1 0x3F) 12))
                 (Z.shiftl (Z.land b2 0x3F) 6)) (Z.land b3 0x3F) :: runes t3
          else 0xFFFD :: runes t
        end
      end
    end
  end.

Definition string_bytes (s : string) : list Z := byte_to_Z <$> String.list_byte_of_string s.

(** An [int] is 64 bits wide and wraps around; [-h] of the least one is
    itself. *)
Definition hashUserID (userID : string) : Z :=
  let h := foldl (λ h c, i64 (31 * h + c)) 0 (runes (string_bytes userID)) in
  if h <? 0 then i64 (- h) else h.

(** [hashUserID(u) % n] and the index expression [s.distributors[...]]; Go's
    remainder takes the sign of the dividend. *)
Definition shard_index (userID : string) (n : nat) : outcome nat :=
  if decide (n = 0%nat) then Panic "integer divide by zero" else
  let i := Z.rem (hashUserID userID) (Z.of_nat n) in
  if 0 <=? i then Done (Z.to_nat i) else Panic "index out of range".

(** ** Connections *)
Section connections.
Context `{Msgpack LeaveRoomRequest, Msgpack DisconnectNotify} `{MapOrder}.

(** [distributor.RemoveConn] and [AddConn] (distributor.go). *)
Definition update_d (i : nat) (f : Distributor → Distributor) : G unit :=
  modify (λ g, set_distributors (alter f i (distributors g)) g).

Definition AddConn (i : nat) (userID : string) (ref : CRef) : G unit :=
  lock (DistributorMu i);;
  update_d i (λ d, mkDistributor (d_id d) (d_inputQueue d) (<[userID := ref]> (d_conns d)));;
  unlock (DistributorMu i).

Definition RemoveConn (i : nat) (userID : string) : G unit :=
  lock (DistributorMu i);;
  update_d i (λ d, mkDistributor (d_id d) (d_inputQueue d) (delete userID (d_conns d)));;
  unlock (DistributorMu i).

Definition RemoveConnection (userID : string) : G unit :=
  lock ConnsMu;;
  conns ← gets connections;
  modify (λ g, set_connections (delete userID (connections g)) g);;
  unlock ConnsMu;;
  match conns !! userID with
  | Some ref =>
    conn ← get_c ref;
    match c_distributor conn with Some i => RemoveConn i userID | None => mret tt end
  | None => mret tt
  end;;
  lock LocalUsersMu;;
  modify (λ g, set_localUsers (localUsers g ∖ {[userID]}) g);;
  unlock LocalUsersMu.

Definition GetStatus : G GatewayStatus := gets g_status.

Definition notifyDisconnect (userID roomID : string) : G unit :=
  st ← GetStatus;
  if decide (st = StatusDegraded) then
    lock PendingMu;;
    now ← gets clock;
    modify (λ g, set_pendingDisconnects
      (pendingDisconnects g ++ [mkPendingRequest userID roomID PendingDisconnect now]) g);;
    unlock PendingMu
  else SendDisconnect userID roomID.

(** [Connection.Close(reason)]; the reason is only counted and logged. *)
Definition Close (ref : CRef) (reason : string) : G unit :=
  c ← get_c ref;
  if c_closeOnce c then mret tt else
  put_c ref (set_c_closed c);;
  modify (λ g, set_gauge (gauge g - 1) g);;
  RemoveConnection (c_UserID c);;
  c ← get_c ref;
  if decide (c_RoomID c ≠ ""%string ∧ c_JoinState c = JoinStateConfirmed) then
    RemoveUserFromRoom (c_RoomID c) (c_UserID c);;
    notifyDisconnect (c_UserID c) (c_RoomID c)
  else mret tt.

Definition AddConnection (ref : CRef) : G unit :=
  lock ConnsMu;;
  conn ← get_c ref;
  conns ← gets connections;
  match conns !! c_UserID conn with
  | Some old => Close old "replaced"
  | None => mret tt
  end;;
  modify (λ g, set_connections (<[c_UserID conn := ref]> (connections g)) g);;
  n ← gets (λ g, length (distributors g));
  i ← (λ g, match shard_index (c_UserID conn) n with
            | Done i => Done (i, g) | Panic w => Panic w | Deadlock l => Deadlock l end) : G nat;
  AddConn i (c_UserID conn) ref;;
  update_c ref (set_c_distributor (Some i));;
  lock LocalUsersMu;;
  modify (λ g, set_localUsers (localUsers g ∪ {[c_UserID conn]}) g);;
  unlock LocalUsersMu;;
  unlock ConnsMu.

Definition GetConnection (userID : string) : G (option CRef) :=
  rlock ConnsMu;;
  conns ← gets connections;
  runlock ConnsMu;;
  mret (conns !! userID).

(** The order in which the table is read. *)
Definition closeAllConnections : G unit :=
  lock ConnsMu;;
  conns ← gets connections;
  unlock ConnsMu;;
  for_each (λ kr, Close kr.2 "server_shutdown") (range_map conns).

(** ** Degraded mode *)
Definition SetDegraded : G unit :=
  st ← GetStatus;
  if decide (st = StatusNormal) then
    now ← gets clock;
    modify (set_g_status StatusDegraded);;
    modify (set_degradedSince (Some now))
  else mret tt.

Definition processPendingRequests : G unit :=
  lock PendingMu;;
  leaves ← gets pendingLeaves;
  disconnects ← gets pendingDisconnects;
  modify (set_pendingLeaves []);;
  modify (set_pendingDisconnects []);;
  unlock PendingMu;;
  for_each (λ req, SendLeaveRoom (pr_UserID req) (pr_RoomID req)) leaves;;
  for_each (λ req, SendDisconnect (pr_UserID req) (pr_RoomID req)) disconnects.

(** The flag says whether [go s.processPendingRequests()] was started; that
    goroutine is a handler of its own. *)
Definition SetNormal : G bool :=
  st ← GetStatus;
  if decide (st = StatusDegraded) then
    modify (set_g_status StatusNormal);;
    modify (set_degradedSince None);;
    mret true
  else mret false.
End connections.

(** ** How the operations run *)

(** The running goroutine does not hold the lock. *)
Definition free (l : Lock) (g : Gateway) : Prop := l ∉ (held g).*1.

#[export] Instance free_dec l g : Decision (free l g).
Proof. unfold free. apply _. Defined.

Lemma remove_first_cons x l : remove_first x (x :: l) = l.
Proof. simpl. by rewrite decide_True. Qed.

Lemma lock_run l g : free l g → lock l g = Done (tt, set_held ((l, Exclusive) :: held g) g).
Proof. intros Hf. unfold lock. by rewrite decide_False. Qed.

Lemma rlock_run l g : free l g → rlock l g = Done (tt, set_held ((l, Shared) :: held g) g).
Proof.
  intros Hf. unfold rlock. rewrite decide_False; [done|].
  intros Hin. apply Hf, list_elem_of_fmap. by exists (l, Exclusive).
Qed.

Lemma release_head x h g : held g = x :: h → release x g = set_held h g.
Proof. intros Hh. unfold release. by rewrite Hh, remove_first_cons. Qed.

Lemma set_held_id g : set_held (held g) g = g.
Proof. by destruct g. Qed.

Lemma get_c_run ref g c : objects g !! ref = Some c → get_c ref g = Done (c, g).
Proof. intros Hc. unfold get_c. by rewrite Hc. Qed.

(** Runs through the locks of a goal whose freedom is an assumption. *)
Ltac run_locks :=
  unfold mbind, G_bind, mret, G_ret, unlock, runlock, gets, modify;
  repeat first
    [ rewrite lock_run by done
    | rewrite rlock_run by done
    | erewrite get_c_run by done
    | erewrite release_head by reflexivity
    | progress cbn beta iota ].

Lemma with_rlock_gets {A} l (f : Gateway → A) g :
  free l g → (∀ h, f (set_held h g) = f g) →
  with_rlock l (gets f) g = Done (f g, g).
Proof.
  intros Hf Hh. unfold with_rlock. run_locks. rewrite Hh. do 2 f_equal. exact (set_held_id g).
Qed.

Lemma with_lock_modify l (f : Gateway → Gateway) g :
  free l g → (∀ h, f (set_held h g) = set_held h (f g)) → held (f g) = held g →
  with_lock l (modify f) g = Done (tt, f g).
Proof.
  intros Hf Hh Hheld. unfold with_lock. run_locks. rewrite Hh.
  erewrite release_head by done. do 2 f_equal. rewrite <-Hheld. by destruct (f g).
Qed.

Lemma AddUserToRoom_run rid u g :
  free LocalRoomsMu g →
  AddUserToRoom rid u g = Done (tt, set_localRooms
    (<[rid := default ∅ (localRooms g !! rid) ∪ {[u]}]> (localRooms g)) g).
Proof. intros Hf. unfold AddUserToRoom. by run_locks. Qed.

Lemma RemoveUserFromRoom_run rid u g :
  free LocalRoomsMu g →
  RemoveUserFromRoom rid u g =
    Done (tt, set_localRooms (remove_from_room rid u (localRooms g)) g).
Proof. intros Hf. unfold RemoveUserFromRoom. by run_locks. Qed.

Section runs.
Context `{Msgpack LeaveRoomRequest, Msgpack DisconnectNotify} `{MapOrder}.
Implicit Types (g : Gateway) (u rid : string) (ref : CRef).

Definition drop_conn u (d : Distributor) : Distributor :=
  mkDistributor (d_id d) (d_inputQueue d) (delete u (d_conns d)).
Definition hold_conn u ref (d : Distributor) : Distributor :=
  mkDistributor (d_id d) (d_inputQueue d) (<[u := ref]> (d_conns d)).

Lemma RemoveConn_run i u g :
  free (DistributorMu i) g →
  RemoveConn i u g = Done (tt, set_distributors (alter (drop_conn u) i (distributors g)) g).
Proof. intros Hf. unfold RemoveConn, update_d. by run_locks. Qed.

Lemma AddConn_run i u ref g :
  free (DistributorMu i) g →
  AddConn i u ref g = Done (tt, set_distributors (alter (hold_conn u ref) i (distributors g)) g).
Proof. intros Hf. unfold AddConn, update_d. by run_locks. Qed.

(** The distributor of the registered connection of a user. *)
Definition shard_of u g : option nat :=
  connections g !! u ≫= λ ref, objects g !! ref ≫= c_distributor.

(** The state after [RemoveConnection]. *)
Definition removed u g : Gateway :=
  set_localUsers (localUsers g ∖ {[u]})
    (set_distributors
      match shard_of u g with
      | Some i => alter (drop_conn u) i (distributors g)
      | None => distributors g
      end
      (set_connections (delete u (connections g)) g)).

Definition conns_exist g : Prop :=
  ∀ u ref, connections g !! u = Some ref → is_Some (objects g !! ref).

Lemma RemoveConnection_run u g :
  free ConnsMu g → free LocalUsersMu g → conns_exist g →
  (∀ i, shard_of u g = Some i → free (DistributorMu i) g) →
  RemoveConnection u g = Done (tt, removed u g).
Proof.
  intros Hc Hl Hex. unfold RemoveConnection, removed, shard_of. run_locks.
  cbn [connections set_held].
  destruct (connections g !! u) as [ref|] eqn:Hu; intros Hd.
  - destruct (Hex u ref Hu) as [c Hr]. rewrite (get_c_run ref _ c) by done.
    cbn [mbind option_bind] in Hd |- *. rewrite Hr in Hd |- *. cbn [mbind option_bind] in Hd |- *.
    destruct (c_distributor c) as [i|] eqn:Hi.
    + rewrite RemoveConn_run by (by apply Hd). run_locks. done.
    + run_locks. done.
  - cbn beta iota. run_locks. done.
Qed.

(** The state after [notifyDisconnect]. *)
Definition notified u rid g : Gateway :=
  if decide (g_status g = StatusDegraded)
  then set_pendingDisconnects
         (pendingDisconnects g ++ [mkPendingRequest u rid PendingDisconnect (clock g)]) g
  else set_rs_sendCh (sent (mkEnvelope InternalMsgDisconnect
         (Encode_ (mkDisconnectNotify u rid (cfg_ID (g_cfg g)) None))) (rs_sendCh g)) g.

Lemma notifyDisconnect_run u rid g :
  free PendingMu g → notifyDisconnect u rid g = Done (tt, notified u rid g).
Proof.
  intros Hf. unfold notifyDisconnect, notified, GetStatus, SendDisconnect, client_send.
  unfold mbind at 1, G_bind at 1, gets at 1. case_decide; by run_locks.
Qed.

(** The state after a first [Close] of the connection [c] at [ref]. *)
Definition closed ref (c : Connection) g : Gateway :=
  let g := removed (c_UserID c)
    (set_gauge (gauge g - 1) (set_objects (<[ref := set_c_closed c]> (objects g)) g)) in
  if decide (c_RoomID c ≠ ""%string ∧ c_JoinState c = JoinStateConfirmed)
  then notified (c_UserID c) (c_RoomID c)
         (set_localRooms (remove_from_room (c_RoomID c) (c_UserID c) (localRooms g)) g)
  else g.

Lemma shard_of_set_closed u ref c g :
  objects g !! ref = Some c →
  shard_of u (set_gauge (gauge g - 1) (set_objects (<[ref := set_c_closed c]> (objects g)) g)) =
  shard_of u g.
Proof.
  intros Hc. unfold shard_of. cbn. destruct (connections g !! u) as [ref'|]; [|done]. cbn.
  destruct (decide (ref' = ref)) as [->|]; [by rewrite lookup_insert_eq, Hc|].
  by rewrite lookup_insert_ne.
Qed.

Lemma Close_run ref c reason g :
  objects g !! ref = Some c → c_closeOnce c = false → conns_exist g →
  free ConnsMu g → free LocalUsersMu g → free LocalRoomsMu g → free PendingMu g →
  (∀ i, shard_of (c_UserID c) g = Some i → free (DistributorMu i) g) →
  Close ref reason g = Done (tt, closed ref c g).
Proof.
  intros Hr Ho Hex Hc Hlu Hlr Hp Hd. unfold Close, put_c. run_locks. rewrite Ho.
  set (g1 := set_gauge _ _).
  assert (conns_exist g1) as Hex1.
  { intros u' ref' Hu. cbn. apply lookup_insert_is_Some'. right. by eapply Hex. }
  rewrite RemoveConnection_run; [|done|done|done|].
  - cbn beta iota. rewrite (get_c_run ref _ (set_c_closed c)) by (cbn; apply lookup_insert_eq).
    cbn [c_RoomID c_JoinState c_UserID set_c_closed]. unfold closed. fold g1.
    case_decide; [|done]. rewrite RemoveUserFromRoom_run by done. cbn beta iota.
    by rewrite notifyDisconnect_run.
  - intros i. cbn [c_UserID set_c_closed].
    assert (shard_of (c_UserID c) g1 = shard_of (c_UserID c) g) as ->
      by exact (shard_of_set_closed (c_UserID c) ref c g Hr).
    apply Hd.
Qed.

(** A second [Close] does nothing. *)
Lemma Close_again ref c reason g :
  objects g !! ref = Some c → c_closeOnce c = true → Close ref reason g = Done (tt, g).
Proof. intros Hr Ho. unfold Close. run_locks. by rewrite Ho. Qed.
End runs.

(** ** Well-formed gateways: the three tables of connections agree *)
Section wf.
Context `{Msgpack LeaveRoomRequest, Msgpack DisconnectNotify} `{MapOrder}.
Implicit Types (g : Gateway) (u rid : string) (ref : CRef).

(** A registered connection is open, belongs to its key, and is known to
    the distributor of its shard under that key. *)
Definition registered_ok g u ref : Prop :=
  ∃ c i d, objects g !! ref = Some c ∧ c_UserID c = u ∧ c_closeOnce c = false ∧
    c_distributor c = Some i ∧ distributors g !! i = Some d ∧ d_conns d !! u = Some ref ∧
    shard_index u (length (distributors g)) = Done i.

Definition gw_wf g : Prop :=
  (∀ u ref, connections g !! u = Some ref → registered_ok g u ref) ∧
  (∀ i d u ref, distributors g !! i = Some d → d_conns d !! u = Some ref →
     connections g !! u = Some ref ∧ shard_index u (length (distributors g)) = Done i) ∧
  localUsers g = dom (connections g).

(** The parts of the state that matter to it. *)
Lemma gw_wf_same g g' :
  connections g' = connections g → objects g' = objects g →
  distributors g' = distributors g → localUsers g' = localUsers g → gw_wf g → gw_wf g'.
Proof. unfold gw_wf, registered_ok. by intros -> -> -> ->. Qed.

(** A connection may change everything but its identity. *)
Lemma gw_wf_put g ref c c' :
  objects g !! ref = Some c → c_UserID c' = c_UserID c → c_closeOnce c' = c_closeOnce c →
  c_distributor c' = c_distributor c → gw_wf g →
  gw_wf (set_objects (<[ref := c']> (objects g)) g).
Proof.
  intros Hc Hu Ho Hd (Hreg & Hdis & Hloc). split_and!; [|done|done].
  intros u ref' Hr. destruct (Hreg u ref' Hr) as (c0 & i & d & Hc0 & ?).
  destruct (decide (ref' = ref)) as [->|Hne].
  - simplify_eq. exists c', i, d. cbn. rewrite lookup_insert_eq, Hu, Ho, Hd. done.
  - exists c0, i, d. cbn. by rewrite lookup_insert_ne.
Qed.

Lemma gw_wf_exist g : gw_wf g → conns_exist g.
Proof. intros (Hreg & _) u ref (c & _ & _ & -> & _)%Hreg. eauto. Qed.

Lemma gw_wf_inj g u u' ref :
  gw_wf g → connections g !! u = Some ref → connections g !! u' = Some ref → u = u'.
Proof.
  intros (Hreg & _) (c & _ & _ & Hc & <- & _)%Hreg (c' & _ & _ & Hc' & <- & _)%Hreg. congruence.
Qed.

Lemma gw_wf_shard g u ref :
  gw_wf g → connections g !! u = Some ref →
  ∃ i, shard_of u g = Some i ∧ shard_index u (length (distributors g)) = Done i.
Proof.
  intros (Hreg & _) Hu. destruct (Hreg u ref Hu) as (c & i & d & Hc & _ & _ & Hi & _ & _ & Hsh).
  exists i. split; [|done]. unfold shard_of. rewrite Hu. cbn. by rewrite Hc.
Qed.

Lemma distributors_drop u i0 g i d :
  alter (drop_conn u) i0 (distributors g) !! i = Some d →
  ∃ d0, distributors g !! i = Some d0 ∧
    d = if decide (i = i0) then drop_conn u d0 else d0.
Proof.
  destruct (decide (i = i0)) as [->|Hne].
  - rewrite list_lookup_alter_eq. intros (d0 & Hd & ->)%fmap_Some. eauto.
  - rewrite list_lookup_alter_ne by done. eauto.
Qed.

Lemma removed_wf u ref c g :
  gw_wf g → connections g !! u = Some ref → objects g !! ref = Some c →
  gw_wf (removed u (set_gauge (gauge g - 1) (set_objects (<[ref := set_c_closed c]> (objects g)) g))).
Proof.
  intros Hwf Hu Hc. pose proof Hwf as (Hreg & Hdis & Hloc).
  destruct (gw_wf_shard g u ref Hwf Hu) as (i0 & Hsh & Hidx).
  unfold removed. rewrite shard_of_set_closed, Hsh by done. split_and!; cbn.
  - intros u' ref' [Hne Hu']%lookup_delete_Some.
    destruct (Hreg u' ref' Hu') as (c' & i & d & Hc' & Hid & Ho & Hi & Hd & Hdc & Hs').
    assert (ref' ≠ ref) by (intros ->; apply Hne; by eapply gw_wf_inj).
    exists c', i, (if decide (i = i0) then drop_conn u d else d). cbn.
    rewrite lookup_insert_ne by done. split_and!; try done.
    + destruct (decide (i = i0)) as [->|].
      * by rewrite list_lookup_alter_eq, Hd.
      * by rewrite list_lookup_alter_ne.
    + case_decide; cbn; [by rewrite lookup_delete_ne|done].
    + by rewrite length_alter.
  - intros i d u' ref' Hd Hdc.
    destruct (distributors_drop u i0 g i d Hd) as (d0 & Hd0 & ->).
    assert (d_conns d0 !! u' = Some ref' ∧ (i = i0 → u' ≠ u)) as [Hd0c Hne].
    { case_decide; cbn in Hdc; [|done]. apply lookup_delete_Some in Hdc as [? ?]. done. }
    destruct (Hdis i d0 u' ref' Hd0 Hd0c) as [Hu' Hs']. rewrite length_alter. split; [|done].
    rewrite lookup_delete_ne; [done|]. intros <-. apply Hne; [|done]. congruence.
  - rewrite Hloc, dom_delete_L. done.
Qed.

Lemma closed_wf ref c g :
  gw_wf g → connections g !! c_UserID c = Some ref → objects g !! ref = Some c →
  gw_wf (closed ref c g).
Proof.
  intros Hwf Hu Hc. pose proof (removed_wf _ ref c g Hwf Hu Hc) as Hr.
  unfold closed, notified. repeat case_decide; [..|done]; by eapply gw_wf_same, Hr.
Qed.

Lemma closed_fields ref c g :
  connections (closed ref c g) = delete (c_UserID c) (connections g) ∧
  objects (closed ref c g) = <[ref := set_c_closed c]> (objects g) ∧
  gauge (closed ref c g) = gauge g - 1 ∧ held (closed ref c g) = held g.
Proof. unfold closed, notified. repeat case_decide; done. Qed.

(** The state after [AddConnection] of a user without a connection. *)
Definition added ref (c : Connection) (i : nat) g : Gateway :=
  set_localUsers (localUsers g ∪ {[c_UserID c]})
    (set_objects (<[ref := set_c_distributor (Some i) c]> (objects g))
      (set_distributors (alter (hold_conn (c_UserID c) ref) i (distributors g))
        (set_connections (<[c_UserID c := ref]> (connections g)) g))).

Lemma AddConnection_run ref c g :
  held g = [] → objects g !! ref = Some c → connections g !! c_UserID c = None →
  AddConnection ref g =
    match shard_index (c_UserID c) (length (distributors g)) with
    | Done i => Done (tt, added ref c i g)
    | Panic w => Panic w
    | Deadlock l => Deadlock l
    end.
Proof.
  intros Hh Hc Hu.
  assert (∀ l, free l g) as Hf by (intros l; unfold free; rewrite Hh; by apply not_elem_of_nil).
  unfold AddConnection, update_c, put_c. run_locks. cbn [connections set_held]. rewrite Hu.
  run_locks. cbn [connections distributors set_held set_connections].
  destruct (shard_index _ _) as [i|w|l]; [|done..].
  rewrite AddConn_run by (unfold free; cbn; rewrite Hh; set_solver). run_locks.
  rewrite lock_run by (unfold free; cbn; rewrite Hh; set_solver). run_locks.
  unfold added. done.
Qed.

Lemma shard_index_Done u n i :
  shard_index u n = Done i →
  (i < n)%nat ∧ Z.of_nat i = Z.rem (hashUserID u) (Z.of_nat n).
Proof.
  unfold shard_index. case_decide; [done|]. case_match eqn:E; [|done].
  intros [= <-]. apply Z.leb_le in E.
  pose proof (Z.rem_bound_abs (hashUserID u) (Z.of_nat n) ltac:(lia)).
  split; [lia|]. by rewrite Z2Nat.id.
Qed.

Lemma added_wf ref c i g :
  gw_wf g → objects g !! ref = Some c → c_closeOnce c = false →
  connections g !! c_UserID c = None → (∀ u, connections g !! u ≠ Some ref) →
  shard_index (c_UserID c) (length (distributors g)) = Done i →
  gw_wf (added ref c i g).
Proof.
  intros (Hreg & Hdis & Hloc) Hc Ho Hn Hfresh Hsh.
  destruct (shard_index_Done _ _ _ Hsh) as [Hi _].
  destruct (lookup_lt_is_Some_2 (distributors g) i Hi) as [di Hdi].
  unfold added. split_and!; cbn.
  - intros u' ref' [[<- <-]|[Hne Hu']]%lookup_insert_Some.
    + exists (set_c_distributor (Some i) c), i, (hold_conn (c_UserID c) ref di). cbn.
      rewrite lookup_insert_eq, list_lookup_alter_eq, Hdi, length_alter, lookup_insert_eq. done.
    + destruct (Hreg u' ref' Hu') as (c' & i' & d' & Hc' & Hid & Ho' & Hi' & Hd' & Hdc' & Hs').
      assert (ref' ≠ ref) by (intros ->; by eapply Hfresh).
      exists c', i', (if decide (i' = i) then hold_conn (c_UserID c) ref d' else d'). cbn.
      rewrite lookup_insert_ne, length_alter by done. split_and!; try done.
      * destruct (decide (i' = i)) as [->|].
        -- by rewrite list_lookup_alter_eq, Hd'.
        -- by rewrite list_lookup_alter_ne.
      * case_decide; cbn; [by rewrite lookup_insert_ne|done].
  - intros i' d u' ref' Hd Hdc. rewrite length_alter.
    destruct (decide (i' = i)) as [->|Hne].
    + rewrite list_lookup_alter_eq, Hdi in Hd. simplify_eq/=.
      apply lookup_insert_Some in Hdc as [[<- <-]|[Hne Hdc]].
      * by rewrite lookup_insert_eq.
      * rewrite lookup_insert_ne by done. by eapply Hdis.
    + rewrite list_lookup_alter_ne in Hd by done.
      destruct (Hdis i' d u' ref' Hd Hdc) as [Hu' Hs']. split; [|done].
      rewrite lookup_insert_ne; [done|]. intros <-. congruence.
  - rewrite Hloc, dom_insert_L. set_solver.
Qed.

Lemma gw_wf_new cfg now : gw_wf (NewGateway cfg now).
Proof.
  split_and!; simpl; [intros u ref; by rewrite lookup_empty| |by rewrite dom_empty_L].
  intros i d u ref Hd Hdc. apply list_lookup_fmap_Some in Hd as (j & -> & _).
  simpl in Hdc. by rewrite lookup_empty in Hdc.
Qed.
End wf.

(** ** Properties *)
Section properties.
Context `{Msgpack LeaveRoomRequest, Msgpack DisconnectNotify} `{O : MapOrder}.
Implicit Types (g : Gateway) (u rid : string) (ref : CRef) (c : Connection).

Lemma no_locks_free g l : held g = [] → free l g.
Proof. intros Hh. unfold free. rewrite Hh. by apply not_elem_of_nil. Qed.

(** Registering the connection of a user that has none: the tables
    stay consistent, the user is found under its id, in the user index and
    in exactly one distributor, that of its shard; the only way to fail is
    the panic of the shard computation. *)
Theorem AddConnection_registers ref c g :
  gw_wf g → held g = [] → objects g !! ref = Some c → c_closeOnce c = false →
  (∀ u, connections g !! u ≠ Some ref) → connections g !! c_UserID c = None →
  match shard_index (c_UserID c) (length (distributors g)) with
  | Done i => ∃ g', AddConnection ref g = Done (tt, g') ∧ gw_wf g' ∧ held g' = [] ∧
      connections g' = <[c_UserID c := ref]> (connections g) ∧ c_UserID c ∈ localUsers g' ∧
      ∀ j d, distributors g' !! j = Some d →
        (d_conns d !! c_UserID c = Some ref ↔ j = i)
  | Panic w => AddConnection ref g = Panic w
  | Deadlock _ => False
  end.
Proof.
  intros Hwf Hh Hc Ho Hfresh Hn. rewrite (AddConnection_run ref c g) by done.
  destruct (shard_index _ _) as [i|w|l] eqn:Hsh; [|done|].
  - pose proof (added_wf ref c i g Hwf Hc Ho Hn Hfresh Hsh) as Hwf'.
    exists (added ref c i g). split_and!; [done..|cbn; set_solver|]. intros j d Hd. split.
    + intros Hdc. destruct Hwf' as (_ & Hdis & _).
      destruct (Hdis j d _ ref Hd Hdc) as [_ Hj]. cbn in Hj. rewrite length_alter, Hsh in Hj.
      by injection Hj.
    + intros ->. cbn in Hd. rewrite list_lookup_alter_eq in Hd.
      apply fmap_Some in Hd as (d0 & _ & ->). cbn. apply lookup_insert_eq.
  - unfold shard_index in Hsh. by repeat case_match.
Qed.

(** C38. A user that connects again while its old connection is registered
    blocks the gateway: [AddConnection] holds [connsMu] while it closes the
    old connection, and closing takes [connsMu]. *)
Theorem AddConnection_replacing_deadlocks ref c old co g :
  held g = [] → objects g !! ref = Some c →
  connections g !! c_UserID c = Some old → objects g !! old = Some co →
  c_closeOnce co = false →
  AddConnection ref g = Deadlock "connsMu".
Proof.
  intros Hh Hc Hu Hco Ho.
  assert (∀ l, free l g) as Hf by (intros l; by apply no_locks_free).
  unfold AddConnection. run_locks. cbn [connections set_held]. rewrite Hu.
  unfold Close, put_c. run_locks. rewrite Ho. unfold RemoveConnection. run_locks.
  unfold lock at 1. rewrite decide_True; [done|]. cbn. by left.
Qed.

(** C31. Closing the registered connection of a user: it is gone from every
    table, and when it was confirmed in a room, it leaves the local room and
    a disconnect notice for the roomserver is offered to the queue at once
    in normal mode (the queue drops it when it is full), and stored in
    degraded mode. *)
Theorem Close_cleans_up ref c reason g :
  gw_wf g → held g = [] → objects g !! ref = Some c →
  connections g !! c_UserID c = Some ref →
  ∃ g', Close ref reason g = Done (tt, g') ∧ gw_wf g' ∧ held g' = [] ∧
    connections g' = delete (c_UserID c) (connections g) ∧
    c_UserID c ∉ localUsers g' ∧
    (∀ j d, distributors g' !! j = Some d → d_conns d !! c_UserID c = None) ∧
    gauge g' = gauge g - 1 ∧
    (c_RoomID c ≠ ""%string → c_JoinState c = JoinStateConfirmed →
      localRooms g' = remove_from_room (c_RoomID c) (c_UserID c) (localRooms g) ∧
      if decide (g_status g = StatusDegraded)
      then pendingDisconnects g' = pendingDisconnects g ++
             [mkPendingRequest (c_UserID c) (c_RoomID c) PendingDisconnect (clock g)]
      else rs_sendCh g' = sent (mkEnvelope InternalMsgDisconnect (Encode_
             (mkDisconnectNotify (c_UserID c) (c_RoomID c) (cfg_ID (g_cfg g)) None)))
             (rs_sendCh g)).
Proof.
  intros Hwf Hh Hc Hu. destruct (proj1 Hwf _ _ Hu) as (c' & i & d & Hc' & _ & Ho & _).
  assert (c' = c) as -> by congruence.
  rewrite (Close_run ref c) by (try done; try (by apply no_locks_free); try (by apply gw_wf_exist);
    intros; by apply no_locks_free).
  pose proof (closed_wf ref c g Hwf Hu Hc) as Hwf'.
  destruct (closed_fields ref c g) as (Hcs & _ & Hg & Hhe).
  exists (closed ref c g). split_and!; try done.
  - congruence.
  - destruct Hwf' as (_ & _ & ->). rewrite Hcs, dom_delete_L. set_solver.
  - intros j d' Hd'. destruct (d_conns d' !! c_UserID c) as [r|] eqn:E; [|done].
    destruct Hwf' as (_ & Hdis & _). destruct (Hdis j d' _ r Hd' E) as [Hr _].
    by rewrite Hcs, lookup_delete_eq in Hr.
  - intros Hrid Hst. unfold closed, notified. rewrite decide_True by done. cbn.
    by case_decide.
Qed.

(** A connection closed while its join is pending (or after a second
    join request) keeps its place in the local room: nothing removes the
    entry, and the roomserver is not told. *)
Theorem Close_while_pending_leaks ref c reason g rid users :
  gw_wf g → held g = [] → objects g !! ref = Some c →
  connections g !! c_UserID c = Some ref → c_JoinState c ≠ JoinStateConfirmed →
  localRooms g !! rid = Some users → c_UserID c ∈ users →
  ∃ g', Close ref reason g = Done (tt, g') ∧
    connections g' !! c_UserID c = None ∧ localRooms g' !! rid = Some users ∧
    rs_sendCh g' = rs_sendCh g ∧ pendingDisconnects g' = pendingDisconnects g.
Proof.
  intros Hwf Hh Hc Hu Hj Hrid Hin. destruct (proj1 Hwf _ _ Hu) as (c' & i & d & Hc' & _ & Ho & _).
  assert (c' = c) as -> by congruence.
  rewrite (Close_run ref c) by (try done; try (by apply no_locks_free); try (by apply gw_wf_exist);
    intros; by apply no_locks_free).
  exists (closed ref c g). split; [done|].
  destruct (closed_fields ref c g) as (-> & _). rewrite lookup_delete_eq.
  unfold closed. rewrite decide_False by naive_solver. done.
Qed.

Lemma for_each_Close_empties (crs : list (string * CRef)) g :
  gw_wf g → held g = [] →
  (∀ u ref, (u, ref) ∈ crs ↔ connections g !! u = Some ref) → NoDup crs.*1 →
  ∃ g', for_each (λ kr, Close kr.2 "server_shutdown") crs g = Done (tt, g') ∧
    gw_wf g' ∧ held g' = [] ∧ connections g' = ∅ ∧
    gauge g' = gauge g - Z.of_nat (length crs).
Proof.
  revert g. induction crs as [|[u ref] crs IH]; intros g Hwf Hh Hin Hnd; cbn [for_each].
  - exists g. split_and!; [done..| |simpl; lia]. apply map_eq. intros u.
    rewrite lookup_empty. destruct (connections g !! u) as [ref|] eqn:E; [|done].
    apply Hin in E. by apply not_elem_of_nil in E.
  - assert (connections g !! u = Some ref) as Hu by (apply Hin; by left).
    destruct (proj1 Hwf _ _ Hu) as (c & i & d & Hc & <- & Ho & _).
    unfold mbind, G_bind. cbn [snd].
    rewrite (Close_run ref c) by (try done; try (by apply no_locks_free);
      try (by apply gw_wf_exist); intros; by apply no_locks_free).
    destruct (closed_fields ref c g) as (Hcs & _ & Hg & Hhe).
    rewrite fmap_cons, NoDup_cons in Hnd. destruct Hnd as [Hnin Hnd].
    destruct (IH (closed ref c g)) as (g' & Hrun & Hwf' & Hh' & He & Hga); [by apply closed_wf|
      congruence| |done|].
    + intros u' ref'. rewrite Hcs, lookup_delete_Some, <-Hin, elem_of_cons. split.
      * intros Hin'. split; [|by right]. intros <-. apply Hnin.
        apply list_elem_of_fmap. by exists (c_UserID c, ref').
      * intros [Hne [[= -> ->]|?]]; done.
    + exists g'. rewrite Hrun. split_and!; try done. rewrite Hga, Hg. simpl length. lia.
Qed.

Lemma closeAllConnections_run g :
  gw_wf g → held g = [] →
  ∃ g', closeAllConnections g = Done (tt, g') ∧ gw_wf g' ∧ held g' = [] ∧ connections g' = ∅ ∧
    gauge g' = gauge g - Z.of_nat (size (connections g)).
Proof.
  intros Hwf Hh. unfold closeAllConnections.
  assert (free ConnsMu g) by (by apply no_locks_free). run_locks.
  assert (set_held (held g) (set_held ((ConnsMu, Exclusive) :: held g) g) = g) as ->
    by exact (set_held_id g). cbn [connections set_held].
  destruct (for_each_Close_empties (range_map (connections g)) g) as (g' & -> & ? & ? & ? & Hg);
    [done|done|apply elem_of_range_map|apply NoDup_range_keys|].
  exists g'. split_and!; try done. rewrite Hg. f_equal. f_equal.
  rewrite range_map_perm. apply length_map_to_list.
Qed.

(** At shutdown every registered connection is closed: the table ends
    empty, the gauge drops by their number, in whatever order the table is
    walked. *)
Theorem closeAllConnections_empties g :
  gw_wf g → held g = [] →
  ∃ g', closeAllConnections g = Done (tt, g') ∧ gw_wf g' ∧ connections g' = ∅ ∧
    gauge g' = gauge g - Z.of_nat (size (connections g)).
Proof.
  intros Hwf Hh. destruct (closeAllConnections_run g Hwf Hh) as (g' & ? & ? & _ & ? & ?).
  by exists g'.
Qed.

(** *** The degraded mode *)
Definition degraded g : Gateway :=
  match g_status g with
  | StatusNormal => set_degradedSince (Some (clock g)) (set_g_status StatusDegraded g)
  | StatusDegraded => g
  end.
Definition normal g : Gateway :=
  match g_status g with
  | StatusDegraded => set_degradedSince None (set_g_status StatusNormal g)
  | StatusNormal => g
  end.

Lemma degraded_fields g :
  g_cfg (degraded g) = g_cfg g ∧ rs_connected (degraded g) = rs_connected g ∧
  rs_sendCh (degraded g) = rs_sendCh g ∧ g_status (degraded g) = StatusDegraded.
Proof. unfold degraded. by destruct (g_status g) eqn:E. Qed.

Lemma normal_fields g :
  g_cfg (normal g) = g_cfg g ∧ rs_connected (normal g) = rs_connected g ∧
  rs_sendCh (normal g) = rs_sendCh g ∧ g_status (normal g) = StatusNormal.
Proof. unfold normal. by destruct (g_status g) eqn:E. Qed.

Lemma SetDegraded_run g : SetDegraded g = Done (tt, degraded g).
Proof.
  unfold SetDegraded, degraded, GetStatus, mbind, G_bind, gets, modify.
  destruct (g_status g) eqn:E; by case_decide.
Qed.

Lemma SetNormal_run g :
  SetNormal g = Done (bool_decide (g_status g = StatusDegraded), normal g).
Proof.
  unfold SetNormal, normal, GetStatus, mbind, G_bind, mret, G_ret, gets, modify.
  destruct (g_status g) eqn:E; by case_decide.
Qed.

Definition leave_envelope (req : PendingRequest) : Envelope :=
  mkEnvelope InternalMsgLeaveRoom (Encode_ (mkLeaveRoomRequest (pr_UserID req) (pr_RoomID req))).
Definition disconnect_envelope (gwID : string) (req : PendingRequest) : Envelope :=
  mkEnvelope InternalMsgDisconnect
    (Encode_ (mkDisconnectNotify (pr_UserID req) (pr_RoomID req) gwID None)).
Definition queue_all (es : list Envelope) (ch : chan Envelope) : chan Envelope :=
  foldl (λ ch e, sent e ch) ch es.

(** The queue takes as many as it has room for, in order; the others are
    dropped. *)
Lemma queue_all_buf es ch :
  ch_buf (queue_all es ch) = ch_buf ch ++ take (ch_cap ch - length (ch_buf ch)) es.
Proof.
  unfold queue_all. revert ch. induction es as [|e es IH]; intros ch; cbn [foldl].
  { by rewrite take_nil, app_nil_r. }
  rewrite IH, sent_cap. unfold sent. case_decide as Hroom; cbn [ch_buf].
  - rewrite length_app. cbn [length].
    replace (ch_cap ch - length (ch_buf ch))%nat
      with (S (ch_cap ch - (length (ch_buf ch) + 1)))%nat by lia.
    by rewrite <-app_assoc.
  - by replace (ch_cap ch - length (ch_buf ch))%nat with 0%nat by lia.
Qed.

Lemma for_each_send {A} (f : A → G unit) (e : A → Envelope) xs g :
  (∀ x g', g_cfg g' = g_cfg g →
     f x g' = Done (tt, set_rs_sendCh (sent (e x) (rs_sendCh g')) g')) →
  for_each f xs g = Done (tt, set_rs_sendCh (queue_all (e <$> xs) (rs_sendCh g)) g).
Proof.
  revert g. induction xs as [|x xs IH]; intros g Hf; cbn [for_each fmap list_fmap queue_all foldl].
  - by destruct g.
  - unfold mbind, G_bind. rewrite Hf by done. by rewrite IH.
Qed.

Lemma for_each_notify_degraded (us : list (string * string)) g :
  held g = [] → g_status g = StatusDegraded →
  for_each (λ p, notifyDisconnect p.1 p.2) us g =
    Done (tt, set_pendingDisconnects (pendingDisconnects g ++
      ((λ p, mkPendingRequest p.1 p.2 PendingDisconnect (clock g)) <$> us)) g).
Proof.
  revert g. induction us as [|p us IH]; intros g Hh Hst; cbn [for_each].
  - rewrite app_nil_r. by destruct g.
  - unfold mbind, G_bind. rewrite notifyDisconnect_run by (by apply no_locks_free).
    unfold notified. rewrite decide_True, IH by done. cbn. by rewrite <-app_assoc.
Qed.

Lemma processPendingRequests_run g :
  held g = [] →
  processPendingRequests g = Done (tt, set_rs_sendCh
    (queue_all ((leave_envelope <$> pendingLeaves g) ++
                (disconnect_envelope (cfg_ID (g_cfg g)) <$> pendingDisconnects g))
       (rs_sendCh g))
    (set_pendingDisconnects [] (set_pendingLeaves [] g))).
Proof.
  intros Hh. unfold processPendingRequests.
  assert (free PendingMu g) by (by apply no_locks_free). run_locks.
  rewrite (for_each_send _ leave_envelope) by done.
  rewrite (for_each_send _ (disconnect_envelope (cfg_ID (g_cfg g)))) by
    (intros x g' Hcfg; cbn in Hcfg; unfold disconnect_envelope; by rewrite <-Hcfg).
  unfold queue_all. by rewrite foldl_app.
Qed.

(** C32. The outage is made up for, as far as the queue to the roomserver
    has room: disconnects noticed in degraded mode are not sent but stored;
    when the link is back the stores are emptied, and of all stored leaves
    followed by all stored disconnects, in the order they were stored and
    each once, as many are queued behind what the queue holds as it has free
    slots.  When there are enough slots that is all of them; the others are
    dropped and forgotten.  (Nothing is taken from the queue meanwhile.
    Stored requests do not expire, against the design.) *)
Theorem degraded_requests_compensated (us : list (string * string)) g :
  held g = [] → g_status g = StatusDegraded →
  ∃ g1 g2,
    for_each (λ p, notifyDisconnect p.1 p.2) us g = Done (tt, g1) ∧
    rs_sendCh g1 = rs_sendCh g ∧
    (started ← SetNormal; if started : bool then processPendingRequests else mret tt) g1 =
      Done (tt, g2) ∧
    g_status g2 = StatusNormal ∧ pendingLeaves g2 = [] ∧ pendingDisconnects g2 = [] ∧
    let stored := (leave_envelope <$> pendingLeaves g) ++
      (disconnect_envelope (cfg_ID (g_cfg g)) <$> pendingDisconnects g ++
         ((λ p, mkPendingRequest p.1 p.2 PendingDisconnect (clock g)) <$> us)) in
    let free_slots := (ch_cap (rs_sendCh g) - length (ch_buf (rs_sendCh g)))%nat in
    ch_buf (rs_sendCh g2) = ch_buf (rs_sendCh g) ++ take free_slots stored ∧
    ((length stored ≤ free_slots)%nat →
       ch_buf (rs_sendCh g2) = ch_buf (rs_sendCh g) ++ stored).
Proof.
  assert (∀ es (ch : chan Envelope),
    ch_buf (queue_all es ch) = ch_buf ch ++ take (ch_cap ch - length (ch_buf ch)) es ∧
    ((length es ≤ ch_cap ch - length (ch_buf ch))%nat →
       ch_buf (queue_all es ch) = ch_buf ch ++ es)) as Hall.
  { intros es ch. rewrite queue_all_buf. split; [done|]. intros Hl. by rewrite take_ge. }
  intros Hh Hst. eexists. eexists. split; [by apply for_each_notify_degraded|].
  split; [done|]. unfold SetNormal, GetStatus, mbind, G_bind, mret, G_ret, gets, modify. cbn beta iota.
  rewrite decide_True by done. cbn beta iota. rewrite processPendingRequests_run by done.
  do 4 (split; [done|]). apply Hall.
Qed.

(** The shard of a user: the index is always in range, except for the
    ids whose 64-bit hash is the least integer, which is its own negation;
    these panic for every number of shards that is not a power of two. *)
Theorem shard_index_total u (n : nat) :
  (0 < n)%nat →
  (∃ i, shard_index u n = Done i ∧ (i < n)%nat) ↔
  (hashUserID u ≠ - 2 ^ 63 ∨ (Z.of_nat n | 2 ^ 63)).
Proof.
  intros Hn.
  assert (- 2 ^ 63 <= hashUserID u < 2 ^ 63 ∧ (hashUserID u < 0 → hashUserID u = - 2 ^ 63))
    as [Hrange Hneg].
  { unfold hashUserID. set (h := foldl _ _ _).
    assert (- 2 ^ 63 <= h < 2 ^ 63) as Hh.
    { subst h. destruct (runes (string_bytes u)) as [|c cs] using rev_ind; [done|].
      rewrite foldl_snoc. apply i64_range. }
    destruct (Z.ltb_spec h 0); [|split; lia].
    destruct (decide (h = - 2 ^ 63)) as [->|]; [by vm_compute|].
    rewrite i64_small by lia. split; lia. }
  unfold shard_index. rewrite decide_False by lia.
  pose proof (Z.rem_bound_abs (hashUserID u) (Z.of_nat n) ltac:(lia)) as Hb.
  destruct (decide (hashUserID u = - 2 ^ 63)) as [Hm|Hm].
  - rewrite Hm in *. split.
    + intros (i & Hi & _). right. destruct (Z.leb_spec 0 (Z.rem (- 2 ^ 63) (Z.of_nat n)));
        [|done]. assert (Z.rem (- 2 ^ 63) (Z.of_nat n) = 0) as Hz.
      { pose proof (Z.rem_nonpos (- 2 ^ 63) (Z.of_nat n)). lia. }
      apply Z.rem_divide in Hz; [|lia]. by apply Z.divide_opp_r in Hz.
    + intros [|Hd]; [done|]. assert (Z.rem (- 2 ^ 63) (Z.of_nat n) = 0) as ->.
      { apply Z.rem_divide; [lia|]. by apply Z.divide_opp_r. }
      exists 0%nat. split; [done|lia].
  - split; [by left|]. intros _.
    assert (0 <= hashUserID u) by (destruct (Z.lt_ge_cases (hashUserID u) 0); tauto || lia).
    pose proof (Z.rem_nonneg (hashUserID u) (Z.of_nat n) ltac:(lia) ltac:(lia)).
    rewrite (proj2 (Z.leb_le _ _)) by done. eexists. split; [done|]. lia.
Qed.
End properties.

(** ** Locks of single users *)
(** [GetUserLock] on the table [userLocks]: a lock is a number, allocated at
    the first call for a user.  Nothing calls it. *)
Definition GetUserLock (userID : string) (userLocks : gmap string nat) :
    nat * gmap string nat :=
  match userLocks !! userID with
  | Some lock => (lock, userLocks)
  | None =>
    let lock := fresh (map_img userLocks : gset nat) in
    (lock, <[userID := lock]> userLocks)
  end.

(** One lock per user: the lock of a user never changes, and two users
    never share one. *)
Theorem GetUserLock_exclusive userID (locks : gmap string nat) :
  (∀ u1 u2 l, locks !! u1 = Some l → locks !! u2 = Some l → u1 = u2) →
  let '(lock, locks') := GetUserLock userID locks in
  locks' !! userID = Some lock ∧ locks ⊆ locks' ∧
  (∀ u1 u2 l, locks' !! u1 = Some l → locks' !! u2 = Some l → u1 = u2).
Proof.
  intros Hinj. unfold GetUserLock. destruct (locks !! userID) as [l|] eqn:E; [done|].
  cbv zeta. set (lock := fresh _).
  assert (∀ u, locks !! u ≠ Some lock) as Hf.
  { intros u Hu. apply (is_fresh (map_img locks : gset nat)). by eapply elem_of_map_img_2. }
  split; [apply lookup_insert_eq|]. split; [by apply insert_subseteq|].
  intros u1 u2 l [[<- <-]|[_ H1]]%lookup_insert_Some [[<- H2]|[_ H2]]%lookup_insert_Some;
    subst; try done; [by destruct (Hf u2)|by destruct (Hf u1)|by eapply Hinj].
Qed.

Lemma GetUserLock_exclusive_witness :
  let '(lock, locks') := GetUserLock "u1" ∅ in
  locks' !! "u1"%string = Some lock ∧ ∅ ⊆ locks' ∧
  (∀ u1 u2 l, locks' !! u1 = Some l → locks' !! u2 = Some l → u1 = u2).
Proof. apply (GetUserLock_exclusive "u1" ∅). by intros u1 u2 l ?%lookup_empty_Some. Defined.

(** ** Concrete instances *)
Section examples.
Import ToyCodec.
#[local] Existing Instance default_order.

Definition demo_protection : ProtectionConfig :=
  mkProtectionConfig (f64_const 1 2) (f64_const 8 10) (f64_const 95 100)
    30000000000 50 10.

Definition demo_gw_cfg : GatewayConfig :=
  mkGatewayConfig "gw-1" ":8080" 10 100 demo_conn_cfg demo_protection.

(** A gateway with the connection object 0 of "u1", not yet registered ... *)
Definition demo_fresh : Gateway :=
  set_objects {[0%nat := NewConnection "u1" "c1" demo_conn_cfg]} (NewGateway demo_gw_cfg 0).

Definition demo_shard : nat :=
  match shard_index "u1" 10 with Done i => i | _ => 0%nat end.

(** ... and registered. *)
Definition demo_gw : Gateway :=
  added 0 (NewConnection "u1" "c1" demo_conn_cfg) demo_shard demo_fresh.

(** "u1" confirmed in "r1". *)
Definition demo_conn : Connection :=
  set_c_distributor (Some demo_shard) (NewConnection "u1" "c1" demo_conn_cfg).
Definition demo_in_room (js : JoinState) : Gateway :=
  set_localRooms {["r1"%string := {["u1"%string]}]}
    (set_objects (<[0%nat := set_c_join js "r1" demo_conn]> (objects demo_gw)) demo_gw).

Lemma demo_fresh_wf : gw_wf demo_fresh.
Proof.
  destruct (gw_wf_new demo_gw_cfg 0) as (Hreg & Hdis & Hloc). split_and!; [|done|done].
  intros u ref Hu. cbn in Hu. by rewrite lookup_empty in Hu.
Qed.

Lemma demo_gw_wf : gw_wf demo_gw.
Proof.
  apply added_wf; [apply demo_fresh_wf|done|done|done| |by vm_compute].
  intros u. cbn. by rewrite lookup_empty.
Qed.

Lemma demo_in_room_wf js : gw_wf (demo_in_room js).
Proof.
  pose proof (gw_wf_put demo_gw 0%nat demo_conn (set_c_join js "r1" demo_conn)
    ltac:(by vm_compute) eq_refl eq_refl eq_refl demo_gw_wf) as Hwf.
  by eapply gw_wf_same, Hwf.
Qed.

Lemma AddConnection_registers_witness :
  let c := NewConnection "u1" "c1" demo_conn_cfg in
  match shard_index "u1" 10 with
  | Done i => ∃ g', AddConnection 0%nat demo_fresh = Done (tt, g') ∧ gw_wf g' ∧ held g' = [] ∧
      connections g' = <["u1" := 0%nat]> (connections demo_fresh) ∧ "u1" ∈ localUsers g' ∧
      ∀ j d, distributors g' !! j = Some d → (d_conns d !! "u1" = Some 0%nat ↔ j = i)
  | Panic w => AddConnection 0%nat demo_fresh = Panic w
  | Deadlock _ => False
  end.
Proof.
  apply (AddConnection_registers 0%nat (NewConnection "u1" "c1" demo_conn_cfg) demo_fresh);
    [apply demo_fresh_wf|done|done|done| |done].
  intros u. cbn. by rewrite lookup_empty.
Defined.

(** "u1" logs in again on the connection object 1. *)
Lemma AddConnection_replacing_deadlocks_witness :
  let c := NewConnection "u1" "c2" demo_conn_cfg in
  AddConnection 1%nat (set_objects (<[1%nat := c]> (objects demo_gw)) demo_gw) =
    Deadlock "connsMu".
Proof.
  apply (AddConnection_replacing_deadlocks 1%nat (NewConnection "u1" "c2" demo_conn_cfg)
    0%nat demo_conn); by vm_compute.
Defined.

Lemma Close_cleans_up_witness :
  let g := demo_in_room JoinStateConfirmed in
  ∃ g', Close 0%nat "read_error" g = Done (tt, g') ∧ gw_wf g' ∧ held g' = [] ∧
    connections g' = delete "u1" (connections g) ∧ "u1" ∉ localUsers g' ∧
    (∀ j d, distributors g' !! j = Some d → d_conns d !! "u1" = None) ∧
    gauge g' = gauge g - 1 ∧
    ("r1"%string ≠ ""%string → JoinStateConfirmed = JoinStateConfirmed →
      localRooms g' = remove_from_room "r1" "u1" (localRooms g) ∧
      if decide (g_status g = StatusDegraded)
      then pendingDisconnects g' = pendingDisconnects g ++
             [mkPendingRequest "u1" "r1" PendingDisconnect (clock g)]
      else rs_sendCh g' = sent (mkEnvelope InternalMsgDisconnect (Encode_
             (mkDisconnectNotify "u1" "r1" "gw-1" None))) (rs_sendCh g)).
Proof.
  apply (Close_cleans_up 0%nat (set_c_join JoinStateConfirmed "r1" demo_conn) "read_error");
    [apply demo_in_room_wf|by vm_compute..].
Defined.

Lemma Close_while_pending_leaks_witness :
  let g := demo_in_room JoinStatePending in
  ∃ g', Close 0%nat "read_error" g = Done (tt, g') ∧
    connections g' !! "u1" = None ∧ localRooms g' !! "r1" = Some {["u1"%string]} ∧
    rs_sendCh g' = rs_sendCh g ∧ pendingDisconnects g' = pendingDisconnects g.
Proof.
  apply (Close_while_pending_leaks 0%nat (set_c_join JoinStatePending "r1" demo_conn)
    "read_error" (demo_in_room JoinStatePending) "r1" {["u1"%string]});
    [apply demo_in_room_wf|by vm_compute|by vm_compute|by vm_compute|done|by vm_compute|].
  set_solver.
Defined.

Lemma closeAllConnections_empties_witness :
  ∃ g', closeAllConnections demo_gw = Done (tt, g') ∧ gw_wf g' ∧ connections g' = ∅ ∧
    gauge g' = gauge demo_gw - Z.of_nat (size (connections demo_gw)).
Proof. apply closeAllConnections_empties; [apply demo_gw_wf|done]. Defined.

Lemma degraded_requests_compensated_witness :
  let g := set_g_status StatusDegraded (NewGateway demo_gw_cfg 7) in
  ∃ g1 g2,
    for_each (λ p, notifyDisconnect p.1 p.2) [("u1", "r1")]%string g = Done (tt, g1) ∧
    rs_sendCh g1 = rs_sendCh g ∧
    (started ← SetNormal; if started : bool then processPendingRequests else mret tt) g1 =
      Done (tt, g2) ∧
    g_status g2 = StatusNormal ∧ pendingLeaves g2 = [] ∧ pendingDisconnects g2 = [] ∧
    let stored := (leave_envelope <$> pendingLeaves g) ++
      (disconnect_envelope (cfg_ID (g_cfg g)) <$> pendingDisconnects g ++
         ((λ p, mkPendingRequest p.1 p.2 PendingDisconnect (clock g)) <$>
            [("u1", "r1")]%string)) in
    let free_slots := (ch_cap (rs_sendCh g) - length (ch_buf (rs_sendCh g)))%nat in
    ch_buf (rs_sendCh g2) = ch_buf (rs_sendCh g) ++ take free_slots stored ∧
    ((length stored ≤ free_slots)%nat →
       ch_buf (rs_sendCh g2) = ch_buf (rs_sendCh g) ++ stored).
Proof. by apply degraded_requests_compensated. Defined.

(** The id "7jykwhuswmnjf" panics with the ten shards of the shipped
    configuration. *)
Lemma shard_index_total_witness :
  (∃ i, shard_index "7jykwhuswmnjf" 10 = Done i ∧ (i < 10)%nat) ↔
  (hashUserID "7jykwhuswmnjf" ≠ - 2 ^ 63 ∨ (Z.of_nat 10 | 2 ^ 63)).
Proof. apply shard_index_total. lia. Defined.

Example min_hash_panics : shard_index "7jykwhuswmnjf" 10 = Panic "index out of range".
Proof. reflexivity. Qed.
End examples.
