(* ===== verification/GwLogic.v ===== *)
(** A small Hoare logic for the handlers of the gateway: what a handler that
    returns has kept of an invariant of the gateway, and what it says of the
    value it returns.  Typing.v and Requested.v are built on it. *)

From Stdlib Require Import ZArith Lia.
From stdpp Require Import base tactics gmap strings numbers list.
From S2P Require Import Prelude GoInt Protocol Frame Chan Connection Gateway.

Local Open Scope Z_scope.

Section logic.
(** The invariant; it says nothing about the locks that are held. *)
Context (P : Gateway → Prop).
Implicit Types (g : Gateway) (ref : CRef).

(** From any state with the invariant: it still holds if the handler
    returns, and [Q] holds of the value. *)
Definition ensures {A} (m : G A) (Q : A → Prop) : Prop :=
  ∀ g a g', P g → m g = Done (a, g') → P g' ∧ Q a.

Definition preserves {A} (m : G A) : Prop := ensures m (λ _, True).

Lemma preserves_run {A} (m : G A) g a g' : preserves m → P g → m g = Done (a, g') → P g'.
Proof. intros Hm Hg Hrun. by destruct (Hm g a g' Hg Hrun). Qed.

Lemma ensures_weaken {A} (m : G A) (Q Q' : A → Prop) :
  ensures m Q → (∀ a, Q a → Q' a) → ensures m Q'.
Proof. intros Hm HQ g a g' Hg Hrun. destruct (Hm g a g' Hg Hrun). auto. Qed.

Lemma ensures_preserves {A} (m : G A) Q : ensures m Q → preserves m.
Proof. intros Hm. by eapply ensures_weaken. Qed.

Lemma ensures_ret {A} (a : A) (Q : A → Prop) : Q a → ensures (mret a) Q.
Proof. intros HQ g ? ? Hg [= -> ->]. done. Qed.

Lemma ensures_bind {A B} (m : G A) (f : A → G B) Q Q' :
  ensures m Q → (∀ a, Q a → ensures (f a) Q') → ensures (m ≫= f) Q'.
Proof.
  intros Hm Hf g b g'' Hg. unfold mbind, G_bind.
  destruct (m g) as [[a g']| |] eqn:E; try done.
  destruct (Hm g a g' Hg E). by apply Hf.
Qed.

Lemma preserves_ret {A} (a : A) : preserves (mret a).
Proof. apply ensures_ret. exact I. Qed.

Lemma preserves_bind {A B} (m : G A) (f : A → G B) :
  preserves m → (∀ a, preserves (f a)) → preserves (m ≫= f).
Proof. intros Hm Hf. eapply ensures_bind; [exact Hm|]. intros a _. apply Hf. Qed.

(** A computation that does not touch the gateway. *)
Lemma preserves_lift_then {A B} (m : outcome A) (f : A → G B) :
  (∀ a, m = Done a → preserves (f a)) → preserves (x ← lift m; f x).
Proof.
  intros Hf g b g' Hg. unfold mbind, G_bind, lift. destruct m as [a| |]; try done.
  cbn. by apply (Hf a).
Qed.

Lemma preserves_lift {A} (m : outcome A) : preserves (lift m).
Proof.
  intros g a g' Hg. unfold lift. destruct m; try done. cbn. by intros [= <- <-].
Qed.

Lemma ensures_gets {A} (f : Gateway → A) (Q : A → Prop) :
  (∀ g, P g → Q (f g)) → ensures (gets f) Q.
Proof. intros HQ g ? ? Hg [= <- <-]. auto. Qed.

Lemma preserves_gets {A} (f : Gateway → A) : preserves (gets f).
Proof. apply ensures_gets. intros. exact I. Qed.

Lemma preserves_modify (f : Gateway → Gateway) : (∀ g, P g → P (f g)) → preserves (modify f).
Proof. intros Hf g ? ? Hg [= <- <-]. split; auto. Qed.

(** The value that is read is one of a state with the invariant. *)
Lemma ensures_get_c ref (Q : Connection → Prop) :
  (∀ g c, P g → objects g !! ref = Some c → Q c) → ensures (get_c ref) Q.
Proof.
  intros HQ g ? ? Hg. unfold get_c. destruct (objects g !! ref) as [c|] eqn:Hc; [|done].
  intros [= <- <-]. eauto.
Qed.

Lemma preserves_get_c ref : preserves (get_c ref).
Proof. apply ensures_get_c. intros. exact I. Qed.

Lemma preserves_for_each {A} (f : A → G unit) xs :
  (∀ x, x ∈ xs → preserves (f x)) → preserves (for_each f xs).
Proof.
  intros Hf. induction xs as [|x xs IH]; cbn [for_each]; [apply preserves_ret|].
  apply preserves_bind; [apply Hf; by left|intros _].
  apply IH. intros y Hy. apply Hf. by right.
Qed.

(** ** Locks *)
Section locks.
Context (P_held : ∀ h g, P g → P (set_held h g)).

Lemma preserves_lock l : preserves (lock l).
Proof. intros g ? ? Hg. unfold lock. case_decide; [done|]. intros [= <- <-]. auto. Qed.

Lemma preserves_rlock l : preserves (rlock l).
Proof. intros g ? ? Hg. unfold rlock. case_decide; [done|]. intros [= <- <-]. auto. Qed.

Lemma preserves_unlock l : preserves (unlock l).
Proof. apply preserves_modify. intros. by apply P_held. Qed.

Lemma preserves_runlock l : preserves (runlock l).
Proof. apply preserves_modify. intros. by apply P_held. Qed.

Lemma ensures_with_lock {A} l (m : G A) Q : ensures m Q → ensures (with_lock l m) Q.
Proof.
  intros Hm. unfold with_lock. eapply ensures_bind; [apply preserves_lock|intros _ _].
  eapply ensures_bind; [exact Hm|intros a Ha].
  eapply ensures_bind; [apply preserves_unlock|intros _ _]. by apply ensures_ret.
Qed.

Lemma ensures_with_rlock {A} l (m : G A) Q : ensures m Q → ensures (with_rlock l m) Q.
Proof.
  intros Hm. unfold with_rlock. eapply ensures_bind; [apply preserves_rlock|intros _ _].
  eapply ensures_bind; [exact Hm|intros a Ha].
  eapply ensures_bind; [apply preserves_runlock|intros _ _]. by apply ensures_ret.
Qed.
End locks.
End logic.

Arguments preserves_run {P A}.
Arguments ensures_bind {P A B}.
