(* ===== verification/Distributor.v ===== *)
(** [internal/gateway/distributor.go]: the fan-out shards of the gateway. *)

From Stdlib Require Import ZArith Lia SpecFloat.
From stdpp Require Import base tactics gmap strings numbers list.
From S2P Require Import Prelude GoInt Protocol Frame Chan Connection Gateway.

Local Open Scope Z_scope.

Definition priorityName (p : Z) : string :=
  if p =? PriorityCritical then "critical"
  else if p =? PriorityHigh then "high"
  else if p =? PriorityNormal then "normal"
  else if p =? PriorityLow then "low"
  else "unknown".

(** The decision of [sendToConn] for a queue of the given usage; a larger
    priority number is less important. *)
Definition shouldDrop (warning severe critical usage : float64) (priority : Z) : bool :=
  if f64_ge usage critical then PriorityCritical <? priority
  else if f64_ge usage severe then PriorityHigh <? priority
  else if f64_ge usage warning then PriorityNormal <? priority
  else false.

Section distributor.
Context `{Msgpack LeaveRoomRequest, Msgpack DisconnectNotify} `{MapOrder}.

Definition Enqueue (i : nat) (msg : DispatchMessage) : G bool := λ g,
  match distributors g !! i with
  | None => Panic "index out of range"
  | Some d =>
    let ready := bool_decide (length (ch_buf (d_inputQueue d)) < ch_cap (d_inputQueue d))%nat in
    Done (ready, set_distributors
      (alter (λ d, mkDistributor (d_id d) (sent msg (d_inputQueue d)) (d_conns d)) i
         (distributors g)) g)
  end.

Definition checkAndCloseSlowConn (ref : CRef) : G unit :=
  conn ← get_c ref;
  prot ← gets (λ g, cfg_Protection (g_cfg g));
  now ← gets clock;
  let h := c_health conn in
  if MaxConsecutiveDrops prot <=? ConsecutiveDrops h
  then Close ref "consecutive_drops_exceeded"
  else if negb (is_zero_time (QueueFullSince h)) then
    if QueueFullTimeout prot <=? time_since now (QueueFullSince h)
    then Close ref "queue_full_timeout"
    else mret tt
  else mret tt.

Definition sendToConn (ref : CRef) (msg : DispatchMessage) : G unit :=
  conn ← get_c ref;
  prot ← gets (λ g, cfg_Protection (g_cfg g));
  if shouldDrop (QueueWarningRatio prot) (QueueSevereRatio prot) (QueueCriticalRatio prot)
       (QueueUsage conn) (dm_Priority msg)
  then
    update_c ref (λ c, set_c_health (count_drop (c_health c)) c);;
    checkAndCloseSlowConn ref
  else
    ok ← send_c ref (dm_Payload msg);
    if ok : bool then mret tt else checkAndCloseSlowConn ref.

Definition get_d (i : nat) : G Distributor := λ g,
  match distributors g !! i with
  | Some d => Done (d, g)
  | None => Panic "index out of range"
  end.

Definition dispatch (i : nat) (msg : DispatchMessage) : G unit :=
  rlock (DistributorMu i);;
  d ← get_d i;
  (if (0 <? length (dm_UserIDs msg))%nat then
     for_each (λ userID, match d_conns d !! userID with
                         | Some conn => sendToConn conn msg
                         | None => mret tt
                         end) (dm_UserIDs msg)
   else for_each (λ uc, sendToConn uc.2 msg) (range_map (d_conns d)));;
  runlock (DistributorMu i).

(** One iteration of [Run]: take a message and dispatch it; [None] while
    the queue is empty. *)
Definition Run_step (i : nat) (g : Gateway) : option (outcome (unit * Gateway)) :=
  match distributors g !! i with
  | None => None
  | Some d =>
    match ch_buf (d_inputQueue d) with
    | [] => None
    | msg :: buf =>
      let g := set_distributors (alter (λ d, mkDistributor (d_id d)
        (mkChan buf (ch_cap (d_inputQueue d)) (ch_closed (d_inputQueue d))) (d_conns d)) i
        (distributors g)) g in
      Some (dispatch i msg g)
    end
  end.

Definition GetConnsForRoom (i : nat) (roomUsers : gset string) : G (list CRef) :=
  rlock (DistributorMu i);;
  d ← get_d i;
  runlock (DistributorMu i);;
  mret (omap (λ userID, d_conns d !! userID) (range_set roomUsers)).
End distributor.

Section runs.
Context `{Msgpack LeaveRoomRequest, Msgpack DisconnectNotify} `{MapOrder}.
Implicit Types (g : Gateway) (u : string) (ref : CRef) (c : Connection).

(** Closing a registered connection while its distributor is locked. *)
Lemma Close_deadlocks ref c i reason g :
  objects g !! ref = Some c → c_closeOnce c = false →
  connections g !! c_UserID c = Some ref → c_distributor c = Some i →
  free ConnsMu g → ¬ free (DistributorMu i) g →
  Close ref reason g = Deadlock "Distributor.mu".
Proof.
  intros Hc Ho Hu Hi Hf Hd. unfold Close, put_c. run_locks. rewrite Ho.
  set (g1 := set_gauge _ _). assert (free ConnsMu g1) by done.
  unfold RemoveConnection. run_locks. cbn [connections set_held g1 set_gauge set_objects].
  rewrite Hu. run_locks.
  rewrite (get_c_run ref _ (set_c_closed c)) by (cbn; apply lookup_insert_eq).
  cbn beta iota. cbn [c_distributor set_c_closed]. rewrite Hi. unfold RemoveConn. run_locks.
  unfold lock at 1. rewrite decide_True; [done|].
  unfold free in Hd. cbn. by destruct (decide (DistributorMu i ∈ (held g).*1)).
Qed.

(** [sendToConn] up to the point where a slow connection is looked at. *)
Definition dropped ref c g : Gateway :=
  set_objects (<[ref := set_c_health (count_drop (c_health c)) c]> (objects g)) g.

Definition drops c (msg : DispatchMessage) (prot : ProtectionConfig) : bool :=
  shouldDrop (QueueWarningRatio prot) (QueueSevereRatio prot) (QueueCriticalRatio prot)
    (QueueUsage c) (dm_Priority msg).

Lemma sendToConn_dropped ref c msg g :
  objects g !! ref = Some c → drops c msg (cfg_Protection (g_cfg g)) = true →
  sendToConn ref msg g = checkAndCloseSlowConn ref (dropped ref c g).
Proof.
  intros Hc Hd. unfold sendToConn, update_c, put_c. run_locks.
  unfold drops in Hd. rewrite Hd. by run_locks.
Qed.

Lemma sendToConn_sent ref c msg g :
  objects g !! ref = Some c → drops c msg (cfg_Protection (g_cfg g)) = false →
  sendToConn ref msg g =
    let '(ok, c') := Send (dm_Payload msg) (clock g) c in
    let g' := set_objects (<[ref := c']> (objects g)) g in
    if ok then Done (tt, g') else checkAndCloseSlowConn ref g'.
Proof.
  intros Hc Hd. unfold sendToConn, send_c, put_c. run_locks.
  unfold drops in Hd. rewrite Hd. run_locks.
  by destruct (Send (dm_Payload msg) (clock g) c) as [[] c'].
Qed.

(** The first failed delivery that exhausts the drops of a registered
    connection of the distributor in use. *)
Lemma sendToConn_deadlocks ref c i msg g :
  objects g !! ref = Some c → c_closeOnce c = false →
  connections g !! c_UserID c = Some ref → c_distributor c = Some i →
  free ConnsMu g → ¬ free (DistributorMu i) g →
  drops c msg (cfg_Protection (g_cfg g)) = true ∨ (Send (dm_Payload msg) (clock g) c).1 = false →
  MaxConsecutiveDrops (cfg_Protection (g_cfg g)) <= ConsecutiveDrops (c_health c) + 1 →
  sendToConn ref msg g = Deadlock "Distributor.mu".
Proof.
  intros Hc Ho Hu Hi Hf Hd Hdrop Hmax.
  assert (∀ c', c_UserID c' = c_UserID c → c_closeOnce c' = false → c_distributor c' = Some i →
    ConsecutiveDrops (c_health c') = ConsecutiveDrops (c_health c) + 1 →
    checkAndCloseSlowConn ref (set_objects (<[ref := c']> (objects g)) g) =
      Deadlock "Distributor.mu") as Hcheck.
  { intros c' Hu' Ho' Hi' Hcd. unfold checkAndCloseSlowConn, mbind, G_bind, gets.
    rewrite (get_c_run ref _ c') by (cbn; apply lookup_insert_eq). cbn beta iota.
    rewrite Hcd. cbn [g_cfg set_objects]. rewrite (proj2 (Z.leb_le _ _) Hmax).
    apply (Close_deadlocks ref c' i); cbn; try done; [apply lookup_insert_eq|by rewrite Hu']. }
  destruct (drops c msg (cfg_Protection (g_cfg g))) eqn:E.
  - rewrite (sendToConn_dropped ref c) by done. by apply Hcheck.
  - destruct Hdrop as [|Hs]; [done|]. rewrite (sendToConn_sent ref c) by done.
    unfold Send in *. case_decide; [done|]. cbn beta iota. apply Hcheck; [done..|].
    by destruct (is_zero_time _).
Qed.
End runs.

(** ** Deliveries without slow connections *)
Lemma for_each_fmap {A B} (f : A → B) (k : B → G unit) xs g :
  for_each (λ x, k (f x)) xs g = for_each k (f <$> xs) g.
Proof.
  revert g. induction xs as [|x xs IH]; intros g; [done|]. cbn [for_each fmap list_fmap].
  unfold mbind, G_bind. destruct (k (f x) g) as [[[] g']|w|l]; [apply IH|done..].
Qed.

Lemma for_each_omap {A B} (f : A → option B) (k : B → G unit) xs g :
  for_each (λ x, match f x with Some y => k y | None => mret tt end) xs g =
  for_each k (omap f xs) g.
Proof.
  revert g. induction xs as [|x xs IH]; intros g; [done|]. cbn [for_each omap list_omap].
  destruct (f x) as [y|]; cbn [for_each]; unfold mbind, G_bind; [|apply IH].
  destruct (k y g) as [[[] g']|w|l]; [apply IH|done..].
Qed.

Section deliveries.
Context `{Msgpack LeaveRoomRequest, Msgpack DisconnectNotify} `{O : MapOrder}.
Implicit Types (g : Gateway) (u : string) (ref : CRef) (c : Connection).

(** The connection takes the message: neither the policy nor the queue
    refuses it. *)
Definition takes g (msg : DispatchMessage) ref : Prop :=
  ∃ c, objects g !! ref = Some c ∧ drops c msg (cfg_Protection (g_cfg g)) = false ∧
    (length (ch_buf (c_sendCh c)) < ch_cap (c_sendCh c))%nat.

(** [payload] is appended to the queue of the connections [refs]; nothing
    else of the state changes. *)
Definition delivered_to (refs : list CRef) (payload : list byte) g g' : Prop :=
  (∃ objs, g' = set_objects objs g) ∧
  ∀ ref, objects g' !! ref =
    if decide (ref ∈ refs) then (λ c, (Send payload (clock g) c).2) <$> objects g !! ref
    else objects g !! ref.

Lemma for_each_delivers msg refs g :
  NoDup refs → (∀ ref, ref ∈ refs → takes g msg ref) →
  ∃ g', for_each (λ ref, sendToConn ref msg) refs g = Done (tt, g') ∧
    delivered_to refs (dm_Payload msg) g g'.
Proof.
  intros Hnd. revert g. induction Hnd as [|ref refs Hnin Hnd IH]; intros g Ht.
  - exists g. split; [done|]. split; [exists (objects g); by destruct g|]. done.
  - destruct (Ht ref) as (c & Hc & Hd & Hl); [by left|]. cbn [for_each]. unfold mbind, G_bind.
    rewrite (sendToConn_sent ref c) by done. unfold Send at 1. rewrite decide_True by done.
    cbn beta iota. set (c' := set_c_health _ _). set (g1 := set_objects _ g).
    destruct (IH g1) as (g' & Hrun & [objs ->] & Hobj).
    { intros ref' Hin. destruct (Ht ref') as (c0 & ? & ? & ?); [by right|].
      exists c0. cbn. rewrite lookup_insert_ne; [done|]. by intros ->. }
    exists (set_objects objs g1). rewrite Hrun. split; [done|]. split; [by exists objs|].
    intros ref'. rewrite Hobj. cbn. destruct (decide (ref' = ref)) as [->|Hne].
    + rewrite decide_False, decide_True by (done || by left).
      rewrite lookup_insert_eq, Hc. cbn. unfold Send. by rewrite decide_True.
    + rewrite lookup_insert_ne by done. destruct (decide (ref' ∈ refs)).
      * by rewrite decide_True by (by right).
      * by rewrite decide_False by (by rewrite elem_of_cons; naive_solver).
Qed.

Lemma dispatch_run i d msg g (refs : list CRef) :
  free (DistributorMu i) g → distributors g !! i = Some d →
  (∀ g', for_each (λ ref, sendToConn ref msg) refs g' =
    (if (0 <? length (dm_UserIDs msg))%nat
     then for_each (λ userID, match d_conns d !! userID with
            | Some conn => sendToConn conn msg | None => mret tt end) (dm_UserIDs msg)
     else for_each (λ uc, sendToConn uc.2 msg) (range_map (d_conns d))) g') →
  NoDup refs → (∀ ref, ref ∈ refs → takes g msg ref) →
  ∃ g', dispatch i msg g = Done (tt, g') ∧ delivered_to refs (dm_Payload msg) g g'.
Proof.
  intros Hf Hd Hloop Hnd Ht. unfold dispatch, get_d. run_locks.
  cbn [distributors set_held]. rewrite Hd. cbn beta iota. rewrite <-Hloop.
  destruct (for_each_delivers msg refs (set_held ((DistributorMu i, Shared) :: held g) g))
    as (g' & -> & [objs ->] & Hobj); [done|done|].
  cbn beta iota. run_locks. eexists. split; [done|].
  split; [exists objs|done]. by destruct g.
Qed.
End deliveries.

(** ** Properties *)
Section properties.
Context `{Msgpack LeaveRoomRequest, Msgpack DisconnectNotify} `{O : MapOrder}.
Implicit Types (g : Gateway) (u : string) (ref : CRef) (c : Connection).

(** A distributor that meets a slow consumer it has to close blocks
    for ever: it closes the connection while it holds its own read lock,
    and closing takes the same lock for writing to drop the connection. *)
Theorem dispatch_slow_consumer_deadlocks i d u ref c msg g :
  gw_wf g → held g = [] → distributors g !! i = Some d → d_conns d !! u = Some ref →
  objects g !! ref = Some c → dm_UserIDs msg = [u] →
  drops c msg (cfg_Protection (g_cfg g)) = true ∨ (Send (dm_Payload msg) (clock g) c).1 = false →
  MaxConsecutiveDrops (cfg_Protection (g_cfg g)) <= ConsecutiveDrops (c_health c) + 1 →
  dispatch i msg g = Deadlock "Distributor.mu".
Proof.
  intros Hwf Hh Hd Hdc Hc Hus Hdrop Hmax.
  destruct (proj1 (proj2 Hwf) i d u ref Hd Hdc) as [Hu Hsh].
  destruct (proj1 Hwf u ref Hu) as (c' & i' & d' & Hc' & Hid & Ho & Hi & _ & _ & Hsh').
  assert (c' = c) as -> by congruence. assert (i' = i) as -> by congruence.
  assert (free (DistributorMu i) g) by (by apply no_locks_free).
  unfold dispatch, get_d. run_locks. cbn [distributors set_held]. rewrite Hd, Hus.
  cbn [length Nat.ltb Nat.leb for_each]. unfold mbind, G_bind. cbn beta iota. rewrite Hdc.
  rewrite (sendToConn_deadlocks ref c i); try done.
  - by rewrite Hid.
  - unfold free. cbn. rewrite Hh. set_solver.
  - unfold free. cbn. rewrite Hh. intros Hn. apply Hn. by left.
Qed.

(** A message without a user list reaches every connection of the
    shard, whatever its room id says: all of them get the payload exactly
    once and nothing else changes, as long as none is congested. *)
Theorem dispatch_broadcast_reaches_shard i d msg g :
  gw_wf g → held g = [] → distributors g !! i = Some d → dm_UserIDs msg = [] →
  (∀ u ref, d_conns d !! u = Some ref → takes g msg ref) →
  ∃ g', dispatch i msg g = Done (tt, g') ∧
    (∀ u ref, d_conns d !! u = Some ref →
       objects g' !! ref = (λ c, (Send (dm_Payload msg) (clock g) c).2) <$> objects g !! ref) ∧
    (∀ ref, (∀ u, d_conns d !! u ≠ Some ref) → objects g' !! ref = objects g !! ref).
Proof.
  intros Hwf Hh Hd Hus Ht.
  set (refs := snd <$> range_map (d_conns d)).
  assert (∀ ref, ref ∈ refs ↔ ∃ u, d_conns d !! u = Some ref) as Hin.
  { intros ref. unfold refs. rewrite list_elem_of_fmap. split.
    - intros ([u r] & -> & Hu%elem_of_range_map). by exists u.
    - intros [u Hu]. exists (u, ref). by rewrite elem_of_range_map. }
  assert (NoDup refs) as Hnd.
  { apply NoDup_fmap_2_strong; [|apply NoDup_fmap_1 with (f := fst), NoDup_range_keys].
    intros [u1 r1] [u2 r2] H1%elem_of_range_map H2%elem_of_range_map Heq. simpl in Heq. subst.
    destruct (proj1 (proj2 Hwf) i d u1 r2 Hd H1) as [Hc1 _].
    destruct (proj1 (proj2 Hwf) i d u2 r2 Hd H2) as [Hc2 _].
    f_equal. by eapply gw_wf_inj. }
  destruct (dispatch_run i d msg g refs) as (g' & Hrun & _ & Hobj); [by apply no_locks_free|
    done| |done| |].
  - intros g'. rewrite Hus. unfold refs. cbn [length Nat.ltb Nat.leb].
    symmetry. apply (for_each_fmap snd (λ ref, sendToConn ref msg)).
  - intros ref [u Hu]%Hin. eauto.
  - exists g'. split; [done|]. split; intros ref.
    + intros r Hu. rewrite Hobj, decide_True; [done|]. apply Hin. eauto.
    + intros Hno. rewrite Hobj, decide_False; [done|]. intros [u Hu]%Hin. by eapply Hno.
Qed.

(** The overload policy on the shipped configuration, for a queue of
    1024: from 512 messages on low priority is dropped, from 820 on normal,
    from 973 on high, and critical never; a less important message is
    dropped whenever a more important one is. *)
Theorem shouldDrop_shipped_thresholds (n : nat) (p : Z) :
  (n ≤ 1024)%nat →
  let usage := f64_div (f64_of_Z (Z.of_nat n)) (f64_of_Z 1024) in
  shouldDrop (f64_const 5 10) (f64_const 8 10) (f64_const 95 100) usage p =
    if (973 <=? n)%nat then PriorityCritical <? p
    else if (820 <=? n)%nat then PriorityHigh <? p
    else if (512 <=? n)%nat then PriorityNormal <? p
    else false.
Proof.
  intros Hn usage. unfold shouldDrop.
  assert (forallb (λ n,
    let usage := f64_div (f64_of_Z (Z.of_nat n)) (f64_of_Z 1024) in
    Bool.eqb (f64_ge usage (f64_const 95 100)) (973 <=? n)%nat &&
    Bool.eqb (f64_ge usage (f64_const 8 10)) (820 <=? n)%nat &&
    Bool.eqb (f64_ge usage (f64_const 5 10)) (512 <=? n)%nat) (seq 0 1025) = true) as Hall
    by (vm_compute; reflexivity).
  rewrite forallb_forall in Hall. specialize (Hall n).
  rewrite !andb_true_iff, !eqb_true_iff in Hall.
  destruct Hall as [[H1' H2'] H3']; [apply in_seq; lia|]. subst usage.
  by rewrite H1', H2', H3'.
Qed.
End properties.

(** ** Concrete instances *)
Section examples.
Import ToyCodec.
#[local] Existing Instance default_order.

Definition demo_dispatch (us : list string) : DispatchMessage :=
  mkDispatchMessage PriorityNormal [Byte.x2a] "r1" us.

Definition demo_d : Distributor :=
  default (NewDistributor 0 0) (distributors demo_gw !! demo_shard).

(** "u1" after 49 drops in a row, with a full queue. *)
Definition slow_conn : Connection :=
  set_c_health (mkConnHealth (Some 0) 49 49 0 0 None)
    (set_c_sendCh (mkChan (replicate 4 [Byte.x00]) 4 false) demo_conn).
Definition slow_gw : Gateway :=
  set_objects (<[0%nat := slow_conn]> (objects demo_gw)) demo_gw.

Lemma slow_gw_wf : gw_wf slow_gw.
Proof. apply (gw_wf_put demo_gw 0%nat demo_conn); [by vm_compute|done..|apply demo_gw_wf]. Qed.

Lemma dispatch_slow_consumer_deadlocks_witness :
  dispatch demo_shard (demo_dispatch ["u1"%string]) slow_gw = Deadlock "Distributor.mu".
Proof.
  apply (dispatch_slow_consumer_deadlocks demo_shard demo_d "u1" 0%nat slow_conn);
    [apply slow_gw_wf|done|by vm_compute|by vm_compute|by vm_compute|done| |].
  - left. by vm_compute.
  - vm_compute. discriminate.
Defined.

Lemma dispatch_broadcast_reaches_shard_witness :
  ∃ g', dispatch demo_shard (demo_dispatch []) demo_gw = Done (tt, g') ∧
    (∀ u ref, d_conns demo_d !! u = Some ref →
       objects g' !! ref =
         (λ c, (Send [Byte.x2a] (clock demo_gw) c).2) <$> objects demo_gw !! ref) ∧
    (∀ ref, (∀ u, d_conns demo_d !! u ≠ Some ref) →
       objects g' !! ref = objects demo_gw !! ref).
Proof.
  apply (dispatch_broadcast_reaches_shard demo_shard demo_d (demo_dispatch []) demo_gw);
    [apply demo_gw_wf|done|by vm_compute|done|].
  intros u ref Hu. assert (d_conns demo_d = {["u1"%string := 0%nat]}) as Hdc by by vm_compute.
  rewrite Hdc in Hu.
  apply lookup_singleton_Some in Hu as [<- <-]. exists demo_conn. split; [by vm_compute|].
  split; [by vm_compute|]. vm_compute. lia.
Defined.

Lemma shouldDrop_shipped_thresholds_witness :
  shouldDrop (f64_const 5 10) (f64_const 8 10) (f64_const 95 100)
    (f64_div (f64_of_Z (Z.of_nat 900)) (f64_of_Z 1024)) PriorityNormal = true.
Proof. apply (shouldDrop_shipped_thresholds 900 PriorityNormal). lia. Defined.
End examples.
