(* ===== verification/GatewayHandler.v ===== *)
(** [internal/gateway/handler.go], the dispatch of [connection.go], and
    [kafka_producer.go]: requests of clients, and the acknowledgements of the
    roomserver that finish them. *)

From Stdlib Require Import ZArith Lia.
From stdpp Require Import base tactics gmap strings numbers list.
From S2P Require Import Prelude GoInt Protocol Frame Chan Connection Gateway.

Local Open Scope Z_scope.

(** ** Payloads of client messages *)
Record RoomRequest := mkRoomRequest { rq_RoomID : string }.
(** The response to joins and to business requests. *)
Record StatusResponse := mkStatusResponse {
  sr_Success : bool; sr_Code : Z; sr_Message : string }.
Record LeaveResponse := mkLeaveResponse { lr_Success : bool }.

(** ** Business requests (kafka_producer.go) *)
Record BizMessage := mkBizMessage {
  biz_MsgID : string; biz_UserID : string; biz_RoomID : string; biz_Type : string;
  biz_Payload : list byte; biz_Seq : Z; biz_Time : Z }.

(** The Kafka writer of segmentio/kafka-go and encoding/json: an outcome for
    every message written, and the JSON text of a message. *)
Record KafkaProducer := mkKafkaProducer {
  kp_connected : bool;
  kp_json : BizMessage → option (list byte);
  kp_write : list byte → list byte → option string;     (* key, value ↦ error *)
}.

(** [KafkaProducer.Send]; [now_ms] and [msgID] are the clock reading and
    [generateMsgID()]. *)
Definition producer_Send (now_ms : Z) (msgID : string) (msg : BizMessage) (p : KafkaProducer) :
    option string :=
  let msg := mkBizMessage msgID (biz_UserID msg) (biz_RoomID msg) (biz_Type msg)
               (biz_Payload msg) (biz_Seq msg) now_ms in
  match kp_json p msg with
  | None => Some "json marshal error"%string
  | Some data => kp_write p (String.list_byte_of_string (biz_UserID msg)) data
  end.

(** One round of [checkConnection]: the write of the health-check message. *)
Definition checkConnection (p : KafkaProducer) : KafkaProducer :=
  let err := kp_write p (String.list_byte_of_string "health-check")
               (String.list_byte_of_string "ping") in
  mkKafkaProducer (match err with None => true | Some _ => false end) (kp_json p) (kp_write p).

Section handlers.
Context `{Msgpack RoomRequest, Msgpack StatusResponse, Msgpack LeaveResponse}.
Context `{Msgpack JoinRoomRequest, Msgpack LeaveRoomRequest, Msgpack ResumeRequest,
  Msgpack DisconnectNotify} `{MapOrder}.

(** ** Responses *)
Definition sendBizResponse (ref : CRef) (seq : Z) (success : bool) (code : Z)
    (message : string) : G unit :=
  let payload := Encode_ (mkStatusResponse success code message) in
  send_c ref (EncodeFrame (mkFrame MsgTypeBizResponse seq payload));; mret tt.

Definition sendHeartbeatResp (ref : CRef) : G unit :=
  send_c ref (EncodeFrame (mkFrame MsgTypeHeartbeatResp 0 []));; mret tt.

Definition sendJoinRoomResp (ref : CRef) (success : bool) (code : Z) (message : string) :
    G unit :=
  let payload := Encode_ (mkStatusResponse success code message) in
  send_c ref (EncodeFrame (mkFrame MsgTypeJoinRoomResp 0 payload));; mret tt.

Definition sendLeaveRoomResp (ref : CRef) (success : bool) : G unit :=
  let payload := Encode_ (mkLeaveResponse success) in
  send_c ref (EncodeFrame (mkFrame MsgTypeLeaveRoomResp 0 payload));; mret tt.

(** ** Requests *)
Definition handleJoinRoom (ref : CRef) (frame : Frame) : G unit :=
  match Decode (f_Payload frame) with
  | None => sendJoinRoomResp ref false ErrCodeInvalidRequest "decode_failed"
  | Some req =>
    st ← GetStatus;
    if decide (st = StatusDegraded)
    then sendJoinRoomResp ref false ErrCodeServiceDegraded "service_degraded"
    else
      update_c ref (set_c_join JoinStatePending (rq_RoomID req));;
      conn ← get_c ref;
      SendJoinRoom (c_UserID conn) (rq_RoomID req)
  end.

Definition handleLeaveRoom (ref : CRef) (frame : Frame) : G unit :=
  match Decode (f_Payload frame) with
  | None => mret tt
  | Some req =>
    conn ← get_c ref;
    RemoveUserFromRoom (rq_RoomID req) (c_UserID conn);;
    update_c ref (set_c_join JoinStateInit "");;
    st ← GetStatus;
    if decide (st = StatusDegraded) then
      with_lock PendingMu (modify (λ g, set_pendingLeaves
        (pendingLeaves g ++
           [mkPendingRequest (c_UserID conn) (rq_RoomID req) PendingLeave (clock g)]) g));;
      sendLeaveRoomResp ref true
    else SendLeaveRoom (c_UserID conn) (rq_RoomID req)
  end.

Definition handleResume (ref : CRef) (frame : Frame) : G unit :=
  match Decode (f_Payload frame) with
  | None => mret tt
  | Some req =>
    update_c ref (set_c_join JoinStatePending (rq_RoomID req));;
    conn ← get_c ref;
    SendResume (c_UserID conn) (rq_RoomID req)
  end.

(** The first room, in the order of the map, that lists the user. *)
Definition local_room_of (userID : string) (rooms : gmap string (gset string)) : string :=
  default ""%string (fst <$> List.find (λ ru, bool_decide (userID ∈ ru.2)) (range_map rooms)).

Definition handleHeartbeat (ref : CRef) (frame : Frame) : G unit :=
  match Decode (f_Payload frame) with
  | None => sendHeartbeatResp ref
  | Some req =>
    (if decide (rq_RoomID req ≠ ""%string) then
       conn ← get_c ref;
       rooms ← with_rlock LocalRoomsMu (gets localRooms);
       let localRoomID := local_room_of (c_UserID conn) rooms in
       if decide (localRoomID = ""%string) then
         update_c ref (set_c_join JoinStatePending (rq_RoomID req));;
         SendJoinRoom (c_UserID conn) (rq_RoomID req)
       else if decide (localRoomID ≠ rq_RoomID req) then
         SendLeaveRoom (c_UserID conn) localRoomID;;
         update_c ref (set_c_join JoinStatePending (rq_RoomID req));;
         SendJoinRoom (c_UserID conn) (rq_RoomID req)
       else mret tt
     else mret tt);;
    sendHeartbeatResp ref
  end.

(** [kafka] is [s.kafkaProducer], nil when Kafka is not configured. *)
Definition handleBizRequest (kafka : option KafkaProducer) (now_ms : Z) (msgID : string)
    (ref : CRef) (frame : Frame) : G unit :=
  match kafka with
  | None => sendBizResponse ref (f_Seq frame) false ErrCodeServiceDegraded "kafka_unavailable"
  | Some p =>
    if negb (kp_connected p)
    then sendBizResponse ref (f_Seq frame) false ErrCodeServiceDegraded "kafka_unavailable"
    else
      conn ← get_c ref;
      let msg := mkBizMessage "" (c_UserID conn) (c_RoomID conn) "" (f_Payload frame)
                   (f_Seq frame) 0 in
      match producer_Send now_ms msgID msg p with
      | Some _ => sendBizResponse ref (f_Seq frame) false ErrCodeInternalError "send_failed"
      | None => mret tt
      end
  end.

(** [Connection.handleMessage] *)
Definition handleMessage (kafka : option KafkaProducer) (now_ms : Z) (msgID : string)
    (ref : CRef) (data : list byte) : G unit :=
  res ← lift (DecodeFrame data);
  match res with
  | Err _ => mret tt
  | Ok frame =>
    let t := f_MsgType frame in
    if t =? MsgTypeJoinRoom then handleJoinRoom ref frame
    else if t =? MsgTypeLeaveRoom then handleLeaveRoom ref frame
    else if t =? MsgTypeResume then handleResume ref frame
    else if t =? MsgTypeHeartbeat then handleHeartbeat ref frame
    else if t =? MsgTypeBizRequest then handleBizRequest kafka now_ms msgID ref frame
    else mret tt
  end.

(** One iteration of [Connection.readLoop]: [None] is a read error; the
    flag says whether the loop goes on. *)
Definition readLoop_step (kafka : option KafkaProducer) (now_ms : Z) (msgID : string)
    (ref : CRef) (read : option (list byte)) : G bool :=
  conn ← get_c ref;
  if c_closeCh conn then Close ref "read_error";; mret false
  else match read with
  | None => Close ref "read_error";; mret false
  | Some data => handleMessage kafka now_ms msgID ref data;; mret true
  end.

(** ** Acknowledgements *)
Definition OnJoinRoomAck (userID roomID : string) (success : bool) (code : Z)
    (message : string) : G unit :=
  conn ← GetConnection userID;
  match conn with
  | None => mret tt
  | Some ref =>
    (if success then
       update_c ref (set_c_join JoinStateConfirmed roomID);;
       AddUserToRoom roomID userID
     else update_c ref (set_c_join JoinStateInit ""));;
    sendJoinRoomResp ref success code message
  end.

Definition OnLeaveRoomAck (userID roomID : string) (success : bool) : G unit :=
  conn ← GetConnection userID;
  RemoveUserFromRoom roomID userID;;
  match conn with
  | None => mret tt
  | Some ref =>
    update_c ref (set_c_join JoinStateInit "");;
    sendLeaveRoomResp ref success
  end.
End handlers.

(** ** Handlers that keep the gateway well-formed and release their locks *)

Lemma lift_run {A} (m : outcome A) (a : A) (g : Gateway) : m = Done a → lift m g = Done (a, g).
Proof. by intros ->. Qed.

(** The goroutines of a connection run from its registration on. *)
Definition started (ref : CRef) (g : Gateway) : Prop :=
  ∃ c, objects g !! ref = Some c ∧
    (c_closeOnce c = true ∨ connections g !! c_UserID c = Some ref).

Definition calm_gw (ref : CRef) (g : Gateway) : Prop :=
  gw_wf g ∧ held g = [] ∧ started ref g.

Definition keeps {A} (ref : CRef) (m : G A) : Prop :=
  ∀ g, calm_gw ref g → ∃ a g', m g = Done (a, g') ∧ calm_gw ref g'.

Create HintDb keeps.

Section keeps.
Context `{Msgpack LeaveRoomRequest, Msgpack DisconnectNotify} `{O : MapOrder}.
Implicit Types (ref : CRef) (g : Gateway).

Lemma keeps_ret {A} ref (a : A) : keeps ref (mret a).
Proof. intros g Hg. by exists a, g. Qed.

Lemma keeps_bind {A B} ref (m : G A) (f : A → G B) :
  keeps ref m → (∀ a, keeps ref (f a)) → keeps ref (m ≫= f).
Proof.
  intros Hm Hf g (a & g' & Hr & Hg')%Hm. unfold mbind, G_bind. rewrite Hr. by apply Hf.
Qed.

(** Decoding returns, whatever the bytes. *)
Lemma keeps_DecodeFrame ref data : keeps ref (lift (DecodeFrame data)).
Proof.
  intros g Hg. destruct (DecodeFrame_returns data) as [r Hr]. exists r, g.
  unfold lift. by rewrite Hr.
Qed.

Lemma keeps_gets {A} ref (f : Gateway → A) : keeps ref (gets f).
Proof. intros g Hg. by exists (f g), g. Qed.

(** A change of anything but connections and locks. *)
Lemma keeps_modify ref (f : Gateway → Gateway) :
  (∀ g, connections (f g) = connections g ∧ objects (f g) = objects g ∧
        distributors (f g) = distributors g ∧ localUsers (f g) = localUsers g ∧
        held (f g) = held g) → keeps ref (modify f).
Proof.
  intros Hf g (Hwf & Hh & Hr). destruct (Hf g) as (H1 & H2 & H3 & H4 & H5).
  exists tt, (f g). split; [done|]. split_and!; [by eapply gw_wf_same|congruence|].
  unfold started in *. by rewrite H1, H2.
Qed.

Lemma keeps_get_c ref : keeps ref (get_c ref).
Proof.
  intros g Hg. pose proof Hg as (_ & _ & (c & Hc & _)). exists c, g.
  by rewrite (get_c_run ref g c).
Qed.

Lemma calm_gw_put ref g c c' :
  objects g !! ref = Some c → c_UserID c' = c_UserID c → c_closeOnce c' = c_closeOnce c →
  c_distributor c' = c_distributor c → calm_gw ref g →
  calm_gw ref (set_objects (<[ref := c']> (objects g)) g).
Proof.
  intros Hc Hu Ho Hd (Hwf & Hh & (c0 & Hc0 & Hst)). split_and!; [by apply (gw_wf_put g ref c)|done|].
  exists c'. cbn. rewrite lookup_insert_eq, Hu, Ho. by simplify_eq.
Qed.

Lemma keeps_update_join ref js rid : keeps ref (update_c ref (set_c_join js rid)).
Proof.
  intros g Hg. pose proof Hg as (_ & _ & (c & Hc & _)). eexists _, _. split.
  - unfold update_c, put_c. by run_locks.
  - by apply (calm_gw_put _ _ c).
Qed.

Lemma send_c_run ref data g c :
  objects g !! ref = Some c →
  send_c ref data g = Done ((Send data (clock g) c).1,
    set_objects (<[ref := (Send data (clock g) c).2]> (objects g)) g).
Proof.
  intros Hc. unfold send_c, put_c. run_locks. by destruct (Send data (clock g) c).
Qed.

Lemma keeps_send_c ref data : keeps ref (send_c ref data).
Proof.
  intros g Hg. pose proof Hg as (_ & _ & (c & Hc & _)). rewrite (send_c_run _ _ _ c) by done.
  eexists _, _. split; [done|].
  destruct (Send_frame data (clock g) c) as (? & _ & _ & ? & ? & _). by apply (calm_gw_put _ _ c).
Qed.

Lemma keeps_RemoveUserFromRoom ref rid u : keeps ref (RemoveUserFromRoom rid u).
Proof.
  intros g Hg. rewrite RemoveUserFromRoom_run by (apply no_locks_free, Hg).
  eexists _, _. split; [done|]. destruct Hg as (? & ? & ?). split_and!; [by eapply gw_wf_same|done..].
Qed.

Lemma keeps_AddUserToRoom ref rid u : keeps ref (AddUserToRoom rid u).
Proof.
  intros g Hg. rewrite AddUserToRoom_run by (apply no_locks_free, Hg).
  eexists _, _. split; [done|]. destruct Hg as (? & ? & ?). split_and!; [by eapply gw_wf_same|done..].
Qed.

Lemma keeps_Close ref reason : keeps ref (Close ref reason).
Proof.
  intros g Hg. pose proof Hg as (Hwf & Hh & (c & Hc & [Ho|Hu])).
  - exists tt, g. by rewrite (Close_again ref c).
  - destruct (proj1 Hwf _ _ Hu) as (c' & i & d & Hc' & _ & Ho & _).
    assert (c' = c) as -> by congruence. exists tt, (closed ref c g).
    rewrite (Close_run ref c) by (try done; try (by apply no_locks_free);
      try (by apply gw_wf_exist); intros; by apply no_locks_free).
    destruct (closed_fields ref c g) as (_ & Hobj & _ & Hhe). split; [done|].
    split_and!; [by apply closed_wf|congruence|]. exists (set_c_closed c).
    rewrite Hobj, lookup_insert_eq. by split; [|left].
Qed.

Lemma keeps_with_lock_modify ref l (f : Gateway → Gateway) :
  (∀ h g, f (set_held h g) = set_held h (f g)) →
  (∀ g, connections (f g) = connections g ∧ objects (f g) = objects g ∧
        distributors (f g) = distributors g ∧ localUsers (f g) = localUsers g ∧
        held (f g) = held g) → keeps ref (with_lock l (modify f)).
Proof.
  intros Hset Hf g Hg. rewrite with_lock_modify;
    [|apply no_locks_free, Hg|intros; apply Hset|apply Hf].
  apply (keeps_modify ref f Hf g Hg).
Qed.

Lemma keeps_with_rlock_gets {A} ref l (f : Gateway → A) :
  (∀ h g, f (set_held h g) = f g) → keeps ref (with_rlock l (gets f)).
Proof.
  intros Hf g Hg. rewrite with_rlock_gets; [|apply no_locks_free, Hg|intros; apply Hf].
  by exists (f g), g.
Qed.

Lemma keeps_GetConnection ref u : keeps ref (GetConnection u).
Proof.
  intros g Hg. unfold GetConnection. assert (free ConnsMu g) by apply no_locks_free, Hg.
  run_locks. eexists _, g. split; [|done]. do 2 f_equal. exact (set_held_id g).
Qed.
End keeps.

#[export] Hint Resolve keeps_ret keeps_gets keeps_get_c keeps_update_join keeps_send_c
  keeps_RemoveUserFromRoom keeps_AddUserToRoom keeps_Close keeps_GetConnection : keeps.
#[export] Hint Resolve keeps_DecodeFrame : keeps.
#[export] Hint Extern 2 (keeps _ (modify _)) => apply keeps_modify; done : keeps.
#[export] Hint Extern 2 (keeps _ (with_lock _ (modify _))) =>
  apply keeps_with_lock_modify; done : keeps.
#[export] Hint Extern 2 (keeps _ (with_rlock _ (gets _))) =>
  apply keeps_with_rlock_gets; done : keeps.

(** Binds and case distinctions of a handler, down to its primitives. *)
Ltac solve_keeps :=
  repeat lazymatch goal with
  | |- keeps _ (_ ≫= _) => apply keeps_bind; [|intros]
  | |- keeps _ (match ?x with _ => _ end) => destruct x
  | |- keeps _ _ => solve [eauto with keeps]
  end.

Section handlers_keep.
Context `{Msgpack RoomRequest, Msgpack StatusResponse, Msgpack LeaveResponse}.
Context `{Msgpack JoinRoomRequest, Msgpack LeaveRoomRequest, Msgpack ResumeRequest,
  Msgpack DisconnectNotify} `{O : MapOrder}.
Implicit Types (ref : CRef) (g : Gateway).

Lemma keeps_handleMessage kafka now_ms msgID ref data :
  keeps ref (handleMessage kafka now_ms msgID ref data).
Proof.
  unfold handleMessage, handleJoinRoom, handleLeaveRoom, handleResume, handleHeartbeat,
    handleBizRequest, sendJoinRoomResp, sendLeaveRoomResp, sendHeartbeatResp, sendBizResponse,
    SendJoinRoom, SendLeaveRoom, SendResume, client_send, GetStatus.
  solve_keeps.
Qed.

Lemma keeps_readLoop_step kafka now_ms msgID ref read :
  keeps ref (readLoop_step kafka now_ms msgID ref read).
Proof.
  unfold readLoop_step. pose proof keeps_handleMessage. solve_keeps.
Qed.
End handlers_keep.

(** ** How the handlers run *)
Section runs.
Context `{Msgpack RoomRequest, Msgpack StatusResponse, Msgpack LeaveResponse}.
Context `{Msgpack JoinRoomRequest, Msgpack LeaveRoomRequest, Msgpack ResumeRequest,
  Msgpack DisconnectNotify} `{O : MapOrder}.
Implicit Types (ref : CRef) (g : Gateway) (c : Connection).

Definition put ref c g : Gateway := set_objects (<[ref := c]> (objects g)) g.
Definition queued (es : list Envelope) g : Gateway :=
  set_rs_sendCh (queue_all es (rs_sendCh g)) g.

Definition join_envelope (gwID u rid : string) : Envelope :=
  mkEnvelope InternalMsgJoinRoom (Encode_ (mkJoinRoomRequest u rid gwID)).
Definition leave_room_envelope (u rid : string) : Envelope :=
  mkEnvelope InternalMsgLeaveRoom (Encode_ (mkLeaveRoomRequest u rid)).

Definition join_response (success : bool) (code : Z) (message : string) : list byte :=
  EncodeFrame (mkFrame MsgTypeJoinRoomResp 0 (Encode_ (mkStatusResponse success code message))).
Definition heartbeat_response : list byte := EncodeFrame (mkFrame MsgTypeHeartbeatResp 0 []).

Lemma update_c_run ref f g c :
  objects g !! ref = Some c → update_c ref f g = Done (tt, put ref (f c) g).
Proof. intros Hc. unfold update_c, put_c. by run_locks. Qed.

Lemma SendJoinRoom_run u rid g :
  SendJoinRoom u rid g = Done (tt, queued [join_envelope (cfg_ID (g_cfg g)) u rid] g).
Proof. done. Qed.
Lemma SendLeaveRoom_run u rid g :
  SendLeaveRoom u rid g = Done (tt, queued [leave_room_envelope u rid] g).
Proof. done. Qed.

Lemma handleJoinRoom_run ref frame req g c :
  Decode (f_Payload frame) = Some req → g_status g = StatusNormal → objects g !! ref = Some c →
  handleJoinRoom ref frame g =
    Done (tt, queued [join_envelope (cfg_ID (g_cfg g)) (c_UserID c) (rq_RoomID req)]
      (put ref (set_c_join JoinStatePending (rq_RoomID req) c) g)).
Proof.
  intros Hd Hst Hc. unfold handleJoinRoom. rewrite Hd.
  unfold GetStatus, mbind, G_bind, gets. rewrite Hst. cbn beta iota.
  rewrite decide_False by done. rewrite (update_c_run _ _ _ c) by done. cbn beta iota.
  erewrite get_c_run by (cbn; apply lookup_insert_eq). cbn beta iota.
  by rewrite SendJoinRoom_run.
Qed.

Lemma GetConnection_run u g :
  held g = [] → GetConnection u g = Done (connections g !! u, g).
Proof.
  intros Hh. unfold GetConnection. assert (free ConnsMu g) by (by apply no_locks_free).
  run_locks. do 2 f_equal. exact (set_held_id g).
Qed.

Definition joined_room rid u g : Gateway :=
  set_localRooms (<[rid := default ∅ (localRooms g !! rid) ∪ {[u]}]> (localRooms g)) g.

Lemma OnJoinRoomAck_success u rid code msg ref g c :
  held g = [] → connections g !! u = Some ref → objects g !! ref = Some c →
  OnJoinRoomAck u rid true code msg g =
    Done (tt, put ref (Send (join_response true code msg) (clock g)
                (set_c_join JoinStateConfirmed rid c)).2 (joined_room rid u g)).
Proof.
  intros Hh Hu Hc. unfold OnJoinRoomAck, mbind, G_bind. rewrite GetConnection_run by done.
  rewrite Hu. cbn beta iota. rewrite (update_c_run _ _ _ c) by done. cbn beta iota.
  rewrite AddUserToRoom_run by (by apply no_locks_free). cbn beta iota.
  unfold sendJoinRoomResp, mbind, G_bind.
  erewrite send_c_run by (cbn; apply lookup_insert_eq). cbn beta iota.
  unfold mret, G_ret, put. cbn. by rewrite insert_insert_eq.
Qed.

Lemma handleHeartbeat_run ref frame req g c :
  Decode (f_Payload frame) = Some req → rq_RoomID req ≠ ""%string →
  held g = [] → objects g !! ref = Some c →
  let u := c_UserID c in let rid := rq_RoomID req in
  let cur := local_room_of u (localRooms g) in
  let beat := λ c, (Send heartbeat_response (clock g) c).2 in
  handleHeartbeat ref frame g = Done (tt,
    if decide (cur = rid) then put ref (beat c) g
    else queued ((if decide (cur = ""%string) then [] else [leave_room_envelope u cur]) ++
                 [join_envelope (cfg_ID (g_cfg g)) u rid])
           (put ref (beat (set_c_join JoinStatePending rid c)) g)).
Proof.
  intros Hd Hrid Hh Hc. cbn zeta. unfold handleHeartbeat. rewrite Hd, decide_True by done.
  unfold mbind at 1, G_bind at 1. unfold mbind at 1, G_bind at 1.
  rewrite (get_c_run ref g c) by done. cbn beta iota.
  unfold mbind at 1, G_bind at 1. rewrite with_rlock_gets by (done || by apply no_locks_free).
  cbn beta iota. set (cur := local_room_of _ _). unfold sendHeartbeatResp.
  destruct (decide (cur = ""%string)) as [He|He].
  - rewrite decide_False by congruence. unfold mbind, G_bind.
    rewrite (update_c_run _ _ _ c) by done. cbn beta iota. rewrite SendJoinRoom_run.
    cbn beta iota. erewrite send_c_run by (cbn; apply lookup_insert_eq).
    cbn beta iota. unfold mret, G_ret, queued, put. cbn. by rewrite insert_insert_eq.
  - destruct (decide (cur = rq_RoomID req)) as [Heq|Hne].
    + rewrite decide_False by (by intros ?). unfold mbind, G_bind, mret, G_ret. cbn beta iota.
      by rewrite (send_c_run _ _ _ c).
    + rewrite decide_True by done. unfold mbind, G_bind. rewrite SendLeaveRoom_run.
      cbn beta iota. rewrite (update_c_run _ _ _ c) by done. cbn beta iota.
      rewrite SendJoinRoom_run. cbn beta iota.
      erewrite send_c_run by (cbn; apply lookup_insert_eq).
      cbn beta iota. unfold mret, G_ret, queued, put. cbn. by rewrite insert_insert_eq.
Qed.
End runs.

(** ** Properties *)
Section properties.
Context `{Msgpack RoomRequest, Msgpack StatusResponse, Msgpack LeaveResponse}.
Context `{Msgpack JoinRoomRequest, Msgpack LeaveRoomRequest, Msgpack ResumeRequest,
  Msgpack DisconnectNotify} `{O : MapOrder}.
Implicit Types (ref : CRef) (g : Gateway) (c : Connection).

(** C20. Whatever bytes a client sends, and when its socket fails, the read
    loop of a registered connection finishes its step: it neither panics
    nor blocks on a lock, releases all locks, and the connection tables
    stay consistent. *)
Theorem readLoop_step_safe kafka now_ms msgID ref read g :
  calm_gw ref g →
  ∃ go g', readLoop_step kafka now_ms msgID ref read g = Done (go, g') ∧
    gw_wf g' ∧ held g' = [] ∧ started ref g'.
Proof. apply keeps_readLoop_step. Qed.

(** Heartbeat self-healing tells the roomserver the right thing (leave
    the room known here, join the room the client names), but the entry of
    the old room stays: after the acknowledgement the user is listed in
    both local rooms and gets the broadcasts of both. *)
Theorem heartbeat_mismatch_two_rooms ref frame req g c :
  Decode (f_Payload frame) = Some req → held g = [] →
  objects g !! ref = Some c → connections g !! c_UserID c = Some ref →
  let u := c_UserID c in let rid := rq_RoomID req in
  let cur := local_room_of u (localRooms g) in
  rid ≠ ""%string → cur ≠ ""%string → cur ≠ rid →
  ∃ g1 g2, handleHeartbeat ref frame g = Done (tt, g1) ∧
    rs_sendCh g1 = queue_all [leave_room_envelope u cur;
      join_envelope (cfg_ID (g_cfg g)) u rid] (rs_sendCh g) ∧
    OnJoinRoomAck u rid true ErrCodeSuccess "" g1 = Done (tt, g2) ∧
    (∃ us, localRooms g2 !! cur = Some us ∧ u ∈ us) ∧
    (∃ us, localRooms g2 !! rid = Some us ∧ u ∈ us).
Proof.
  intros Hd Hh Hc Hu u rid cur Hrid Hcur Hne.
  rewrite (handleHeartbeat_run ref frame req g c) by done.
  fold u rid cur. rewrite (decide_False (P := cur = rid)) by done.
  rewrite (decide_False (P := cur = _)) by done.
  eexists _, _. split; [done|]. split; [done|]. split.
  { eapply OnJoinRoomAck_success; [done| |cbn; apply lookup_insert_eq].
    cbn. done. }
  cbn. split.
  - rewrite lookup_insert_ne by done.
    unfold cur, local_room_of in *. destruct (List.find _ _) as [[r us]|] eqn:E; [|done].
    apply List.find_some in E as [Hin Hb]. exists us. cbn. split.
    + apply elem_of_range_map. by apply list_elem_of_In.
    + by apply bool_decide_eq_true in Hb.
  - rewrite lookup_insert_eq. eexists. split; [done|]. set_solver.
Qed.
End properties.

(** ** Concrete instances *)
#[export] Instance RoomRequest_eq_dec : EqDecision RoomRequest.
Proof. solve_decision. Defined.
#[export] Instance RoomRequest_countable : Countable RoomRequest.
Proof. refine (inj_countable' rq_RoomID mkRoomRequest _). by intros []. Defined.
#[export] Instance StatusResponse_eq_dec : EqDecision StatusResponse.
Proof. solve_decision. Defined.
#[export] Instance StatusResponse_countable : Countable StatusResponse.
Proof.
  refine (inj_countable' (λ m, (sr_Success m, sr_Code m, sr_Message m))
    (λ '(a, b, c), mkStatusResponse a b c) _). by intros [].
Defined.
#[export] Instance LeaveResponse_eq_dec : EqDecision LeaveResponse.
Proof. solve_decision. Defined.
#[export] Instance LeaveResponse_countable : Countable LeaveResponse.
Proof. refine (inj_countable' lr_Success mkLeaveResponse _). by intros []. Defined.

Section examples.
Import ToyCodec.
#[local] Existing Instance default_order.

Lemma demo_in_room_started js : calm_gw 0%nat (demo_in_room js).
Proof.
  split_and!; [apply demo_in_room_wf|done|]. exists (set_c_join js "r1" demo_conn).
  split; [by vm_compute|]. by right; vm_compute.
Qed.

Lemma readLoop_step_safe_witness :
  let g := demo_in_room JoinStateConfirmed in
  ∃ go g', readLoop_step None 0 "" 0%nat (Some [Byte.x00; Byte.x00]) g = Done (go, g') ∧
    gw_wf g' ∧ held g' = [] ∧ started 0%nat g'.
Proof. apply readLoop_step_safe. apply demo_in_room_started. Defined.

(** A heartbeat of "u1" for "r2" while it is listed in "r1". *)
Lemma heartbeat_mismatch_two_rooms_witness :
  let g := demo_in_room JoinStateConfirmed in
  let cur := local_room_of "u1" (localRooms g) in
  let frame := mkFrame MsgTypeHeartbeat 0 (Encode_ (mkRoomRequest "r2")) in
  cur = "r1"%string ∧
  ∃ g1 g2, handleHeartbeat 0%nat frame g = Done (tt, g1) ∧
    rs_sendCh g1 = queue_all [leave_room_envelope "u1" cur;
      join_envelope "gw-1" "u1" "r2"] (rs_sendCh g) ∧
    OnJoinRoomAck "u1" "r2" true ErrCodeSuccess "" g1 = Done (tt, g2) ∧
    (∃ us, localRooms g2 !! cur = Some us ∧ "u1"%string ∈ us) ∧
    (∃ us, localRooms g2 !! "r2"%string = Some us ∧ "u1"%string ∈ us).
Proof.
  split; [by vm_compute|].
  apply (heartbeat_mismatch_two_rooms 0%nat
    (mkFrame MsgTypeHeartbeat 0 (Encode_ (mkRoomRequest "r2"))) (mkRoomRequest "r2")
    (demo_in_room JoinStateConfirmed) (set_c_join JoinStateConfirmed "r1" demo_conn));
    [by vm_compute|done|by vm_compute|by vm_compute|done|by vm_compute|by vm_compute].
Defined.
End examples.
