(* ===== verification/RoomserverClient.v ===== *)
(** [internal/gateway/roomserver_client.go]: the gateway's end of the stream
    to the roomserver (its sending functions are in Gateway.v).  gRPC itself
    is outside: what dialling, the stream and [Recv] deliver are arguments. *)

From Stdlib Require Import ZArith Lia.
From stdpp Require Import base tactics gmap strings numbers list.
From S2P Require Import Prelude GoInt Protocol Frame Chan Connection Gateway GatewayHandler.

Local Open Scope Z_scope.

(** The payload of the push that tells clients about a closed room. *)
Record CloseNotice := mkCloseNotice { cn_RoomID : string; cn_Reason : string }.

Definition resyncBatchSize : nat := 1000.

Section client.
Context `{Msgpack RoomRequest, Msgpack StatusResponse, Msgpack LeaveResponse,
  Msgpack CloseNotice}.
Context `{Msgpack GatewayInfo, Msgpack JoinRoomRequest, Msgpack LeaveRoomRequest,
  Msgpack ResumeRequest, Msgpack DisconnectNotify, Msgpack BatchReSync,
  Msgpack ReSyncComplete}.
Context `{Msgpack JoinRoomAck, Msgpack BroadcastMessage, Msgpack UnicastMessage,
  Msgpack MulticastMessage, Msgpack EpochNotify, Msgpack RoomCloseNotify} `{O : MapOrder}.

(** ** Messages from the roomserver *)
Definition handleJoinRoomAck (payload : list byte) : G unit :=
  match Decode payload with
  | None => mret tt
  | Some ack => OnJoinRoomAck (jra_UserID ack) (jra_RoomID ack) (jra_Success ack)
                  (jra_Code ack) (jra_Message ack)
  end.

(** [if conn := s.GetConnection(u); conn != nil { conn.Send(data) }] *)
Definition push_to (data : list byte) (userID : string) : G unit :=
  conn ← GetConnection userID;
  match conn with
  | None => mret tt
  | Some ref => send_c ref data;; mret tt
  end.

Definition handleBroadcast (payload : list byte) : G unit :=
  match Decode payload with
  | None => mret tt
  | Some msg =>
    users ← GetRoomUsers (bm_RoomID msg);
    if decide (length users = 0%nat) then mret tt else
    let data := EncodeFrame (mkFrame MsgTypePushMessage (bm_Seq msg) (bm_Payload msg)) in
    for_each (push_to data) users
  end.

Definition handleUnicast (payload : list byte) : G unit :=
  match Decode payload with
  | None => mret tt
  | Some msg =>
    push_to (EncodeFrame (mkFrame MsgTypePushMessage 0 (um_Payload msg))) (um_UserID msg)
  end.

Definition handleMulticast (payload : list byte) : G unit :=
  match Decode payload with
  | None => mret tt
  | Some msg =>
    let data := EncodeFrame (mkFrame MsgTypePushMessage 0 (mm_Payload msg)) in
    for_each (push_to data) (mm_UserIDs msg)
  end.

(** The flag says whether [go c.startProgressiveReSync()] was started. *)
Definition handleEpochNotify (payload : list byte) : G bool :=
  match Decode payload with
  | None => mret false
  | Some notify =>
    epochs ← gets knownEpochs;
    let oldEpoch := default 0 (epochs !! en_ServerID notify) in
    if oldEpoch <? en_Epoch notify then
      modify (λ g, set_knownEpochs (<[en_ServerID notify := en_Epoch notify]> (knownEpochs g)) g);;
      mret true
    else mret false
  end.

Definition handleRoomClose (payload : list byte) : G unit :=
  match Decode payload with
  | None => mret tt
  | Some msg =>
    users ← ClearRoom (rcn_RoomID msg);
    let notice := Encode_ (mkCloseNotice (rcn_RoomID msg) (rcn_Reason msg)) in
    let data := EncodeFrame (mkFrame MsgTypePushMessage 0 notice) in
    for_each (λ userID,
      conn ← GetConnection userID;
      match conn with
      | None => mret tt
      | Some ref => update_c ref (set_c_join JoinStateInit "");; send_c ref data;; mret tt
      end) users
  end.

(** The flag says whether a resync goroutine was started. *)
Definition handleEnvelope (e : Envelope) : G bool :=
  let t := env_MsgType e in
  let payload := env_Payload e in
  if t =? InternalMsgJoinRoomAck then handleJoinRoomAck payload;; mret false
  else if t =? InternalMsgBroadcast then handleBroadcast payload;; mret false
  else if t =? InternalMsgUnicast then handleUnicast payload;; mret false
  else if t =? InternalMsgMulticast then handleMulticast payload;; mret false
  else if t =? InternalMsgEpochNotify then handleEpochNotify payload
  else if t =? InternalMsgRoomClose then handleRoomClose payload;; mret false
  else mret false.

(** ** Resynchronisation

    The two nested loops hand the batch on; a batch that is full is sent
    at once. *)
Fixpoint resync_room (roomID : string) (users : list string) (batch : list UserRoomPair) :
    G (list UserRoomPair) :=
  match users with
  | [] => mret batch
  | userID :: users =>
    let batch := batch ++ [mkUserRoomPair userID roomID] in
    if (resyncBatchSize <=? length batch)%nat
    then SendBatchReSync batch;; resync_room roomID users []
    else resync_room roomID users batch
  end.

Fixpoint resync_rooms (rooms : list (string * list string)) (batch : list UserRoomPair) :
    G (list UserRoomPair) :=
  match rooms with
  | [] => mret batch
  | (roomID, users) :: rooms =>
    batch ← resync_room roomID users batch;
    resync_rooms rooms batch
  end.

Definition sendReSyncComplete : G unit :=
  roomUsers ← GetConfirmedUsers;
  let totalUsers := foldl (λ n ru, n + Z.of_nat (length ru.2)) 0 (range_map roomUsers) in
  cfg ← gets g_cfg;
  client_send InternalMsgReSyncComplete (Encode_ (mkReSyncComplete (cfg_ID cfg) totalUsers)).

Definition startProgressiveReSync : G unit :=
  roomUsers ← GetConfirmedUsers;
  batch ← resync_rooms (range_map roomUsers) [];
  (if (0 <? length batch)%nat then SendBatchReSync batch else mret tt);;
  sendReSyncComplete.

(** ** The connection *)

(** [getRoomserverAddr]: [nacos] looks a healthy instance up when service
    discovery is configured. *)
Definition getRoomserverAddr (nacos : option (string → option string))
    (serviceName : string) : string :=
  let fallback := "localhost:9000"%string in
  match nacos with
  | None => fallback
  | Some lookup =>
    let name := if decide (serviceName = ""%string) then "roomserver"%string else serviceName in
    default fallback (lookup name)
  end.

(** How an attempt to connect goes. *)
Inductive Attempt := DialFailed | ChannelFailed | StreamOpen.

(** [connectAndServe] up to the start of the two loops; the flags: is the
    stream served, and was the compensation goroutine started.  A failure
    is returned to [Run]. *)
Definition connect (a : Attempt) : G (bool * bool) :=
  match a with
  | DialFailed | ChannelFailed => mret (false, false)
  | StreamOpen =>
    modify (set_rs_connected true);;
    compensate ← SetNormal;
    sendGatewayInfo;;
    mret (true, compensate)
  end.

(** The rest of it, when one of the loops has ended. *)
Definition disconnect : G unit := modify (set_rs_connected false);; SetDegraded.

(** What [Run] does with an error. *)
Definition connect_failed : G unit := modify (set_rs_connected false);; SetDegraded.

(** The waiting time of [Run]: doubled after every round, failed or not,
    and capped. *)
Definition next_interval (maxInterval interval : Z) : Z :=
  let interval := i64 (interval * 2) in
  if maxInterval <? interval then maxInterval else interval.

(** One iteration of [sendLoop]: the queue's head goes to the stream;
    [sendCh] outlives the stream and is never closed.  [None] blocks, the
    flag says whether the loop goes on. *)
Definition sendLoop_step (stream_ok : bool) (g : Gateway) :
    option (bool * Envelope * Gateway) :=
  match ch_buf (rs_sendCh g) with
  | [] => None
  | e :: buf =>
    Some (stream_ok, e,
      set_rs_sendCh (mkChan buf (ch_cap (rs_sendCh g)) (ch_closed (rs_sendCh g))) g)
  end.
End client.

(** ** Lemmas *)

Section pushes.
Context `{O : MapOrder}.
Implicit Types (ref : CRef) (g : Gateway) (u : string) (data : list byte)
  (f : Connection → Connection).

(** A change of a connection that keeps its identity. *)
Definition keeps_identity f : Prop :=
  ∀ c, c_UserID (f c) = c_UserID c ∧ c_closeOnce (f c) = c_closeOnce c ∧
       c_distributor (f c) = c_distributor c.

Lemma Send_keeps_identity data now : keeps_identity (λ c, (Send data now c).2).
Proof. intros c. destruct (Send_frame data now c) as (? & _ & _ & ? & ? & _). done. Qed.

(** [f] applied to the registered connection of a user, if any ... *)
Definition touch u f g : Gateway :=
  match connections g !! u ≫= λ ref, (ref,.) <$> objects g !! ref with
  | Some (ref, c) => put ref (f c) g
  | None => g
  end.

Definition same_but_objects g g' : Prop := ∃ objs, g' = set_objects objs g.

(** ... and to those of a set of users. *)
Definition touched (us : list string) f g g' : Prop :=
  same_but_objects g g' ∧
  ∀ ref, objects g' !! ref =
    match objects g !! ref with
    | Some c => if decide (c_UserID c ∈ us ∧ connections g !! c_UserID c = Some ref)
                then Some (f c) else Some c
    | None => None
    end.

Lemma touched_wf us f g g' :
  keeps_identity f → gw_wf g → touched us f g g' → gw_wf g'.
Proof.
  intros Hf (Hreg & Hdis & Hloc) [[objs ->] Hobj]. cbn in Hobj.
  split_and!; [|done|done]. intros u ref Hu. cbn in *.
  destruct (Hreg u ref Hu) as (c & i & d & Hc & ? & ? & ? & ?). unfold registered_ok. cbn.
  rewrite Hobj, Hc. destruct (Hf c) as (Hid & Ho & Hdi).
  case_decide; eexists _, i, d; (split; [done|]); rewrite ?Hid, ?Hdi, ?Ho; done.
Qed.

Lemma touched_nil f g : touched [] f g g.
Proof.
  split; [exists (objects g); by destruct g|]. intros ref.
  destruct (objects g !! ref); [|done]. by rewrite decide_False by set_solver.
Qed.

Lemma touched_one u f g : gw_wf g → touched [u] f g (touch u f g).
Proof.
  intros Hwf. unfold touch. destruct (connections g !! u) as [ref|] eqn:Hu; cbn.
  - destruct (gw_wf_exist g Hwf u ref Hu) as [c Hc]. rewrite Hc. cbn.
    destruct (proj1 Hwf u ref Hu) as (c' & _ & _ & Hc' & Hid & _).
    assert (c' = c) as -> by congruence. split; [by eexists|]. intros ref'. cbn.
    destruct (decide (ref' = ref)) as [->|Hne].
    + rewrite lookup_insert_eq, Hc, decide_True; [done|]. rewrite Hid.
      split; [by left|done].
    + rewrite lookup_insert_ne by done. destruct (objects g !! ref') as [c'|] eqn:Hc0; [|done].
      rewrite decide_False; [done|]. intros [->%list_elem_of_singleton Hr]. congruence.
  - split; [exists (objects g); by destruct g|]. intros ref'.
    destruct (objects g !! ref') as [c'|]; [|done].
    rewrite decide_False; [done|]. intros [->%list_elem_of_singleton Hr]. congruence.
Qed.

Lemma touched_cons u us f g g1 g' :
  keeps_identity f → u ∉ us → touched [u] f g g1 → touched us f g1 g' →
  touched (u :: us) f g g'.
Proof.
  intros Hf Hnin [[objs1 Hg1] Hobj1] [[objs' ->] Hobj'].
  split; [exists objs'; by rewrite Hg1|]. intros ref. rewrite Hobj', Hobj1.
  assert (connections g1 = connections g) as -> by (by rewrite Hg1).
  destruct (objects g !! ref) as [c|]; [|done].
  destruct (decide (c_UserID c ∈ [u] ∧ connections g !! c_UserID c = Some ref))
    as [[Heq%list_elem_of_singleton Hr]|Hno]; cbn beta iota.
  - rewrite (proj1 (Hf c)).
    destruct (decide (c_UserID c ∈ us ∧ connections g !! c_UserID c = Some ref)) as [[Hin _]|_];
      [by rewrite Heq in Hin|].
    by rewrite decide_True by (split; [rewrite Heq; by left|done]).
  - destruct (decide (c_UserID c ∈ us ∧ connections g !! c_UserID c = Some ref))
      as [[Hin Hr]|Hno'].
    + by rewrite decide_True by (split; [by right|done]).
    + rewrite decide_False; [done|]. intros [[Heq|?]%elem_of_cons ?]; [|by apply Hno'].
      apply Hno. split; [rewrite Heq; by left|done].
Qed.

(** A loop that applies [f] to the connection of each user. *)
Lemma for_each_touch (k : string → G unit) f us g :
  keeps_identity f → gw_wf g → NoDup us →
  (∀ u g', gw_wf g' → same_but_objects g g' → k u g' = Done (tt, touch u f g')) →
  ∃ g', for_each k us g = Done (tt, g') ∧ touched us f g g'.
Proof.
  intros Hf Hwf Hnd. revert g Hwf. induction Hnd as [|u us Hnin Hnd IH]; intros g Hwf Hk.
  - exists g. split; [done|apply touched_nil].
  - cbn [for_each]. unfold mbind, G_bind.
    rewrite Hk by (done || (exists (objects g); by destruct g)).
    pose proof (touched_one u f g Hwf) as Hp1.
    destruct (IH (touch u f g)) as (g' & Hrun & Hp').
    + by eapply touched_wf.
    + intros u' g' Hwf' [objs ->]. apply Hk; [done|].
      destruct Hp1 as [[objs1 ->] _]. by exists objs.
    + exists g'. split; [done|]. by eapply touched_cons.
Qed.

Lemma push_to_run data u g :
  gw_wf g → held g = [] → push_to data u g = Done (tt, touch u (λ c, (Send data (clock g) c).2) g).
Proof.
  intros Hwf Hh. unfold push_to, touch, mbind, G_bind. rewrite GetConnection_run by done.
  destruct (connections g !! u) as [ref|] eqn:Hu; [|done].
  destruct (gw_wf_exist g Hwf u ref Hu) as [c Hc]. cbn. rewrite Hc. cbn.
  by rewrite (send_c_run _ _ _ c).
Qed.

(** The state after [data] was pushed to the registered connections of
    [us]. *)
Definition pushed (us : list string) data g g' : Prop :=
  touched us (λ c, (Send data (clock g) c).2) g g'.

Lemma pushed_wf us data g g' : gw_wf g → pushed us data g g' → gw_wf g'.
Proof. intros Hwf Hp. eapply touched_wf; [apply Send_keeps_identity|done|done]. Qed.

Lemma for_each_push data us g :
  gw_wf g → held g = [] → NoDup us →
  ∃ g', for_each (push_to data) us g = Done (tt, g') ∧ pushed us data g g'.
Proof.
  intros Hwf Hh Hnd. apply for_each_touch; [apply Send_keeps_identity|done|done|].
  intros u g' Hwf' [objs ->]. exact (push_to_run data u _ Hwf' Hh).
Qed.
End pushes.

Section resync.
Context `{Msgpack BatchReSync, Msgpack ReSyncComplete} `{O : MapOrder}.
Implicit Types (g : Gateway) (u rid : string).

Definition batch_envelope (gwID : string) (us : list UserRoomPair) : Envelope :=
  mkEnvelope InternalMsgBatchReSync (Encode_ (mkBatchReSync gwID us)).
Definition complete_envelope (gwID : string) (total : Z) : Envelope :=
  mkEnvelope InternalMsgReSyncComplete (Encode_ (mkReSyncComplete gwID total)).

Lemma queued_app es1 es2 g : queued es2 (queued es1 g) = queued (es1 ++ es2) g.
Proof. unfold queued, queue_all. cbn. by rewrite foldl_app. Qed.

Lemma queued_nil g : queued [] g = g.
Proof. by destruct g. Qed.

Definition pairs_of rid (us : list string) : list UserRoomPair :=
  (λ u, mkUserRoomPair u rid) <$> us.
Definition room_pairs (rooms : list (string * list string)) : list UserRoomPair :=
  concat ((λ ru, pairs_of ru.1 ru.2) <$> rooms).

(** [bs] is what a loop has sent, full batches, and [rest] what it keeps. *)
Definition batched (sent : list UserRoomPair) (bs : list (list UserRoomPair)) rest : Prop :=
  sent = concat bs ++ rest ∧ Forall (λ b, length b = resyncBatchSize) bs ∧
  (length rest < resyncBatchSize)%nat.

Lemma resync_room_run rid us batch g :
  (length batch < resyncBatchSize)%nat →
  ∃ bs rest, resync_room rid us batch g =
      Done (rest, queued (batch_envelope (cfg_ID (g_cfg g)) <$> bs) g) ∧
    batched (batch ++ pairs_of rid us) bs rest.
Proof.
  revert batch g. induction us as [|u us IH]; intros batch g Hlt; cbn [resync_room].
  - exists [], batch. cbn [fmap list_fmap]. rewrite queued_nil. split; [done|].
    split_and!; [cbn; by rewrite app_nil_r|constructor|done].
  - set (batch' := batch ++ [mkUserRoomPair u rid]).
    assert (length batch' = S (length batch)) as Hlen
      by (unfold batch'; rewrite length_app; simpl; lia).
    assert (batch ++ pairs_of rid (u :: us) = batch' ++ pairs_of rid us) as ->
      by (unfold batch', pairs_of; cbn; by rewrite <-app_assoc).
    destruct (Nat.leb_spec resyncBatchSize (length batch')).
    + unfold mbind, G_bind. change (SendBatchReSync batch' g) with
        (Done (tt, queued [batch_envelope (cfg_ID (g_cfg g)) batch'] g)).
      cbn beta iota.
      destruct (IH [] (queued [batch_envelope (cfg_ID (g_cfg g)) batch'] g))
        as (bs & rest & -> & Hs & Hb & Hr); [unfold resyncBatchSize; simpl; lia|].
      exists (batch' :: bs), rest. rewrite queued_app. split; [done|].
      split_and!; [cbn in *; by rewrite Hs, app_assoc| |done].
      constructor; [lia|done].
    + by apply IH.
Qed.

Lemma resync_rooms_run rooms batch g :
  (length batch < resyncBatchSize)%nat →
  ∃ bs rest, resync_rooms rooms batch g =
      Done (rest, queued (batch_envelope (cfg_ID (g_cfg g)) <$> bs) g) ∧
    batched (batch ++ room_pairs rooms) bs rest.
Proof.
  revert batch g. induction rooms as [|[rid us] rooms IH]; intros batch g Hlt; cbn [resync_rooms].
  - exists [], batch. cbn [fmap list_fmap]. rewrite queued_nil. split; [done|].
    split_and!; [cbn; by rewrite app_nil_r|constructor|done].
  - unfold mbind, G_bind.
    destruct (resync_room_run rid us batch g Hlt) as (bs1 & rest1 & -> & Hs1 & Hb1 & Hr1).
    cbn beta iota.
    destruct (IH rest1 (queued (batch_envelope (cfg_ID (g_cfg g)) <$> bs1) g) Hr1)
      as (bs2 & rest2 & -> & Hs2 & Hb2 & Hr2).
    exists (bs1 ++ bs2), rest2. rewrite queued_app, fmap_app. split; [done|].
    split_and!; [|by apply Forall_app|done].
    unfold room_pairs in *. cbn [fmap list_fmap concat fst snd].
    by rewrite (app_assoc batch), Hs1, <-app_assoc, Hs2, concat_app, app_assoc.
Qed.

Lemma GetConfirmedUsers_run g :
  held g = [] → GetConfirmedUsers g = Done (range_set <$> localRooms g, g).
Proof.
  intros Hh. unfold GetConfirmedUsers.
  assert (free LocalRoomsMu g) by (by apply no_locks_free).
  run_locks. do 2 f_equal. exact (set_held_id g).
Qed.

(** The members of the local rooms, in the order of the walk. *)
Definition local_pairs g : list UserRoomPair :=
  room_pairs (range_map (range_set <$> localRooms g)).

Lemma elem_of_room_pairs rooms u rid :
  mkUserRoomPair u rid ∈ room_pairs rooms ↔ ∃ us, (rid, us) ∈ rooms ∧ u ∈ us.
Proof.
  unfold room_pairs. rewrite elem_of_concat. split.
  - intros (l & ([r us] & -> & Hin)%list_elem_of_fmap & Hu).
    unfold pairs_of in Hu. apply list_elem_of_fmap in Hu as (u' & [= -> ->] & Hu). eauto.
  - intros (us & Hin & Hu). exists (pairs_of rid us). split.
    + apply list_elem_of_fmap. by exists (rid, us).
    + apply list_elem_of_fmap. by exists u.
Qed.

Lemma elem_of_local_pairs g u rid :
  mkUserRoomPair u rid ∈ local_pairs g ↔ ∃ us, localRooms g !! rid = Some us ∧ u ∈ us.
Proof.
  unfold local_pairs. rewrite elem_of_room_pairs. split.
  - intros (us & Hin%elem_of_range_map & Hu). rewrite lookup_fmap in Hin.
    apply fmap_Some in Hin as (us' & -> & ->). exists us'. by rewrite <-elem_of_range_set.
  - intros (us & Hr & Hu). exists (range_set us). split.
    + apply elem_of_range_map. by rewrite lookup_fmap, Hr.
    + by apply elem_of_range_set.
Qed.

Lemma NoDup_room_pairs rooms :
  NoDup rooms.*1 → (∀ rid us, (rid, us) ∈ rooms → NoDup us) → NoDup (room_pairs rooms).
Proof.
  induction rooms as [|[rid us] rooms IH]; intros Hnd Hus; [constructor|].
  rewrite fmap_cons, NoDup_cons in Hnd. destruct Hnd as [Hnin Hnd].
  unfold room_pairs. cbn [fmap list_fmap concat fst snd]. apply NoDup_app. split_and!.
  - apply NoDup_fmap_2; [intros ?? [=]; done|]. apply (Hus rid). by left.
  - intros [u r] Hu Hin. apply list_elem_of_fmap in Hu as (u' & [= -> ->] & _).
    apply (elem_of_room_pairs rooms u' rid) in Hin as (us' & Hin & _). apply Hnin.
    apply list_elem_of_fmap. by exists (rid, us').
  - apply IH; [done|]. intros r us' Hin. apply (Hus r). by right.
Qed.

Lemma NoDup_local_pairs g : NoDup (local_pairs g).
Proof.
  apply NoDup_room_pairs; [apply NoDup_range_keys|]. intros rid us Hin%elem_of_range_map.
  rewrite lookup_fmap in Hin. apply fmap_Some in Hin as (us' & _ & ->). apply NoDup_range_set.
Qed.

Lemma total_users (rooms : list (string * list string)) n :
  foldl (λ n ru, n + Z.of_nat (length ru.2)) n rooms = n + Z.of_nat (length (room_pairs rooms)).
Proof.
  revert n. induction rooms as [|[rid us] rooms IH]; intros n; [cbn; lia|].
  cbn [foldl]. rewrite IH. unfold room_pairs. cbn [fmap list_fmap concat fst snd].
  rewrite length_app. unfold pairs_of. rewrite length_fmap. lia.
Qed.

(** What a resynchronisation queues. *)
Lemma startProgressiveReSync_run g :
  held g = [] →
  ∃ bs, startProgressiveReSync g = Done (tt, queued
      ((batch_envelope (cfg_ID (g_cfg g)) <$> bs) ++
       [complete_envelope (cfg_ID (g_cfg g)) (Z.of_nat (length (local_pairs g)))]) g) ∧
    concat bs = local_pairs g ∧ Forall (λ b, 1 ≤ length b ≤ resyncBatchSize)%nat bs.
Proof.
  intros Hh. unfold startProgressiveReSync. unfold mbind at 1, G_bind at 1.
  rewrite GetConfirmedUsers_run by done. cbn beta iota.
  unfold mbind at 1, G_bind at 1.
  destruct (resync_rooms_run (range_map (range_set <$> localRooms g)) [] g)
    as (bs & rest & -> & Hs & Hb & Hr); [unfold resyncBatchSize; simpl; lia|].
  cbn beta iota. set (g1 := queued _ g).
  assert (∀ g', held g' = [] → g_cfg g' = g_cfg g → localRooms g' = localRooms g →
    sendReSyncComplete g' = Done (tt, queued [complete_envelope (cfg_ID (g_cfg g))
      (Z.of_nat (length (local_pairs g)))] g')) as Hdone.
  { intros g' Hh' Hcfg Hl. unfold sendReSyncComplete. unfold mbind at 1, G_bind at 1.
    rewrite GetConfirmedUsers_run by done. unfold mbind, G_bind, gets. rewrite Hl, Hcfg.
    unfold local_pairs. by rewrite total_users, Z.add_0_l. }
  assert (Forall (λ b, 1 ≤ length b ≤ resyncBatchSize)%nat bs) as Hb'
    by (eapply Forall_impl; [done|]; intros b ->; unfold resyncBatchSize; lia).
  unfold mbind, G_bind. destruct (Nat.ltb_spec 0 (length rest)).
  - change (SendBatchReSync rest g1) with
      (Done (tt, queued [batch_envelope (cfg_ID (g_cfg g)) rest] g1)).
    cbn beta iota. rewrite Hdone by done. exists (bs ++ [rest]).
    unfold g1. rewrite !queued_app, fmap_app. split; [by rewrite <-app_assoc|]. split.
    + rewrite concat_app. cbn. rewrite app_nil_r. by rewrite <-Hs.
    + apply Forall_app. split; [done|]. apply Forall_singleton. lia.
  - unfold mret, G_ret. cbn beta iota. rewrite Hdone by done. exists bs.
    unfold g1. rewrite queued_app. split; [done|]. split; [|done].
    destruct rest; [|simpl in *; lia]. by rewrite <-(app_nil_r (concat bs)), <-Hs.
Qed.
End resync.

(** ** Properties *)
Section properties.
Context `{Msgpack BroadcastMessage, Msgpack BatchReSync, Msgpack ReSyncComplete,
  Msgpack GatewayInfo, Msgpack LeaveRoomRequest, Msgpack DisconnectNotify} `{O : MapOrder}.
Implicit Types (g : Gateway) (u rid : string) (ref : CRef).

Lemma handleBroadcast_run payload msg g :
  gw_wf g → held g = [] → Decode payload = Some msg →
  ∃ g', handleBroadcast payload g = Done (tt, g') ∧
    pushed (range_set (default ∅ (localRooms g !! bm_RoomID msg)))
      (EncodeFrame (mkFrame MsgTypePushMessage (bm_Seq msg) (bm_Payload msg))) g g'.
Proof.
  intros Hwf Hh Hd. unfold handleBroadcast. rewrite Hd. unfold mbind, G_bind.
  assert (GetRoomUsers (bm_RoomID msg) g =
    Done (range_set (default ∅ (localRooms g !! bm_RoomID msg)), g)) as ->.
  { unfold GetRoomUsers. assert (free LocalRoomsMu g) by (by apply no_locks_free).
    run_locks. assert (∀ h h', set_held h (set_held h' g) = set_held h g) as -> by done.
    rewrite set_held_id. do 2 f_equal. cbn.
    destruct (localRooms g !! bm_RoomID msg); [done|].
    symmetry. apply elem_of_nil_inv. intros x. by rewrite elem_of_range_set. }
  cbn beta iota. set (us := range_set _). case_decide as Hl.
  - apply nil_length_inv in Hl. exists g. split; [done|]. rewrite Hl. apply touched_nil.
  - apply for_each_push; [done..|]. apply NoDup_range_set.
Qed.

(** A broadcast from the roomserver reaches exactly the connected
    members of the room it names: each gets the payload, framed as a push
    with the sequence number, once; no other connection is touched. *)
Theorem handleBroadcast_reaches_room payload msg g :
  gw_wf g → held g = [] → Decode payload = Some msg →
  let data := EncodeFrame (mkFrame MsgTypePushMessage (bm_Seq msg) (bm_Payload msg)) in
  ∃ g', handleBroadcast payload g = Done (tt, g') ∧ gw_wf g' ∧
    ∀ ref c, objects g !! ref = Some c →
      objects g' !! ref =
        if decide (c_UserID c ∈ default ∅ (localRooms g !! bm_RoomID msg) ∧
                   connections g !! c_UserID c = Some ref)
        then Some (Send data (clock g) c).2 else Some c.
Proof.
  intros Hwf Hh Hd data. destruct (handleBroadcast_run payload msg g Hwf Hh Hd) as (g' & Hr & Hp).
  exists g'. split; [done|]. split; [by eapply pushed_wf|].
  intros ref c Hc. rewrite (proj2 Hp), Hc.
  destruct (decide (c_UserID c ∈ default ∅ _ ∧ _)) as [[Hin Hu]|Hno].
  - rewrite decide_True; [done|]. by rewrite elem_of_range_set.
  - rewrite decide_False; [done|]. by rewrite elem_of_range_set.
Qed.

(** After a restart of the roomserver the gateway reports every member
    of its local rooms exactly once, in batches of at most 1000, followed
    by one completion report with the right total. *)
Theorem resync_reports_every_member_once g :
  held g = [] →
  ∃ bs, startProgressiveReSync g = Done (tt, queued
      ((batch_envelope (cfg_ID (g_cfg g)) <$> bs) ++
       [complete_envelope (cfg_ID (g_cfg g)) (Z.of_nat (length (concat bs)))]) g) ∧
    Forall (λ b, 1 ≤ length b ≤ 1000)%nat bs ∧ NoDup (concat bs) ∧
    ∀ u rid, mkUserRoomPair u rid ∈ concat bs ↔
      ∃ us, localRooms g !! rid = Some us ∧ u ∈ us.
Proof.
  intros Hh. destruct (startProgressiveReSync_run g Hh) as (bs & Hrun & Hbs & Hlen).
  exists bs. rewrite Hbs. split_and!; [done|done|apply NoDup_local_pairs|].
  intros u rid. apply elem_of_local_pairs.
Qed.

(** The waiting time before the [n]-th reconnect is the initial one
    doubled [n] times up to the maximum; it only grows, since nothing sets
    it back after a connection that worked. *)
Theorem reconnect_interval_backoff base maxI (n : nat) :
  0 < base <= maxI → maxI < 2 ^ 62 →
  Nat.iter n (next_interval maxI) base = Z.min maxI (base * 2 ^ Z.of_nat n).
Proof.
  intros Hb Hm. induction n as [|n IH]; [rewrite Z.mul_1_r; simpl; lia|].
  rewrite Nat.iter_succ, IH, Nat2Z.inj_succ, Z.pow_succ_r by lia.
  assert (0 < 2 ^ Z.of_nat n) by lia. unfold next_interval.
  rewrite i64_small by nia. destruct (Z.ltb_spec maxI (Z.min maxI (base * 2 ^ Z.of_nat n) * 2)); nia.
Qed.

(** What [Run] can go through. *)
Definition link_round (a : Attempt) : G unit :=
  r ← connect a;
  if fst r : bool then disconnect else connect_failed.

Definition info_envelope (g : Gateway) : Envelope :=
  mkEnvelope InternalMsgGatewayInfo
    (Encode_ (mkGatewayInfo (cfg_ID (g_cfg g)) (cfg_Addr (g_cfg g)) 0)).

Lemma connect_open g :
  connect StreamOpen g = Done ((true, bool_decide (g_status g = StatusDegraded)),
    set_rs_sendCh (sent (info_envelope g) (rs_sendCh g)) (normal (set_rs_connected true g))).
Proof.
  unfold connect, sendGatewayInfo, client_send, mbind, G_bind, mret, G_ret, gets, modify.
  rewrite SetNormal_run. cbn beta iota.
  destruct (normal_fields (set_rs_connected true g)) as (Hcfg & _ & Hch & _).
  by rewrite Hcfg, Hch.
Qed.

Lemma disconnect_run g : disconnect g = Done (tt, degraded (set_rs_connected false g)).
Proof.
  unfold disconnect, mbind, G_bind, modify. by rewrite SetDegraded_run.
Qed.

(** After any number of rounds the gateway is degraded and not
    connected, and while a stream is served it is connected and in normal
    mode: both flags always agree, and the first message queued on a new
    stream announces the gateway. *)
Theorem link_status_agrees (rounds : list Attempt) g :
  rounds ≠ [] →
  ∃ g', for_each link_round rounds g = Done (tt, g') ∧
    rs_connected g' = false ∧ g_status g' = StatusDegraded ∧
    ∃ g'', connect StreamOpen g' = Done ((true, true), g'') ∧
      rs_connected g'' = true ∧ g_status g'' = StatusNormal ∧
      rs_sendCh g'' = sent (mkEnvelope InternalMsgGatewayInfo
        (Encode_ (mkGatewayInfo (cfg_ID (g_cfg g)) (cfg_Addr (g_cfg g)) 0))) (rs_sendCh g').
Proof.
  intros Hne.
  assert (∀ g, ∃ g', for_each link_round rounds g = Done (tt, g') ∧ g_cfg g' = g_cfg g ∧
    rs_connected g' = false ∧ g_status g' = StatusDegraded) as Hrun.
  { clear g. destruct rounds as [|a rounds]; [done|]. clear Hne.
    assert (∀ a g, ∃ g', link_round a g = Done (tt, g') ∧ g_cfg g' = g_cfg g ∧
      rs_connected g' = false ∧ g_status g' = StatusDegraded) as Hone.
    { intros b g. unfold link_round, connect, disconnect, connect_failed, sendGatewayInfo,
        client_send, mbind, G_bind, mret, G_ret, gets, modify.
      destruct b; rewrite ?SetNormal_run, ?SetDegraded_run; cbn [fst]; cbn beta iota;
        rewrite ?SetDegraded_run; eexists; (split; [reflexivity|]);
        match goal with |- context [degraded ?x] =>
          destruct (degraded_fields x) as (-> & -> & _ & ->) end;
        cbn [g_cfg rs_connected set_rs_connected set_rs_sendCh]; try done.
      by destruct (normal_fields (set_rs_connected true g)) as (-> & _). }
    revert a. induction rounds as [|b rounds IH]; intros a g; cbn [for_each];
      unfold mbind, G_bind; destruct (Hone a g) as (g1 & -> & Hc & ? & ?).
    - eexists. split; [done|]. done.
    - destruct (IH b g1) as (g' & Hr & Hc' & ? & ?). exists g'. split; [done|].
      split_and!; [congruence|done..]. }
  destruct (Hrun g) as (g' & Hr & Hc & Hf & Hst). exists g'. split_and!; [done..|].
  rewrite connect_open, Hst, bool_decide_true by done. eexists. split; [reflexivity|].
  destruct (normal_fields (set_rs_connected true g')) as (_ & Hcon & _ & Hn).
  cbn [rs_connected g_status rs_sendCh set_rs_sendCh]. unfold info_envelope. by rewrite Hcon, Hn, Hc.
Qed.
End properties.

(** ** Concrete instances *)
Section examples.
Import ToyCodec.
#[local] Existing Instance default_order.

Lemma handleBroadcast_reaches_room_witness :
  let g := demo_in_room JoinStateConfirmed in
  let data := EncodeFrame (mkFrame MsgTypePushMessage 7 [Byte.x2a]) in
  ∃ g', handleBroadcast (Encode_ (mkBroadcastMessage "r1" 7 [Byte.x2a])) g = Done (tt, g') ∧
    gw_wf g' ∧
    ∀ ref c, objects g !! ref = Some c →
      objects g' !! ref =
        if decide (c_UserID c ∈ default ∅ (localRooms g !! "r1"%string) ∧
                   connections g !! c_UserID c = Some ref)
        then Some (Send data (clock g) c).2 else Some c.
Proof.
  apply (handleBroadcast_reaches_room
    (Encode_ (mkBroadcastMessage "r1" 7 [Byte.x2a])) (mkBroadcastMessage "r1" 7 [Byte.x2a]));
    [apply demo_in_room_wf|done|by vm_compute].
Defined.

Lemma resync_reports_every_member_once_witness :
  let g := demo_in_room JoinStateConfirmed in
  ∃ bs, startProgressiveReSync g = Done (tt, queued
      ((batch_envelope "gw-1" <$> bs) ++
       [complete_envelope "gw-1" (Z.of_nat (length (concat bs)))]) g) ∧
    Forall (λ b, 1 ≤ length b ≤ 1000)%nat bs ∧ NoDup (concat bs) ∧
    ∀ u rid, mkUserRoomPair u rid ∈ concat bs ↔
      ∃ us, localRooms g !! rid = Some us ∧ u ∈ us.
Proof. apply (resync_reports_every_member_once (demo_in_room JoinStateConfirmed)). done. Defined.

(** One second, doubled up to the thirty of the shipped configuration. *)
Lemma reconnect_interval_backoff_witness :
  Nat.iter 7 (next_interval 30000000000) 1000000000 =
    Z.min 30000000000 (1000000000 * 2 ^ Z.of_nat 7).
Proof. apply reconnect_interval_backoff; lia. Defined.

Lemma link_status_agrees_witness :
  let g := NewGateway demo_gw_cfg 0 in
  ∃ g', for_each link_round [DialFailed; StreamOpen] g = Done (tt, g') ∧
    rs_connected g' = false ∧ g_status g' = StatusDegraded ∧
    ∃ g'', connect StreamOpen g' = Done ((true, true), g'') ∧
      rs_connected g'' = true ∧ g_status g'' = StatusNormal ∧
      rs_sendCh g'' = sent (mkEnvelope InternalMsgGatewayInfo
        (Encode_ (mkGatewayInfo "gw-1" ":8080" 0))) (rs_sendCh g').
Proof. apply (link_status_agrees [DialFailed; StreamOpen] (NewGateway demo_gw_cfg 0)). done. Defined.
End examples.
