(* ===== verification/Reconnect.v ===== *)
(** The connections of [internal/gateway/roomserver_client.go], one after the
    other: [connectAndServe] starts a send loop and a receive loop, and when
    one of them ends it closes the stream and returns, so that [Run] makes
    the next connection.  The send loop of the old stream may still wait on
    the one queue that all connections share: both loops then take from it.
    The end of the whole process ([ctx.Done()]) is not an event here. *)

From Stdlib Require Import ZArith Lia.
From stdpp Require Import base tactics gmap strings numbers list relations.
From S2P Require Import Prelude GoInt Protocol Frame Chan SessionStore SessionService RoomService Recovery HashRing Roomserver GrpcServer Connection Gateway GatewayHandler RoomserverClient.

Local Open Scope Z_scope.

(** A connection that was made: is its stream still open, and do its two
    loops still run. *)
Record Stream := mkStream { st_open : bool; st_sending : bool; st_receiving : bool }.
Definition set_open b st : Stream := mkStream b (st_sending st) (st_receiving st).
Definition set_sending b st : Stream := mkStream (st_open st) b (st_receiving st).
Definition set_receiving b st : Stream := mkStream (st_open st) (st_sending st) b.

(** The gateway, its connections so far, and what the send loops took: from
    which connection, whether its stream accepted it, and the message. *)
Record Link := mkLink {
  k_gw : Gateway;
  k_streams : list Stream;
  k_taken : list (nat * bool * Envelope);
}.

Definition queue_of (g : Gateway) : list Envelope := ch_buf (rs_sendCh g).

Section link.
Context `{Msgpack GatewayInfo, Msgpack JoinRoomRequest, Msgpack LeaveRoomRequest,
  Msgpack ResumeRequest, Msgpack DisconnectNotify, Msgpack BatchReSync,
  Msgpack ReSyncComplete} `{O : MapOrder}.

(** The label is what the queue accepts in the step.  [stream.Send] on a
    stream whose connection was closed returns an error (gRPC); on an open
    one it may; whether the send loop then goes on is for its own code to
    say.  [Run] makes a connection when the one before is closed. *)
Inductive link_step : Link → list Envelope → Link → Prop :=
  | LinkConnect g ss taken compensate g' acc :
    Forall (λ st, st_open st = false) ss →
    connect StreamOpen g = Done ((true, compensate), g') →
    queue_of g' = queue_of g ++ acc →
    link_step (mkLink g ss taken) acc (mkLink g' (ss ++ [mkStream true true true]) taken)
  | LinkHandlers g ss taken g' acc :      (* any other goroutine only sends *)
    queue_of g' = queue_of g ++ acc →
    link_step (mkLink g ss taken) acc (mkLink g' ss taken)
  | LinkSend g ss taken i st accepts goes_on e g' :
    ss !! i = Some st → st_sending st = true → (accepts = true → st_open st = true) →
    sendLoop_step accepts g = Some (goes_on, e, g') →
    link_step (mkLink g ss taken) []
      (mkLink g' (<[i := set_sending goes_on st]> ss) (taken ++ [(i, accepts, e)]))
  | LinkRecvEnds g ss taken i st :
    ss !! i = Some st → st_receiving st = true →
    link_step (mkLink g ss taken) [] (mkLink g (<[i := set_receiving false st]> ss) taken)
  | LinkDown g ss taken i st g' :
    ss !! i = Some st → st_open st = true → st_sending st && st_receiving st = false →
    disconnect g = Done (tt, g') →
    link_step (mkLink g ss taken) [] (mkLink g' (<[i := set_open false st]> ss) taken).

Inductive link_run : Link → list Envelope → Link → Prop :=
  | LinkNil l : link_run l [] l
  | LinkSnoc l acc l' acc' l'' :
    link_run l acc l' → link_step l' acc' l'' → link_run l (acc ++ acc') l''.

Definition link0 (g : Gateway) : Link := mkLink g [] [].

(** ** Invariant *)
Definition taken_by (i : nat) (l : Link) : list (nat * bool * Envelope) :=
  filter (λ t, t.1.1 = i) (k_taken l).

(** What a loop took was accepted by its stream, up to at most one message,
    the last. *)
Definition loses_last (ts : list (nat * bool * Envelope)) : Prop :=
  ∃ oks lost, ts = oks ++ lost ∧ Forall (λ t, t.1.2 = true) oks ∧
    Forall (λ t, t.1.2 = false) lost ∧ (length lost ≤ 1)%nat.

Lemma loses_last_snoc ts t :
  Forall (λ t, t.1.2 = true) ts → loses_last (ts ++ [t]) ∧
  (t.1.2 = true → Forall (λ t, t.1.2 = true) (ts ++ [t])).
Proof.
  intros Hts. destruct (t.1.2) eqn:Ht.
  - assert (Forall (λ t, t.1.2 = true) (ts ++ [t])) as Hall
      by (apply Forall_app; split; [done|by constructor]).
    split; [|done]. exists (ts ++ [t]), []. rewrite app_nil_r. by split_and!; [| |constructor|simpl; lia].
  - split; [|done]. exists ts, [t]. split_and!; [done..|by constructor|done].
Qed.

Definition link_inv (acc : list Envelope) (l : Link) : Prop :=
  acc = (k_taken l).*2 ++ queue_of (k_gw l) ∧
  (∀ i, loses_last (taken_by i l)) ∧
  (∀ i st, k_streams l !! i = Some st → st_sending st = true →
     Forall (λ t, t.1.2 = true) (taken_by i l)) ∧
  (∀ i, is_Some (k_streams l !! i) ∨ taken_by i l = []).

(** A change of one stream that keeps it sending or not. *)
Lemma link_inv_stream acc g g' ss taken i st st' :
  link_inv acc (mkLink g ss taken) → ss !! i = Some st →
  st_sending st' = st_sending st → queue_of g' = queue_of g →
  link_inv acc (mkLink g' (<[i := st']> ss) taken).
Proof.
  intros (Hacc & Hl1 & Hl2 & Hl3) Hi Hs Hq. unfold link_inv in *. cbn in *.
  rewrite Hq. split_and!; [done|done| |].
  - intros j st0 [(<- & <- & _)|[_ Hj]]%list_lookup_insert_Some Hsend; [|by eapply Hl2].
    eapply Hl2; [done|congruence].
  - intros j. destruct (Hl3 j) as [Hj|]; [left|by right].
    destruct (decide (i = j)) as [<-|]; [|by rewrite list_lookup_insert_ne].
    rewrite list_lookup_insert_eq by (by eapply lookup_lt_Some). eauto.
Qed.

(** A send loop takes the head of the queue, and goes on if the stream
    accepted it. *)
Lemma sendLoop_step_inv accepts goes_on e g g' :
  sendLoop_step accepts g = Some (goes_on, e, g') →
  goes_on = accepts ∧ queue_of g = e :: queue_of g'.
Proof.
  unfold sendLoop_step, queue_of. destruct (ch_buf (rs_sendCh g)) eqn:E; [done|].
  by intros [= <- <- <-].
Qed.

Lemma link_inv_send acc g g' ss taken i st accepts e :
  link_inv acc (mkLink g ss taken) → ss !! i = Some st → st_sending st = true →
  queue_of g = e :: queue_of g' →
  link_inv acc (mkLink g' (<[i := set_sending accepts st]> ss) (taken ++ [(i, accepts, e)])).
Proof.
  intros (Hacc & Hl1 & Hl2 & Hl3) Hi Hsend Hq. unfold link_inv, taken_by in *. cbn in *.
  assert (∀ j, filter (λ t, t.1.1 = j) (taken ++ [(i, accepts, e)]) =
    filter (λ t, t.1.1 = j) taken ++ (if decide (i = j) then [(i, accepts, e)] else [])) as Hf
    by (intros j; rewrite filter_app, filter_cons, filter_nil; cbn; f_equal; by case_decide).
  destruct (loses_last_snoc _ (i, accepts, e) (Hl2 i st Hi Hsend)) as [Hlast Hok].
  split_and!.
  - rewrite Hacc, Hq, fmap_app, <-app_assoc. done.
  - intros j. rewrite Hf. destruct (decide (i = j)) as [<-|]; [done|by rewrite app_nil_r].
  - intros j st0 Hj Hsend0. rewrite Hf.
    apply list_lookup_insert_Some in Hj as [(<- & <- & _)|[Hne Hj]]; cbn in Hsend0.
    + rewrite decide_True by done. by apply Hok.
    + rewrite decide_False, app_nil_r by done. by eapply Hl2.
  - intros j. rewrite Hf. destruct (decide (i = j)) as [<-|].
    + left. rewrite list_lookup_insert_eq by (by eapply lookup_lt_Some). eauto.
    + rewrite app_nil_r. by rewrite list_lookup_insert_ne.
Qed.

Lemma link_inv_step acc l acc' l' :
  link_inv acc l → link_step l acc' l' → link_inv (acc ++ acc') l'.
Proof.
  intros Hinv Hs. destruct Hs as [g ss taken comp g' acc' Hdown Hc Hq|g ss taken g' acc' Hq
    |g ss taken i st accepts goes_on e g' Hi Hsend Hopen Hstep|g ss taken i st Hi Hr
    |g ss taken i st g' Hi Ho Hl Hd]; rewrite ?app_nil_r.
  - destruct Hinv as (Hacc & Hl1 & Hl2 & Hl3). unfold link_inv, taken_by in *. cbn in *.
    rewrite Hq. split_and!; [by rewrite Hacc, <-app_assoc|done| |].
    + intros i st [Hi|(Hi & Heq)]%lookup_app_Some Hsend; [by eapply Hl2|].
      destruct (Hl3 i) as [[? Hs]| ->]; [|constructor]. apply lookup_lt_Some in Hs. lia.
    + intros i. destruct (Hl3 i) as [[st Hs]|]; [left|by right].
      exists st. by apply lookup_app_l_Some.
  - destruct Hinv as (Hacc & Hinv). split; [|exact Hinv]. cbn in *.
    by rewrite Hq, Hacc, <-app_assoc.
  - destruct (sendLoop_step_inv accepts goes_on e g g' Hstep) as [-> Hq].
    by apply (link_inv_send acc g).
  - by eapply link_inv_stream.
  - eapply link_inv_stream; [done..|]. rewrite disconnect_run in Hd. injection Hd as <-.
    unfold queue_of. destruct (degraded_fields (set_rs_connected false g)) as (_ & _ & -> & _).
    done.
Qed.

(** C17. Over any number of reconnections, however the loops of old and new
    connections take turns (the next connection being made, as [Run] makes
    it, when the stream before is closed): the messages the queue accepted
    are, in order, those the send loops have taken and those still queued,
    so that each is taken once, by one loop; and of the messages that the
    loop of a connection took, its stream has accepted all, except possibly
    the last one, which is then lost: after a failed [Send] the loop takes
    no further message. *)
Theorem send_loops_conserve g acc l :
  queue_of g = [] → link_run (link0 g) acc l →
  acc = (k_taken l).*2 ++ queue_of (k_gw l) ∧
  ∀ i, ∃ oks lost, taken_by i l = oks ++ lost ∧ Forall (λ t, t.1.2 = true) oks ∧
    Forall (λ t, t.1.2 = false) lost ∧ (length lost ≤ 1)%nat.
Proof.
  intros Hq Hr. assert (link_inv acc l) as (Hacc & Hlast & _); [|by split].
  remember (link0 g) as l0 eqn:E. induction Hr as [l|l acc l' acc' l'' _ IH Hs].
  - subst. unfold link_inv, taken_by. cbn. rewrite Hq. split_and!; [done| |constructor|by right].
    intros i. exists [], []. by split_and!; [|constructor|constructor|simpl; lia].
  - eapply link_inv_step; [by apply IH|done].
Qed.
End link.

(** ** A lost registration *)
Section lost.
Context {SS : Type} `{SessionStore SS}.
Context `{Msgpack GatewayInfo, Msgpack JoinRoomRequest, Msgpack LeaveRoomRequest,
  Msgpack ResumeRequest, Msgpack DisconnectNotify, Msgpack BatchReSync,
  Msgpack ReSyncComplete, Msgpack JoinRoomAck, Msgpack EpochNotify} `{O : MapOrder}.

(** Without a GatewayInfo a stream does not get into the table. *)
Lemma Channel_loop_unregistered conn received (s : Server SS) c :
  conns s !! conn = Some c → conn_ok c →
  Forall (λ e : Envelope * Z, env_MsgType e.1 ≠ InternalMsgGatewayInfo) received →
  ∃ s', Channel_loop conn received s = Done s' ∧ gateways s' = gateways s.
Proof.
  intros Hc Hok Hr. revert s c Hc Hok.
  induction Hr as [|[e now] received He _ IH]; intros s c Hc Hok; [by exists s|].
  cbn [Channel_loop]. rewrite (handled conn e now s c) by done. cbn [mbind outcome_bind].
  destruct (foldl_run_ctl_frame (requested e now) s) as (_ & Hgw & _).
  lazymatch goal with |- context [Channel_loop conn received ?s1] =>
    destruct (IH s1 (deliver (answers e now s) c)) as (s' & Hs' & Hgw');
      [apply lookup_insert_eq|by apply deliver_ok|] end.
  exists s'. split; [exact Hs'|]. by rewrite Hgw'.
Qed.

(** C18. A reconnect can go unnoticed by the roomserver: as long as the send
    loop of an earlier connection waits on the queue, there is a run in which
    it takes the registration of the new connection and loses it on its
    closed stream.  The gateway then counts itself connected and in normal
    mode; on the roomserver the new stream works, but the gateway is not in
    its table, whatever else the gateway sends, and every push to it is
    dropped. *)
Theorem stale_loop_takes_registration g ss taken i st (s : Server SS) :
  ss !! i = Some st → st_sending st = true → Forall (λ st, st_open st = false) ss →
  queue_of g = [] → (0 < ch_cap (rs_sendCh g))%nat →
  gateways s !! cfg_ID (g_cfg g) = None →
  (∃ acc l, link_run (mkLink g ss taken) acc l ∧
    k_streams l = <[i := set_sending false st]> (ss ++ [mkStream true true true]) ∧
    k_taken l = taken ++ [(i, false, info_envelope g)] ∧
    queue_of (k_gw l) = [] ∧ rs_connected (k_gw l) = true ∧
    g_status (k_gw l) = StatusNormal) ∧
  let '(conn, s1) := Channel_open s in
  ∀ received, Forall (λ e : Envelope * Z, env_MsgType e.1 ≠ InternalMsgGatewayInfo) received →
    ∃ s', Channel_loop conn received s1 = Done s' ∧
      gateways s' !! cfg_ID (g_cfg g) = None ∧
      ∀ e, send_each [(cfg_ID (g_cfg g), e)] s' = Done s'.
Proof.
  intros Hi Hst Hss Hq Hcap Hno. split.
  - assert (queue_of (set_rs_sendCh (sent (info_envelope g) (rs_sendCh g))
      (normal (set_rs_connected true g))) = [info_envelope g]) as Hq1.
    { unfold queue_of in *. cbn. unfold sent. rewrite decide_True by (by rewrite Hq).
      cbn. by rewrite Hq. }
    destruct (normal_fields (set_rs_connected true g)) as (_ & Hcon & _ & Hn).
    eexists _, _. split.
    { eapply LinkSnoc; [eapply LinkSnoc; [apply LinkNil|]|].
      - eapply (LinkConnect g ss taken); [done|apply connect_open|].
        rewrite Hq1, Hq. reflexivity.
      - eapply (LinkSend _ _ _ i st false false); [by apply lookup_app_l_Some|done|done|].
        unfold sendLoop_step. unfold queue_of in Hq1. rewrite Hq1. reflexivity. }
    cbn [k_streams k_taken k_gw]. split_and!; [done..| |]; cbn; by rewrite ?Hcon, ?Hn.
  - destruct (Channel_open s) as [conn s1] eqn:E. unfold Channel_open in E.
    injection E as <- <-. intros received Hr.
    lazymatch goal with |- context [Channel_loop ?conn received ?s1] =>
      destruct (Channel_loop_unregistered conn received s1
        (mkGatewayConnection "" "" (make_chan gatewaySendCap) false)) as (s' & Hs' & Hgw);
        [apply lookup_insert_eq|done|done|] end.
    exists s'. split; [exact Hs'|]. assert (gateways s' !! cfg_ID (g_cfg g) = None) as Hno'
      by (by rewrite Hgw). split; [done|]. intros e. cbn. by rewrite Hno'.
Qed.
End lost.

(** ** Concrete instances *)
Section examples.
Import ToyCodec.
#[local] Existing Instance default_order.

(** A first connection that registered, and whose receive loop failed. *)
Definition demo_g1 : Gateway :=
  match connect StreamOpen demo_fresh with Done (_, g) => g | _ => demo_fresh end.
Definition demo_g2 : Gateway :=
  match sendLoop_step true demo_g1 with Some (_, _, g) => g | None => demo_g1 end.
Definition demo_g3 : Gateway :=
  match disconnect demo_g2 with Done (_, g) => g | _ => demo_g2 end.
Definition demo_down : Link :=
  mkLink demo_g3 [mkStream false true false] [(0%nat, true, info_envelope demo_fresh)].

Lemma demo_down_reachable : link_run (link0 demo_fresh) [info_envelope demo_fresh] demo_down.
Proof.
  change (link_run (link0 demo_fresh)
    (((([] ++ [info_envelope demo_fresh]) ++ []) ++ []) ++ []) demo_down).
  set (info := info_envelope demo_fresh).
  apply (LinkSnoc _ _ (mkLink demo_g2 [mkStream true true false] [(0%nat, true, info)]));
    [apply (LinkSnoc _ _ (mkLink demo_g2 [mkStream true true true] [(0%nat, true, info)]));
      [apply (LinkSnoc _ _ (mkLink demo_g1 [mkStream true true true] []));
        [apply (LinkSnoc _ _ (mkLink demo_fresh [] [])); [apply LinkNil|]|]|]|].
  - apply (LinkConnect demo_fresh [] [] false); [constructor|by vm_compute..].
  - apply (LinkSend demo_g1 [mkStream true true true] [] 0 (mkStream true true true) true true);
      by vm_compute.
  - by apply (LinkRecvEnds demo_g2 [mkStream true true true] _ 0 (mkStream true true true)).
  - apply (LinkDown demo_g2 [mkStream true true false] _ 0 (mkStream true true false));
      by vm_compute.
Qed.

Lemma stale_loop_takes_registration_witness :
  (∃ acc l, link_run demo_down acc l ∧
    k_streams l = [mkStream false false false; mkStream true true true] ∧
    k_taken l = [(0%nat, true, info_envelope demo_fresh); (0%nat, false, info_envelope demo_g3)] ∧
    queue_of (k_gw l) = [] ∧ rs_connected (k_gw l) = true ∧
    g_status (k_gw l) = StatusNormal) ∧
  let '(conn, s1) := Channel_open demo_server in
  ∀ received, Forall (λ e : Envelope * Z, env_MsgType e.1 ≠ InternalMsgGatewayInfo) received →
    ∃ s', Channel_loop conn received s1 = Done s' ∧
      gateways s' !! "gw-1"%string = None ∧
      ∀ e, send_each [("gw-1"%string, e)] s' = Done s'.
Proof.
  apply (stale_loop_takes_registration demo_g3 [mkStream false true false]
    [(0%nat, true, info_envelope demo_fresh)] 0 (mkStream false true false) demo_server);
    [done|done|by repeat constructor|by vm_compute|by_computation|by vm_compute].
Defined.

Lemma send_loops_conserve_witness :
  [info_envelope demo_fresh] = (k_taken demo_down).*2 ++ queue_of (k_gw demo_down) ∧
  ∀ i, ∃ oks lost, taken_by i demo_down = oks ++ lost ∧ Forall (λ t, t.1.2 = true) oks ∧
    Forall (λ t, t.1.2 = false) lost ∧ (length lost ≤ 1)%nat.
Proof. apply (send_loops_conserve demo_fresh); [done|exact demo_down_reachable]. Defined.
End examples.
