(* ===== verification/ClientRun.v ===== *)
(** The goroutine [Run] of [internal/gateway/roomserver_client.go]: dialling,
    serving, closing, waiting and the end of the process, as a machine whose
    events are what the context, the timer and gRPC do.  Reconnect.v has the
    other side: the two loops of each connection and the queue they share. *)

From Stdlib Require Import ZArith Lia.
From stdpp Require Import base tactics gmap strings numbers list.
From S2P Require Import Prelude GoInt Protocol Frame Chan SessionStore SessionService RoomService Recovery HashRing Roomserver GrpcServer Connection Gateway GatewayHandler RoomserverClient.

Local Open Scope Z_scope.

(** A [grpc.ClientConn]: where it goes, is it open, and may its stream still
    send ([CloseSend]). *)
Record Dialled := mkDialled { dl_addr : string; dl_open : bool; dl_sending : bool }.
Definition hang_up (d : Dialled) : Dialled := mkDialled (dl_addr d) false (dl_sending d).
Definition CloseSend (d : Dialled) : Dialled := mkDialled (dl_addr d) (dl_open d) false.

(** The fields [conn], [client], [stream] and [currentAddr]; the first three
    point to connections, numbered in the order of dialling. *)
Record ClientFields := mkClientFields {
  cl_conn : option nat; cl_client : option nat; cl_stream : option nat;
  cl_currentAddr : string }.

(** Where the goroutine is. *)
Inductive Pc :=
  | Top                     (* the first select *)
  | Dialling                (* connectAndServe, before grpc.DialContext returns *)
  | Opening (i : nat)       (* ... before Channel returns *)
  | Serving (i : nat)       (* ... waiting for errCh *)
  | Waiting                 (* the second select *)
  | Returned.

Record RunState := mkRunState {
  r_pc : Pc;
  r_done : bool;            (* ctx.Done() is closed *)
  r_interval : Z;           (* reconnectInterval *)
  r_fields : ClientFields;
  r_conns : list Dialled;
  r_gw : Gateway }.

Inductive RunEvent :=
  | EvCancel                                 (* the context is cancelled *)
  | EvTop                                    (* the first select *)
  | EvDial (nacos : option (string → option string)) (ok : bool)
  | EvChannel (ok : bool)
  | EvLoopEnds (err : bool)                  (* the first value of errCh *)
  | EvTimer                                  (* the second select: time.After *)
  | EvDone                                   (* ... and ctx.Done() *)
  | EvOther (g : Gateway).                   (* other goroutines of the gateway *)

(** What [Recv] gives. *)
Inductive Received := RecvEOF | RecvError | RecvEnvelope (e : Envelope).

Section run.
Context `{Msgpack RoomRequest, Msgpack StatusResponse, Msgpack LeaveResponse,
  Msgpack CloseNotice}.
Context `{Msgpack GatewayInfo, Msgpack JoinRoomRequest, Msgpack LeaveRoomRequest,
  Msgpack ResumeRequest, Msgpack DisconnectNotify, Msgpack BatchReSync,
  Msgpack ReSyncComplete}.
Context `{Msgpack JoinRoomAck, Msgpack BroadcastMessage, Msgpack UnicastMessage,
  Msgpack MulticastMessage, Msgpack EpochNotify, Msgpack RoomCloseNotify} `{O : MapOrder}.
(** [cfg.Nacos.RoomserverService] and the two intervals. *)
Context (serviceName : string) (reconnectInterval maxInterval : Z).

Definition NewRoomserverClient : ClientFields := mkClientFields None None None "".

Definition set_pc pc s : RunState :=
  mkRunState pc (r_done s) (r_interval s) (r_fields s) (r_conns s) (r_gw s).
Definition set_fields f s : RunState :=
  mkRunState (r_pc s) (r_done s) (r_interval s) f (r_conns s) (r_gw s).
Definition set_conns cs s : RunState :=
  mkRunState (r_pc s) (r_done s) (r_interval s) (r_fields s) cs (r_gw s).
Definition set_gw g s : RunState :=
  mkRunState (r_pc s) (r_done s) (r_interval s) (r_fields s) (r_conns s) g.

(** [RoomserverClient.close] *)
Definition close_client (s : RunState) : RunState :=
  let f := r_fields s in
  let s := match cl_stream f with
           | Some i => set_conns (alter CloseSend i (r_conns s)) s
           | None => s
           end in
  let s := match cl_conn f with
           | Some i => set_conns (alter hang_up i (r_conns s)) s
           | None => s
           end in
  set_fields (mkClientFields None (cl_client f) None (cl_currentAddr f)) s.

(** A part of the goroutine that works on the state of the gateway. *)
Definition on_gw {A} (m : G A) (k : A → RunState → outcome RunState) (s : RunState) :
    outcome RunState :=
  match m (r_gw s) with
  | Done (a, g) => k a (set_gw g s)
  | Panic why => Panic why
  | Deadlock l => Deadlock l
  end.

(** [Run] on the result of [connectAndServe]. *)
Definition after_serve (err : bool) (s : RunState) : outcome RunState :=
  if err then on_gw connect_failed (λ _ s, Done (set_pc Waiting s)) s
  else Done (set_pc Waiting s).

(** [connectAndServe] up to [grpc.DialContext]. *)
Definition dial (nacos : option (string → option string)) (ok : bool) (s : RunState) :
    outcome RunState :=
  let addr := getRoomserverAddr nacos serviceName in
  if decide (addr = ""%string) then after_serve false s
  else if ok then
    let i := length (r_conns s) in
    Done (set_pc (Opening i)
      (set_fields (mkClientFields (Some i) (Some i) (cl_stream (r_fields s)) addr)
        (set_conns (r_conns s ++ [mkDialled addr true true]) s)))
  else after_serve true s.

(** ... up to the start of the loops ... *)
Definition open_channel (i : nat) (ok : bool) (s : RunState) : outcome RunState :=
  if ok then
    on_gw (connect StreamOpen) (λ _ s, Done (set_pc (Serving i) s))
      (set_fields (mkClientFields (cl_conn (r_fields s)) (cl_client (r_fields s)) (Some i)
         (cl_currentAddr (r_fields s))) s)
  else after_serve true (set_conns (alter hang_up i (r_conns s)) s).

(** ... and after one of them has ended. *)
Definition serve_ends (err : bool) (s : RunState) : outcome RunState :=
  on_gw disconnect (λ _ s, after_serve err (close_client s)) s.

(** One step of the goroutine, or of the world around it; [None] when the
    event cannot happen. *)
Definition run_step (ev : RunEvent) (s : RunState) : option (outcome RunState) :=
  match ev, r_pc s with
  | EvCancel, _ =>
    Some (Done (mkRunState (r_pc s) true (r_interval s) (r_fields s) (r_conns s) (r_gw s)))
  | EvOther g, _ =>
    if decide (rs_connected g = rs_connected (r_gw s) ∧ g_status g = g_status (r_gw s))
    then Some (Done (set_gw g s)) else None
  | EvTop, Top =>
    Some (Done (if r_done s then set_pc Returned (close_client s) else set_pc Dialling s))
  | EvDial nacos ok, Dialling => Some (dial nacos ok s)
  | EvChannel ok, Opening i => Some (open_channel i ok s)
  | EvLoopEnds err, Serving _ => Some (serve_ends err s)
  | EvTimer, Waiting =>
    Some (Done (mkRunState Top (r_done s) (next_interval maxInterval (r_interval s))
      (r_fields s) (r_conns s) (r_gw s)))
  | EvDone, Waiting => if r_done s then Some (Done (set_pc Returned s)) else None
  | _, _ => None
  end.

Fixpoint run_events (evs : list RunEvent) (s : RunState) : option (outcome RunState) :=
  match evs with
  | [] => Some (Done s)
  | ev :: evs =>
    r ← run_step ev s;
    match r with Done s => run_events evs s | r => Some r end
  end.

Definition run_start (g : Gateway) : RunState :=
  mkRunState Top false reconnectInterval NewRoomserverClient [] g.

(** One iteration of [recvLoop]: [None] when it goes on, otherwise whether it
    returns an error. *)
Definition recvLoop_step (done : bool) (recv : Received) : G (option bool) :=
  if done then mret (Some true)
  else match recv with
  | RecvEOF => mret (Some false)
  | RecvError => mret (Some true)
  | RecvEnvelope e => handleEnvelope e;; mret None
  end.

(** ** Invariant *)
Definition current (pc : Pc) : option nat :=
  match pc with Opening i | Serving i => Some i | _ => None end.

Definition is_serving (pc : Pc) : bool := match pc with Serving _ => true | _ => false end.

(** Only the connection in use is open; the client is connected exactly while
    it serves, and then the gateway is in normal mode; the field [conn] is
    the connection in use. *)
Definition run_inv (s : RunState) : Prop :=
  (∀ i d, r_conns s !! i = Some d → dl_open d = true → current (r_pc s) = Some i) ∧
  (∀ i, current (r_pc s) = Some i →
     cl_conn (r_fields s) = Some i ∧ ∃ d, r_conns s !! i = Some d ∧ dl_open d = true) ∧
  rs_connected (r_gw s) = is_serving (r_pc s) ∧
  (is_serving (r_pc s) = true →
     cl_stream (r_fields s) = current (r_pc s) ∧ g_status (r_gw s) = StatusNormal).

(** Connections that are closed stay so, whatever is done to the others. *)
Lemma hang_up_closes i (cs : list Dialled) j d :
  alter hang_up i cs !! j = Some d → dl_open d = true →
  j ≠ i ∧ cs !! j = Some d.
Proof.
  intros Hj Ho. destruct (decide (i = j)) as [<-|Hn].
  - rewrite list_lookup_alter, decide_True in Hj by done. destruct (cs !! i); [|discriminate Hj].
    simpl in Hj. injection Hj as <-. simpl in Ho. discriminate Ho.
  - rewrite list_lookup_alter_ne in Hj by done. split; [congruence|done].
Qed.

Lemma CloseSend_open i (cs : list Dialled) j d :
  alter CloseSend i cs !! j = Some d → dl_open d = true →
  ∃ d', cs !! j = Some d' ∧ dl_open d' = true.
Proof.
  intros Hj Ho. destruct (decide (i = j)) as [<-|Hn].
  - rewrite list_lookup_alter, decide_True in Hj by done. destruct (cs !! i) as [d'|]; [|discriminate Hj].
    simpl in Hj. injection Hj as <-. exists d'. split; [done|exact Ho].
  - rewrite list_lookup_alter_ne in Hj by done. by exists d.
Qed.

(** After [close] nothing is open that was not open outside the fields. *)
Lemma close_client_inv s :
  run_inv s → ∀ i d, r_conns (close_client s) !! i = Some d → dl_open d = false.
Proof.
  intros (Hopen & Hcur & _) i d Hi. apply not_true_iff_false. intros Ho.
  unfold close_client in Hi.
  assert (∀ cs : list Dialled, (∀ j d, cs !! j = Some d → dl_open d = true → current (r_pc s) = Some j) →
    (match cl_conn (r_fields s) with Some i => alter hang_up i cs | None => cs end) !! i = Some d →
    False) as Hfin.
  { intros cs Hcs Hd. destruct (cl_conn (r_fields s)) as [j|] eqn:Hj.
    - apply hang_up_closes in Hd as [Hne Hd]; [|done]. pose proof (Hcs _ _ Hd Ho) as Hc.
      destruct (Hcur _ Hc) as [? _]. congruence.
    - pose proof (Hcs _ _ Hd Ho) as Hc. destruct (Hcur _ Hc) as [? _]. congruence. }
  destruct (cl_stream (r_fields s)) as [k|]; cbn in Hi.
  - apply (Hfin (alter CloseSend k (r_conns s))).
    + intros j d' Hj Ho'. apply CloseSend_open in Hj as (d'' & Hj & Ho''); [|done]. by eapply Hopen.
    + by destruct (cl_conn (r_fields s)).
  - apply (Hfin (r_conns s)); [by apply Hopen|]. by destruct (cl_conn (r_fields s)).
Qed.

Lemma close_client_fields s :
  r_gw (close_client s) = r_gw s ∧ r_pc (close_client s) = r_pc s ∧
  r_done (close_client s) = r_done s ∧ r_interval (close_client s) = r_interval s.
Proof. unfold close_client. by destruct (cl_stream (r_fields s)), (cl_conn (r_fields s)). Qed.

(** States in which nothing is open and nothing is served. *)
Lemma idle_inv s :
  (∀ i d, r_conns s !! i = Some d → dl_open d = false) → current (r_pc s) = None →
  rs_connected (r_gw s) = false → run_inv s.
Proof.
  intros Hcl Hpc Hc. split_and!.
  - intros i d Hi Ho. specialize (Hcl i d Hi). congruence.
  - intros i Hi. congruence.
  - rewrite Hc. by destruct (r_pc s).
  - destruct (r_pc s); simpl in *; done.
Qed.

Lemma closed_conns s :
  run_inv s → current (r_pc s) = None → ∀ i d, r_conns s !! i = Some d → dl_open d = false.
Proof.
  intros (Hopen & _) Hpc i d Hi. apply not_true_iff_false. intros Ho.
  specialize (Hopen i d Hi Ho). congruence.
Qed.

(** The result of [connectAndServe] leaves an idle client idle. *)
Lemma after_serve_inv err s s' :
  (∀ i d, r_conns s !! i = Some d → dl_open d = false) → rs_connected (r_gw s) = false →
  after_serve err s = Done s' →
  run_inv s' ∧ r_pc s' = Waiting ∧ r_done s' = r_done s ∧ r_interval s' = r_interval s.
Proof.
  intros Hcl Hc. unfold after_serve, on_gw, connect_failed, mbind, G_bind, modify.
  destruct err; [rewrite SetDegraded_run|]; intros [= <-]; (split; [|done]);
    apply idle_inv; try done. cbn [set_pc set_gw r_gw].
  by destruct (degraded_fields (set_rs_connected false (r_gw s))) as (_ & -> & _).
Qed.

Lemma after_serve_done err s : ∃ s', after_serve err s = Done s'.
Proof.
  unfold after_serve, on_gw, connect_failed, mbind, G_bind, modify.
  destruct err; [rewrite SetDegraded_run|]; by eexists.
Qed.

Lemma dial_inv nacos ok s s' :
  run_inv s → r_pc s = Dialling → dial nacos ok s = Done s' →
  run_inv s' ∧ r_done s' = r_done s ∧ r_interval s' = r_interval s ∧
  (r_pc s' = Waiting ∨ ∃ i, r_pc s' = Opening i).
Proof.
  intros Hinv Hpc. pose proof Hinv as (Hopen & Hcur & Hc & _).
  assert (∀ i d, r_conns s !! i = Some d → dl_open d = false) as Hcl
    by (apply closed_conns; [done|by rewrite Hpc]).
  assert (rs_connected (r_gw s) = false) as Hf by (rewrite Hc, Hpc; done).
  assert (∀ err, after_serve err s = Done s' →
    run_inv s' ∧ r_done s' = r_done s ∧ r_interval s' = r_interval s ∧
    (r_pc s' = Waiting ∨ ∃ i, r_pc s' = Opening i)) as Hafter.
  { intros err Hs. destruct (after_serve_inv err s s' Hcl Hf Hs) as (? & ? & ? & ?). auto. }
  unfold dial. case_decide; [by apply Hafter|]. destruct ok; [|by apply Hafter].
  intros [= <-]. split; [|eauto]. split_and!; cbn.
  - intros i d [Hi|[Hi Hd]]%lookup_app_Some Ho; [specialize (Hcl i d Hi); congruence|].
    apply list_lookup_singleton_Some in Hd as [Hd _]. f_equal. lia.
  - intros i [= <-]. split; [done|]. rewrite lookup_app_r, Nat.sub_diag by done. by eexists.
  - done.
  - done.
Qed.

Lemma open_channel_inv i ok s s' :
  run_inv s → r_pc s = Opening i → open_channel i ok s = Done s' →
  run_inv s' ∧ r_done s' = r_done s ∧ r_interval s' = r_interval s ∧
  r_pc s' = (if ok then Serving i else Waiting).
Proof.
  intros Hinv Hpc. pose proof Hinv as (Hopen & Hcur & Hc & _).
  rewrite Hpc in Hopen, Hcur, Hc. unfold open_channel. destruct ok.
  - unfold on_gw. rewrite connect_open. cbn [set_fields r_gw]. intros [= <-]. split; [|done].
    destruct (normal_fields (set_rs_connected true (r_gw s))) as (_ & Hr & _ & Hn).
    split_and!; cbn; [done| |done|by rewrite Hn].
    intros j [= <-]. destruct (Hcur i eq_refl) as [Hi Hd]. by split.
  - intros Hs. apply after_serve_inv in Hs; [by destruct Hs as (? & ? & ? & ?)| |exact Hc].
    intros j d Hj. apply not_true_iff_false. intros Ho. cbn in Hj.
    apply hang_up_closes in Hj as [Hne Hj]; [|done]. specialize (Hopen j d Hj Ho).
    simpl in Hopen. congruence.
Qed.

Lemma serve_ends_inv i err s s' :
  run_inv s → r_pc s = Serving i → serve_ends err s = Done s' →
  run_inv s' ∧ r_done s' = r_done s ∧ r_interval s' = r_interval s ∧ r_pc s' = Waiting.
Proof.
  intros Hinv Hpc. unfold serve_ends, on_gw. rewrite disconnect_run.
  set (s1 := set_gw (degraded (set_rs_connected false (r_gw s))) s). intros Hs.
  destruct (close_client_fields s1) as (Hg & _ & Hd & Hi).
  apply after_serve_inv in Hs; [|intros j d Hj|].
  - destruct Hs as (? & Hpc' & Hd' & Hi'). split_and!; [done|by rewrite Hd', Hd|by rewrite Hi', Hi|done].
  - apply (close_client_inv s Hinv j d). revert Hj. unfold close_client, s1. cbn.
    by destruct (cl_stream (r_fields s)), (cl_conn (r_fields s)).
  - rewrite Hg. unfold s1. cbn [set_gw r_gw]. by destruct (degraded_fields (set_rs_connected false (r_gw s))) as (_ & -> & _).
Qed.

(** Steps that keep the place of the goroutine, or move an idle one. *)
Lemma run_inv_ext s s' :
  run_inv s → r_conns s' = r_conns s → current (r_pc s') = current (r_pc s) →
  is_serving (r_pc s') = is_serving (r_pc s) → r_fields s' = r_fields s →
  rs_connected (r_gw s') = rs_connected (r_gw s) → g_status (r_gw s') = g_status (r_gw s) →
  run_inv s'.
Proof. unfold run_inv. intros Hinv -> -> -> -> -> ->. done. Qed.

(** How far the goroutine is from its end when the context is cancelled. *)
Definition distance (pc : Pc) : nat :=
  match pc with
  | Returned => 0 | Top => 1 | Waiting => 2 | Serving _ => 3 | Opening _ => 4 | Dialling => 5
  end.

Definition of_client (ev : RunEvent) : bool :=
  match ev with EvCancel | EvOther _ => false | _ => true end.

Definition is_timer (ev : RunEvent) : bool := match ev with EvTimer => true | _ => false end.

(** One step keeps the invariant; it doubles the waiting time exactly at the
    timer; and after the end of the context the goroutine's own steps bring it
    nearer to its end. *)
Lemma run_step_inv ev s s' :
  run_inv s → run_step ev s = Some (Done s') →
  run_inv s' ∧ (r_done s = true → r_done s' = true) ∧
  r_interval s' = (if is_timer ev then next_interval maxInterval (r_interval s) else r_interval s) ∧
  (if of_client ev then r_done s = true → (distance (r_pc s') < distance (r_pc s))%nat
   else r_pc s' = r_pc s).
Proof.
  intros Hinv. destruct ev as [| |nacos ok|ok|err| | |g]; cbn [run_step of_client is_timer];
    destruct (r_pc s) as [| |i|i| |] eqn:Hpc; try done.
  1-6: intros [= <-]; (split; [|done]); eapply run_inv_ext; [done|cbn; by rewrite ?Hpc..].
  all: try (case_decide as Hg; [|done]; intros [= <-]; destruct Hg as [Hg1 Hg2];
    (split; [|done]); eapply run_inv_ext; [done|cbn; by rewrite ?Hpc, ?Hg1, ?Hg2..]).
  - destruct (r_done s) eqn:Hd; intros [= <-].
    + destruct (close_client_fields s) as (Hg & _ & Hd' & Hi).
      split; [|cbn [set_pc r_done r_interval r_pc is_timer of_client distance];
        rewrite Hd', Hi; split_and!; [congruence|done|lia]].
      apply idle_inv; [by apply close_client_inv|done|].
      cbn [set_pc r_gw]. rewrite Hg. destruct Hinv as (_ & _ & -> & _). by rewrite Hpc.
    + split; [|done]. eapply run_inv_ext; [done|cbn; by rewrite ?Hpc..].
  - intros [= Hs]. destruct (dial_inv _ _ _ _ Hinv Hpc Hs) as (? & Hd & Hi & Hp).
    split_and!; [done|congruence|done|]. intros _. destruct Hp as [->|[j ->]]; simpl; lia.
  - intros [= Hs]. destruct (open_channel_inv _ _ _ _ Hinv Hpc Hs) as (? & Hd & Hi & ->).
    split_and!; [done|congruence|done|]. intros _. destruct ok; simpl; lia.
  - intros [= Hs]. destruct (serve_ends_inv _ _ _ _ Hinv Hpc Hs) as (? & Hd & Hi & ->).
    split_and!; [done|congruence|done|]. simpl. lia.
  - intros [= <-]. split_and!; cbn; [|done|done|lia].
    eapply run_inv_ext; [done|cbn; by rewrite ?Hpc..].
  - destruct (r_done s) eqn:Hd; [|done]. intros [= <-]. split_and!; cbn; [|by rewrite Hd|done|lia].
    eapply run_inv_ext; [done|cbn; by rewrite ?Hpc..].
Qed.

Lemma run_start_inv g : rs_connected g = false → run_inv (run_start g).
Proof. intros Hg. by apply idle_inv. Qed.

Lemma run_events_inv evs s s' :
  run_inv s → run_events evs s = Some (Done s') →
  run_inv s' ∧ (r_done s = true → r_done s' = true) ∧
  r_interval s' = Nat.iter (length (filter is_timer evs)) (next_interval maxInterval) (r_interval s) ∧
  (r_done s = true → (length (filter of_client evs) + distance (r_pc s') ≤ distance (r_pc s))%nat).
Proof.
  revert s. induction evs as [|ev evs IH]; intros s Hinv; simpl; [intros [= <-]; auto|].
  destruct (run_step ev s) as [[s1|why|l]|] eqn:Hs; simpl; try done. intros Hr.
  destruct (run_step_inv _ _ _ Hinv Hs) as (Hinv1 & Hd1 & Hi1 & Hp1).
  destruct (IH s1 Hinv1 Hr) as (Hinv' & Hd' & Hi' & Hp').
  split_and!; [done|auto| |].
  - rewrite Hi', Hi1, filter_cons. destruct (is_timer ev); simpl; [|done].
    by rewrite <-Nat.iter_succ_r.
  - intros Hd. specialize (Hp' (Hd1 Hd)). rewrite filter_cons.
    destruct (of_client ev); simpl; [specialize (Hp1 Hd); lia|congruence].
Qed.

(** In every history of the goroutine at most one connection is open, and
    it is the one that is being opened or served; the client says that it is
    connected exactly while it serves, with the gateway in normal mode; and
    the waiting time has been doubled once for each wait that ended. *)
Theorem Run_holds_one_connection evs g s :
  rs_connected g = false → run_events evs (run_start g) = Some (Done s) →
  (∀ i d, r_conns s !! i = Some d → dl_open d = true →
     (r_pc s = Opening i ∨ r_pc s = Serving i) ∧ cl_conn (r_fields s) = Some i) ∧
  (rs_connected (r_gw s) = true ↔ ∃ i, r_pc s = Serving i) ∧
  (rs_connected (r_gw s) = true → g_status (r_gw s) = StatusNormal) ∧
  r_interval s =
    Nat.iter (length (filter is_timer evs)) (next_interval maxInterval) reconnectInterval.
Proof.
  intros Hg Hr. destruct (run_events_inv _ _ _ (run_start_inv g Hg) Hr)
    as ((Hopen & Hcur & Hc & Hst) & _ & Hi & _).
  split_and!; [| | |done].
  - intros i d Hd Ho. specialize (Hopen i d Hd Ho). split; [|by apply Hcur].
    destruct (r_pc s); simpl in Hopen; try done; injection Hopen as ->; auto.
  - rewrite Hc. destruct (r_pc s); simpl; naive_solver.
  - intros Hs. rewrite Hs in Hc. by apply Hst.
Qed.

Lemma run_step_possible s :
  r_pc s ≠ Returned → ∃ ev s', of_client ev = true ∧ run_step ev s = Some (Done s').
Proof.
  intros Hpc. destruct (r_pc s) as [| |i|i| |] eqn:E; [| | | | |done].
  - exists EvTop. eexists. split; [done|]. unfold run_step. by rewrite E.
  - exists (EvDial None false). destruct (after_serve_done true s) as [s' Hs]. exists s'.
    split; [done|]. unfold run_step, dial. rewrite E. by rewrite decide_False, Hs.
  - exists (EvChannel false).
    destruct (after_serve_done true (set_conns (alter hang_up i (r_conns s)) s)) as [s' Hs].
    exists s'. split; [done|]. unfold run_step, open_channel. by rewrite E, Hs.
  - exists (EvLoopEnds true). unfold run_step, serve_ends, on_gw. rewrite E, disconnect_run.
    destruct (after_serve_done true (close_client
      (set_gw (degraded (set_rs_connected false (r_gw s))) s))) as [s' Hs].
    exists s'. by rewrite Hs.
  - exists EvTimer. eexists. split; [done|]. unfold run_step. by rewrite E.
Qed.

(** C19. When the context is cancelled [Run] returns: wherever it is, it has at
    most five more steps of its own, it can always take one until it has
    returned, it takes none afterwards, and then no connection is open. *)
Theorem Run_returns_after_cancel before after g s s' :
  rs_connected g = false →
  run_events before (run_start g) = Some (Done s) → r_done s = true →
  run_events after s = Some (Done s') →
  (length (filter of_client after) ≤ 5)%nat ∧
  (r_pc s' ≠ Returned → ∃ ev s'', of_client ev = true ∧ run_step ev s' = Some (Done s'')) ∧
  (r_pc s' = Returned →
     (∀ ev, of_client ev = true → run_step ev s' = None) ∧
     rs_connected (r_gw s') = false ∧ Forall (λ d, dl_open d = false) (r_conns s')).
Proof.
  intros Hg Hb Hd Ha. destruct (run_events_inv _ _ _ (run_start_inv g Hg) Hb) as (Hinv & _).
  destruct (run_events_inv _ _ _ Hinv Ha) as (Hinv' & _ & _ & Hlen). split_and!.
  - specialize (Hlen Hd). assert (distance (r_pc s) ≤ 5)%nat by (destruct (r_pc s); simpl; lia). lia.
  - apply run_step_possible.
  - intros Hp. split_and!.
    + intros ev He. destruct ev; simpl in He; try done; unfold run_step; by rewrite Hp.
    + destruct Hinv' as (_ & _ & -> & _). by rewrite Hp.
    + apply Forall_lookup. intros i d. apply closed_conns; [done|by rewrite Hp].
Qed.
End run.

(** ** Examples *)
Section examples.
Import ToyCodec.
#[local] Existing Instance default_order.

Definition demo_run : list RunEvent → RunState → option (outcome RunState) :=
  run_events "roomserver" (30 * 10 ^ 9).
Definition demo_start := run_start (10 ^ 9) (NewGateway demo_gw_cfg 0).
Definition demo_history : list RunEvent :=
  [EvTop; EvDial None true; EvChannel false; EvTimer; EvTop; EvDial None true; EvChannel true].

Definition demo_after (evs : list RunEvent) (s : RunState) : RunState :=
  match demo_run evs s with Some (Done s) => s | _ => s end.
Definition demo_serving : RunState := demo_after demo_history demo_start.
Definition demo_cancelled : RunState := demo_after (demo_history ++ [EvCancel]) demo_start.
Definition demo_end : list RunEvent := [EvLoopEnds true; EvTimer; EvTop].
Definition demo_returned : RunState := demo_after demo_end demo_cancelled.

Lemma Run_holds_one_connection_witness :
  r_pc demo_serving = Serving 1 ∧ length (r_conns demo_serving) = 2%nat ∧
  (∀ i d, r_conns demo_serving !! i = Some d → dl_open d = true →
     (r_pc demo_serving = Opening i ∨ r_pc demo_serving = Serving i) ∧
     cl_conn (r_fields demo_serving) = Some i) ∧
  (rs_connected (r_gw demo_serving) = true ↔ ∃ i, r_pc demo_serving = Serving i) ∧
  (rs_connected (r_gw demo_serving) = true → g_status (r_gw demo_serving) = StatusNormal) ∧
  r_interval demo_serving = Nat.iter 1 (next_interval (30 * 10 ^ 9)) (10 ^ 9).
Proof.
  split; [by vm_compute|]. split; [by vm_compute|].
  apply (Run_holds_one_connection "roomserver" (10 ^ 9) (30 * 10 ^ 9) demo_history
    (NewGateway demo_gw_cfg 0) demo_serving); by vm_compute.
Defined.

Lemma Run_returns_after_cancel_witness :
  (length (filter of_client demo_end) ≤ 5)%nat ∧
  (r_pc demo_returned ≠ Returned → ∃ ev s'', of_client ev = true ∧
     run_step "roomserver" (30 * 10 ^ 9) ev demo_returned = Some (Done s'')) ∧
  (r_pc demo_returned = Returned →
     (∀ ev, of_client ev = true → run_step "roomserver" (30 * 10 ^ 9) ev demo_returned = None) ∧
     rs_connected (r_gw demo_returned) = false ∧
     Forall (λ d, dl_open d = false) (r_conns demo_returned)).
Proof.
  apply (Run_returns_after_cancel "roomserver" (10 ^ 9) (30 * 10 ^ 9) (demo_history ++ [EvCancel])
    demo_end (NewGateway demo_gw_cfg 0) demo_cancelled demo_returned); by vm_compute.
Defined.

Example demo_ends : r_pc demo_returned = Returned.
Proof. by vm_compute. Qed.
End examples.
