(* ===== verification/Nacos.v ===== *)
(** [pkg/nacos/client.go]: service discovery.  The client is the simulated
    one of the repository: its registry answers [fetchInstances] from a
    constant.  Every operation here is one critical section of [c.mu], or a
    sequence of them; callbacks run as goroutines of their own, and are
    identified by numbers. *)

From Stdlib Require Import ZArith Lia.
From stdpp Require Import base tactics gmap strings pretty numbers list.
From S2P Require Import Prelude GoInt Connection RoomserverClient.

Local Open Scope Z_scope.

(** ** Data *)
Record ServiceInstance := mkServiceInstance {
  si_ServiceName : string;
  si_IP : string;
  si_Port : Z;
  si_Metadata : gmap string string;
  si_Healthy : bool;
  si_Weight : float64;
}.

(** [fmt.Sprintf] with a string, a colon and a decimal. *)
Definition Address (s : ServiceInstance) : string :=
  (si_IP s +:+ ":" +:+ pretty (si_Port s))%string.

Abbreviation CallbackRef := nat.

Record Client := mkClient {
  services : gmap string (list ServiceInstance);    (* serviceName → instances *)
  callbacks : gmap string (list CallbackRef);       (* serviceName → callbacks *)
  stopCh_closed : bool;
}.

Definition NewClient : Client := mkClient ∅ ∅ false.

(** ** Operations *)
Definition fetchInstances (serviceName : string) : list ServiceInstance :=
  if decide (serviceName = "roomserver"%string)
  then [mkServiceInstance "roomserver" "localhost" 9000 ∅ true (f64_const 1 1)]
  else [].

(** [aMap[inst.Address()] = inst.Healthy], a later instance overwrites. *)
Definition health_map (l : list ServiceInstance) : gmap string bool :=
  foldl (λ aMap inst, <[Address inst := si_Healthy inst]> aMap) ∅ l.

Definition instancesEqual (a b : list ServiceInstance) : bool :=
  if negb (length a =? length b)%nat then false else
  let aMap := health_map a in
  forallb (λ inst, match aMap !! Address inst with
                   | Some healthy => eqb healthy (si_Healthy inst)
                   | None => false
                   end) b.

(** The callbacks it starts, with their argument. *)
Definition updateInstances (serviceName : string) (instances : list ServiceInstance)
    (c : Client) : list (CallbackRef * list ServiceInstance) * Client :=
  let oldInstances := default [] (services c !! serviceName) in
  let c := mkClient (<[serviceName := instances]> (services c)) (callbacks c)
             (stopCh_closed c) in
  if instancesEqual oldInstances instances then ([], c)
  else ((λ cb, (cb, instances)) <$> default [] (callbacks c !! serviceName), c).

Definition refreshServices `{MapOrder} (c : Client) :
    list (CallbackRef * list ServiceInstance) * Client :=
  foldl (λ sc name,
    let '(started, c) := updateInstances name (fetchInstances name) sc.2 in
    (sc.1 ++ started, c)) ([], c) (range_keys (callbacks c)).

(** The branch of the [select] in [backgroundRefresh] that is taken; the
    flag says whether the loop goes on, [None] that the branch is not
    ready. *)
Inductive RefreshEvent := OnStop | OnTicker.

Definition backgroundRefresh_step `{MapOrder} (ev : RefreshEvent) (c : Client) :
    option (bool * list (CallbackRef * list ServiceInstance) * Client) :=
  match ev with
  | OnStop => if stopCh_closed c then Some (false, [], c) else None
  | OnTicker => let '(started, c) := refreshServices c in Some (true, started, c)
  end.

Definition Subscribe (serviceName : string) (callback : CallbackRef) (c : Client) :
    list (CallbackRef * list ServiceInstance) * Client :=
  let c := mkClient (services c)
    (<[serviceName := default [] (callbacks c !! serviceName) ++ [callback]]> (callbacks c))
    (stopCh_closed c) in
  updateInstances serviceName (fetchInstances serviceName) c.

Definition GetInstances (serviceName : string) (c : Client) : list ServiceInstance * Client :=
  let instances := default [] (services c !! serviceName) in
  if decide (length instances = 0%nat) then
    let instances := fetchInstances serviceName in
    if (0 <? length instances)%nat
    then (instances, mkClient (<[serviceName := instances]> (services c)) (callbacks c)
                       (stopCh_closed c))
    else (instances, c)
  else (instances, c).

(** [rand.Intn(n)] is [r] modulo [n], for an arbitrary [r]. *)
Definition GetHealthyInstance (r : nat) (serviceName : string) (c : Client) :
    option ServiceInstance * Client :=
  let '(instances, c) := GetInstances serviceName c in
  if decide (length instances = 0%nat) then (None, c) else
  let healthy := filter (λ inst, si_Healthy inst = true) instances in
  if decide (length healthy = 0%nat) then (None, c)
  else (healthy !! (r mod length healthy)%nat, c).

Definition Close (c : Client) : outcome Client :=
  if stopCh_closed c then Panic "close of closed channel"
  else Done (mkClient (services c) (callbacks c) true).

(** [RegisterService], [DeregisterService], [GetConfig] and [WatchConfig] have
    no implementation yet: they log, do nothing and report success. *)
Definition RegisterService (instance : ServiceInstance) (c : Client) : option string * Client :=
  (None, c).
Definition DeregisterService (instance : ServiceInstance) (c : Client) : option string * Client :=
  (None, c).
Definition GetConfig (dataID : string) (c : Client) : result string string * Client :=
  (Ok ""%string, c).
Definition WatchConfig (dataID : string) (callback : CallbackRef) (c : Client) :
    option string * Client := (None, c).

(** What other goroutines do to a client. *)
Inductive ClientOp :=
  | OpSubscribe (serviceName : string) (callback : CallbackRef)
  | OpGetInstances (serviceName : string)
  | OpGetHealthy (r : nat) (serviceName : string)
  | OpRegister (instance : ServiceInstance)
  | OpDeregister (instance : ServiceInstance)
  | OpGetConfig (dataID : string)
  | OpWatchConfig (dataID : string) (callback : CallbackRef)
  | OpRefresh.

Definition run_client `{MapOrder} (c : Client) (op : ClientOp) : Client :=
  match op with
  | OpSubscribe name cb => (Subscribe name cb c).2
  | OpGetInstances name => (GetInstances name c).2
  | OpGetHealthy r name => (GetHealthyInstance r name c).2
  | OpRegister instance => (RegisterService instance c).2
  | OpDeregister instance => (DeregisterService instance c).2
  | OpGetConfig dataID => (GetConfig dataID c).2
  | OpWatchConfig dataID cb => (WatchConfig dataID cb c).2
  | OpRefresh => (refreshServices c).2
  end.

(** ** Comparing instance lists *)

(** What [instancesEqual] looks at. *)
Definition status_of (inst : ServiceInstance) : string * bool := (Address inst, si_Healthy inst).

Lemma health_map_lookup l a h :
  NoDup (Address <$> l) → health_map l !! a = Some h ↔ (a, h) ∈ status_of <$> l.
Proof.
  unfold health_map. revert a h. induction l as [|x l IH] using rev_ind; intros a h Hnd; simpl.
  { rewrite lookup_empty. split; [done|by intros ?%elem_of_nil]. }
  rewrite foldl_app. simpl. rewrite fmap_app in Hnd. simpl in Hnd.
  apply NoDup_app in Hnd as (Hnd & Hx & _). rewrite fmap_app, elem_of_app. simpl.
  rewrite list_elem_of_singleton. unfold status_of at 2.
  destruct (decide (Address x = a)) as [<-|Hne].
  - rewrite lookup_insert_eq. split; [intros [= <-]; by right|].
    intros [Hin|[= ->]]; [|done]. exfalso.
    apply list_elem_of_fmap in Hin as (y & [= Hy Hh] & Hin).
    apply (Hx (Address x)); [|by left]. rewrite Hy. by apply list_elem_of_fmap_2.
  - rewrite lookup_insert_ne, IH by done. split; [by left|].
    intros [?|[= -> ->]]; done.
Qed.

(** Reading the check of [instancesEqual] as an inclusion. *)
Lemma instancesEqual_incl a b :
  NoDup (Address <$> a) →
  instancesEqual a b = true ↔
  length a = length b ∧ ∀ p, p ∈ status_of <$> b → p ∈ status_of <$> a.
Proof.
  intros Hnd. unfold instancesEqual. destruct (Nat.eqb_spec (length a) (length b)) as [Hl|Hl];
    simpl; [|by split; [|intros [??]]].
  rewrite forallb_forall. split.
  - intros Hall. split; [done|]. intros p (x & -> & Hx)%list_elem_of_fmap.
    apply list_elem_of_In in Hx as Hi. specialize (Hall x Hi). simpl in Hall.
    destruct (health_map a !! Address x) eqn:E; [|done].
    apply health_map_lookup in E; [|done]. by apply eqb_prop in Hall as ->.
  - intros [_ Hin] x Hx%list_elem_of_In.
    assert (status_of x ∈ status_of <$> a) as Hs by (by apply Hin, list_elem_of_fmap_2).
    apply health_map_lookup in Hs; [|done]. rewrite Hs. by destruct (si_Healthy x).
Qed.

(** Comparing instance lists: for lists that name every address once,
    [instancesEqual] holds exactly when both have the same addresses with
    the same health, in any order. *)
Theorem instancesEqual_permutation a b :
  NoDup (Address <$> a) → NoDup (Address <$> b) →
  instancesEqual a b = true ↔ status_of <$> a ≡ₚ status_of <$> b.
Proof.
  intros Ha Hb. rewrite instancesEqual_incl by done.
  assert (∀ l, NoDup (Address <$> l) → NoDup (status_of <$> l)) as Hnd.
  { intros l Hl. apply (NoDup_fmap_1 fst). by rewrite <-list_fmap_compose. }
  split.
  - intros [Hl Hin]. symmetry. apply submseteq_length_Permutation.
    + by apply NoDup_submseteq; [apply Hnd|].
    + rewrite !length_fmap. lia.
  - intros Hp. split; [by apply Permutation_length in Hp; rewrite !length_fmap in Hp|].
    intros p. by rewrite Hp.
Qed.

Definition demo_instance (ip : string) (healthy : bool) : ServiceInstance :=
  mkServiceInstance "roomserver" ip 9000 ∅ healthy (f64_const 1 1).

Lemma instancesEqual_permutation_witness :
  let a := [demo_instance "10.0.0.1" true; demo_instance "10.0.0.2" false] in
  let b := [demo_instance "10.0.0.2" false; demo_instance "10.0.0.1" true] in
  NoDup (Address <$> a) ∧ NoDup (Address <$> b) ∧
  (instancesEqual a b = true ↔ status_of <$> a ≡ₚ status_of <$> b).
Proof.
  assert (∀ x y, x ≠ y → NoDup [x; y : string]) as Hnd.
  { intros x y Hne. apply NoDup_cons_2; [|apply NoDup_singleton].
    by rewrite list_elem_of_singleton. }
  split; [|split]; [| |apply instancesEqual_permutation]; by apply Hnd.
Defined.

(** With an address listed twice the comparison is wrong: an instance that
    was replaced by a second copy of another one is not noticed. *)
Lemma instancesEqual_misses_loss x y :
  Address x ≠ Address y → instancesEqual [x; y] [x; x] = true.
Proof.
  intros Hne. unfold instancesEqual, health_map. simpl.
  rewrite lookup_insert_ne, lookup_insert_eq by done. by destruct (si_Healthy x).
Qed.

(** ** The cache *)

(** Whatever is cached is what the registry answers. *)
Definition cache_ok (c : Client) : Prop :=
  ∀ name l, services c !! name = Some l → l = fetchInstances name.

Lemma cache_ok_insert name c cbs st :
  cache_ok c → cache_ok (mkClient (<[name := fetchInstances name]> (services c)) cbs st).
Proof. intros Hc n l. simpl. intros [[<- <-]|[_ Hl]]%lookup_insert_Some; [done|by apply Hc]. Qed.

Lemma updateInstances_ok name c :
  cache_ok c → cache_ok (updateInstances name (fetchInstances name) c).2.
Proof.
  intros Hc. unfold updateInstances. destruct (instancesEqual _ _); simpl;
    by apply cache_ok_insert.
Qed.

Lemma GetInstances_ok name c :
  cache_ok c →
  cache_ok (GetInstances name c).2 ∧ (GetInstances name c).1 = fetchInstances name.
Proof.
  intros Hc. unfold GetInstances. case_decide as Hl.
  - destruct (0 <? length (fetchInstances name))%nat; simpl; [|done].
    split; [by apply cache_ok_insert|done].
  - simpl. split; [done|]. destruct (services c !! name) as [l|] eqn:E; simpl in *;
      [by apply Hc in E|done].
Qed.

Lemma GetHealthyInstance_ok r name c :
  cache_ok c →
  cache_ok (GetHealthyInstance r name c).2 ∧
  (∀ inst, (GetHealthyInstance r name c).1 = Some inst →
     inst ∈ fetchInstances name ∧ si_Healthy inst = true).
Proof.
  intros Hc. unfold GetHealthyInstance.
  destruct (GetInstances_ok name c Hc) as [Hc' Hl].
  destruct (GetInstances name c) as [l c']; simpl in *. subst l.
  do 2 (case_decide; simpl; [done|]). split; [done|].
  intros inst Hi%list_elem_of_lookup_2. by apply list_elem_of_filter in Hi as [??].
Qed.

Lemma refreshServices_ok `{MapOrder} c : cache_ok c → cache_ok (refreshServices c).2.
Proof.
  intros Hc. unfold refreshServices. generalize (range_keys (callbacks c)) as names.
  intros names.
  assert (cache_ok ([] : list (CallbackRef * list ServiceInstance), c).2) as Hst by done.
  revert Hst. generalize ([] : list (CallbackRef * list ServiceInstance), c) as sc.
  induction names as [|name names IH]; intros [st' c'] Hc'; simpl; [done|].
  apply IH. pose proof (updateInstances_ok name c' Hc') as Hu.
  by destruct (updateInstances _ _ _).
Qed.

Lemma run_client_ok `{MapOrder} ops : cache_ok (foldl run_client NewClient ops).
Proof.
  assert (∀ c, cache_ok c → cache_ok (foldl run_client c ops)) as Hgen; [|by apply Hgen].
  induction ops as [|op ops IH]; intros c Hc; simpl; [done|]. apply IH.
  destruct op; simpl.
  - unfold Subscribe. by apply updateInstances_ok.
  - by apply GetInstances_ok.
  - by apply GetHealthyInstance_ok.
  - done.
  - done.
  - done.
  - done.
  - by apply refreshServices_ok.
Qed.

(** Service discovery finds nothing that is not in the binary: in any
    history of a client, the gateway dials the same local address,
    whichever service name is configured. *)
Theorem discovery_always_local `{MapOrder} ops r serviceName :
  let c := foldl run_client NewClient ops in
  getRoomserverAddr (Some (λ name, Address <$> (GetHealthyInstance r name c).1)) serviceName =
  "localhost:9000"%string.
Proof.
  intros c. unfold getRoomserverAddr. cbv zeta.
  set (name := if decide (serviceName = ""%string) then _ else _).
  destruct (GetHealthyInstance_ok r name c (run_client_ok ops)) as [_ Hh].
  destruct ((GetHealthyInstance r name c).1) as [inst|]; [|done].
  destruct (Hh inst eq_refl) as [Hin _]. unfold fetchInstances in Hin.
  case_decide; [|by apply elem_of_nil in Hin]. by apply list_elem_of_singleton in Hin as ->.
Qed.

(** What is registered is never discovered: registration reports
    success, and in any history of a client, before or after it, a lookup of a
    healthy instance, under whatever name, returns one from the binary or
    none. *)
Theorem registration_has_no_effect `{MapOrder} before after inst name r found :
  let c := foldl run_client NewClient (before ++ OpRegister inst :: after) in
  (RegisterService inst (foldl run_client NewClient before)).1 = None ∧
  c = foldl run_client NewClient (before ++ after) ∧
  ((GetHealthyInstance r name c).1 = Some found →
   found ∈ fetchInstances name ∧ Address found = "localhost:9000"%string).
Proof.
  intros c. split; [done|]. split; [unfold c; by rewrite !foldl_app|].
  intros Hf. destruct (GetHealthyInstance_ok r name c (run_client_ok _)) as [_ Hh].
  destruct (Hh found Hf) as [Hin _]. split; [done|]. unfold fetchInstances in Hin.
  case_decide; [|by apply elem_of_nil in Hin]. by apply list_elem_of_singleton in Hin as ->.
Qed.

(** Every service with a callback has been looked up. *)
Definition subscribed_cached (c : Client) : Prop := dom (callbacks c) ⊆ dom (services c).

Lemma fetchInstances_same name : instancesEqual (fetchInstances name) (fetchInstances name) = true.
Proof.
  unfold fetchInstances. case_decide; [|done].
  unfold instancesEqual, health_map. simpl. by rewrite lookup_insert_eq.
Qed.

(** An update of a cached service changes nothing and starts nobody. *)
Lemma updateInstances_cached name c :
  cache_ok c → name ∈ dom (services c) → updateInstances name (fetchInstances name) c = ([], c).
Proof.
  intros Hc [l Hl]%elem_of_dom. pose proof (Hc _ _ Hl) as ->. unfold updateInstances.
  rewrite Hl. simpl. rewrite fetchInstances_same, insert_id by done. by destruct c.
Qed.

Lemma refreshServices_cached `{MapOrder} c :
  cache_ok c → subscribed_cached c → refreshServices c = ([], c).
Proof.
  intros Hc Hs. unfold refreshServices.
  assert (∀ names, (∀ n, n ∈ names → n ∈ dom (callbacks c)) →
    foldl (λ sc name,
      let '(started, c) := updateInstances name (fetchInstances name) sc.2 in
      (sc.1 ++ started, c)) ([] : list (CallbackRef * list ServiceInstance), c) names = ([], c))
    as Hgen.
  { induction names as [|n names IH]; intros Hn; simpl; [done|].
    rewrite updateInstances_cached by (try apply Hs, Hn; set_solver). apply IH. set_solver. }
  apply Hgen. intros n. by rewrite elem_of_range_keys, elem_of_dom.
Qed.

Lemma run_client_subscribed `{MapOrder} ops :
  subscribed_cached (foldl run_client NewClient ops).
Proof.
  assert (∀ c, cache_ok c → subscribed_cached c → subscribed_cached (foldl run_client c ops))
    as Hgen; [|by apply Hgen].
  induction ops as [|op ops IH]; intros c Hc Hs; simpl; [done|].
  assert (∀ name c', cache_ok c → c' = (GetInstances name c).2 → subscribed_cached c') as Hget.
  { intros name c' _ ->. unfold GetInstances, subscribed_cached in *.
    repeat (case_decide || case_match); simpl; try done. set_solver. }
  apply IH.
  - destruct op; simpl; [by apply updateInstances_ok|by apply GetInstances_ok|
      by apply GetHealthyInstance_ok|done|done|done|done|by apply refreshServices_ok].
  - destruct op as [name cb|name|r name| | | | |]; simpl; [| | |done|done|done|done|].
    + unfold subscribed_cached, Subscribe, updateInstances in *.
      destruct (instancesEqual _ _); simpl; set_solver.
    + by eapply Hget.
    + eapply (Hget name); [done|]. unfold GetHealthyInstance.
      destruct (GetInstances name c). by repeat case_decide.
    + by rewrite refreshServices_cached.
Qed.

(** Subscribers are called at most once, and late ones never: a refresh
    of the simulated client starts no callback, and a subscription starts
    none unless it is the first lookup of its service. *)
Theorem later_subscribers_never_called `{MapOrder} ops name cb :
  let c := foldl run_client NewClient ops in
  (refreshServices c).1 = [] ∧
  (is_Some (services c !! name) → (Subscribe name cb c).1 = []).
Proof.
  intros c. pose proof (run_client_ok ops) as Hc. pose proof (run_client_subscribed ops) as Hs.
  split; [by rewrite refreshServices_cached|]. intros [l Hl].
  unfold Subscribe, updateInstances. simpl. unfold c in *. rewrite Hl. simpl.
  by rewrite (Hc _ _ Hl), fetchInstances_same.
Qed.

Lemma later_subscribers_never_called_witness :
  let c := foldl (run_client (H := default_order)) NewClient [OpSubscribe "roomserver" 1] in
  is_Some (services c !! "roomserver"%string) ∧
  (refreshServices (H := default_order) c).1 = [] ∧ (Subscribe "roomserver" 2 c).1 = [].
Proof.
  assert (is_Some (services (foldl (run_client (H := default_order)) NewClient
    [OpSubscribe "roomserver" 1]) !! "roomserver"%string)) as Hs by (vm_compute; by eexists).
  split; [done|].
  destruct (later_subscribers_never_called (H := default_order)
    [OpSubscribe "roomserver" 1] "roomserver" 2) as [Hr Hc].
  split; [done|by apply Hc].
Defined.

(** The first subscriber is called at once, with the simulated instance. *)
Example first_subscriber_called :
  (Subscribe "roomserver" 1 NewClient).1 = [(1%nat, fetchInstances "roomserver")].
Proof. vm_compute. reflexivity. Qed.

(** Closing the client twice panics. *)
Lemma Close_twice c : stopCh_closed c = false →
  ∃ c', Close c = Done c' ∧ Close c' = Panic "close of closed channel".
Proof. intros Hc. unfold Close. rewrite Hc. by eexists. Qed.
