(* ===== verification/KafkaConsumer.v ===== *)
(** [internal/gateway/kafka_consumer.go] and the consumer loop of
    [pkg/kafka/consumer.go]: pushes of the data plane.

    JSON decoding of the messages is a parameter.  Note that
    [dispatchToUser] has its own copy of the overload policy of the
    distributors, with fixed thresholds and without drop accounting. *)

From Stdlib Require Import ZArith Lia SpecFloat.
From stdpp Require Import base tactics gmap strings numbers list.
From S2P Require Import Prelude GoInt Protocol Frame Chan Connection Gateway Distributor GatewayHandler RoomserverClient.

Local Open Scope Z_scope.

Record PushMessage := mkPushMessage {
  pm_Scope : string; pm_RoomID : string; pm_UserID : string; pm_UserIDs : list string;
  pm_Seq : Z; pm_Priority : string; pm_Message : list byte }.

(** The content of the push frame sent to clients. *)
Record PushContent := mkPushContent {
  pc_Scope : string; pc_RoomID : string; pc_UserID : string; pc_Seq : Z;
  pc_Message : list byte }.

Definition parsePriority (priority : string) : Z :=
  if decide (priority = "critical"%string) then PriorityCritical
  else if decide (priority = "high"%string) then PriorityHigh
  else if decide (priority = "low"%string) then PriorityLow
  else PriorityNormal.

(** ** The consumer of pkg/kafka *)

(** A message and its position in the topic. *)
Record KafkaMessage := mkKafkaMessage {
  km_Key : list byte; km_Value : list byte; km_Partition : Z; km_Offset : Z }.

(** [NewConsumer] refuses an incomplete configuration. *)
Definition NewConsumer_ok (brokers : list string) (topic group : string) : bool :=
  negb (bool_decide (length brokers = 0%nat)) && negb (bool_decide (topic = ""%string)) &&
  negb (bool_decide (group = ""%string)).

(** The state of the loop of [Start]: whether it is connected and the
    messages committed so far. *)
Record Consumer := mkConsumer { co_connected : bool; co_committed : list KafkaMessage }.

Inductive FetchResult :=
  | Fetched (m : KafkaMessage)
  | FetchError                  (* FetchMessage failed, the context is alive *)
  | Cancelled.                  (* the context is done *)

(** The push handlers of one gateway. *)
Section pushes.
Context `{Msgpack PushContent} `{O : MapOrder}.
Context (json : list byte → option PushMessage).

Definition buildPushPayload (msg : PushMessage) : list byte :=
  let pushContent := mkPushContent (pm_Scope msg) (pm_RoomID msg) (pm_UserID msg) (pm_Seq msg)
                       (pm_Message msg) in
  EncodeFrame (mkFrame MsgTypePushMessage (pm_Seq msg) (Encode_ pushContent)).

Definition dispatchToUser (payload : list byte) (priority : string) (userID : string) : G unit :=
  conns ← with_rlock ConnsMu (gets connections);
  match conns !! userID with
  | None => mret tt
  | Some ref =>
    let msgPriority := parsePriority priority in
    conn ← get_c ref;
    let queueUsage := QueueUsage conn in
    let shouldDrop :=
      if f64_ge queueUsage (f64_const 95 100) then PriorityCritical <? msgPriority
      else if f64_ge queueUsage (f64_const 80 100) then PriorityHigh <? msgPriority
      else if f64_ge queueUsage (f64_const 50 100) then PriorityNormal <? msgPriority
      else false in
    if shouldDrop then mret tt else send_c ref payload;; mret tt
  end.

Definition handleRoomBroadcast (msg : PushMessage) : G unit :=
  rooms ← with_rlock LocalRoomsMu (gets localRooms);
  match rooms !! pm_RoomID msg with
  | None => mret tt
  | Some users =>
    for_each (dispatchToUser (buildPushPayload msg) (pm_Priority msg)) (range_set users)
  end.

Definition handleUnicast (msg : PushMessage) : G unit :=
  users ← with_rlock LocalUsersMu (gets localUsers);
  if decide (pm_UserID msg ∈ users)
  then dispatchToUser (buildPushPayload msg) (pm_Priority msg) (pm_UserID msg)
  else mret tt.

Definition handleMulticast (msg : PushMessage) : G unit :=
  rooms ← with_rlock LocalRoomsMu (gets localRooms);
  match rooms !! pm_RoomID msg with
  | None => mret tt
  | Some _ =>
    with_rlock LocalUsersMu (
      users ← gets localUsers;
      for_each (λ userID,
        if decide (userID ∈ users)
        then dispatchToUser (buildPushPayload msg) (pm_Priority msg) userID
        else mret tt) (pm_UserIDs msg))
  end.

(** The two nested loops run under the read lock of the rooms. *)
Definition handlePlatformBroadcast (msg : PushMessage) : G unit :=
  with_rlock LocalRoomsMu (
    rooms ← gets localRooms;
    for_each (λ ru, for_each (dispatchToUser (buildPushPayload msg) (pm_Priority msg))
                      (range_set ru.2)) (range_map rooms)).

(** It never returns an error. *)
Definition handlePushMessage (m : KafkaMessage) : G unit :=
  match json (km_Value m) with
  | None => mret tt
  | Some pushMsg =>
    if decide (pm_Scope pushMsg = "room"%string) then handleRoomBroadcast pushMsg
    else if decide (pm_Scope pushMsg = "user"%string) then handleUnicast pushMsg
    else if decide (pm_Scope pushMsg = "multicast"%string) then handleMulticast pushMsg
    else if decide (pm_Scope pushMsg = "platform"%string) then handlePlatformBroadcast pushMsg
    else mret tt
  end.

(** One iteration of [Consumer.Start] with [handlePushMessage]; the flag
    says whether the loop goes on.  A failing commit is only logged:
    [commit_ok] is its outcome. *)
Definition Start_step (r : FetchResult) (commit_ok : bool) (c : Consumer) : G (bool * Consumer) :=
  match r with
  | Cancelled => mret (false, c)
  | FetchError => mret (true, mkConsumer false (co_committed c))
  | Fetched m =>
    handlePushMessage m;;
    mret (true, mkConsumer true (if commit_ok then co_committed c ++ [m] else co_committed c))
  end.
End pushes.

(** ** How the handlers run *)
Section runs.
Context `{Msgpack PushContent} `{O : MapOrder}.
Context (json : list byte → option PushMessage).
Implicit Types (g : Gateway) (ref : CRef) (u : string).

(** What a push does to the connection of a user. *)
Definition offer (payload : list byte) (priority : string) (now : Z) (c : Connection) :
    Connection :=
  if shouldDrop (f64_const 50 100) (f64_const 80 100) (f64_const 95 100) (QueueUsage c)
       (parsePriority priority)
  then c else (Send payload now c).2.

Lemma offer_keeps_identity payload priority now : keeps_identity (offer payload priority now).
Proof.
  intros c. unfold offer. destruct (shouldDrop _ _ _ _ _); [done|].
  apply Send_keeps_identity.
Qed.

Lemma dispatchToUser_run payload priority u g :
  gw_wf g → free ConnsMu g →
  dispatchToUser payload priority u g =
    Done (tt, touch u (offer payload priority (clock g)) g).
Proof.
  intros Hwf Hf. unfold dispatchToUser, touch. unfold mbind at 1, G_bind at 1.
  rewrite with_rlock_gets by done. cbn beta iota.
  destruct (connections g !! u) as [ref|] eqn:Hu; [|done].
  destruct (gw_wf_exist g Hwf u ref Hu) as [c Hc]. cbn [mbind option_bind]. rewrite Hc.
  cbn [fmap option_fmap option_map].
  unfold mbind, G_bind. rewrite (get_c_run ref g c) by done. cbn beta iota zeta.
  unfold offer. fold (shouldDrop (f64_const 50 100) (f64_const 80 100) (f64_const 95 100)
    (QueueUsage c) (parsePriority priority)).
  destruct (shouldDrop _ _ _ _ _).
  - unfold mret, G_ret, put. do 2 f_equal. rewrite insert_id by done. by destruct g.
  - by rewrite (send_c_run ref payload g c).
Qed.

(** Only the contents of connections change, and none is closed. *)
Definition queues_only g g' : Prop := gw_wf g' ∧ same_but_objects g g'.

Lemma for_each_inv {A} (P : Gateway → Prop) (k : A → G unit) xs g :
  P g → (∀ x g', P g' → ∃ g'', k x g' = Done (tt, g'') ∧ P g'') →
  ∃ g', for_each k xs g = Done (tt, g') ∧ P g'.
Proof.
  intros Hg Hk. revert g Hg. induction xs as [|x xs IH]; intros g Hg; [by exists g|].
  cbn [for_each]. unfold mbind, G_bind. destruct (Hk x g Hg) as (g1 & -> & Hg1). by apply IH.
Qed.

Lemma same_but_objects_refl g : same_but_objects g g.
Proof. exists (objects g). by destruct g. Qed.

Lemma dispatchToUser_queues payload priority u g g' :
  free ConnsMu g → queues_only g g' →
  ∃ g'', dispatchToUser payload priority u g' = Done (tt, g'') ∧ queues_only g g''.
Proof.
  intros Hf [Hwf [objs ->]]. rewrite dispatchToUser_run by done. eexists. split; [done|].
  pose proof (touched_one u (offer payload priority (clock (set_objects objs g))) _ Hwf) as Ht.
  split; [eapply touched_wf; [apply offer_keeps_identity|done|done]|].
  destruct Ht as [[objs' ->] _]. by exists objs'.
Qed.

Lemma for_each_dispatch_queues {A} (k : A → G unit) xs g :
  gw_wf g →
  (∀ x g', queues_only g g' → ∃ g'', k x g' = Done (tt, g'') ∧ queues_only g g'') →
  ∃ g', for_each k xs g = Done (tt, g') ∧ queues_only g g'.
Proof. intros Hwf Hk. apply for_each_inv; [split; [done|apply same_but_objects_refl]|done]. Qed.

(** A loop under a read lock. *)
Lemma with_rlock_queues l (m : G unit) g :
  free l g → gw_wf g →
  (∀ g1, g1 = set_held ((l, Shared) :: held g) g → gw_wf g1 →
     ∃ g', m g1 = Done (tt, g') ∧ queues_only g1 g') →
  ∃ g', with_rlock l m g = Done (tt, g') ∧ queues_only g g'.
Proof.
  intros Hf Hwf Hm. set (g1 := set_held ((l, Shared) :: held g) g).
  assert (gw_wf g1) as Hwf1 by (by eapply gw_wf_same, Hwf).
  destruct (Hm g1 eq_refl Hwf1) as (g' & Hrun & Hwf' & [objs ->]).
  unfold with_rlock. run_locks. fold g1. rewrite Hrun. cbn beta iota.
  exists (set_objects objs g). split.
  - erewrite release_head by done. by destruct g.
  - split; [by eapply gw_wf_same, Hwf'|by exists objs].
Qed.

Lemma handlePushMessage_queues m g :
  gw_wf g → held g = [] →
  ∃ g', handlePushMessage json m g = Done (tt, g') ∧ queues_only g g'.
Proof.
  intros Hwf Hh. unfold handlePushMessage.
  assert (∃ g', (mret tt : G unit) g = Done (tt, g') ∧ queues_only g g') as Hret
    by (exists g; split; [done|split; [done|apply same_but_objects_refl]]).
  destruct (json (km_Value m)) as [msg|]; [|done].
  assert (∀ l, free l g) as Hf by (intros l; by apply no_locks_free).
  case_decide; [|case_decide; [|case_decide; [|case_decide; [|done]]]].
  - unfold handleRoomBroadcast, mbind, G_bind. rewrite with_rlock_gets by done.
    destruct (localRooms g !! pm_RoomID msg) as [us|]; [|done].
    apply for_each_dispatch_queues; [done|]. intros u g' Hq. by apply dispatchToUser_queues.
  - unfold handleUnicast, mbind, G_bind. rewrite with_rlock_gets by done.
    case_decide; [|done]. apply dispatchToUser_queues; [done|].
    split; [done|apply same_but_objects_refl].
  - unfold handleMulticast. unfold mbind at 1, G_bind at 1. rewrite with_rlock_gets by done.
    destruct (localRooms g !! pm_RoomID msg) as [us|]; [|done].
    apply with_rlock_queues; [done..|]. intros g1 -> Hwf1.
    unfold mbind, G_bind, gets. apply for_each_dispatch_queues; [done|].
    intros u g' Hq. case_decide; [|by exists g'].
    eapply dispatchToUser_queues; [|done]. unfold free. cbn. rewrite Hh. set_solver.
  - apply with_rlock_queues; [done..|]. intros g1 -> Hwf1.
    unfold mbind, G_bind, gets. apply for_each_dispatch_queues; [done|].
    intros ru g' [Hwf' Hs].
    destruct (for_each_inv (queues_only (set_held ((LocalRoomsMu, Shared) :: held g) g))
      (dispatchToUser (buildPushPayload msg) (pm_Priority msg)) (range_set ru.2) g')
      as (g'' & Hrun & Hq); [by split| |by exists g''].
    intros u g2 Hq. eapply dispatchToUser_queues; [|done].
    unfold free. cbn. rewrite Hh. set_solver.
Qed.
End runs.

(** ** Properties *)
Section properties.
Context `{Msgpack PushContent} `{O : MapOrder}.
Context (json : list byte → option PushMessage).
Implicit Types (g : Gateway) (ref : CRef) (u : string).

(** Whatever arrives on the topic, in any scope and with any user
    list, the consumer neither panics nor blocks: it releases its locks,
    closes no connection and changes no table, only queues and their
    counters. *)
Theorem handlePushMessage_safe m g :
  gw_wf g → held g = [] →
  ∃ g', handlePushMessage json m g = Done (tt, g') ∧ gw_wf g' ∧ held g' = [] ∧
    connections g' = connections g ∧ localRooms g' = localRooms g ∧
    localUsers g' = localUsers g ∧ distributors g' = distributors g ∧ gauge g' = gauge g.
Proof.
  intros Hwf Hh. destruct (handlePushMessage_queues json m g Hwf Hh) as (g' & Hrun & Hwf' & [objs ->]).
  by eexists.
Qed.

(** C33. A room push of the data plane is offered exactly once to each
    connected member of the local room, under the overload policy, and to
    nobody else; for a room unknown here nothing happens. *)
Theorem room_push_reaches_members m msg g :
  gw_wf g → held g = [] → json (km_Value m) = Some msg → pm_Scope msg = "room"%string →
  ∃ g', handlePushMessage json m g = Done (tt, g') ∧
    ∀ ref c, objects g !! ref = Some c →
      objects g' !! ref = Some
        (if decide (c_UserID c ∈ default ∅ (localRooms g !! pm_RoomID msg) ∧
                    connections g !! c_UserID c = Some ref)
         then offer (buildPushPayload msg) (pm_Priority msg) (clock g) c else c).
Proof.
  intros Hwf Hh Hj Hs. unfold handlePushMessage. rewrite Hj, decide_True by done.
  unfold handleRoomBroadcast, mbind, G_bind.
  rewrite with_rlock_gets by (done || by apply no_locks_free).
  destruct (localRooms g !! pm_RoomID msg) as [us|] eqn:Hr; cbn [default].
  - destruct (for_each_touch (dispatchToUser (buildPushPayload msg) (pm_Priority msg))
      (offer (buildPushPayload msg) (pm_Priority msg) (clock g)) (range_set us) g)
      as (g' & Hrun & _ & Hobj).
    + apply offer_keeps_identity.
    + done.
    + apply NoDup_range_set.
    + intros u g' Hwf' [objs ->].
      exact (dispatchToUser_run _ _ u _ Hwf' (no_locks_free _ _ Hh)).
    + exists g'. split; [done|]. intros ref c Hc. rewrite Hobj, Hc.
      pose proof (elem_of_range_set us (c_UserID c)) as He.
      cbn [default]. repeat case_decide; naive_solver.
  - exists g. split; [done|]. intros ref c Hc. rewrite decide_False; [done|set_solver].
Qed.

(** The policy of the data plane is that of the distributors under the
    shipped thresholds, for every queue and every priority. *)
Theorem data_plane_policy_matches_shipped payload priority now c :
  offer payload priority now c =
    if shouldDrop (f64_const 5 10) (f64_const 8 10) (f64_const 95 100) (QueueUsage c)
         (parsePriority priority)
    then c else (Send payload now c).2.
Proof.
  unfold offer. assert (f64_const 50 100 = f64_const 5 10) as -> by by vm_compute.
  by assert (f64_const 80 100 = f64_const 8 10) as -> by by vm_compute.
Qed.
End properties.

(** ** Concrete instances *)
Section examples.
Import ToyCodec.
#[local] Existing Instance default_order.

#[local] Instance PushContent_eq_dec : EqDecision PushContent.
Proof. solve_decision. Defined.
#[local] Instance PushContent_countable : Countable PushContent.
Proof.
  refine (inj_countable' (λ m, (pc_Scope m, pc_RoomID m, pc_UserID m, pc_Seq m, pc_Message m))
    (λ '(a, b, c, d, e), mkPushContent a b c d e) _). by intros [].
Defined.

(** A stand-in for the JSON decoder: the text is the message of a room push. *)
Definition demo_json (text : list byte) : option PushMessage :=
  Some (mkPushMessage "room" "r1" "" [] 3 "normal" text).

Definition demo_km : KafkaMessage := mkKafkaMessage [] [Byte.x2a] 0 17.

Lemma handlePushMessage_safe_witness :
  let g := demo_in_room JoinStateConfirmed in
  ∃ g', handlePushMessage demo_json demo_km g = Done (tt, g') ∧ gw_wf g' ∧ held g' = [] ∧
    connections g' = connections g ∧ localRooms g' = localRooms g ∧
    localUsers g' = localUsers g ∧ distributors g' = distributors g ∧ gauge g' = gauge g.
Proof. apply handlePushMessage_safe; [apply demo_in_room_wf|done]. Defined.

Lemma room_push_reaches_members_witness :
  let g := demo_in_room JoinStateConfirmed in
  let msg := mkPushMessage "room" "r1" "" [] 3 "normal" [Byte.x2a] in
  ∃ g', handlePushMessage demo_json demo_km g = Done (tt, g') ∧
    ∀ ref c, objects g !! ref = Some c →
      objects g' !! ref = Some
        (if decide (c_UserID c ∈ default ∅ (localRooms g !! "r1"%string) ∧
                    connections g !! c_UserID c = Some ref)
         then offer (buildPushPayload msg) "normal" (clock g) c else c).
Proof.
  apply (room_push_reaches_members demo_json demo_km
    (mkPushMessage "room" "r1" "" [] 3 "normal" [Byte.x2a])); [apply demo_in_room_wf|done..].
Defined.
End examples.
