(* ===== verification/Login.v ===== *)
(** [internal/gateway/websocket_server.go], [pkg/auth/jwt.go] and
    [internal/gateway/health.go]: how clients log in, and what the health
    endpoint reports.

    The JWT library and the WebSocket upgrade are parameters: parsing a token
    calls back with its signing method and gets the key or an error. *)

From Stdlib Require Import ZArith Lia.
From stdpp Require Import base tactics gmap strings numbers list.
From S2P Require Import Prelude GoInt Protocol Frame Chan Connection Gateway GatewayHandler.

Local Open Scope Z_scope.

(** ** pkg/auth *)
Inductive AuthError := ErrInvalidToken | ErrTokenExpired.
(** [jwt.RegisteredClaims], as far as the code sets it: numeric dates, in
    seconds from 1970; nil when absent. *)
Record RegisteredClaims := mkRegisteredClaims {
  rc_ExpiresAt : option Z; rc_IssuedAt : option Z }.
Record Claims := mkClaims {
  cl_UserID : string; cl_DeviceID : string; cl_Registered : RegisteredClaims }.
Definition no_dates : RegisteredClaims := mkRegisteredClaims None None.

Inductive SigningMethod := SigningMethodHMAC | OtherMethod.

(** What [jwt.ParseWithClaims] returns. *)
Inductive ParseResult :=
  | ParseError (expired : bool)              (* errors.Is(err, jwt.ErrTokenExpired) *)
  | Parsed (claims : option Claims) (valid : bool).

Record JWTValidator := mkJWTValidator { secretKey : list byte }.

Definition NewJWTValidator (secret : string) : JWTValidator :=
  mkJWTValidator (String.list_byte_of_string secret).

Section auth.
Context (ParseWithClaims : string → (SigningMethod → option (list byte)) → ParseResult).

Definition Validate (v : JWTValidator) (token : string) : result AuthError Claims :=
  let keyfunc := λ m, match m with
    | SigningMethodHMAC => Some (secretKey v)
    | OtherMethod => None
    end in
  match ParseWithClaims token keyfunc with
  | ParseError true => Err ErrTokenExpired
  | ParseError false => Err ErrInvalidToken
  | Parsed (Some claims) true => Ok claims
  | Parsed _ _ => Err ErrInvalidToken
  end.

Definition is_mock_token (token : string) : bool :=
  bool_decide (token = ""%string) ||
  ((4 <=? String.length token)%nat && bool_decide (String.substring 0 4 token = "dev_"%string)).

Definition ValidateOrMock (v : JWTValidator) (token mockUserID : string) :
    result AuthError Claims :=
  if is_mock_token token then Ok (mkClaims mockUserID "" no_dates) else Validate v token.
End auth.

(** [jwt.NewNumericDate]: an instant in nanoseconds, cut to the second. *)
Definition NewNumericDate (ns : Z) : option Z := Some (ns / 10 ^ 9).

(** [SignedString] is [jwt.Token.SignedString] with HS256; the clock is read
    twice. *)
Definition GenerateToken (SignedString : Claims → list byte → option string)
    (now1 now2 : Z) (v : JWTValidator) (userID : string) (expiry : Z) : option string :=
  SignedString (mkClaims userID ""
    (mkRegisteredClaims (NewNumericDate (now1 + expiry)) (NewNumericDate now2))) (secretKey v).

(** What [golang-jwt/jwt] documents about the two: a token that was signed
    with the key the callback returns is parsed, at an instant in nanoseconds,
    into its claims, unless it has an expiry date that is not in the future. *)
Definition expired_at (now : Z) (claims : Claims) : bool :=
  match rc_ExpiresAt (cl_Registered claims) with
  | Some e => e * 10 ^ 9 <=? now
  | None => false
  end.

Class JWTLibrary := {
  SignedString : Claims → list byte → option string;
  ParseWithClaims_at : Z → string → (SigningMethod → option (list byte)) → ParseResult;
  parse_signed : ∀ claims key token now keyfunc,
    SignedString claims key = Some token → keyfunc SigningMethodHMAC = Some key →
    ParseWithClaims_at now token keyfunc =
      if expired_at now claims then ParseError true else Parsed (Some claims) true }.

(** ** Authentication of a WebSocket *)
Record AuthRequest := mkAuthRequest { aq_Token : string; aq_UserID : string }.
Record AuthResponse := mkAuthResponse {
  ar_Success : bool; ar_UserID : string; ar_GatewayID : string; ar_Code : Z;
  ar_Message : string }.

Inductive LoginError := ErrAuthTimeout | ErrInvalidAuth | LoginTokenExpired.
Definition login_error (e : LoginError) : string :=
  match e with
  | ErrAuthTimeout => "authentication timeout"
  | ErrInvalidAuth => "invalid authentication"
  | LoginTokenExpired => "token expired"
  end.

Section login.
Context `{Msgpack AuthRequest, Msgpack AuthResponse}.
Context (ParseWithClaims : string → (SigningMethod → option (list byte)) → ParseResult).

(** [sendAuthResp]: the WebSocket message it writes, none when encoding
    fails. *)
Definition sendAuthResp (gwID : string) (success : bool) (userID : string) (code : Z)
    (message : string) : list (list byte) :=
  match Encode (mkAuthResponse success userID gwID code message) with
  | None => []
  | Some payload => [EncodeFrame (mkFrame MsgTypeAuthResp 0 payload)]
  end.

(** The outcome, and the messages written on the way; [read] is the first
    message of the socket, [None] a read error. *)
Definition authenticate (gwID : string) (jwtValidator : option JWTValidator)
    (read : option (list byte)) : outcome (result LoginError string * list (list byte)) :=
  match read with
  | None => mret (Err ErrAuthTimeout, [])
  | Some data =>
    res ← DecodeFrame data;
    mret match res with
    | Err _ => (Err ErrInvalidAuth, [])
    | Ok frame =>
      if negb (f_MsgType frame =? MsgTypeAuth) then (Err ErrInvalidAuth, []) else
      match Decode (f_Payload frame) with
      | None => (Err ErrInvalidAuth, [])
      | Some authReq =>
        let finish := λ userID,
          if decide (userID = ""%string) then (Err ErrInvalidAuth, [])
          else (Ok userID, sendAuthResp gwID true userID ErrCodeSuccess "") in
        match jwtValidator with
        | Some v =>
          match ValidateOrMock ParseWithClaims v (aq_Token authReq) (aq_UserID authReq) with
          | Err ErrTokenExpired =>
            (Err LoginTokenExpired,
             sendAuthResp gwID false "" ErrCodeTokenExpired "token expired")
          | Err _ => (Err ErrInvalidAuth, [])
          | Ok claims => finish (cl_UserID claims)
          end
        | None => finish (aq_UserID authReq)
        end
      end
    end
  end.

Context `{Msgpack LeaveRoomRequest, Msgpack DisconnectNotify} `{O : MapOrder}.

(** [handleWebSocket] after a successful upgrade: the messages written, and
    the new connection object; [connID] is the random id. *)
Definition handleWebSocket (jwtValidator : option JWTValidator) (read : option (list byte))
    (connID : string) : G (list (list byte) * option CRef) :=
  cfg ← gets g_cfg;
  auth ← lift (authenticate (cfg_ID cfg) jwtValidator read);
  match auth with
  | (Err e, sent) =>
    mret (sent ++ sendAuthResp (cfg_ID cfg) false "" ErrCodeAuthFailed (login_error e), None)
  | (Ok userID, sent) =>
    objs ← gets objects;
    let ref := fresh (dom objs) in
    modify (λ g, set_objects
      (<[ref := NewConnection userID connID (cfg_Connection cfg)]> (objects g)) g);;
    AddConnection ref;;
    modify (λ g, set_gauge (gauge g + 1) g);;
    mret (sent, Some ref)
  end.
End login.

(** ** Health *)
Record HealthStatus := mkHealthStatus {
  hs_Status : string; hs_Reason : string; hs_Connections : Z;
  hs_RoomserverConnected : bool; hs_KafkaConnected : bool }.

(** [healthHandler]: the HTTP status and the report; the uptime is left out. *)
Definition healthHandler (kafka : option KafkaProducer) : G (Z * HealthStatus) :=
  conns ← with_rlock ConnsMu (gets connections);
  rsConnected ← gets rs_connected;
  let kafkaConnected := match kafka with Some p => kp_connected p | None => false end in
  let connCount := Z.of_nat (size conns) in
  if rsConnected && kafkaConnected
  then mret (200, mkHealthStatus "healthy" "" connCount rsConnected kafkaConnected)
  else mret (503, mkHealthStatus "unhealthy"
    (if negb rsConnected then "roomserver_disconnected" else "kafka_disconnected")
    connCount rsConnected kafkaConnected).

(** ** Properties *)
Section properties.
Context `{MsgpackLaws AuthRequest, Msgpack AuthResponse}.
Context (ParseWithClaims : string → (SigningMethod → option (list byte)) → ParseResult).
Context `{Msgpack LeaveRoomRequest, Msgpack DisconnectNotify} `{O : MapOrder}.

(** The number of logged-in users, as the gauge should count it. *)
Definition sessions_ok (g : Gateway) : Prop :=
  gw_wf g ∧ held g = [] ∧ gauge g = Z.of_nat (size (connections g)).

Definition auth_frame (req : AuthRequest) (payload : list byte) : Prop :=
  Encode req = Some payload ∧ Z.of_nat (length payload) <= MaxPayloadLen.

Lemma decode_auth_frame req payload :
  auth_frame req payload →
  DecodeFrame (EncodeFrame (mkFrame MsgTypeAuth 0 payload)) =
    Done (Ok (mkFrame MsgTypeAuth 0 payload)) ∧
  Decode payload = Some req.
Proof.
  intros [He Hl]. split.
  - rewrite <-(app_nil_r (EncodeFrame _)). apply DecodeFrame_app.
    split; [|done]. split; simpl; unfold MsgTypeAuth; lia.
  - pose proof (Decode_Encode_ req) as Hd. unfold Encode_ in Hd. by rewrite He in Hd.
Qed.

(** The signing secret is no protection: on a gateway that has one,
    a client that sends an empty token, or one that starts with "dev_", is
    logged in as whichever user it names. *)
Theorem authenticate_mock_bypass gwID v req payload :
  auth_frame req payload → is_mock_token (aq_Token req) = true → aq_UserID req ≠ ""%string →
  authenticate ParseWithClaims gwID (Some v)
    (Some (EncodeFrame (mkFrame MsgTypeAuth 0 payload))) =
  Done (Ok (aq_UserID req), sendAuthResp gwID true (aq_UserID req) ErrCodeSuccess "").
Proof.
  intros Hf Hm Hu. destruct (decode_auth_frame req payload Hf) as [Hd Hp].
  unfold authenticate. rewrite Hd, outcome_bind_ret. cbn [f_MsgType f_Payload]. rewrite Z.eqb_refl. cbn [negb].
  rewrite Hp. unfold ValidateOrMock. rewrite Hm. cbn [cl_UserID].
  by rewrite decide_False.
Qed.

(** C34. Who is logged in.  Whatever a client sends, authentication
    returns, without a panic; when it succeeds the user id is not empty, the
    client is told so, and the message was an authentication request.  A
    gateway without a signing secret takes the id of the request; one with a
    secret takes it too when the token is a mock one (empty, or starting
    with dev_), and otherwise the id in the claims of the token, which the
    library has parsed as valid under the secret: the id of the request is
    then ignored. *)
Theorem authenticate_sound gwID jwt read :
  ∃ r sent, authenticate ParseWithClaims gwID jwt read = Done (r, sent) ∧
  ∀ uid, r = Ok uid →
    uid ≠ ""%string ∧ sent = sendAuthResp gwID true uid ErrCodeSuccess "" ∧
    ∃ data frame req, read = Some data ∧ DecodeFrame data = Done (Ok frame) ∧
      f_MsgType frame = MsgTypeAuth ∧ Decode (f_Payload frame) = Some req ∧
      match jwt with
      | None => uid = aq_UserID req
      | Some v =>
        if is_mock_token (aq_Token req) then uid = aq_UserID req
        else ∃ claims, cl_UserID claims = uid ∧
          ParseWithClaims (aq_Token req) (λ m, match m with
            | SigningMethodHMAC => Some (secretKey v) | OtherMethod => None end) =
          Parsed (Some claims) true
      end.
Proof.
  unfold authenticate. destruct read as [data|]; [|by eexists _, _].
  destruct (DecodeFrame_returns data) as [res Hres]. rewrite Hres, outcome_bind_ret.
  destruct res as [frame|]; [|by eexists _, _].
  destruct (Z.eqb_spec (f_MsgType frame) MsgTypeAuth) as [Ht|]; cbn [negb]; [|by eexists _, _].
  destruct (Decode (f_Payload frame)) as [req|] eqn:Hd; [|by eexists _, _]. cbv zeta.
  destruct jwt as [v|].
  2: { case_decide; eexists _, _; (split; [done|]); [done|]. intros uid [= <-].
       split; [done|]. split; [done|]. by exists data, frame, req. }
  unfold ValidateOrMock. destruct (is_mock_token (aq_Token req)) eqn:Hm.
  { cbn [cl_UserID]. case_decide; eexists _, _; (split; [done|]); [done|]. intros uid [= <-].
    split; [done|]. split; [done|]. exists data, frame, req. by rewrite Hm. }
  destruct (Validate ParseWithClaims v (aq_Token req)) as [claims|[]] eqn:Hv;
    [|by eexists _, _..].
  case_decide; eexists _, _; (split; [done|]); [done|]. intros uid [= <-].
  split; [done|]. split; [done|]. exists data, frame, req. rewrite Hm.
  split_and!; [done..|]. exists claims. split; [done|].
  unfold Validate in Hv. cbv zeta in Hv.
  destruct (ParseWithClaims _ _) as [[]|[claims'|] []]; try done. by injection Hv as ->.
Qed.

Lemma handleWebSocket_ok jwt read uid sent connID i g :
  sessions_ok g → authenticate ParseWithClaims (cfg_ID (g_cfg g)) jwt read = Done (Ok uid, sent) →
  connections g !! uid = None → shard_index uid (length (distributors g)) = Done i →
  ∃ g' ref, handleWebSocket ParseWithClaims jwt read connID g = Done ((sent, Some ref), g') ∧
    sessions_ok g' ∧ connections g' = <[uid := ref]> (connections g) ∧
    (∃ c, objects g' !! ref = Some c ∧ c_UserID c = uid ∧ c_JoinState c = JoinStateInit ∧
          c_closeOnce c = false).
Proof.
  intros (Hwf & Hh & Hg) Ha Hn Hsh. unfold handleWebSocket, gets, modify, mbind, G_bind.
  rewrite (lift_run _ _ _ Ha). cbn beta iota. set (ref := fresh (dom (objects g))).
  set (c := NewConnection uid connID (cfg_Connection (g_cfg g))).
  set (g1 := set_objects (<[ref := c]> (objects g)) g).
  assert (objects g !! ref = None) as Hfresh by (apply not_elem_of_dom, is_fresh).
  assert (∀ u, connections g !! u ≠ Some ref) as Hno.
  { intros u Hu. destruct (gw_wf_exist g Hwf u ref Hu). congruence. }
  assert (gw_wf g1) as Hwf1.
  { destruct Hwf as (Hreg & Hdis & Hloc). split_and!; [|done|done]. intros u r Hu.
    destruct (Hreg u r Hu) as (c0 & j & d & Hc0 & ?). exists c0, j, d. split; [|done].
    cbn. rewrite lookup_insert_ne; [done|]. intros ->. by eapply Hno. }
  assert (objects g1 !! ref = Some c) as Hc by (cbn; apply lookup_insert_eq).
  rewrite (AddConnection_run ref c g1) by done. change (c_UserID c) with uid.
  change (length (distributors g1)) with (length (distributors g)). rewrite Hsh.
  eexists _, ref. split; [done|].
  pose proof (added_wf ref c i g1 Hwf1 Hc eq_refl Hn Hno Hsh) as Hwf2.
  split; [split; [by eapply gw_wf_same, Hwf2|split; [done|]]|split; [done|]].
  - cbn. rewrite Hg, map_size_insert_None by done. lia.
  - eexists. cbn. rewrite lookup_insert_eq. done.
Qed.

(** A login of a user that has no connection: exactly one positive
    answer is written, the user is registered on a fresh open connection,
    and the gauge still is the number of users. *)
Theorem handleWebSocket_login jwt read uid sent connID i g :
  sessions_ok g → authenticate ParseWithClaims (cfg_ID (g_cfg g)) jwt read = Done (Ok uid, sent) →
  connections g !! uid = None → shard_index uid (length (distributors g)) = Done i →
  ∃ g' ref, handleWebSocket ParseWithClaims jwt read connID g = Done ((sent, Some ref), g') ∧
    sessions_ok g' ∧ connections g' = <[uid := ref]> (connections g) ∧
    (∃ c, objects g' !! ref = Some c ∧ c_UserID c = uid ∧ c_JoinState c = JoinStateInit ∧
          c_closeOnce c = false).
Proof. apply handleWebSocket_ok. Qed.

(** The health endpoint answers 200 exactly when both the roomserver
    and Kafka are connected; a gateway that runs without Kafka, as the
    shipped configuration does, is never healthy. *)
Theorem healthHandler_spec kafka g :
  held g = [] →
  ∃ code report, healthHandler kafka g = Done ((code, report), g) ∧
    hs_Connections report = Z.of_nat (size (connections g)) ∧
    (code = 200 ∨ code = 503) ∧
    (code = 200 ↔ rs_connected g = true ∧ ∃ p, kafka = Some p ∧ kp_connected p = true).
Proof.
  intros Hh. unfold healthHandler. unfold mbind at 1, G_bind at 1.
  rewrite with_rlock_gets by (done || by apply no_locks_free).
  unfold mbind, G_bind, gets, mret, G_ret. cbn beta iota.
  destruct (rs_connected g), kafka as [p|]; [destruct (kp_connected p) eqn:E|..];
    cbn; eexists _, _; (split; [done|]); (split; [done|]); (split; [auto|]);
    first [naive_solver|split; [done|intros (_ & p0 & [= <-] & ?); congruence]].
Qed.
End properties.

(** ** Tokens the program makes itself *)
Section tokens.
Context `{JWTLibrary} `{MsgpackLaws AuthRequest, Msgpack AuthResponse}.

Lemma Validate_generated v now1 now2 userID expiry token now :
  GenerateToken SignedString now1 now2 v userID expiry = Some token →
  Validate (ParseWithClaims_at now) v token =
    if (now1 + expiry) / 10 ^ 9 * 10 ^ 9 <=? now then Err ErrTokenExpired
    else Ok (mkClaims userID "" (mkRegisteredClaims (NewNumericDate (now1 + expiry))
               (NewNumericDate now2))).
Proof.
  intros Ht. unfold GenerateToken in Ht. unfold Validate. cbv zeta.
  erewrite parse_signed; [|exact Ht|reflexivity].
  unfold expired_at. cbn [cl_Registered rc_ExpiresAt NewNumericDate]. by destruct (_ <=? now).
Qed.

(** A token that the gateway's own generator made logs its user in until
    the second in which it expires begins, whatever user the request names,
    and not afterwards: the expiry is cut to whole seconds, so a token made
    for less than a second may be refused at once. *)
Theorem GenerateToken_logs_in gwID v now1 now2 userID expiry token now req payload :
  GenerateToken SignedString now1 now2 v userID expiry = Some token →
  auth_frame req payload → aq_Token req = token → is_mock_token token = false →
  userID ≠ ""%string →
  authenticate (ParseWithClaims_at now) gwID (Some v)
    (Some (EncodeFrame (mkFrame MsgTypeAuth 0 payload))) =
  Done (if (now1 + expiry) / 10 ^ 9 * 10 ^ 9 <=? now
  then (Err LoginTokenExpired, sendAuthResp gwID false "" ErrCodeTokenExpired "token expired")
  else (Ok userID, sendAuthResp gwID true userID ErrCodeSuccess "")).
Proof.
  intros Ht Hf Hreq Hm Hu. destruct (decode_auth_frame req payload Hf) as [Hd Hp].
  unfold authenticate. rewrite Hd, outcome_bind_ret. cbn [f_MsgType f_Payload].
  rewrite Z.eqb_refl. cbn [negb]. rewrite Hp. unfold ValidateOrMock. rewrite Hreq, Hm, (Validate_generated _ _ _ _ _ _ now Ht).
  destruct (_ <=? now); [done|]. cbn [cl_UserID]. by rewrite decide_False.
Qed.
End tokens.

(** ** Concrete instances *)
Section examples.
Import ToyCodec.
#[local] Existing Instance default_order.

#[local] Instance AuthRequest_eq_dec : EqDecision AuthRequest.
Proof. solve_decision. Defined.
#[local] Instance AuthRequest_countable : Countable AuthRequest.
Proof.
  refine (inj_countable' (λ m, (aq_Token m, aq_UserID m)) (λ '(a, b), mkAuthRequest a b) _).
  by intros [].
Defined.
#[local] Instance AuthResponse_eq_dec : EqDecision AuthResponse.
Proof. solve_decision. Defined.
#[local] Instance AuthResponse_countable : Countable AuthResponse.
Proof.
  refine (inj_countable'
    (λ m, (ar_Success m, ar_UserID m, ar_GatewayID m, ar_Code m, ar_Message m))
    (λ '(a, b, c, d, e), mkAuthResponse a b c d e) _). by intros [].
Defined.

(** A stand-in for the JWT library: the only good token is "t1" of "u1". *)
Definition demo_parse (token : string)
    (keyfunc : SigningMethod → option (list byte)) : ParseResult :=
  if decide (token = "t1"%string)
  then match keyfunc SigningMethodHMAC with
       | Some _ => Parsed (Some (mkClaims "u1" "" no_dates)) true
       | None => ParseError false
       end
  else ParseError (bool_decide (token = "old"%string)).

Definition demo_validator : JWTValidator := NewJWTValidator "secret".

Definition auth_bytes (req : AuthRequest) : list byte :=
  EncodeFrame (mkFrame MsgTypeAuth 0 (Encode_ req)).

Lemma authenticate_mock_bypass_witness :
  authenticate demo_parse "gw-1" (Some demo_validator)
    (Some (auth_bytes (mkAuthRequest "dev_x" "admin"))) =
  Done (Ok "admin"%string, sendAuthResp "gw-1" true "admin" ErrCodeSuccess "").
Proof.
  apply (authenticate_mock_bypass demo_parse "gw-1" demo_validator
    (mkAuthRequest "dev_x" "admin")); [|by vm_compute|done].
  split; [done|]. vm_compute. discriminate.
Defined.

(** The token of "u1" logs in "u1", whoever the request names. *)
Example authenticate_token_user :
  authenticate demo_parse "gw-1" (Some demo_validator)
    (Some (auth_bytes (mkAuthRequest "t1" "somebody else"))) =
  Done (Ok "u1"%string, sendAuthResp "gw-1" true "u1" ErrCodeSuccess "").
Proof. by vm_compute. Qed.

(** A stand-in that knows the tokens of "u1" made at 0 for a minute. *)
Definition demo_claims : Claims :=
  mkClaims "u1" "" (mkRegisteredClaims (Some 60) (Some 0)).

#[local] Instance RegisteredClaims_eq_dec : EqDecision RegisteredClaims.
Proof. solve_decision. Defined.
#[local] Instance Claims_eq_dec : EqDecision Claims.
Proof. solve_decision. Defined.

#[local] Instance demo_jwt : JWTLibrary.
Proof.
  refine {|
    SignedString claims key :=
      if decide (claims = demo_claims ∧ key = secretKey demo_validator)
      then Some "t1"%string else None;
    ParseWithClaims_at now token keyfunc :=
      if decide (token = "t1"%string ∧ keyfunc SigningMethodHMAC = Some (secretKey demo_validator))
      then if expired_at now demo_claims then ParseError true else Parsed (Some demo_claims) true
      else ParseError false |}.
  intros claims key token now keyfunc. case_decide as Hc; [|done].
  destruct Hc as [-> ->]. intros [= <-] Hk. by rewrite decide_True.
Defined.

Lemma GenerateToken_logs_in_witness :
  let login := λ now, authenticate (ParseWithClaims_at now) "gw-1" (Some demo_validator)
    (Some (auth_bytes (mkAuthRequest "t1" "somebody else"))) in
  login (59 * 10 ^ 9) = Done (Ok "u1"%string, sendAuthResp "gw-1" true "u1" ErrCodeSuccess "") ∧
  login (60 * 10 ^ 9) = Done
    (Err LoginTokenExpired, sendAuthResp "gw-1" false "" ErrCodeTokenExpired "token expired").
Proof.
  assert (auth_frame (mkAuthRequest "t1" "somebody else")
            (Encode_ (mkAuthRequest "t1" "somebody else"))) as Hf
    by (split; [done|]; vm_compute; discriminate).
  split; [apply (GenerateToken_logs_in "gw-1" demo_validator 0 0 "u1" (60 * 10 ^ 9) "t1"
            (59 * 10 ^ 9) _ _ ltac:(by vm_compute) Hf)
         |apply (GenerateToken_logs_in "gw-1" demo_validator 0 0 "u1" (60 * 10 ^ 9) "t1"
            (60 * 10 ^ 9) _ _ ltac:(by vm_compute) Hf)]; by vm_compute.
Defined.

Lemma handleWebSocket_login_witness :
  let g := NewGateway demo_gw_cfg 0 in
  ∃ g' ref, handleWebSocket demo_parse None (Some (auth_bytes (mkAuthRequest "" "u1"))) "c1" g =
      Done ((sendAuthResp "gw-1" true "u1" ErrCodeSuccess "", Some ref), g') ∧
    sessions_ok g' ∧ connections g' = <["u1"%string := ref]> (connections g) ∧
    (∃ c, objects g' !! ref = Some c ∧ c_UserID c = "u1"%string ∧
          c_JoinState c = JoinStateInit ∧ c_closeOnce c = false).
Proof.
  apply (handleWebSocket_login demo_parse None
    (Some (auth_bytes (mkAuthRequest "" "u1"))) "u1" _ "c1" demo_shard
    (NewGateway demo_gw_cfg 0));
    [split_and!; [apply gw_wf_new..|done|done]|by vm_compute|done|by vm_compute].
Defined.

Lemma healthHandler_spec_witness :
  let g := NewGateway demo_gw_cfg 0 in
  ∃ code report, healthHandler None g = Done ((code, report), g) ∧
    hs_Connections report = Z.of_nat (size (connections g)) ∧
    (code = 200 ∨ code = 503) ∧
    (code = 200 ↔ rs_connected g = true ∧ ∃ p, None = Some p ∧ kp_connected p = true).
Proof. by apply healthHandler_spec. Defined.
End examples.
