(* ===== verification/Config.v ===== *)
(** [pkg/config/config.go], [pkg/logger/logger.go] and the constructors of
    the two servers: what the configuration files say, and what the servers
    are made of.
    Reading files and YAML are parameters; a key that a file does not have
    leaves the zero value of its field. *)

From Stdlib Require Import ZArith Lia SpecFloat.
From stdpp Require Import base tactics gmap strings numbers list.
From S2P Require Import Prelude GoInt Protocol Chan SessionStore SessionService RoomService Recovery HashRing Roomserver Connection Gateway Login Nacos.

Local Open Scope Z_scope.

(** ** The configuration files; a duration is in nanoseconds, an [int] is a
    signed 64-bit integer *)
Module Config.
Record AuthConfig := mkAuthConfig { JWTSecret : string }.
Record GatewayIdentity := mkGatewayIdentity { gi_ID : string; gi_IP : string; gi_Port : Z }.
Record DisconnectConfig := mkDisconnectConfig { dc_Timeout : Z (* seconds *) }.
Record ServerConfig := mkServerConfig {
  sc_ID : string; sc_Addr : string; sc_HealthAddr : string }.
Record RoomserverServerConfig := mkRoomserverServerConfig {
  rsc_ID : string; rsc_GRPCAddr : string; rsc_HTTPAddr : string }.
Record WebSocketConfig := mkWebSocketConfig {
  ws_ReadBufferSize : Z; ws_WriteBufferSize : Z; ws_HandshakeTimeout : Z }.
Record DistributorConfig := mkDistributorConfig { ds_Shards : Z; ds_InputQueueSize : Z }.
Record ConnectionConfig := mkConnectionConfig {
  cc_SendChSize : Z; cc_BatchInterval : Z; cc_BatchMaxSize : Z; cc_HeartbeatInterval : Z }.
Record ProtectionConfig := mkProtectionConfig {
  pc_QueueWarningRatio : float64; pc_QueueSevereRatio : float64;
  pc_QueueCriticalRatio : float64; pc_QueueFullTimeout : Z; pc_MaxConsecutiveDrops : Z;
  pc_WriteTimeout : Z; pc_MaxConsecutiveWriteTimeouts : Z }.
Record RoomserverClient := mkRoomserverClient {
  rcl_ReconnectInterval : Z; rcl_ReconnectMaxInterval : Z }.
Record RoomConfig := mkRoomConfig { rm_MsgChSize : Z; rm_MemberDisconnectTimeout : Z }.
Record RecoveryConfig := mkRecoveryConfig {
  rv_Timeout : Z; rv_PushQueueSize : Z; rv_GatewayRequestQueueSize : Z;
  rv_ReSyncBatchSize : Z; rv_ReSyncBatchInterval : Z }.
Record HashRingConfig := mkHashRingConfig { hr_VirtualNodes : Z }.
Record KafkaConfig := mkKafkaConfig {
  kc_Brokers : list string; kc_PushTopic : string; kc_BizTopic : string;
  kc_BatchSize : Z; kc_BatchTimeout : Z }.
Record NacosConfig := mkNacosConfig {
  nc_ServerAddr : string; nc_Namespace : string; nc_ServiceName : string;
  nc_RoomserverService : string; nc_GatewayService : string }.
Record LogConfig := mkLogConfig { lc_Level : string; lc_Format : string; lc_Output : string }.
Record MetricsConfig := mkMetricsConfig { mc_Enabled : bool; mc_Addr : string }.

Record GatewayConfig := mkGatewayConfig {
  g_Gateway : GatewayIdentity; g_Server : ServerConfig; g_WebSocket : WebSocketConfig;
  g_Distributor : DistributorConfig; g_Connection : ConnectionConfig;
  g_Protection : ProtectionConfig; g_Roomserver : RoomserverClient; g_Kafka : KafkaConfig;
  g_Auth : AuthConfig; g_Nacos : NacosConfig; g_Log : LogConfig; g_Metrics : MetricsConfig }.

Record RoomserverConfig := mkRoomserverConfig {
  r_Server : RoomserverServerConfig; r_Room : RoomConfig; r_Recovery : RecoveryConfig;
  r_Disconnect : DisconnectConfig; r_HashRing : HashRingConfig; r_Nacos : NacosConfig;
  r_Log : LogConfig; r_Metrics : MetricsConfig }.

(** The zero values, what decoding an empty document gives. *)
Definition zero_float : float64 := S754_zero false.
Definition zero_nacos : NacosConfig := mkNacosConfig "" "" "" "" "".
Definition zero_gateway : GatewayConfig :=
  mkGatewayConfig (mkGatewayIdentity "" "" 0) (mkServerConfig "" "" "") (mkWebSocketConfig 0 0 0)
    (mkDistributorConfig 0 0) (mkConnectionConfig 0 0 0 0)
    (mkProtectionConfig zero_float zero_float zero_float 0 0 0 0) (mkRoomserverClient 0 0)
    (mkKafkaConfig [] "" "" 0 0) (mkAuthConfig "") zero_nacos (mkLogConfig "" "" "")
    (mkMetricsConfig false "").
Definition zero_roomserver : RoomserverConfig :=
  mkRoomserverConfig (mkRoomserverServerConfig "" "" "") (mkRoomConfig 0 0)
    (mkRecoveryConfig 0 0 0 0 0) (mkDisconnectConfig 0) (mkHashRingConfig 0) zero_nacos
    (mkLogConfig "" "" "") (mkMetricsConfig false "").
End Config.

Section load.
(** [os.ReadFile], and [yaml.Unmarshal] into a zero value. *)
Context (ReadFile : string → result string (list byte)).
Context (Unmarshal_gateway : list byte → result string Config.GatewayConfig).
Context (Unmarshal_roomserver : list byte → result string Config.RoomserverConfig).

Definition LoadGatewayConfig (path : string) : result string Config.GatewayConfig :=
  match ReadFile path with
  | Err err => Err err
  | Ok data => match Unmarshal_gateway data with Err err => Err err | Ok cfg => Ok cfg end
  end.

Definition LoadRoomserverConfig (path : string) : result string Config.RoomserverConfig :=
  match ReadFile path with
  | Err err => Err err
  | Ok data => match Unmarshal_roomserver data with Err err => Err err | Ok cfg => Ok cfg end
  end.
End load.

(** ** The logger *)
Inductive LogLevel := DebugLevel | InfoLevel | WarnLevel | ErrorLevel.
Inductive LogEncoder := ConsoleEncoder | JSONEncoder.
Inductive LogWriter := Stdout | LogFile (path : string).
Record Logger := mkLogger { lg_encoder : LogEncoder; lg_writer : LogWriter; lg_level : LogLevel }.

Definition parseLevel (level : string) : LogLevel :=
  if decide (level = "debug"%string) then DebugLevel
  else if decide (level = "info"%string) then InfoLevel
  else if decide (level = "warn"%string) then WarnLevel
  else if decide (level = "error"%string) then ErrorLevel
  else InfoLevel.

(** [Init]; [OpenFile] is the error of opening the file for appending. *)
Definition Init (OpenFile : string → option string) (cfg : Config.LogConfig) :
    result string Logger :=
  let level := parseLevel (Config.lc_Level cfg) in
  let encoder :=
    if decide (Config.lc_Format cfg = "console"%string) then ConsoleEncoder else JSONEncoder in
  let output := Config.lc_Output cfg in
  if decide (output = "stdout"%string ∨ output = ""%string) then Ok (mkLogger encoder Stdout level)
  else match OpenFile output with
  | Some err => Err err
  | None => Ok (mkLogger encoder (LogFile output) level)
  end.

(** ** The servers made of them *)

(** The fields the handlers use. *)
Definition gateway_fields (cfg : Config.GatewayConfig) : GatewayConfig :=
  mkGatewayConfig (Config.gi_ID (Config.g_Gateway cfg)) (Config.sc_Addr (Config.g_Server cfg))
    (Z.to_nat (Config.ds_Shards (Config.g_Distributor cfg)))
    (Z.to_nat (Config.ds_InputQueueSize (Config.g_Distributor cfg)))
    (mkConnectionConfig (Z.to_nat (Config.cc_SendChSize (Config.g_Connection cfg)))
       (Z.to_nat (Config.cc_BatchMaxSize (Config.g_Connection cfg))))
    (mkProtectionConfig (Config.pc_QueueWarningRatio (Config.g_Protection cfg))
       (Config.pc_QueueSevereRatio (Config.g_Protection cfg))
       (Config.pc_QueueCriticalRatio (Config.g_Protection cfg))
       (Config.pc_QueueFullTimeout (Config.g_Protection cfg))
       (Config.pc_MaxConsecutiveDrops (Config.g_Protection cfg))
       (Config.pc_MaxConsecutiveWriteTimeouts (Config.g_Protection cfg))).

(** A gateway with the two optional parts its constructor decides on. *)
Record GatewayServer := mkGatewayServer {
  gs_cfg : Config.GatewayConfig;
  gs_gateway : Gateway;
  gs_jwtValidator : option JWTValidator;
  gs_nacosClient : option (string * string);       (* server address, namespace *)
}.

(** [gateway.NewServer]: [make] panics on a negative length or capacity. *)
Definition NewGatewayServer (cfg : Config.GatewayConfig) (now : Z) : outcome GatewayServer :=
  let d := Config.g_Distributor cfg in
  if decide (Config.ds_Shards d < 0) then Panic "makeslice: len out of range"
  else if decide (0 < Config.ds_Shards d ∧ Config.ds_InputQueueSize d < 0)
  then Panic "makechan: size out of range"
  else
    let secret := Config.JWTSecret (Config.g_Auth cfg) in
    let nacos := Config.g_Nacos cfg in
    Done (mkGatewayServer cfg (NewGateway (gateway_fields cfg) now)
      (if decide (secret ≠ ""%string) then Some (NewJWTValidator secret) else None)
      (if decide (Config.nc_ServerAddr nacos ≠ ""%string)
       then Some (Config.nc_ServerAddr nacos, Config.nc_Namespace nacos) else None)).

(** [roomserver.NewServer] *)
Definition NewRoomserver (cfg : Config.RoomserverConfig) (now now_ms : Z) :
    Server SessionService :=
  NewServer NewSessionService (Config.rsc_ID (Config.r_Server cfg))
    (Config.dc_Timeout (Config.r_Disconnect cfg)) (Config.rv_Timeout (Config.r_Recovery cfg))
    (Config.hr_VirtualNodes (Config.r_HashRing cfg)) now now_ms.

(** ** Lemmas *)
Section histories.
Context {SS : Type} `{SessionStoreLaws SS}.
Implicit Types (s : Server SS).

(** No operation changes the configuration. *)
Lemma run_ctl_timeout s op :
  srv_disconnectTimeout (run_ctl s op) = srv_disconnectTimeout s.
Proof.
  destruct op as [u rid g now|u rid|u rid g now|u rid now|ord tmo now|rid]; cbn [run_ctl].
  - unfold JoinRoom. destruct (AddUser _ _ _ _ _) as [[e|] rs]; cbn; by case_decide.
  - done.
  - unfold Resume. repeat case_match; simplify_eq/=; done.
  - done.
  - unfold checkDisconnectTimeout, checkDisconnectTimeout_at. generalize (GetAllUserIDs ord (sessionSvc s)). intros us.
    revert s. induction us as [|u us IH]; intros s; [done|]. cbn [foldl]. rewrite IH.
    unfold check_user. by repeat case_match.
  - done.
Qed.

Lemma foldl_run_ctl_timeout s ops :
  srv_disconnectTimeout (foldl run_ctl s ops) = srv_disconnectTimeout s.
Proof.
  revert s. induction ops as [|op ops IH]; intros s; [done|]. cbn [foldl].
  by rewrite IH, run_ctl_timeout.
Qed.
End histories.

Lemma parseLevel_info level :
  parseLevel level = InfoLevel ↔ level ∉ ["debug"; "warn"; "error"]%string.
Proof.
  unfold parseLevel. rewrite !not_elem_of_cons. pose proof (not_elem_of_nil level).
  repeat case_decide; naive_solver.
Qed.

(** ** Properties *)
Section properties.
Context `{Msgpack LeaveRoomRequest, Msgpack DisconnectNotify} `{O : MapOrder}.
Context (ReadFile : string → result string (list byte)).
Context (Unmarshal_gateway : list byte → result string Config.GatewayConfig).

(** A configuration without a disconnect timeout (the shipped file of
    the roomserver has none) means no grace period at all: whatever has
    happened since the start, the next tick of the checker evicts every
    user that is disconnected, however short ago, and keeps exactly those
    on line. *)
Theorem unset_timeout_evicts_disconnected cfg t0 t0_ms ops now :
  Config.dc_Timeout (Config.r_Disconnect cfg) = 0 →
  let s := foldl run_ctl (NewRoomserver cfg t0 t0_ms) ops in
  (∀ u p t, presence s !! u = Some p → p_since p = Some t → t ≤ now) →
  presence (disconnectTick now s) =
    filter (λ kp, p_status kp.2 = MemberStatusOnline) (presence s).
Proof.
  intros Hcfg s Hpast. unfold disconnectTick.
  assert (srv_disconnectTimeout s = 0) as -> by (unfold s; by rewrite foldl_run_ctl_timeout).
  destruct (checkDisconnectTimeout_spec (0 * 1000000000) now s) as (_ & -> & _).
  { apply foldl_run_ctl_wf. split; [apply NewSessionService_wf|apply NewRoomService_wf]. }
  apply map_filter_strong_ext. intros u p. cbn. split; intros [Hx Hp]; (split; [|done]).
  - destruct (p_status p) eqn:E; [done|]. destruct Hx. split; [done|].
    destruct (p_since p) as [t|] eqn:Et; cbn; [|done].
    specialize (Hpast u p t Hp Et). unfold minDuration, maxDuration. lia.
  - unfold expired. rewrite Hx. by intros [].
Qed.

(** Loading checks nothing: a file without a distributor section is
    accepted, the gateway is made, and the first client that logs in makes
    it panic, whoever it is. *)
Theorem unchecked_config_first_login_panics path data cfg now ref u connID :
  ReadFile path = Ok data → Unmarshal_gateway data = Ok cfg →
  Config.g_Distributor cfg = Config.mkDistributorConfig 0 0 →
  ∃ gs, LoadGatewayConfig ReadFile Unmarshal_gateway path = Ok cfg ∧
    NewGatewayServer cfg now = Done gs ∧
    let g := gs_gateway gs in
    AddConnection ref (set_objects
      (<[ref := NewConnection u connID (cfg_Connection (g_cfg g))]> (objects g)) g) =
      Panic "integer divide by zero".
Proof.
  intros Hread Hun Hd. unfold LoadGatewayConfig. rewrite Hread, Hun.
  unfold NewGatewayServer. rewrite Hd. cbn.
  rewrite decide_False, decide_False by lia.
  eexists. split; [done|]. split; [done|]. cbn [gs_gateway].
  erewrite AddConnection_run; [|done|cbn; apply lookup_insert_eq|done].
  cbn. rewrite Hd. done.
Qed.

(** The logger: an unknown level means info, an unknown format JSON, and
    only the log file can fail. *)
Theorem Init_spec OpenFile cfg :
  match Init OpenFile cfg with
  | Ok l =>
    (lg_level l = InfoLevel ↔
       Config.lc_Level cfg ∉ ["debug"; "warn"; "error"]%string) ∧
    (lg_encoder l = ConsoleEncoder ↔ Config.lc_Format cfg = "console"%string) ∧
    lg_writer l = (if decide (Config.lc_Output cfg ∈ ["stdout"; ""]%string)
                   then Stdout else LogFile (Config.lc_Output cfg))
  | Err err => Config.lc_Output cfg ∉ ["stdout"; ""]%string ∧
      OpenFile (Config.lc_Output cfg) = Some err
  end.
Proof.
  assert (Config.lc_Output cfg ∈ ["stdout"; ""]%string ↔
    Config.lc_Output cfg = "stdout"%string ∨ Config.lc_Output cfg = ""%string) as Hout
    by set_solver.
  unfold Init. case_decide as Ho; [|destruct (OpenFile _) eqn:E]; cbn.
  2: { split; [|done]. by rewrite Hout. }
  all: split; [|split].
  1, 4: apply parseLevel_info.
  1, 3: by case_decide.
  - by rewrite decide_True by by apply Hout.
  - rewrite decide_False; [done|]. by rewrite Hout.
Qed.
End properties.

(** ** Concrete instances *)
Section examples.
Import ToyCodec.
#[local] Existing Instance default_order.

(** The shipped files. *)
Definition shipped_gateway : Config.GatewayConfig :=
  Config.mkGatewayConfig (Config.mkGatewayIdentity "gateway-1" "127.0.0.1" 8080)
    (Config.mkServerConfig "gateway-1" ":8080" ":8081")
    (Config.mkWebSocketConfig 4096 4096 10000000000)
    (Config.mkDistributorConfig 10 10000)
    (Config.mkConnectionConfig 1024 10000000 10 20000000000)
    (Config.mkProtectionConfig (f64_const 5 10) (f64_const 8 10) (f64_const 95 100)
       30000000000 50 500000000 10)
    (Config.mkRoomserverClient 1000000000 30000000000)
    (Config.mkKafkaConfig [] "" "" 100 10000000)
    (Config.mkAuthConfig "") Config.zero_nacos
    (Config.mkLogConfig "info" "json" "stdout") (Config.mkMetricsConfig true ":9090").
Definition shipped_roomserver : Config.RoomserverConfig :=
  Config.mkRoomserverConfig (Config.mkRoomserverServerConfig "roomserver-1" ":9000" ":9001")
    (Config.mkRoomConfig 1000 60000000000)
    (Config.mkRecoveryConfig 20000000000 10000 1000 1000 10000000)
    (Config.mkDisconnectConfig 0) (Config.mkHashRingConfig 150) Config.zero_nacos
    (Config.mkLogConfig "info" "json" "stdout") (Config.mkMetricsConfig true ":9090").

(** "u1" has lost its connection a nanosecond before the tick. *)
Lemma unset_timeout_evicts_disconnected_witness :
  let s := foldl run_ctl (NewRoomserver shipped_roomserver 0 0)
    [CtlJoin "u1" "r1" "g1" 1; CtlJoin "u2" "r1" "g1" 2; CtlDisconnect "u1" "r1" 99] in
  presence s !! "u1"%string = Some (mkPresence "r1" "g1" MemberStatusDisconnected (Some 99)) ∧
  presence (disconnectTick 100 s) =
    filter (λ kp, p_status kp.2 = MemberStatusOnline) (presence s).
Proof.
  split; [by vm_compute|].
  apply (unset_timeout_evicts_disconnected shipped_roomserver 0 0
    [CtlJoin "u1" "r1" "g1" 1; CtlJoin "u2" "r1" "g1" 2; CtlDisconnect "u1" "r1" 99] 100);
    [done|].
  intros u p t Hu Ht.
  set (m := presence _) in Hu. assert (map_Forall (λ _ p, default 0 (p_since p) ≤ 100) m) as Hall
    by (unfold m; by_computation).
  specialize (Hall u p Hu). cbn in Hall. by rewrite Ht in Hall.
Defined.

Definition demo_read (path : string) : result string (list byte) :=
  if decide (path = "empty.yaml"%string) then Ok [] else Err "no such file"%string.
Definition demo_unmarshal (data : list byte) : result string Config.GatewayConfig :=
  Ok Config.zero_gateway.

Lemma unchecked_config_first_login_panics_witness :
  ∃ gs, LoadGatewayConfig demo_read demo_unmarshal "empty.yaml" = Ok Config.zero_gateway ∧
    NewGatewayServer Config.zero_gateway 5 = Done gs ∧
    let g := gs_gateway gs in
    AddConnection 0%nat (set_objects
      (<[0%nat := NewConnection "u1" "c1" (cfg_Connection (g_cfg g))]> (objects g)) g) =
      Panic "integer divide by zero".
Proof.
  apply (unchecked_config_first_login_panics demo_read demo_unmarshal "empty.yaml" []
    Config.zero_gateway 5 0%nat "u1" "c1"); done.
Defined.
End examples.
