(* ===== verification/Logger.v ===== *)
(** [pkg/logger/logger.go]: the logger of the process.  What it is made of
    ([Init] as a function of the configuration, [parseLevel]) is in Config.v;
    here is the variable that holds it, and the functions that pass messages
    to it.  The zap library is a parameter: loggers, fields, and the world
    they write to.  Pointers to its loggers may be nil. *)

From Stdlib Require Import ZArith Lia.
From stdpp Require Import base tactics strings list.
From S2P Require Import Prelude Config.

Section logger.
Context {ZapLogger Field World : Type}.
(** [zap.New] of a core with caller annotations; [zap.NewProduction], nil
    when it fails. *)
Context (New : Logger → ZapLogger).
Context (NewProduction : World → option ZapLogger * World).
(** The methods [Debug], [Info], [Warn] and [Error] of a logger, by level;
    [With] and [Sync]. *)
Context (zap_log : LogLevel → option ZapLogger → string → list Field → World → outcome World).
Context (zap_With : option ZapLogger → list Field → outcome (option ZapLogger)).
Context (zap_Sync : option ZapLogger → World → outcome (option string * World)).

(** The package variable, and the rest of the world. *)
Record LogState := mkLogState { defaultLogger : option ZapLogger; log_world : World }.
Implicit Types st : LogState.

(** [Init], which keeps the old logger when it fails. *)
Definition InitLogger (OpenFile : string → option string) (cfg : Config.LogConfig) st :
    option string * LogState :=
  match Init OpenFile cfg with
  | Ok l => (None, mkLogState (Some (New l)) (log_world st))
  | Err err => (Some err, st)
  end.

(** [L]: a production logger when there is none; its error is dropped. *)
Definition L st : option ZapLogger * LogState :=
  match defaultLogger st with
  | Some l => (Some l, st)
  | None => let '(l, w) := NewProduction (log_world st) in (l, mkLogState l w)
  end.

Definition log_at (lv : LogLevel) (msg : string) (fields : list Field) st : outcome LogState :=
  let '(l, st) := L st in
  w ← zap_log lv l msg fields (log_world st);
  mret (mkLogState (defaultLogger st) w).

Definition Debug := log_at DebugLevel.
Definition Info := log_at InfoLevel.
Definition Warn := log_at WarnLevel.
Definition Error := log_at ErrorLevel.

Definition With (fields : list Field) st : outcome (option ZapLogger * LogState) :=
  let '(l, st) := L st in
  l' ← zap_With l fields;
  mret (l', st).

Definition Sync st : outcome (option string * LogState) :=
  let '(l, st) := L st in
  '(err, w) ← zap_Sync l (log_world st);
  mret (err, mkLogState (defaultLogger st) w).

(** What the rest of the program does with the package after [Init]. *)
Inductive LogCall :=
  | CallLog (lv : LogLevel) (msg : string) (fields : list Field)
  | CallWith (fields : list Field)
  | CallSync.

Definition run_call (call : LogCall) st : outcome LogState :=
  match call with
  | CallLog lv msg fields => log_at lv msg fields st
  | CallWith fields => r ← With fields st; mret r.2
  | CallSync => r ← Sync st; mret r.2
  end.

Fixpoint run_calls (calls : list LogCall) st : outcome LogState :=
  match calls with
  | [] => mret st
  | call :: calls => st ← run_call call st; run_calls calls st
  end.

(** The same calls on one fixed logger, without the package. *)
Definition direct_call (l : ZapLogger) (call : LogCall) (w : World) : outcome World :=
  match call with
  | CallLog lv msg fields => zap_log lv (Some l) msg fields w
  | CallWith fields => _ ← zap_With (Some l) fields; mret w
  | CallSync => r ← zap_Sync (Some l) w; mret r.2
  end.
Fixpoint direct_calls (l : ZapLogger) (calls : list LogCall) (w : World) : outcome World :=
  match calls with
  | [] => mret w
  | call :: calls => w ← direct_call l call w; direct_calls l calls w
  end.

(** ** Lemmas *)
Lemma L_some l w : L (mkLogState (Some l) w) = (Some l, mkLogState (Some l) w).
Proof. done. Qed.

(** Once there is a logger, it is the one that is used. *)
Lemma run_call_direct call l w :
  run_call call (mkLogState (Some l) w) =
  (w' ← direct_call l call w; mret (mkLogState (Some l) w')).
Proof.
  destruct call as [lv msg fields|fields|]; cbn; [done| |].
  - unfold With. cbn. by destruct (zap_With _ _).
  - unfold Sync. cbn. by destruct (zap_Sync _ _) as [[]| |].
Qed.

Lemma run_calls_direct calls l w :
  run_calls calls (mkLogState (Some l) w) =
  (w' ← direct_calls l calls w; mret (mkLogState (Some l) w')).
Proof.
  revert w. induction calls as [|call calls IH]; intros w; [done|]. cbn.
  rewrite run_call_direct. destruct (direct_call l call w) as [w'| |]; [|done..]. cbn. apply IH.
Qed.

(** ** Properties *)

(** After a successful [Init] every message of the program goes to the
    logger of the configuration, with its encoder, writer and level; when it
    fails nothing has changed. *)
Theorem configured_logger_used OpenFile cfg st calls :
  match InitLogger OpenFile cfg st with
  | (None, st') => ∃ l, Init OpenFile cfg = Ok l ∧
      run_calls calls st' =
        (w ← direct_calls (New l) calls (log_world st); mret (mkLogState (Some (New l)) w))
  | (Some err, st') => Init OpenFile cfg = Err err ∧ st' = st
  end.
Proof.
  unfold InitLogger. destruct (Init OpenFile cfg) as [l|err]; [|done].
  exists l. split; [done|]. apply run_calls_direct.
Qed.

(** Without [Init], one production logger is made, at the first call, and
    serves all calls. *)
Theorem production_logger_made_once w l w' call calls :
  NewProduction w = (Some l, w') →
  run_calls (call :: calls) (mkLogState None w) =
    (w'' ← direct_calls l (call :: calls) w'; mret (mkLogState (Some l) w'')).
Proof.
  intros Hp. rewrite <-run_calls_direct. cbn [run_calls]. f_equal.
  destruct call as [lv msg fields|fields|]; cbn; unfold log_at, With, Sync, L; cbn; by rewrite Hp.
Qed.
End logger.

(** ** A concrete library: a logger is its core, the world the lines written *)
Section examples.
Definition demo_log (lv : LogLevel) (l : option Logger) (msg : string) (fields : list unit)
    (w : list string) : outcome (list string) :=
  match l with
  | None => Panic "nil pointer dereference"
  | Some _ => Done (w ++ [msg])
  end.

Lemma production_logger_made_once_witness :
  run_calls (λ w, (Some (mkLogger JSONEncoder Stdout InfoLevel), w)) demo_log
    (λ l _, Done l) (λ _ w, Done (None, w))
    [CallLog InfoLevel "a" []; CallSync; CallLog ErrorLevel "b" []] (mkLogState None []) =
  Done (mkLogState (Some (mkLogger JSONEncoder Stdout InfoLevel)) ["a"; "b"]%string).
Proof.
  rewrite (production_logger_made_once _ demo_log _ _ [] (mkLogger JSONEncoder Stdout InfoLevel) []);
    reflexivity.
Defined.
End examples.
