(* ===== verification/GoTime.v ===== *)
(** What the code uses of Go's package time to print an instant: the civil
    calendar and the decimal fields of a layout.  The calendar is pinned to
    the Gregorian one by [civil_from_days_epoch] and [civil_from_days_next]:
    day 0 is 1970-01-01 and each day is the day after the one before. *)

From Stdlib Require Import ZArith Lia.
From stdpp Require Import base tactics strings numbers list.

Local Open Scope Z_scope.

(** [lia] with division by constants. *)
Ltac div_lia := Z.to_euclidean_division_equations; lia.

(** ** The calendar *)
Record date := mkDate { d_year : Z; d_month : Z; d_day : Z }.

#[export] Instance date_eq_dec : EqDecision date.
Proof. solve_decision. Defined.

Definition is_leap (y : Z) : bool :=
  (y mod 4 =? 0) && (negb (y mod 100 =? 0) || (y mod 400 =? 0)).

Definition days_in_month (y m : Z) : Z :=
  if m =? 2 then if is_leap y then 29 else 28
  else if (m =? 4) || (m =? 6) || (m =? 9) || (m =? 11) then 30 else 31.

Definition next_day (d : date) : date :=
  if d_day d <? days_in_month (d_year d) (d_month d)
  then mkDate (d_year d) (d_month d) (d_day d + 1)
  else if d_month d <? 12 then mkDate (d_year d) (d_month d + 1) 1
  else mkDate (d_year d + 1) 1 1.

(** The days of 400 years that begin on a 1 March. *)
Definition era_days : Z := 146097.

(** The year of a day of such an era, and the month and day of a day of such
    a year. *)
Definition year_of_era (doe : Z) : Z := (doe - doe / 1460 + doe / 36524 - doe / 146096) / 365.

Definition month_day (doy : Z) : Z * Z :=
  let mp := (5 * doy + 2) / 153 in
  (if mp <? 10 then mp + 3 else mp - 9, doy - (153 * mp + 2) / 5 + 1).

(** The date of a day of the era, in years counted from its start. *)
Definition era_date (doe : Z) : date :=
  let yoe := year_of_era doe in
  let '(m, d) := month_day (doe - (365 * yoe + yoe / 4 - yoe / 100)) in
  mkDate (if m <=? 2 then yoe + 1 else yoe) m d.

Definition shift_years (n : Z) (d : date) : date := mkDate (d_year d + n) (d_month d) (d_day d).

(** Day 0 is 1970-01-01; 719468 days lie between 0000-03-01 and it. *)
Definition civil_from_days (z : Z) : date :=
  shift_years (400 * ((z + 719468) / era_days)) (era_date ((z + 719468) mod era_days)).

(** The inverse on an era. *)
Definition era_day (d : date) : Z :=
  let y := if d_month d <=? 2 then d_year d - 1 else d_year d in
  let doy := (153 * (if 2 <? d_month d then d_month d - 3 else d_month d + 9) + 2) / 5 + d_day d - 1 in
  365 * y + y / 4 - y / 100 + y / 400 + doy.

(** ** Decimal fields *)
Definition digit (n : Z) : Ascii.ascii := Ascii.ascii_of_nat (48 + Z.to_nat n).

(** [appendInt(b, x, width)] for an [x] of at most [width] digits. *)
Fixpoint pad (width : nat) (x : Z) : string :=
  match width with
  | O => ""
  | S w => String (digit (x / 10 ^ Z.of_nat w mod 10)) (pad w x)
  end.

(** ** The years of an era *)

(** The first day of year [y]. *)
Definition year_start (y : Z) : Z := 365 * y + y / 4 - y / 100 + y / 400.

Lemma year_exists (n : nat) doe :
  0 <= doe < year_start (Z.of_nat n) →
  ∃ y, 0 <= y < Z.of_nat n ∧ year_start y <= doe < year_start (y + 1).
Proof.
  induction n as [|n IH]; intros Hd; [change (year_start (Z.of_nat 0)) with 0 in Hd; lia|].
  destruct (Z.lt_ge_cases doe (year_start (Z.of_nat n))) as [Hlt|Hge].
  - destruct IH as (y & Hy & Hs); [lia|]. exists y. split; [lia|done].
  - exists (Z.of_nat n). split; [lia|]. rewrite Nat2Z.inj_succ in Hd. unfold Z.succ in Hd. lia.
Qed.

(** Both ends of every year. *)
Definition year_check (y : Z) : bool :=
  (year_of_era (year_start y) =? y) && (year_of_era (year_start (y + 1) - 1) =? y).

Lemma years_checked y : 0 <= y < 400 → year_check y = true.
Proof.
  intros Hy. assert (forallb year_check (seqZ 0 400) = true) as Hall by (vm_compute; reflexivity).
  rewrite forallb_forall in Hall. apply Hall, list_elem_of_In, elem_of_seqZ. lia.
Qed.

Lemma year_of_era_mono a b : 0 <= a <= b → b < era_days → year_of_era a <= year_of_era b.
Proof. intros Ha Hb. unfold year_of_era, era_days in *. apply Z.div_le_mono; [done|]. div_lia. Qed.

Lemma year_of_era_spec doe :
  0 <= doe < era_days →
  let y := year_of_era doe in 0 <= y < 400 ∧ year_start y <= doe < year_start (y + 1).
Proof.
  intros Hd. destruct (year_exists 400 doe) as (y & Hy & Hs); [done|].
  pose proof (years_checked y Hy) as Hc. unfold year_check in Hc.
  rewrite andb_true_iff, !Z.eqb_eq in Hc. destruct Hc as [H1 H2].
  assert (0 <= year_start y) by (unfold year_start; div_lia).
  assert (year_start (y + 1) <= era_days) by (unfold year_start, era_days; div_lia).
  assert (year_of_era doe = y) as ->; [|done].
  pose proof (year_of_era_mono (year_start y) doe).
  pose proof (year_of_era_mono doe (year_start (y + 1) - 1)). lia.
Qed.

(** A year that begins in March is a day longer when its February is. *)
Lemma year_length y :
  0 <= y → year_start (y + 1) = year_start y + (if is_leap (y + 1) then 366 else 365).
Proof.
  intros Hy. unfold is_leap, year_start.
  destruct (Z.eqb_spec ((y + 1) mod 4) 0), (Z.eqb_spec ((y + 1) mod 100) 0),
    (Z.eqb_spec ((y + 1) mod 400) 0); simpl; div_lia.
Qed.

(** The days of such a year. *)
Definition day_check (doy : Z) : bool :=
  let '(m, d) := month_day doy in
  (1 <=? m) && (m <=? 12) && (1 <=? d) && (d <=? 31) &&
  ((153 * (if 2 <? m then m - 3 else m + 9) + 2) / 5 + d - 1 =? doy) &&
  (if doy <? 364 then
     negb (bool_decide (m = 2 ∧ 28 <= d)) &&
     bool_decide (month_day (doy + 1) =
       if d <? days_in_month 1 m then (m, d + 1) else if m <? 12 then (m + 1, 1) else (1, 1))
   else bool_decide (m = 2 ∧ d = doy - 336)).

Lemma days_checked doy : 0 <= doy < 366 → day_check doy = true.
Proof.
  intros Hd. assert (forallb day_check (seqZ 0 366) = true) as Hall by (vm_compute; reflexivity).
  rewrite forallb_forall in Hall. apply Hall, list_elem_of_In, elem_of_seqZ. lia.
Qed.

Lemma era_date_spec doe :
  0 <= doe < era_days →
  let d := era_date doe in
  next_day d = (if doe <? era_days - 1 then era_date (doe + 1) else shift_years 400 (era_date 0)) ∧
  era_day d = doe ∧ 0 <= d_year d <= 400 ∧ 1 <= d_month d <= 12 ∧ 1 <= d_day d <= 31.
Proof.
  intros Hd. destruct (year_of_era_spec doe Hd) as [Hy Hs].
  cbv zeta. set (y := year_of_era doe) in *.
  pose proof (year_length y ltac:(lia)) as Hlen.
  assert (year_start y = 365 * y + y / 4 - y / 100) as Hstart by (unfold year_start; div_lia).
  set (doy := doe - year_start y).
  assert (0 <= doy < 366) as Hdoy by (destruct (is_leap (y + 1)); lia).
  pose proof (days_checked doy Hdoy) as Hc. unfold day_check in Hc.
  destruct (month_day doy) as [m d] eqn:Hmd.
  rewrite !andb_true_iff, !Z.leb_le, Z.eqb_eq in Hc. 
  destruct Hc as [[[[[Hm1 Hm2] Hd1] Hd2] Hday] Hnext].
  assert (era_date doe = mkDate (if m <=? 2 then y + 1 else y) m d) as ->.
  { unfold era_date. fold y. rewrite <-Hstart. fold doy. by rewrite Hmd. }
  cbn [d_year d_month d_day]. split; [|split; [|split; [|done]]].
  2: { unfold era_day. cbn [d_year d_month d_day].
    replace (if m <=? 2 then (if m <=? 2 then y + 1 else y) - 1 else if m <=? 2 then y + 1 else y)
      with y by (destruct (m <=? 2); lia). subst doy. unfold year_start in *. lia. }
  2: { destruct (m <=? 2); lia. }
  (* the next day *)
  assert (∀ y', year_of_era (doe + 1) = y' → 0 <= y' < 400 → doe + 1 < era_days →
    era_date (doe + 1) = let '(m, d) := month_day (doe + 1 - year_start y') in
      mkDate (if m <=? 2 then y' + 1 else y') m d) as Hdate.
  { intros y' Hy' Hr Hlt. unfold era_date. rewrite Hy'. unfold year_start.
    by replace (y' / 400) with 0 by div_lia; rewrite Z.add_0_r. }
  assert (∀ y', 0 <= y' < 400 → doe + 1 < era_days → year_start y' <= doe + 1 < year_start (y' + 1) →
    year_of_era (doe + 1) = y') as Hyear.
  { intros y' Hy' Hlt Hr. destruct (year_of_era_spec (doe + 1) ltac:(lia)) as [Hy2 Hs2].
    unfold year_start in Hr, Hs2. div_lia. }
  destruct (Z.ltb_spec doy 364) as [Hlt|Hge].
  - apply andb_true_iff in Hnext as [Hfeb Hnext].
    rewrite negb_true_iff, bool_decide_eq_false in Hfeb. rewrite bool_decide_eq_true in Hnext.
    assert (doe + 1 < year_start (y + 1)) by (destruct (is_leap (y + 1)); lia).
    assert (year_start (y + 1) <= era_days) by (unfold year_start, era_days; div_lia).
    rewrite (proj2 (Z.ltb_lt doe (era_days - 1))) by lia.
    rewrite (Hdate y) by (done || lia || (apply Hyear; lia)).
    replace (doe + 1 - year_start y) with (doy + 1) by lia. rewrite Hnext.
    unfold next_day. cbn [d_year d_month d_day].
    assert (∀ z, d <? days_in_month z m = (d <? days_in_month 1 m)) as Hdim.
    { intros z. unfold days_in_month. destruct (Z.eqb_spec m 2); [|done].
      change (is_leap 1) with false. cbn iota. destruct (is_leap z); [|done].
      destruct (Z.ltb_spec d 29), (Z.ltb_spec d 28); (done || lia). }
    rewrite Hdim. destruct (Z.ltb_spec d (days_in_month 1 m)) as [|Hge]; [done|].
    destruct (Z.ltb_spec m 12).
    + destruct (Z.leb_spec m 2), (Z.leb_spec (m + 1) 2); f_equal; try lia.
      exfalso. assert (m = 2) as -> by lia. by apply Hfeb.
    + destruct (Z.leb_spec m 2); [lia|]. done.
  - rewrite bool_decide_eq_true in Hnext. destruct Hnext as [-> ->].
    assert (doe + 1 = year_start (y + 1) →
      mkDate (y + 1) 3 1 = if doe <? era_days - 1 then era_date (doe + 1)
                           else shift_years 400 (era_date 0)) as Hmarch.
    { intros He. destruct (Z.ltb_spec doe (era_days - 1)).
      - assert (y + 1 < 400) by (unfold year_start, era_days in *; div_lia).
        rewrite (Hdate (y + 1)); [|apply Hyear; [lia..|]|lia|lia].
        + by rewrite He, Z.sub_diag.
        + rewrite (year_length (y + 1)) by lia. destruct (is_leap (y + 1 + 1)); lia.
      - assert (y = 399) as -> by (unfold year_start, era_days in *; div_lia). done. }
    unfold next_day. cbn [d_year d_month d_day].
    change (days_in_month (if 2 <=? 2 then y + 1 else y) 2) with (if is_leap (y + 1) then 29 else 28).
    destruct (is_leap (y + 1)) eqn:Hleap.
    + destruct (Z.ltb_spec (doy - 336) 29).
      * assert (year_start (y + 1) <= era_days) by (unfold year_start, era_days; div_lia).
        rewrite (proj2 (Z.ltb_lt doe (era_days - 1))) by lia.
        rewrite (Hdate y) by (done || lia || (apply Hyear; lia)).
        replace (doe + 1 - year_start y) with 365 by lia.
        replace (doy - 336) with 28 by lia. done.
      * apply Hmarch. lia.
    + destruct (Z.ltb_spec (doy - 336) 28); [lia|]. apply Hmarch. lia.
Qed.

Lemma is_leap_shift y k : is_leap (y + 400 * k) = is_leap y.
Proof.
  unfold is_leap.
  assert (∀ m, m ≠ 0 → 400 mod m = 0 → (y + 400 * k) mod m = y mod m) as Hm.
  { intros m Hm Hd. apply Z.mod_divide in Hd as [q ->]; [|done].
    replace (y + q * m * k) with (y + (q * k) * m) by lia. apply Z_mod_plus_full. }
  by rewrite !Hm.
Qed.

Lemma next_day_shift k d :
  next_day (shift_years (400 * k) d) = shift_years (400 * k) (next_day d).
Proof.
  unfold next_day, shift_years, days_in_month. simpl. rewrite is_leap_shift.
  repeat case_match; simpl; f_equal; lia.
Qed.

Lemma shift_shift a b d : shift_years a (shift_years b d) = shift_years (b + a) d.
Proof. unfold shift_years. simpl. f_equal. lia. Qed.

(** ** The calendar is the Gregorian one *)
Lemma civil_from_days_epoch : civil_from_days 0 = mkDate 1970 1 1.
Proof. reflexivity. Qed.

Lemma civil_from_days_next z : civil_from_days (z + 1) = next_day (civil_from_days z).
Proof.
  unfold civil_from_days. set (n := z + 719468).
  replace (z + 1 + 719468) with (n + 1) by (subst n; lia).
  pose proof (Z.mod_pos_bound n era_days eq_refl) as Hr.
  destruct (era_date_spec (n mod era_days) Hr) as [Hn _].
  rewrite next_day_shift, Hn. pose proof (Z.div_mod n era_days ltac:(done)) as Hdm.
  destruct (Z.ltb_spec (n mod era_days) (era_days - 1)).
  - assert ((n + 1) / era_days = n / era_days) as ->
      by (symmetry; apply Z.div_unique with (n mod era_days + 1); unfold era_days in *; lia).
    assert ((n + 1) mod era_days = n mod era_days + 1) as ->
      by (symmetry; apply Z.mod_unique with (n / era_days); unfold era_days in *; lia).
    done.
  - assert ((n + 1) / era_days = n / era_days + 1) as ->
      by (symmetry; apply Z.div_unique with 0; unfold era_days in *; lia).
    assert ((n + 1) mod era_days = 0) as ->
      by (symmetry; apply Z.mod_unique with (n / era_days + 1); unfold era_days in *; lia).
    rewrite shift_shift. f_equal. lia.
Qed.

(** The day a date stands for, whichever era it is in. *)
Lemma civil_from_days_inj z1 z2 : civil_from_days z1 = civil_from_days z2 → z1 = z2.
Proof.
  unfold civil_from_days. set (n1 := z1 + 719468). set (n2 := z2 + 719468).
  pose proof (Z.mod_pos_bound n1 era_days eq_refl) as H1.
  pose proof (Z.mod_pos_bound n2 era_days eq_refl) as H2.
  destruct (era_date_spec _ H1) as (_ & E1 & Y1 & _).
  destruct (era_date_spec _ H2) as (_ & E2 & Y2 & _).
  pose proof (Z.div_mod n1 era_days ltac:(done)) as D1.
  pose proof (Z.div_mod n2 era_days ltac:(done)) as D2.
  set (d1 := era_date (n1 mod era_days)) in *. set (d2 := era_date (n2 mod era_days)) in *.
  set (q1 := n1 / era_days) in *. set (q2 := n2 / era_days) in *.
  intros Heq. pose proof (f_equal d_year Heq) as Hy. pose proof (f_equal d_month Heq) as Hm.
  pose proof (f_equal d_day Heq) as Hd. cbn [shift_years d_year d_month d_day] in Hy, Hm, Hd.
  assert (era_day (shift_years (400 * (q1 - q2)) d1) = era_day d2) as Hed.
  { unfold shift_years. rewrite Hm, Hd.
    replace (d_year d1 + 400 * (q1 - q2)) with (d_year d2) by lia. by destruct d2. }
  assert (∀ k d, era_day (shift_years (400 * k) d) = era_day d + era_days * k) as Hsh.
  { intros k d. unfold era_day, shift_years, era_days. simpl.
    assert (∀ y, (y + 400 * k) / 4 = y / 4 + 100 * k) as H4.
    { intros y. replace (y + 400 * k) with (y + (100 * k) * 4) by lia. by rewrite Z.div_add. }
    assert (∀ y, (y + 400 * k) / 100 = y / 100 + 4 * k) as H100.
    { intros y. replace (y + 400 * k) with (y + (4 * k) * 100) by lia. by rewrite Z.div_add. }
    assert (∀ y, (y + 400 * k) / 400 = y / 400 + k) as H400.
    { intros y. replace (y + 400 * k) with (y + k * 400) by lia. by rewrite Z.div_add. }
    destruct (d_month d <=? 2).
    - replace (d_year d + 400 * k - 1) with (d_year d - 1 + 400 * k) by lia.
      rewrite H4, H100, H400. lia.
    - rewrite H4, H100, H400. lia. }
  rewrite Hsh, E1, E2 in Hed. unfold era_days in *. subst n1 n2. lia.
Qed.

Lemma civil_from_days_bounds z :
  let d := civil_from_days z in
  1 <= d_month d <= 12 ∧ 1 <= d_day d <= 31 ∧
  400 * ((z + 719468) / era_days) <= d_year d <= 400 * ((z + 719468) / era_days) + 400.
Proof.
  pose proof (Z.mod_pos_bound (z + 719468) era_days eq_refl) as Hr.
  destruct (era_date_spec _ Hr) as (_ & _ & Y & M & D).
  unfold civil_from_days. cbn [shift_years d_year d_month d_day]. lia.
Qed.

(** ** Decimal fields *)
Lemma pad_length w x : String.length (pad w x) = w.
Proof. induction w as [|w IH]; simpl; congruence. Qed.

Lemma digit_inj m n : 0 <= m < 10 → 0 <= n < 10 → digit m = digit n → m = n.
Proof.
  intros Hm Hn Heq. apply (f_equal Ascii.nat_of_ascii) in Heq. unfold digit in Heq.
  rewrite !Ascii.nat_ascii_embedding in Heq by lia. lia.
Qed.

Lemma pad_inj w x y :
  0 <= x < 10 ^ Z.of_nat w → 0 <= y < 10 ^ Z.of_nat w → pad w x = pad w y → x = y.
Proof.
  assert (pad w x = pad w y → x mod 10 ^ Z.of_nat w = y mod 10 ^ Z.of_nat w) as Hmod.
  { induction w as [|w IH]; intros Heq; [by rewrite !Z.mod_1_r|].
    cbn [pad] in Heq. injection Heq as Hd Ht. apply IH in Ht.
    apply digit_inj in Hd; [|apply Z.mod_pos_bound; lia..].
    rewrite Nat2Z.inj_succ, Z.pow_succ_r, (Z.mul_comm 10) by lia.
    rewrite !Z.rem_mul_r by lia. by rewrite Hd, Ht. }
  intros Hx Hy Heq. apply Hmod in Heq. by rewrite !Z.mod_small in Heq.
Qed.

(** Strings that are put together from pieces of the same length. *)
Lemma append_inj_length (a b c d : string) :
  String.length a = String.length c → (a +:+ b = c +:+ d)%string → a = c ∧ b = d.
Proof.
  revert c. induction a as [|ch a IH]; intros [|ch' c]; simpl; try done.
  intros [= Hl] Heq. injection Heq as -> Heq. destruct (IH c Hl Heq) as [-> ->]. done.
Qed.

Lemma pad_app_inj w x y (b d : string) :
  0 <= x < 10 ^ Z.of_nat w → 0 <= y < 10 ^ Z.of_nat w →
  (pad w x +:+ b = pad w y +:+ d)%string → x = y ∧ b = d.
Proof.
  intros Hx Hy Heq. apply append_inj_length in Heq as [Hp ->]; [|by rewrite !pad_length].
  split; [|done]. by eapply pad_inj.
Qed.
