(* ===== verification/GoJson.v ===== *)
(** What the code uses of Go's packages encoding/json and encoding/base64 to
    print a flat record: strings with their escapes, byte slices, integers.
    Bytes are integers below 256.  A reader of flat objects, in the sense of
    RFC 8259, says what such a text means. *)

From Stdlib Require Import ZArith Lia.
From stdpp Require Import base tactics gmap numbers list.
From S2P Require Import Prelude.

Local Open Scope Z_scope.

Abbreviation bytes := (list Z).

Definition all_bytes (s : bytes) : Prop := Forall (λ b, 0 <= b < 256) s.

(** ** UTF-8 (package unicode/utf8) *)
Definition cont (b : Z) : bool := (0x80 <=? b) && (b <=? 0xBF).

(** The length of the valid sequence of several bytes that [s] starts with,
    0 if there is none. *)
Definition seq_len (s : bytes) : nat :=
  match s with
  | b0 :: b1 :: t =>
    if (0xC2 <=? b0) && (b0 <=? 0xDF) then (if cont b1 then 2%nat else 0%nat) else
    match t with
    | b2 :: t =>
      if (0xE0 <=? b0) && (b0 <=? 0xEF) then
        (if cont b1 && cont b2 && (negb (b0 =? 0xE0) || (0xA0 <=? b1)) &&
            (negb (b0 =? 0xED) || (b1 <=? 0x9F)) then 3%nat else 0%nat)
      else match t with
      | b3 :: _ =>
        if (0xF0 <=? b0) && (b0 <=? 0xF4) && cont b1 && cont b2 && cont b3 &&
           (negb (b0 =? 0xF0) || (0x90 <=? b1)) && (negb (b0 =? 0xF4) || (b1 <=? 0x8F))
        then 4%nat else 0%nat
      | [] => 0%nat
      end
    | [] => 0%nat
    end
  | _ => 0%nat
  end.

(** [utf8.AppendRune]. *)
Definition encode_rune (r : Z) : bytes :=
  if r <? 0x80 then [r]
  else if r <? 0x800 then [0xC0 + r / 64; 0x80 + r mod 64]
  else if (0xD800 <=? r) && (r <=? 0xDFFF) || (0x10FFFF <? r) then [0xEF; 0xBF; 0xBD]
  else if r <? 0x10000 then [0xE0 + r / 4096; 0x80 + r / 64 mod 64; 0x80 + r mod 64]
  else [0xF0 + r / 262144; 0x80 + r / 4096 mod 64; 0x80 + r / 64 mod 64; 0x80 + r mod 64].

(** A string with U+FFFD for every byte that is in no valid sequence. *)
Fixpoint clean_n (n : nat) (s : bytes) : bytes :=
  match n, s with
  | S n, b0 :: t =>
    if b0 <? 0x80 then b0 :: clean_n n t else
    match seq_len s with
    | O => [0xEF; 0xBF; 0xBD] ++ clean_n n t
    | k => take k s ++ clean_n n (drop k s)
    end
  | _, _ => []
  end.

Definition clean (s : bytes) : bytes := clean_n (length s) s.

(** ** Strings, as [json.Marshal] writes them (HTML characters escaped) *)
Definition hex_digit (n : Z) : Z := if n <? 10 then 48 + n else 87 + n.

Definition u_escape (r : Z) : bytes :=
  [92; 117; hex_digit (r / 4096 mod 16); hex_digit (r / 256 mod 16);
   hex_digit (r / 16 mod 16); hex_digit (r mod 16)].

(** A byte below 0x80: quote, backslash, BS, FF, LF, CR, HT have short
    escapes; other control characters and <, >, & get a hexadecimal one. *)
Definition esc (b : Z) : bytes :=
  if b =? 34 then [92; 34]
  else if b =? 92 then [92; 92]
  else if b =? 8 then [92; 98]
  else if b =? 12 then [92; 102]
  else if b =? 10 then [92; 110]
  else if b =? 13 then [92; 114]
  else if b =? 9 then [92; 116]
  else if (b <? 32) || (b =? 60) || (b =? 62) || (b =? 38) then u_escape b
  else [b].

(** U+2028 and U+2029 are escaped for JavaScript. *)
Definition line_separator (s : bytes) : option Z :=
  match s with
  | 0xE2 :: 0x80 :: 0xA8 :: _ => Some 0x2028
  | 0xE2 :: 0x80 :: 0xA9 :: _ => Some 0x2029
  | _ => None
  end.

Fixpoint quote_n (n : nat) (s : bytes) : bytes :=
  match n, s with
  | S n, b0 :: t =>
    if b0 <? 0x80 then esc b0 ++ quote_n n t else
    match seq_len s with
    | O => u_escape 0xFFFD ++ quote_n n t
    | k => match line_separator s with
           | Some r => u_escape r
           | None => take k s
           end ++ quote_n n (drop k s)
    end
  | _, _ => []
  end.

Definition quote (s : bytes) : bytes := [34] ++ quote_n (length s) s ++ [34].

(** ** base64.StdEncoding *)
Definition b64_char (n : Z) : Z :=
  if n <? 26 then 65 + n else if n <? 52 then 71 + n else if n <? 62 then n - 4
  else if n =? 62 then 43 else 47.

Fixpoint b64_encode (s : bytes) : bytes :=
  match s with
  | b0 :: b1 :: b2 :: t =>
    [b64_char (b0 / 4); b64_char (b0 mod 4 * 16 + b1 / 16);
     b64_char (b1 mod 16 * 4 + b2 / 64); b64_char (b2 mod 64)] ++ b64_encode t
  | [b0; b1] =>
    [b64_char (b0 / 4); b64_char (b0 mod 4 * 16 + b1 / 16); b64_char (b1 mod 16 * 4); 61]
  | [b0] => [b64_char (b0 / 4); b64_char (b0 mod 4 * 16); 61; 61]
  | [] => []
  end.

(** ** Integers *)
Fixpoint decimal_n (n : nat) (x : Z) : bytes :=
  match n with
  | O => []
  | S n => if x <? 10 then [48 + x] else decimal_n n (x / 10) ++ [48 + x mod 10]
  end.

(** Twenty digits are enough for 64 bits. *)
Definition decimal (x : Z) : bytes :=
  if x <? 0 then 45 :: decimal_n 20 (- x) else decimal_n 20 x.

(** ** Reading *)

(** What a [\uXXXX] stands for. *)
Definition hex_value (c : Z) : option Z :=
  if (48 <=? c) && (c <=? 57) then Some (c - 48)
  else if (97 <=? c) && (c <=? 102) then Some (c - 87)
  else if (65 <=? c) && (c <=? 70) then Some (c - 55)
  else None.

Definition hex4 (s : bytes) : option (Z * bytes) :=
  match s with
  | a :: b :: c :: d :: t =>
    a ← hex_value a; b ← hex_value b; c ← hex_value c; d ← hex_value d;
    Some (((a * 16 + b) * 16 + c) * 16 + d, t)
  | _ => None
  end.

Definition is_surrogate (r : Z) : bool := (0xD800 <=? r) && (r <=? 0xDFFF).

(** A second half of a surrogate pair after [r]. *)
Definition low_half (r : Z) (s : bytes) : option (Z * bytes) :=
  match s with
  | 92 :: 117 :: t =>
    '(r2, t) ← hex4 t;
    if (r <=? 0xDBFF) && (0xDC00 <=? r2) && (r2 <=? 0xDFFF)
    then Some ((r - 0xD800) * 1024 + (r2 - 0xDC00) + 0x10000, t) else None
  | _ => None
  end.

Definition short_escape (c : Z) : option Z :=
  if (c =? 34) || (c =? 92) || (c =? 47) then Some c
  else if c =? 98 then Some 8 else if c =? 102 then Some 12 else if c =? 110 then Some 10
  else if c =? 114 then Some 13 else if c =? 116 then Some 9 else None.

(** The string after its opening quote, and what follows the closing one. *)
Fixpoint unquote_n (n : nat) (s : bytes) : option (bytes * bytes) :=
  match n, s with
  | S n, c :: t =>
    if c =? 34 then Some ([], t)
    else if c =? 92 then
      match t with
      | 117 :: t =>
        '(r, t) ← hex4 t;
        '(r, t) ← (if is_surrogate r then
                     match low_half r t with Some rt => Some rt | None => Some (0xFFFD, t) end
                   else Some (r, t));
        '(x, rest) ← unquote_n n t; Some (encode_rune r ++ x, rest)
      | e :: t => b ← short_escape e; '(x, rest) ← unquote_n n t; Some (b :: x, rest)
      | [] => None
      end
    else if c <? 32 then None
    else if c <? 0x80 then '(x, rest) ← unquote_n n t; Some (c :: x, rest)
    else match seq_len s with
    | O => '(x, rest) ← unquote_n n t; Some ([0xEF; 0xBF; 0xBD] ++ x, rest)
    | k => '(x, rest) ← unquote_n n (drop k s); Some (take k s ++ x, rest)
    end
  | _, _ => None
  end.

Definition unquote (s : bytes) : option (bytes * bytes) :=
  match s with
  | 34 :: t => unquote_n (length t) t
  | _ => None
  end.

Definition b64_value (c : Z) : option Z :=
  if (65 <=? c) && (c <=? 90) then Some (c - 65)
  else if (97 <=? c) && (c <=? 122) then Some (c - 71)
  else if (48 <=? c) && (c <=? 57) then Some (c + 4)
  else if c =? 43 then Some 62 else if c =? 47 then Some 63 else None.

Fixpoint b64_decode (s : bytes) : option bytes :=
  match s with
  | [] => Some []
  | a :: b :: c :: d :: t =>
    a ← b64_value a; b ← b64_value b;
    if d =? 61 then
      match t with
      | [] => if c =? 61 then Some [a * 4 + b / 16]
              else c ← b64_value c; Some [a * 4 + b / 16; b mod 16 * 16 + c / 4]
      | _ => None
      end
    else
      c ← b64_value c; d ← b64_value d; t ← b64_decode t;
      Some (a * 4 + b / 16 :: b mod 16 * 16 + c / 4 :: c mod 4 * 64 + d :: t)
  | _ => None
  end.

Fixpoint read_digits (acc : Z) (s : bytes) : Z * bytes :=
  match s with
  | c :: t => if (48 <=? c) && (c <=? 57) then read_digits (acc * 10 + (c - 48)) t else (acc, s)
  | [] => (acc, [])
  end.

Definition read_nat (s : bytes) : option (Z * bytes) :=
  match s with
  | c :: _ => if (48 <=? c) && (c <=? 57) then Some (read_digits 0 s) else None
  | [] => None
  end.

Definition read_int (s : bytes) : option (Z * bytes) :=
  match s with
  | c :: t => if c =? 45 then '(x, rest) ← read_nat t; Some (- x, rest) else read_nat s
  | [] => None
  end.

Inductive json_value := JString (s : bytes) | JInt (n : Z) | JNull.

Definition null : bytes := [110; 117; 108; 108].

Definition read_value (s : bytes) : option (json_value * bytes) :=
  match s with
  | c :: _ =>
    if c =? 34 then '(x, rest) ← unquote s; Some (JString x, rest)
    else if bool_decide (take 4 s = null) then Some (JNull, drop 4 s)
    else '(n, rest) ← read_int s; Some (JInt n, rest)
  | [] => None
  end.

(** ["key":value] and what follows. *)
Definition read_field (s : bytes) : option (bytes * json_value * bytes) :=
  '(k, s) ← unquote s;
  match s with
  | 58 :: s => '(v, s) ← read_value s; Some (k, v, s)
  | _ => None
  end.

Fixpoint read_fields (n : nat) (s : bytes) : option (list (bytes * json_value) * bytes) :=
  match n with
  | O => None
  | S n =>
    '(k, v, s) ← read_field s;
    match s with
    | 44 :: s => '(fs, s) ← read_fields n s; Some ((k, v) :: fs, s)
    | 125 :: s => Some ([(k, v)], s)
    | _ => None
    end
  end.

Definition read_object (s : bytes) : option (list (bytes * json_value) * bytes) :=
  match s with
  | 123 :: s => read_fields (length s) s
  | _ => None
  end.

(** A flat object, as the encoder writes a struct. *)
Definition write_value (v : json_value) : bytes :=
  match v with JString s => quote s | JInt n => decimal n | JNull => null end.

Definition write_field (f : bytes * json_value) : bytes :=
  quote f.1 ++ [58] ++ write_value f.2.

Fixpoint write_fields (fs : list (bytes * json_value)) : bytes :=
  match fs with
  | [] => [125]
  | [f] => write_field f ++ [125]
  | f :: fs => write_field f ++ [44] ++ write_fields fs
  end.

Definition write_object (fs : list (bytes * json_value)) : bytes := [123] ++ write_fields fs.

(** ** UTF-8 sequences *)
Lemma seq_len_spec s k :
  seq_len s = S k →
  (2 ≤ S k ≤ length s)%nat ∧ (∀ tl, seq_len (take (S k) s ++ tl) = S k) ∧
  ∃ b t, s = b :: t ∧ 0xC2 <= b.
Proof.
  intros Hk. destruct s as [|b0 [|b1 t]]; [done..|]. unfold seq_len in Hk.
  destruct ((0xC2 <=? b0) && (b0 <=? 0xDF)) eqn:H2.
  { destruct (cont b1) eqn:Hc; [|done]. injection Hk as <-. simpl. rewrite H2, Hc.
    split_and!; [lia|simpl; lia|done|]. exists b0, (b1 :: t). split; [done|lia]. }
  destruct t as [|b2 t]; [done|].
  destruct ((0xE0 <=? b0) && (b0 <=? 0xEF)) eqn:H3.
  { destruct (cont b1 && cont b2 && _ && _) eqn:Hc; [|done]. injection Hk as <-.
    simpl. rewrite H2, H3, Hc. split_and!; [lia|simpl; lia|done|].
    exists b0, (b1 :: b2 :: t). split; [done|lia]. }
  destruct t as [|b3 t]; [done|].
  destruct ((0xF0 <=? b0) && (b0 <=? 0xF4) && cont b1 && cont b2 && cont b3 && _ && _) eqn:H4;
    [|done].
  injection Hk as <-. simpl. rewrite H2, H3, H4. split_and!; [lia|simpl; lia|done|].
  exists b0, (b1 :: b2 :: b3 :: t). split; [done|lia].
Qed.

Lemma clean_ascii s : Forall (λ b, b < 0x80) s → clean s = s.
Proof.
  unfold clean. induction 1 as [|b s Hb Hs IH]; [done|]. simpl.
  rewrite (proj2 (Z.ltb_lt _ _)) by done. by rewrite IH.
Qed.

(** ** Strings *)
Lemma hex_value_digit n : 0 <= n < 16 → hex_value (hex_digit n) = Some n.
Proof.
  intros Hn. unfold hex_value, hex_digit. destruct (Z.ltb_spec n 10).
  - rewrite !(proj2 (Z.leb_le _ _)) by lia. simpl. f_equal. lia.
  - rewrite (proj2 (Z.leb_gt (87 + n) 57)), andb_false_r by lia.
    rewrite !(proj2 (Z.leb_le _ _)) by lia. simpl. f_equal. lia.
Qed.

Lemma unquote_u_escape r m tl :
  0 <= r < 65536 → is_surrogate r = false →
  unquote_n (S m) (u_escape r ++ tl) =
    '(x, rest) ← unquote_n m tl; Some (encode_rune r ++ x, rest).
Proof.
  intros Hr Hs. unfold u_escape. cbn [app unquote_n].
  change (92 =? 34) with false. change (92 =? 92) with true. cbn iota.
  unfold hex4. rewrite !hex_value_digit by (apply Z.mod_pos_bound; lia). cbn [mbind option_bind].
  replace (((r / 4096 mod 16 * 16 + r / 256 mod 16) * 16 + r / 16 mod 16) * 16 + r mod 16) with r.
  2: { Z.to_euclidean_division_equations. lia. }
  rewrite Hs. done.
Qed.

Lemma unquote_esc b m tl :
  0 <= b < 0x80 →
  unquote_n (S m) (esc b ++ tl) = '(x, rest) ← unquote_n m tl; Some (b :: x, rest).
Proof.
  intros Hb. unfold esc.
  repeat match goal with
  | |- context [if b =? ?c then _ else _] => destruct (Z.eqb_spec b c) as [->|]; [reflexivity|]
  end.
  destruct ((b <? 32) || (b =? 60) || (b =? 62) || (b =? 38)) eqn:Hu.
  - rewrite unquote_u_escape; [|lia|].
    + unfold encode_rune. by rewrite (proj2 (Z.ltb_lt b 0x80)) by lia.
    + unfold is_surrogate. by rewrite (proj2 (Z.leb_gt _ _)) by lia.
  - cbn [app unquote_n]. rewrite (proj2 (Z.eqb_neq b 34)), (proj2 (Z.eqb_neq b 92)) by done.
    rewrite (proj2 (Z.ltb_ge b 32)), (proj2 (Z.ltb_lt b 0x80)) by lia. done.
Qed.

Lemma line_separator_spec s r :
  line_separator s = Some r →
  seq_len s = 3%nat ∧ take 3 s = encode_rune r ∧ 0 <= r < 65536 ∧ is_surrogate r = false.
Proof.
  unfold line_separator. intros H. repeat (case_match; try done); by simplify_eq.
Qed.

(** Reading a string that was written gives it back, with U+FFFD for the
    bytes that are not UTF-8. *)
Lemma unquote_quote_n n s m rest :
  all_bytes s → (length (quote_n n s) < m)%nat →
  unquote_n m (quote_n n s ++ 34 :: rest) = Some (clean_n n s, rest).
Proof.
  revert s m. induction n as [|n IH]; intros s m Hs Hm;
    [destruct m; [simpl in Hm; lia|done]|].
  destruct s as [|b t]; [destruct m; [simpl in Hm; lia|done]|].
  apply Forall_cons in Hs as [Hb Ht]. cbn [quote_n clean_n] in *.
  destruct m as [|m]; [lia|].
  destruct (Z.ltb_spec b 0x80) as [Hlt|Hge].
  - rewrite <-app_assoc, unquote_esc by lia. rewrite IH; [done|done|].
    rewrite length_app in Hm. assert (1 ≤ length (esc b))%nat; [|lia].
    unfold esc, u_escape. repeat case_match; simpl; lia.
  - destruct (seq_len (b :: t)) as [|k] eqn:Hk.
    + rewrite <-app_assoc, unquote_u_escape by done. rewrite IH; [done|done|].
      rewrite length_app in Hm. simpl in Hm. lia.
    + destruct (seq_len_spec _ _ Hk) as (Hlen & Htk & _).
      assert (all_bytes (drop (S k) (b :: t))) as Hdrop by (apply Forall_drop; by constructor).
      destruct (line_separator (b :: t)) as [r|] eqn:Hr.
      * destruct (line_separator_spec _ _ Hr) as (H3 & Htake & Hrng & Hsur).
        assert (S k = 3)%nat as Hk3 by congruence. rewrite Hk3 in *.
        rewrite <-app_assoc, unquote_u_escape by done. rewrite IH; [by rewrite Htake|done|].
        rewrite length_app in Hm. simpl in Hm. simpl. lia.
      * rewrite <-app_assoc. specialize (Htk (quote_n n (drop (S k) (b :: t)) ++ 34 :: rest)).
        cbn [take app] in Htk |- *. cbn [unquote_n].
        rewrite (proj2 (Z.eqb_neq b 34)), (proj2 (Z.eqb_neq b 92)) by lia.
        rewrite (proj2 (Z.ltb_ge b 32)), (proj2 (Z.ltb_ge b 0x80)) by lia. rewrite Htk.
        cbn [take drop]. simpl in Hlen.
        rewrite (drop_app_length' _ _ k), (take_app_length' _ _ k)
          by (rewrite length_take; lia).
        rewrite IH; [done|done|]. rewrite length_app, length_take in Hm. simpl in Hm. simpl. lia.
Qed.

Lemma unquote_quote s rest :
  all_bytes s → unquote (quote s ++ rest) = Some (clean s, rest).
Proof.
  intros Hs. unfold unquote, quote. cbn [app]. rewrite <-app_assoc. cbn [app].
  apply unquote_quote_n; [done|]. rewrite length_app. simpl. lia.
Qed.

(** ** base64 *)
Lemma b64_value_char n : 0 <= n < 64 → b64_value (b64_char n) = Some n.
Proof.
  intros Hn. unfold b64_char, b64_value.
  destruct (Z.ltb_spec n 26); [|destruct (Z.ltb_spec n 52); [|destruct (Z.ltb_spec n 62);
    [|destruct (Z.eqb_spec n 62) as [->|]; [done|by replace n with 63 by lia]]]];
    repeat match goal with
    | |- context [?a <=? ?b] => destruct (Z.leb_spec a b); try lia
    end; simpl; f_equal; lia.
Qed.

Lemma b64_char_range n : 0 <= n < 64 → 43 <= b64_char n <= 122 ∧ b64_char n ≠ 61.
Proof. intros Hn. unfold b64_char. repeat case_match; lia. Qed.

Lemma b64_ind (P : bytes → Prop) :
  P [] → (∀ a, P [a]) → (∀ a b, P [a; b]) → (∀ a b c t, P t → P (a :: b :: c :: t)) → ∀ s, P s.
Proof.
  intros H0 H1 H2 H3. fix IH 1. intros [|a [|b [|c t]]];
    [exact H0|exact (H1 a)|exact (H2 a b)|exact (H3 a b c t (IH t))].
Qed.

Lemma b64_round_trip s : all_bytes s → b64_decode (b64_encode s) = Some s.
Proof.
  induction s as [|a|a b|a b c t IH] using b64_ind; intros Hs; unfold all_bytes in Hs;
    rewrite ?Forall_cons in Hs; destruct_and?; [done|..];
    cbn [b64_encode b64_decode app];
    repeat rewrite b64_value_char by (Z.to_euclidean_division_equations; lia);
    cbn [mbind option_bind];
    repeat match goal with
    | |- context [b64_char ?x =? 61] =>
      rewrite (proj2 (Z.eqb_neq (b64_char x) 61))
        by (apply b64_char_range; Z.to_euclidean_division_equations; lia)
    | |- context [61 =? 61] => change (61 =? 61) with true
    end; cbn iota.
  - f_equal. f_equal. Z.to_euclidean_division_equations. lia.
  - repeat rewrite b64_value_char by (Z.to_euclidean_division_equations; lia).
    cbn [mbind option_bind]. repeat f_equal; Z.to_euclidean_division_equations; lia.
  - repeat rewrite b64_value_char by (Z.to_euclidean_division_equations; lia).
    cbn [mbind option_bind]. rewrite IH by done. cbn [mbind option_bind].
    repeat f_equal; Z.to_euclidean_division_equations; lia.
Qed.

Lemma b64_ascii s : all_bytes s → Forall (λ b, 0 <= b < 0x80) (b64_encode s).
Proof.
  assert (∀ n, 0 <= n < 64 → 0 <= b64_char n < 0x80) as Hc
    by (intros n Hn; pose proof (b64_char_range n Hn); lia).
  induction s as [|a|a b|a b c t IH] using b64_ind; intros Hs; unfold all_bytes in Hs;
    rewrite ?Forall_cons in Hs; destruct_and?; cbn [b64_encode app];
    repeat (constructor; [first [apply Hc; Z.to_euclidean_division_equations; lia|lia]|]);
    auto.
Qed.

(** ** Integers *)
Definition is_digit (c : Z) : Prop := 48 <= c <= 57.

Lemma decimal_n_digits n x : 0 <= x → Forall is_digit (decimal_n n x).
Proof.
  revert x. induction n as [|n IH]; intros x Hx; [constructor|]. cbn [decimal_n].
  destruct (Z.ltb_spec x 10); [repeat constructor; unfold is_digit; lia|].
  apply Forall_app. split; [apply IH; Z.to_euclidean_division_equations; lia|].
  repeat constructor; unfold is_digit; Z.to_euclidean_division_equations; lia.
Qed.

Lemma read_digits_decimal n x acc tl :
  0 <= x < 10 ^ Z.of_nat n → (0 < n)%nat →
  read_digits acc (decimal_n n x ++ tl) =
    read_digits (acc * 10 ^ Z.of_nat (length (decimal_n n x)) + x) tl.
Proof.
  assert (∀ c acc t, is_digit c → read_digits acc (c :: t) = read_digits (acc * 10 + (c - 48)) t)
    as Hstep.
  { intros c a t Hc. unfold is_digit in Hc. cbn [read_digits].
    by rewrite !(proj2 (Z.leb_le _ _)) by lia. }
  revert x acc tl. induction n as [|n IH]; intros x acc tl Hx Hn; [lia|]. cbn [decimal_n].
  rewrite Nat2Z.inj_succ, Z.pow_succ_r in Hx by lia.
  destruct (Z.ltb_spec x 10).
  - cbn [app length]. rewrite Hstep by (unfold is_digit; lia). f_equal. lia.
  - destruct n as [|n]; [simpl in Hx; lia|].
    rewrite <-app_assoc. cbn [app]. rewrite IH by (Z.to_euclidean_division_equations; lia).
    rewrite Hstep by (unfold is_digit; Z.to_euclidean_division_equations; lia).
    rewrite length_app. cbn [length]. rewrite Nat.add_1_r, Nat2Z.inj_succ, Z.pow_succ_r by lia.
    f_equal. pose proof (Z.div_mod x 10 ltac:(done)). lia.
Qed.

Definition stops (tl : bytes) : Prop := match tl with c :: _ => ¬ is_digit c | [] => True end.

Lemma read_nat_decimal x tl :
  0 <= x < 10 ^ 20 → stops tl → read_nat (decimal_n 20 x ++ tl) = Some (x, tl).
Proof.
  intros Hx Htl. assert (read_digits 0 (decimal_n 20 x ++ tl) = (x, tl)) as Hr.
  { rewrite read_digits_decimal by (done || lia). rewrite Z.mul_0_l, Z.add_0_l.
    destruct tl as [|c t]; [done|]. cbn [read_digits].
    destruct ((48 <=? c) && (c <=? 57)) eqn:Hc; [|done]. exfalso. apply Htl.
    unfold is_digit. lia. }
  pose proof (decimal_n_digits 20 x ltac:(lia)) as Hd. unfold read_nat.
  destruct (decimal_n 20 x ++ tl) as [|c t] eqn:Hs.
  { apply app_eq_nil in Hs as [Hs _]. cbn [decimal_n] in Hs.
    destruct (x <? 10); [done|]. by apply app_eq_nil in Hs as [_ ?]. }
  assert (is_digit c) as Hc.
  { destruct (decimal_n 20 x) as [|c' t'] eqn:Hd'.
    - cbn [decimal_n] in Hd'. destruct (x <? 10); [done|]. by apply app_eq_nil in Hd' as [_ ?].
    - simpl in Hs. injection Hs as <- _. by inversion_clear Hd. }
  unfold is_digit in Hc. rewrite !(proj2 (Z.leb_le _ _)) by lia. cbn [andb]. by rewrite Hr.
Qed.

Lemma decimal_head x : 0 <= x → ∃ c t, decimal_n 20 x = c :: t ∧ is_digit c.
Proof.
  intros Hx. pose proof (decimal_n_digits 20 x Hx) as Hd.
  destruct (decimal_n 20 x) as [|c t] eqn:Hs.
  - cbn [decimal_n] in Hs. destruct (x <? 10); [done|]. by apply app_eq_nil in Hs as [_ ?].
  - exists c, t. split; [done|]. by inversion_clear Hd.
Qed.

Lemma read_int_decimal x tl :
  - 10 ^ 20 < x < 10 ^ 20 → stops tl → read_int (decimal x ++ tl) = Some (x, tl).
Proof.
  intros Hx Htl. unfold decimal. destruct (Z.ltb_spec x 0).
  - cbn [app read_int]. change (45 =? 45) with true. cbn iota.
    rewrite read_nat_decimal by (done || lia). cbn [mbind option_bind]. by rewrite Z.opp_involutive.
  - destruct (decimal_head x) as (c & t & Hs & Hc); [lia|].
    pose proof (read_nat_decimal x tl ltac:(lia) Htl) as Hr. rewrite Hs in *. cbn [app] in *.
    unfold read_int. unfold is_digit in Hc. by rewrite (proj2 (Z.eqb_neq c 45)) by lia.
Qed.

(** ** Objects *)
Definition writable (v : json_value) : Prop :=
  match v with
  | JString s => all_bytes s
  | JInt n => - 10 ^ 20 < n < 10 ^ 20
  | JNull => True
  end.

(** What a reader finds for a value. *)
Definition clean_value (v : json_value) : json_value :=
  match v with JString s => JString (clean s) | v => v end.

Lemma read_write_value v tl :
  writable v → stops tl → read_value (write_value v ++ tl) = Some (clean_value v, tl).
Proof.
  intros Hv Htl. destruct v as [s|n|]; simpl in Hv; [| |done].
  - unfold read_value, write_value. pose proof (unquote_quote s tl Hv) as Hu.
    destruct (quote s ++ tl) as [|c t] eqn:Hq; [done|]. injection Hq as <- _.
    change (34 =? 34) with true. cbn iota. by rewrite Hu.
  - unfold write_value. pose proof (read_int_decimal n tl Hv Htl) as Hr. unfold read_value.
    assert (∃ c t, decimal n ++ tl = c :: t ∧ c ≠ 34 ∧ c ≠ 110) as (c & t & Hs & Hc & Hc').
    { unfold decimal. destruct (Z.ltb_spec n 0); [by eexists _, _|].
      destruct (decimal_head n) as (c & t & -> & Hc); [lia|]. exists c, (t ++ tl).
      split; [done|]. unfold is_digit in Hc. lia. }
    rewrite Hs in *. rewrite (proj2 (Z.eqb_neq c 34)) by done.
    rewrite bool_decide_eq_false_2; [by rewrite Hr|]. intros Hn. by injection Hn.
Qed.

Lemma read_write_field k v tl :
  all_bytes k → writable v → stops tl →
  read_field (write_field (k, v) ++ tl) = Some (clean k, clean_value v, tl).
Proof.
  intros Hk Hv Htl. unfold read_field, write_field. cbn [fst snd].
  rewrite <-!app_assoc, unquote_quote by done. cbn [mbind option_bind app].
  by rewrite read_write_value.
Qed.

Lemma length_write_fields fs : fs ≠ [] → (length fs < length (write_fields fs))%nat.
Proof.
  induction fs as [|f fs IH]; [done|]. intros _.
  assert (2 ≤ length (write_field f))%nat as Hf
    by (unfold write_field, quote; rewrite !length_app; simpl; lia).
  destruct fs as [|f' fs].
  - cbn [write_fields]. rewrite length_app. simpl. lia.
  - change (write_fields (f :: f' :: fs)) with (write_field f ++ [44] ++ write_fields (f' :: fs)).
    rewrite !length_app. specialize (IH ltac:(done)). simpl in IH |- *. lia.
Qed.

(** Reading an object that was written gives back its fields. *)
Lemma read_write_object fs tl :
  fs ≠ [] → Forall (λ f, all_bytes f.1 ∧ writable f.2) fs →
  read_object (write_object fs ++ tl) = Some ((λ f, (clean f.1, clean_value f.2)) <$> fs, tl).
Proof.
  intros Hne Hfs. unfold read_object, write_object. cbn [app].
  assert (∀ n, (length fs ≤ n)%nat →
    read_fields n (write_fields fs ++ tl) = Some ((λ f, (clean f.1, clean_value f.2)) <$> fs, tl))
    as Hread.
  2: { apply Hread. rewrite length_app. pose proof (length_write_fields fs Hne). lia. }
  induction Hfs as [|[k v] fs [Hk Hv] Hfs IH]; [done|]. simpl in Hk, Hv.
  intros [|n] Hn; [simpl in Hn; lia|]. cbn [read_fields].
  destruct fs as [|f' fs].
  - cbn [write_fields]. rewrite <-app_assoc, read_write_field by (done || (intros [??]; lia)).
    done.
  - change (write_fields ((k, v) :: f' :: fs))
      with (write_field (k, v) ++ [44] ++ write_fields (f' :: fs)).
    rewrite <-!app_assoc, read_write_field by (done || (intros [??]; lia)).
    cbn [mbind option_bind app]. rewrite IH by (done || (simpl in Hn |- *; lia)). done.
Qed.

(** ** What is written is bytes *)
Lemma u_escape_bytes r : all_bytes (u_escape r).
Proof.
  assert (∀ n, 0 <= n < 16 → 0 <= hex_digit n < 256) as Hh
    by (intros n Hn; unfold hex_digit; case_match; lia).
  unfold all_bytes, u_escape.
  repeat constructor; try lia; apply Hh, Z.mod_pos_bound; lia.
Qed.

Lemma esc_bytes b : 0 <= b < 256 → all_bytes (esc b).
Proof.
  intros Hb. unfold esc. repeat (case_match; [by repeat constructor|]).
  case_match; [apply u_escape_bytes|constructor; [lia|constructor]].
Qed.

Lemma quote_n_bytes n s : all_bytes s → all_bytes (quote_n n s).
Proof.
  revert s. induction n as [|n IH]; intros s Hs; [constructor|].
  destruct s as [|b t]; [constructor|]. apply Forall_cons in Hs as [Hb Ht]. cbn [quote_n].
  destruct (b <? 128); [apply Forall_app_2; [by apply esc_bytes|by apply IH]|].
  destruct (seq_len (b :: t)) as [|k]; apply Forall_app; split.
  - apply u_escape_bytes.
  - by apply IH.
  - destruct (line_separator _); [apply u_escape_bytes|]. apply Forall_take. by constructor.
  - apply IH, Forall_drop. by constructor.
Qed.

Lemma quote_bytes s : all_bytes s → all_bytes (quote s).
Proof.
  intros Hs. unfold quote. repeat apply Forall_app_2; [by repeat constructor| |by repeat constructor].
  by apply quote_n_bytes.
Qed.

Lemma decimal_bytes x : all_bytes (decimal x).
Proof.
  assert (∀ y, 0 <= y → all_bytes (decimal_n 20 y)) as Hd.
  { intros y Hy. eapply Forall_impl; [by apply decimal_n_digits|].
    unfold is_digit. intros c Hc. simpl in Hc. lia. }
  unfold decimal. destruct (Z.ltb_spec x 0); [constructor; [lia|]|]; apply Hd; lia.
Qed.

Lemma write_value_bytes v : writable v → all_bytes (write_value v).
Proof.
  destruct v; simpl; intros Hv;
    [by apply quote_bytes|apply decimal_bytes|by repeat constructor].
Qed.

Lemma write_object_bytes fs :
  Forall (λ f, all_bytes f.1 ∧ writable f.2) fs → all_bytes (write_object fs).
Proof.
  intros Hfs. unfold write_object. apply Forall_app_2; [by repeat constructor|].
  assert (∀ f : bytes * json_value, all_bytes f.1 ∧ writable f.2 → all_bytes (write_field f)) as Hf.
  { intros f [Hk Hv]. unfold write_field. apply Forall_app_2; [by apply quote_bytes|].
    apply Forall_app_2; [by repeat constructor|by apply write_value_bytes]. }
  induction Hfs as [|f fs Hh Hfs IH]; [by repeat constructor|].
  destruct fs as [|f' fs]; cbn [write_fields].
  - apply Forall_app_2; [by apply Hf|by repeat constructor].
  - apply Forall_app_2; [by apply Hf|]. apply Forall_app_2; [by repeat constructor|]. apply IH.
Qed.
