(* ===== verification/KafkaProducer.v ===== *)
(** [internal/gateway/kafka_producer.go] and [pkg/kafka/producer.go]: the
    message that goes to the business topic, its identifier and its JSON text,
    the connection check, and the outcome of a send.
    The writer of segmentio/kafka-go is a parameter with its documented
    treatment of [Async]. *)

From Stdlib Require Import ZArith Lia.
From stdpp Require Import base tactics gmap strings numbers list.
From S2P Require Import Prelude GoInt Protocol Frame Chan Connection Gateway GatewayHandler Config GoTime GoJson.

Local Open Scope Z_scope.

(** ** The text of a message *)
Definition zs (l : list byte) : bytes := byte_to_Z <$> l.
Definition of_zs (l : bytes) : list byte := Z_to_byte <$> l.
Definition zstr (s : string) : bytes := zs (String.list_byte_of_string s).
Definition of_zstr (l : bytes) : string := String.string_of_list_byte (of_zs l).

(** A nil slice is [null]; the decoder of frames leaves a payload of no bytes
    nil. *)
Definition payload_value (payload : list byte) : json_value :=
  match payload with [] => JNull | _ => JString (b64_encode (zs payload)) end.

Definition biz_fields (msg : BizMessage) : list (bytes * json_value) :=
  [(zstr "msg_id", JString (zstr (biz_MsgID msg)));
   (zstr "user_id", JString (zstr (biz_UserID msg)));
   (zstr "room_id", JString (zstr (biz_RoomID msg)));
   (zstr "type", JString (zstr (biz_Type msg)));
   (zstr "data", payload_value (biz_Payload msg));
   (zstr "seq", JInt (biz_Seq msg));
   (zstr "timestamp", JInt (biz_Time msg))].

(** [json.Marshal(msg)] *)
Definition Marshal (msg : BizMessage) : list byte := of_zs (write_object (biz_fields msg)).

(** What a consumer of the topic reads: the fields by name. *)
Definition field_of (k : string) (fs : list (bytes * json_value)) : option json_value :=
  '(_, f) ← list_find (λ f, f.1 = zstr k) fs; Some f.2.

Definition str_of (k : string) (fs : list (bytes * json_value)) : option string :=
  v ← field_of k fs; match v with JString s => Some (of_zstr s) | _ => None end.

Definition int_of (k : string) (fs : list (bytes * json_value)) : option Z :=
  v ← field_of k fs; match v with JInt n => Some n | _ => None end.

Definition data_of (k : string) (fs : list (bytes * json_value)) : option (list byte) :=
  v ← field_of k fs;
  match v with
  | JNull => Some []
  | JString s => of_zs <$> b64_decode s
  | JInt _ => None
  end.

Definition Unmarshal (data : list byte) : option BizMessage :=
  '(fs, rest) ← read_object (zs data);
  if decide (rest = []) then
    id ← str_of "msg_id" fs; user ← str_of "user_id" fs; room ← str_of "room_id" fs;
    type ← str_of "type" fs; payload ← data_of "data" fs; seq ← int_of "seq" fs;
    time ← int_of "timestamp" fs;
    Some (mkBizMessage id user room type payload seq time)
  else None.

(** ** Identifiers *)

(** [t.Format("20060102150405.000000")] of an instant of the local clock, in
    nanoseconds from 1970: date, time of day and the microsecond of the
    second, truncated. *)
Definition day_ns : Z := 86400 * 10 ^ 9.

Definition Format (local : Z) : string :=
  let d := civil_from_days (local / day_ns) in
  let us := local mod day_ns / 1000 in
  let s := us / 10 ^ 6 in
  (pad 4 (d_year d) +:+ (pad 2 (d_month d) +:+ (pad 2 (d_day d) +:+
   (pad 2 (s / 3600) +:+ (pad 2 (s / 60 mod 60) +:+ (pad 2 (s mod 60) +:+
   ("." +:+ pad 6 (us mod 10 ^ 6))))))))%string.

(** [generateMsgID()]: [now] is [time.Now()] in nanoseconds from 1970, [zone]
    the offset of the local zone at that moment, in seconds. *)
Definition generateMsgID (now zone : Z) : string := Format (now + zone * 10 ^ 9).

(** ** segmentio/kafka-go *)
Inductive Balancer := LeastBytes | Hash.

(** The fields of [kafka.Writer] the code sets; 0 stands for the default. *)
Record Writer := mkWriter {
  w_Addr : list string; w_Topic : string; w_Balancer : Balancer;
  w_BatchSize : Z; w_BatchTimeout : Z; w_Async : bool }.

Record Message := mkMessage { m_Key : list byte; m_Value : list byte }.

(** [WriteMessages] puts messages into batches, or refuses them at once
    ([wr_accept]: a closed writer, a message that is too large, no metadata of
    the topic, the context); [wr_deliver] is what becomes of the batches.  The
    package documents that an asynchronous writer ignores the latter. *)
Class KafkaWriter (W : Type) := {
  wr_accept : Writer → W → list Message → option string;
  wr_deliver : Writer → W → list Message → option string;
  WriteMessages : Writer → W → list Message → option string;
  WriteMessages_async : ∀ w k ms,
    w_Async w = true → WriteMessages w k ms = wr_accept w k ms;
  WriteMessages_sync : ∀ w k ms,
    w_Async w = false →
    WriteMessages w k ms =
      match wr_accept w k ms with Some e => Some e | None => wr_deliver w k ms end;
  wr_Close : Writer → W → option string }.

(** ** The producer of the gateway *)
Module GatewayProducer.
Record KafkaProducer := mkKafkaProducer { p_writer : Writer; p_connected : bool }.

(** nil when Kafka is not configured. *)
Definition NewKafkaProducer (cfg : Config.KafkaConfig) : option KafkaProducer :=
  if decide (Config.kc_Brokers cfg = []) then None
  else if decide (Config.kc_BizTopic cfg = "") then None
  else Some (mkKafkaProducer
    (mkWriter (Config.kc_Brokers cfg) (Config.kc_BizTopic cfg) LeastBytes
       (Config.kc_BatchSize cfg) (Config.kc_BatchTimeout cfg) true)
    false).

Section kafka.
Context `{KafkaWriter W}.

(** The message of the connection check, which goes to the business topic. *)
Definition health_check : Message :=
  mkMessage (String.list_byte_of_string "health-check") (String.list_byte_of_string "ping").

(** The producer as the request handlers see it. *)
Definition handler_view (k : W) (p : KafkaProducer) : GatewayHandler.KafkaProducer :=
  GatewayHandler.mkKafkaProducer (p_connected p) (λ msg, Some (Marshal msg))
    (λ key value, WriteMessages (p_writer p) k [mkMessage key value]).

(** One round of [checkConnection]; the brokers are [k]. *)
Definition check_round (p : KafkaProducer) (k : W) : KafkaProducer :=
  match WriteMessages (p_writer p) k [health_check] with
  | Some _ => mkKafkaProducer (p_writer p) false
  | None => mkKafkaProducer (p_writer p) true
  end.

(** [checkConnection]: it never returns; [ks] are the brokers at its rounds. *)
Definition checkConnection (p : KafkaProducer) (ks : list W) : KafkaProducer :=
  foldl check_round p ks.

(** [Send]: the clock is read once for the time stamp and once for the
    identifier. *)
Definition Send (p : KafkaProducer) (k : W) (now1 now2 zone : Z) (msg : BizMessage) :
    option string :=
  let msg := mkBizMessage (generateMsgID now2 zone) (biz_UserID msg) (biz_RoomID msg)
               (biz_Type msg) (biz_Payload msg) (biz_Seq msg) (now1 / 10 ^ 6) in
  WriteMessages (p_writer p) k
    [mkMessage (String.list_byte_of_string (biz_UserID msg)) (Marshal msg)].

Definition IsConnected (p : KafkaProducer) : bool := p_connected p.

Definition Close (p : KafkaProducer) (k : W) : option string := wr_Close (p_writer p) k.
End kafka.
End GatewayProducer.

(** ** The producer of pkg/kafka *)
Module PkgProducer.
Record ProducerConfig := mkProducerConfig { pr_Brokers : list string; pr_Topic : string }.
Record Producer := mkProducer { pr_cfg : ProducerConfig; pr_writer : Writer }.

Definition NewProducer (cfg : ProducerConfig) : Producer :=
  mkProducer cfg (mkWriter (pr_Brokers cfg) (pr_Topic cfg) Hash 0 0 false).

Section kafka.
Context `{KafkaWriter W}.

Definition Send (p : Producer) (k : W) (key value : list byte) : option string :=
  WriteMessages (pr_writer p) k [mkMessage key value].

Definition SendBatch (p : Producer) (k : W) (messages : list Message) : option string :=
  WriteMessages (pr_writer p) k messages.

Definition Close (p : Producer) (k : W) : option string := wr_Close (pr_writer p) k.
End kafka.
End PkgProducer.

(** ** Bytes and text *)
Lemma zs_bytes l : all_bytes (zs l).
Proof. unfold zs. induction l; constructor; [apply byte_to_Z_range|done]. Qed.

Lemma of_zs_zs l : of_zs (zs l) = l.
Proof.
  unfold of_zs, zs. rewrite <-list_fmap_compose. rewrite <-(list_fmap_id l) at 2.
  apply list_fmap_ext. intros i b _. apply Z_to_byte_of_Z.
Qed.

Lemma zs_of_zs l : all_bytes l → zs (of_zs l) = l.
Proof.
  induction 1 as [|z l Hz _ IH]; [done|]. cbn. rewrite Z_to_byte_to_Z, Z.mod_small by done.
  f_equal. apply IH.
Qed.

Lemma of_zstr_zstr s : of_zstr (zstr s) = s.
Proof. unfold of_zstr, zstr. rewrite of_zs_zs. apply String.string_of_list_byte_of_string. Qed.

(** A string as a reader of the JSON text sees it. *)
Definition clean_string (s : string) : string := of_zstr (clean (zstr s)).

Definition clean_message (msg : BizMessage) : BizMessage :=
  mkBizMessage (clean_string (biz_MsgID msg)) (clean_string (biz_UserID msg))
    (clean_string (biz_RoomID msg)) (clean_string (biz_Type msg))
    (biz_Payload msg) (biz_Seq msg) (biz_Time msg).

Lemma data_value_round_trip payload :
  match clean_value (payload_value payload) with
  | JNull => Some []
  | JString s => of_zs <$> b64_decode s
  | JInt _ => None
  end = Some payload.
Proof.
  destruct payload as [|b payload]; [done|]. cbn [payload_value clean_value].
  rewrite clean_ascii by
    (eapply Forall_impl; [apply b64_ascii, zs_bytes|]; intros c Hc; simpl in Hc; lia).
  rewrite b64_round_trip by apply zs_bytes. cbn [fmap option_fmap option_map].
  by rewrite of_zs_zs.
Qed.

Lemma biz_fields_writable msg :
  0 <= biz_Seq msg < 2 ^ 64 → - 2 ^ 63 <= biz_Time msg < 2 ^ 63 →
  Forall (λ f, all_bytes f.1 ∧ writable f.2) (biz_fields msg).
Proof.
  intros Hs Ht. unfold biz_fields. repeat (constructor; [split; [apply zs_bytes|]|]); try constructor;
    cbn [snd writable]; try apply zs_bytes; try lia.
  destruct (biz_Payload msg) as [|b l]; [done|]. cbn [payload_value writable].
  eapply Forall_impl; [apply b64_ascii, zs_bytes|]. intros c Hc. simpl in Hc. lia.
Qed.

Lemma field_of_here k v fs : field_of k ((zstr k, v) :: fs) = Some v.
Proof. unfold field_of. cbn [list_find fst]. by rewrite decide_True. Qed.

Lemma field_of_further k k' v fs : k ≠ k' → field_of k ((zstr k', v) :: fs) = field_of k fs.
Proof.
  intros Hk. unfold field_of. cbn [list_find fst]. rewrite decide_False.
  - by destruct (list_find _ fs) as [[i f]|].
  - intros Heq. apply Hk. by rewrite <-(of_zstr_zstr k), <-(of_zstr_zstr k'), Heq.
Qed.

(** The text of a message says what the message says, except that bytes that
    are not UTF-8 have become U+FFFD. *)
Lemma Unmarshal_Marshal msg :
  0 <= biz_Seq msg < 2 ^ 64 → - 2 ^ 63 <= biz_Time msg < 2 ^ 63 →
  Unmarshal (Marshal msg) = Some (clean_message msg).
Proof.
  intros Hs Ht. pose proof (biz_fields_writable msg Hs Ht) as Hw. unfold Unmarshal, Marshal.
  rewrite zs_of_zs by by apply write_object_bytes.
  rewrite <-(app_nil_r (write_object _)), read_write_object by done.
  cbn [mbind option_bind]. rewrite decide_True by done.
  unfold biz_fields. cbn [fmap list_fmap fst snd].
  assert (∀ k, k ∈ ["msg_id"; "user_id"; "room_id"; "type"; "data"; "seq"; "timestamp"]%string →
    clean (zstr k) = zstr k) as Hk.
  { intros k Hk. repeat (apply elem_of_cons in Hk as [->|Hk]; [by vm_compute|]).
    by apply elem_of_nil in Hk. }
  rewrite !Hk by set_solver. unfold str_of, data_of, int_of.
  repeat first [rewrite field_of_here | rewrite field_of_further by done].
  cbn [mbind option_bind clean_value]. by rewrite data_value_round_trip.
Qed.

(** ** Identifiers *)

(** Only the microsecond of the local clock is printed. *)
Definition day_us : Z := 86400 * 10 ^ 6.

Lemma day_of_us local : local / day_ns = local / 1000 / day_us.
Proof. rewrite Z.div_div by done. done. Qed.

Lemma time_of_us local : local mod day_ns / 1000 = local / 1000 mod day_us.
Proof. unfold day_ns, day_us. div_lia. Qed.

Lemma year_fits local : 0 <= local < 2 ^ 63 → 0 <= d_year (civil_from_days (local / day_ns)) < 10 ^ 4.
Proof.
  intros Hl. destruct (civil_from_days_bounds (local / day_ns)) as (_ & _ & Hy).
  unfold era_days, day_ns in *. div_lia.
Qed.

Lemma div_mod_inj b x y : b ≠ 0 → x / b = y / b → x mod b = y mod b → x = y.
Proof. intros Hb Hd Hm. rewrite (Z.div_mod x b), (Z.div_mod y b) by done. by rewrite Hd, Hm. Qed.

Lemma clock_inj s1 s2 :
  s1 / 3600 = s2 / 3600 → s1 / 60 mod 60 = s2 / 60 mod 60 → s1 mod 60 = s2 mod 60 → s1 = s2.
Proof.
  intros Hh Hm Hs. apply (div_mod_inj 60); [done| |done]. apply (div_mod_inj 60); [done| |done].
  by rewrite !Z.div_div.
Qed.

Lemma Format_eq l1 l2 :
  0 <= l1 < 2 ^ 63 → 0 <= l2 < 2 ^ 63 → Format l1 = Format l2 ↔ l1 / 1000 = l2 / 1000.
Proof.
  intros H1 H2. split; [|intros Heq; unfold Format; by rewrite !day_of_us, !time_of_us, Heq].
  unfold Format. rewrite !time_of_us. intros Heq.
  pose proof (year_fits l1 H1) as Y1. pose proof (year_fits l2 H2) as Y2.
  destruct (civil_from_days_bounds (l1 / day_ns)) as (M1 & D1 & _).
  destruct (civil_from_days_bounds (l2 / day_ns)) as (M2 & D2 & _).
  pose proof (Z.mod_pos_bound (l1 / 1000) day_us eq_refl) as U1.
  pose proof (Z.mod_pos_bound (l2 / 1000) day_us eq_refl) as U2.
  set (u1 := l1 / 1000 mod day_us) in *. set (u2 := l2 / 1000 mod day_us) in *.
  change day_us with 86400000000 in U1, U2.
  generalize (civil_from_days_inj (l1 / day_ns) (l2 / day_ns)).
  generalize dependent (civil_from_days (l1 / day_ns)).
  generalize dependent (civil_from_days (l2 / day_ns)).
  intros c2 Y2 M2 D2 c1 Heq Y1 M1 D1 Hinj.
  change (10 ^ 4) with (10 ^ Z.of_nat 4) in Y1, Y2.
  apply pad_app_inj in Heq as [Hyear Heq]; [|done..].
  apply pad_app_inj in Heq as [Hmonth Heq]; [|lia..].
  apply pad_app_inj in Heq as [Hday Heq]; [|lia..].
  apply pad_app_inj in Heq as [Hhour Heq]; [|div_lia..].
  apply pad_app_inj in Heq as [Hmin Heq]; [|div_lia..].
  apply pad_app_inj in Heq as [Hsec Heq]; [|div_lia..].
  apply append_inj_length in Heq as [_ Hus]; [|done].
  apply pad_inj in Hus; [|div_lia..].
  assert (c1 = c2) as Hdate%Hinj by (destruct c1, c2; simpl in *; congruence).
  rewrite !day_of_us in Hdate.
  pose proof (clock_inj _ _ Hhour Hmin Hsec) as Hs.
  apply (div_mod_inj day_us); [done..|]. by apply (div_mod_inj (10 ^ 6)).
Qed.

(** Identifiers are plain ASCII, so their JSON text says exactly them. *)
Definition ascii_string (s : string) : Prop := Forall (λ b, b < 0x80) (zstr s).

Lemma zstr_cons c s : zstr (String c s) = byte_to_Z (Ascii.byte_of_ascii c) :: zstr s.
Proof. done. Qed.

Lemma zstr_app s1 s2 : zstr (s1 +:+ s2)%string = zstr s1 ++ zstr s2.
Proof.
  induction s1 as [|c s1 IH]; [done|].
  change (String c s1 +:+ s2)%string with (String c (s1 +:+ s2)). by rewrite !zstr_cons, IH.
Qed.

Lemma digit_ascii n : 0 <= n < 10 → byte_to_Z (Ascii.byte_of_ascii (digit n)) < 0x80.
Proof.
  intros Hn. assert (n ∈ seqZ 0 10) as Hin by (apply elem_of_seqZ; lia).
  change (seqZ 0 10) with [0; 1; 2; 3; 4; 5; 6; 7; 8; 9] in Hin.
  repeat (apply elem_of_cons in Hin as [->|Hin]; [by vm_compute|]). by apply elem_of_nil in Hin.
Qed.

Lemma pad_ascii w x : ascii_string (pad w x).
Proof.
  unfold ascii_string. induction w as [|w IH]; [constructor|]. cbn [pad]. rewrite zstr_cons.
  constructor; [|done]. apply digit_ascii, Z.mod_pos_bound. lia.
Qed.

Lemma ascii_string_app s1 s2 : ascii_string s1 → ascii_string s2 → ascii_string (s1 +:+ s2)%string.
Proof. unfold ascii_string. rewrite zstr_app. apply Forall_app_2. Qed.

Lemma Format_ascii local : ascii_string (Format local).
Proof.
  unfold Format. repeat (apply ascii_string_app; [first [apply pad_ascii|by repeat constructor]|]).
  apply pad_ascii.
Qed.

Lemma clean_string_ascii s : ascii_string s → clean_string s = s.
Proof. intros Hs. unfold clean_string. by rewrite clean_ascii, of_zstr_zstr. Qed.

(** Two identifiers are the same exactly when the local clock showed the
    same microsecond: none repeats in one zone as long as at most one message
    is made in a microsecond, and the hour that a change of the zone's offset
    repeats brings the identifiers of the hour before again. *)
Theorem generateMsgID_eq now1 zone1 now2 zone2 :
  0 <= now1 + zone1 * 10 ^ 9 < 2 ^ 63 → 0 <= now2 + zone2 * 10 ^ 9 < 2 ^ 63 →
  generateMsgID now1 zone1 = generateMsgID now2 zone2 ↔
  (now1 + zone1 * 10 ^ 9) / 1000 = (now2 + zone2 * 10 ^ 9) / 1000.
Proof. apply Format_eq. Qed.

Lemma generateMsgID_clean now zone : clean_string (generateMsgID now zone) = generateMsgID now zone.
Proof. apply clean_string_ascii, Format_ascii. Qed.

(** ** The producer of the gateway *)
Import GatewayProducer.

Section gateway.
Context `{KafkaWriter W}.

Lemma check_round_writer p k : p_writer (check_round p k) = p_writer p.
Proof. unfold check_round. by destruct (WriteMessages _ _ _). Qed.

Lemma checkConnection_writer p ks : p_writer (checkConnection p ks) = p_writer p.
Proof.
  unfold checkConnection. revert p. induction ks as [|k ks IH]; intros p; [done|].
  simpl. by rewrite IH, check_round_writer.
Qed.

Lemma check_round_connected p k :
  w_Async (p_writer p) = true →
  p_connected (check_round p k) = bool_decide (wr_accept (p_writer p) k [health_check] = None).
Proof.
  intros Ha. unfold check_round. rewrite WriteMessages_async by done.
  by destruct (wr_accept _ _ _); simpl.
Qed.

(** The flag is what the last round found. *)
Lemma checkConnection_connected p ks k :
  w_Async (p_writer p) = true →
  p_connected (checkConnection p (ks ++ [k])) =
    bool_decide (wr_accept (p_writer p) k [health_check] = None).
Proof.
  intros Ha. unfold checkConnection. rewrite foldl_app. cbn [foldl].
  pose proof (checkConnection_writer p ks) as Hw. unfold checkConnection in Hw.
  rewrite check_round_connected; by rewrite Hw.
Qed.

Lemma NewKafkaProducer_async cfg p :
  NewKafkaProducer cfg = Some p → w_Async (p_writer p) = true ∧ p_connected p = false.
Proof.
  unfold NewKafkaProducer. intros Hp. repeat (destruct (decide _); [done|]).
  by injection Hp as <-.
Qed.

Section requests.
Context `{Msgpack StatusResponse}.

(** C21. What becomes of a client's business request, whatever the brokers
    do: it is refused while no check of the connection has been accepted or
    when the last one was not; it fails when the writer refuses the message
    at once; otherwise the client hears nothing, and the message handed to
    the writer has the user as its key and a JSON text that reads back as the
    request, with the identifier and the time of the gateway's clock (ids
    that are not UTF-8 read back with the replacement character). *)
Theorem handleBizRequest_outcome cfg p ks k now1 now2 zone ref frame g c :
  NewKafkaProducer cfg = Some p → objects g !! ref = Some c →
  0 <= f_Seq frame < 2 ^ 64 → 0 <= now1 < 2 ^ 63 →
  let p := checkConnection p ks in
  let respond := λ code why, sendBizResponse ref (f_Seq frame) false code why g in
  let ready := match last ks with
               | Some k => bool_decide (wr_accept (p_writer p) k [health_check] = None)
               | None => false
               end in
  IsConnected p = ready ∧
  ∃ m, m_Key m = String.list_byte_of_string (c_UserID c) ∧
    Unmarshal (m_Value m) = Some (mkBizMessage (generateMsgID now2 zone)
      (clean_string (c_UserID c)) (clean_string (c_RoomID c)) "" (f_Payload frame)
      (f_Seq frame) (now1 / 10 ^ 6)) ∧
    handleBizRequest (Some (handler_view k p)) (now1 / 10 ^ 6) (generateMsgID now2 zone)
      ref frame g =
    if negb ready then respond ErrCodeServiceDegraded "kafka_unavailable"%string
    else match wr_accept (p_writer p) k [m] with
         | Some _ => respond ErrCodeInternalError "send_failed"%string
         | None => Done (tt, g)
         end.
Proof.
  intros Hp Hc Hs Hn p' respond ready. destruct (NewKafkaProducer_async _ _ Hp) as [Ha Hf].
  assert (p_connected p' = ready) as Hready.
  { subst p' ready. rewrite checkConnection_writer.
    destruct ks as [|k0 ks _] using rev_ind; [done|].
    rewrite last_snoc. by apply checkConnection_connected. }
  split; [done|].
  set (msg := mkBizMessage (generateMsgID now2 zone) (c_UserID c) (c_RoomID c) ""
                (f_Payload frame) (f_Seq frame) (now1 / 10 ^ 6)).
  exists (mkMessage (String.list_byte_of_string (c_UserID c)) (Marshal msg)).
  split; [done|split].
  - cbn [m_Value]. rewrite Unmarshal_Marshal by (simpl; div_lia).
    unfold clean_message. cbn [biz_MsgID biz_UserID biz_RoomID biz_Type biz_Payload biz_Seq biz_Time msg].
    by rewrite generateMsgID_clean.
  - unfold handleBizRequest. cbn [handler_view kp_connected]. rewrite Hready.
    destruct ready; [|done]. cbn [negb]. run_locks. unfold producer_Send.
    cbn [handler_view kp_json kp_write biz_UserID biz_RoomID biz_Type biz_Payload biz_Seq].
    fold msg. rewrite WriteMessages_async by (subst p'; by rewrite checkConnection_writer).
    by destruct (wr_accept _ _ _).
Qed.

(** The gateway's producer is asynchronous, so brokers that reject every
    batch are not noticed: the checks say it is connected, a send reports
    success, and the client's request is answered by nothing at all.  The
    synchronous producer of [pkg/kafka] reports the error of the same brokers. *)
Theorem rejected_requests_are_silent cfg p ks k now1 now2 zone ref frame g c :
  NewKafkaProducer cfg = Some p → ks ≠ [] → objects g !! ref = Some c →
  (∀ w k' ms, k' ∈ k :: ks → wr_accept w k' ms = None) →
  (∀ w ms, is_Some (wr_deliver w k ms)) →
  let p := checkConnection p ks in
  IsConnected p = true ∧
  (∀ msg, Send p k now1 now2 zone msg = None) ∧
  handleBizRequest (Some (handler_view k p)) (now1 / 10 ^ 6) (generateMsgID now2 zone)
    ref frame g = Done (tt, g) ∧
  ∀ cfg key value, is_Some (PkgProducer.Send (PkgProducer.NewProducer cfg) k key value).
Proof.
  intros Hp Hks Hc Hacc Hdel p'. destruct (NewKafkaProducer_async _ _ Hp) as [Ha _].
  assert (w_Async (p_writer p') = true) as Ha' by (subst p'; by rewrite checkConnection_writer).
  assert (p_connected p' = true) as Hconn.
  { subst p'. destruct ks as [|k0 ks _] using rev_ind; [done|].
    rewrite checkConnection_connected by done. rewrite Hacc; [done|set_solver]. }
  split_and!; [done| | |].
  - intros msg. unfold Send. rewrite WriteMessages_async, Hacc by (done || set_solver). done.
  - unfold handleBizRequest. cbn [handler_view kp_connected]. rewrite Hconn. cbn [negb].
    run_locks. unfold producer_Send. cbn [handler_view kp_json kp_write].
    rewrite WriteMessages_async, Hacc by (done || set_solver). done.
  - intros cfg' key value. unfold PkgProducer.Send. rewrite WriteMessages_sync by done.
    rewrite Hacc by set_solver. done.
Qed.
End requests.

(** Every check of the connection puts a message into the business topic
    that is no business message: a consumer cannot read it as one. *)
Theorem health_check_is_no_request p k :
  WriteMessages (p_writer p) k [health_check] = None →
  p_connected (check_round p k) = true ∧ Unmarshal (m_Value health_check) = None.
Proof. intros Hw. unfold check_round. by rewrite Hw. Qed.
End gateway.

(** ** Examples *)

(** Brokers that do what they are told: each of the two outcomes is a part of
    the world. *)
#[local] Instance demo_writer : KafkaWriter (option string * option string).
Proof.
  refine {| wr_accept w k ms := k.1;
            wr_deliver w k ms := k.2;
            WriteMessages w k ms :=
              if w_Async w then k.1 else match k.1 with Some e => Some e | None => k.2 end;
            wr_Close w k := None |}; by intros w k ms ->.
Defined.

Section examples.
Import ToyCodec.
#[local] Existing Instance default_order.

Definition demo_kafka : Config.KafkaConfig :=
  Config.mkKafkaConfig ["kafka:9092"] "im_push" "im_biz_request" 100 (10 ^ 7).
Definition demo_producer : KafkaProducer :=
  mkKafkaProducer (mkWriter ["kafka:9092"] "im_biz_request" LeastBytes 100 (10 ^ 7) true) false.
Definition demo_biz : Frame := mkFrame MsgTypeBizRequest 7 [Byte.x68; Byte.x69].
Definition broken : option string * option string := (None, Some "not enough replicas"%string).

Example demo_text :
  of_zstr (zs (Marshal (mkBizMessage "m" "u<1>" "r" "" [Byte.x68; Byte.x69] 7 (-1)))) =
  String.concat (String (Ascii.ascii_of_nat 34) "")
    ["{"; "msg_id"; ":"; "m"; ","; "user_id"; ":"; "u\u003c1\u003e"; ","; "room_id"; ":"; "r"; ",";
     "type"; ":"; ""; ","; "data"; ":"; "aGk="; ","; "seq"; ":7,"; "timestamp"; ":-1}"].
Proof. by vm_compute. Qed.

Lemma handleBizRequest_outcome_witness :
  let g := demo_in_room JoinStateConfirmed in
  let p := checkConnection demo_producer [broken] in
  IsConnected p = true ∧
  ∃ m, m_Key m = String.list_byte_of_string "u1" ∧
    Unmarshal (m_Value m) = Some (mkBizMessage "20240229120000.000123"
      (clean_string "u1") (clean_string "r1") "" [Byte.x68; Byte.x69] 7 1709208000000) ∧
    handleBizRequest (Some (handler_view broken p)) 1709208000000 "20240229120000.000123"
      0%nat demo_biz g = Done (tt, g).
Proof.
  pose proof (handleBizRequest_outcome demo_kafka demo_producer [broken] broken
    1709208000000123456 1709208000000123456 0 0%nat demo_biz
    (demo_in_room JoinStateConfirmed) (set_c_join JoinStateConfirmed "r1" demo_conn)) as Ho.
  apply Ho; [done|by vm_compute|split; done|split; done].
Defined.

Lemma generateMsgID_eq_witness :
  generateMsgID 1709208000000123456 0 = "20240229120000.000123"%string ∧
  generateMsgID 1709208000000123456 3600 = generateMsgID 1709211600000123999 0.
Proof.
  split; [by vm_compute|].
  by apply (generateMsgID_eq 1709208000000123456 3600 1709211600000123999 0).
Defined.

Lemma rejected_requests_are_silent_witness :
  let g := demo_in_room JoinStateConfirmed in
  let p := checkConnection demo_producer [broken] in
  IsConnected p = true ∧
  (∀ msg, Send p broken 0 0 0 msg = None) ∧
  handleBizRequest (Some (handler_view broken p)) 0 (generateMsgID 0 0) 0%nat demo_biz g =
    Done (tt, g) ∧
  ∀ cfg key value, is_Some (PkgProducer.Send (PkgProducer.NewProducer cfg) broken key value).
Proof.
  apply (rejected_requests_are_silent demo_kafka demo_producer [broken] broken 0 0 0 0%nat
    demo_biz (demo_in_room JoinStateConfirmed) (set_c_join JoinStateConfirmed "r1" demo_conn));
    [done|done|by vm_compute| |by intros; eexists].
  intros w k' ms Hk. repeat (apply elem_of_cons in Hk as [->|Hk]; [done|]).
  by apply elem_of_nil in Hk.
Defined.

Lemma health_check_is_no_request_witness :
  p_connected (check_round demo_producer broken) = true ∧ Unmarshal (m_Value health_check) = None.
Proof. by apply health_check_is_no_request. Defined.
End examples.
