(* ===== verification/Lifecycle.v ===== *)
(** Starting and stopping: [Start] and [Stop] of both servers,
    [run...Server] (websocket_server.go, health.go, grpc_server.go,
    push_api.go) and the two main programs.
    A server is the set of goroutines its WaitGroup counts and the program
    counter of [Stop]; goroutines return in any order, each under the
    condition its body waits for.  Libraries: [ListenAndServe] returns when
    listening fails or after [Shutdown] of that server, gRPC's
    [GracefulStop] waits for the open streams. *)

From Stdlib Require Import ZArith Lia.
From stdpp Require Import base tactics gmap strings numbers list relations.
From S2P Require Import Prelude GoInt Protocol Frame Chan SessionStore SessionService RoomService Recovery HashRing Roomserver Connection Gateway KafkaConsumer Login Config.

Local Open Scope Z_scope.

(** ** The gateway *)
Module GatewayLife.
(** The goroutines [Start] adds to [s.wg]. *)
Inductive Task :=
  | RunDistributor (i : nat)
  | RunKafkaConsumer
  | RunRoomserverClient
  | RunHealthServer
  | RunWebSocketServer.

#[export] Instance Task_eq_dec : EqDecision Task.
Proof. solve_decision. Defined.

(** Where [Stop] is. *)
Inductive Phase :=
  | Serving            (* main waits for a signal *)
  | StopHTTP           (* 1. stop accepting *)
  | StopConns          (* 2. close the connections *)
  | StopCancel         (* 3. cancel the context ... *)
  | StopWait           (* ... and wait for the goroutines *)
  | StopKafka          (* 4. *)
  | StopNacos          (* 5. *)
  | Stopped.

#[export] Instance Phase_eq_dec : EqDecision Phase.
Proof. solve_decision. Defined.

Record Life := mkLife {
  l_server : GatewayServer;
  l_tasks : list Task;
  l_httpServer : bool;        (* s.httpServer is assigned *)
  l_shutdown : bool;          (* its Shutdown was called *)
  l_cancelled : bool;         (* s.ctx is done *)
  l_producer : bool;          (* the Kafka producer is open *)
  l_consumer : bool;          (* the Kafka consumer is open *)
  l_nacos : bool;             (* the Nacos client is open *)
  l_phase : Phase;
}.

Definition producer_configured (cfg : Config.GatewayConfig) : bool :=
  let k := Config.g_Kafka cfg in
  negb (bool_decide (length (Config.kc_Brokers k) = 0%nat) ||
        bool_decide (Config.kc_BizTopic k = ""%string)).

(** [startKafkaConsumer] gets past its two checks. *)
Definition consumer_configured (cfg : Config.GatewayConfig) : bool :=
  let k := Config.g_Kafka cfg in
  negb (bool_decide (length (Config.kc_Brokers k) = 0%nat) ||
        bool_decide (Config.kc_PushTopic k = ""%string)) &&
  NewConsumer_ok (Config.kc_Brokers k) (Config.kc_PushTopic k)
    (Config.gi_ID (Config.g_Gateway cfg)).

(** [Start]; it cannot fail, as [NewKafkaProducer] returns no error.  The
    consumer is made in its goroutine: [l_consumer] says that it will be. *)
Definition Start (gs : GatewayServer) : Life :=
  mkLife gs
    ((RunDistributor <$> seq 0 (length (distributors (gs_gateway gs)))) ++
     [RunKafkaConsumer; RunRoomserverClient; RunHealthServer; RunWebSocketServer])
    false false false (producer_configured (gs_cfg gs)) (consumer_configured (gs_cfg gs))
    (bool_decide (is_Some (gs_nacosClient gs))) Serving.

Section run.
Context `{Msgpack LeaveRoomRequest, Msgpack DisconnectNotify} `{O : MapOrder}.
(** Whether the listeners of the health and of the WebSocket address can be
    opened and go on accepting. *)
Context (health_listens ws_listens : bool).
Implicit Types (l : Life) (t : Task).

(** A goroutine returns. *)
Definition returns l t : bool :=
  match t with
  | RunDistributor _ | RunRoomserverClient => l_cancelled l
  | RunKafkaConsumer => negb (consumer_configured (gs_cfg (l_server l))) || l_cancelled l
  | RunHealthServer => negb health_listens        (* its server is a local variable *)
  | RunWebSocketServer => l_httpServer l && (negb ws_listens || l_shutdown l)
  end.

Definition set_tasks ts l : Life :=
  mkLife (l_server l) ts (l_httpServer l) (l_shutdown l) (l_cancelled l) (l_producer l)
    (l_consumer l) (l_nacos l) (l_phase l).
Definition assign_http l : Life :=
  mkLife (l_server l) (l_tasks l) true (l_shutdown l) (l_cancelled l) (l_producer l)
    (l_consumer l) (l_nacos l) (l_phase l).
Definition set_phase p l : Life :=
  mkLife (l_server l) (l_tasks l) (l_httpServer l) (l_shutdown l) (l_cancelled l) (l_producer l)
    (l_consumer l) (l_nacos l) p.
Definition set_gateway g l : Life :=
  let gs := l_server l in
  mkLife (mkGatewayServer (gs_cfg gs) g (gs_jwtValidator gs) (gs_nacosClient gs)) (l_tasks l)
    (l_httpServer l) (l_shutdown l) (l_cancelled l) (l_producer l) (l_consumer l) (l_nacos l)
    (l_phase l).

(** The next statement of [Stop]; [None] while it blocks. *)
Definition Stop_step l : option Life :=
  match l_phase l with
  | Serving => Some (set_phase StopHTTP l)
  | StopHTTP => Some (set_phase StopConns
      (mkLife (l_server l) (l_tasks l) (l_httpServer l) (l_shutdown l || l_httpServer l)
         (l_cancelled l) (l_producer l) (l_consumer l) (l_nacos l) (l_phase l)))
  | StopConns =>
    match closeAllConnections (gs_gateway (l_server l)) with
    | Done (_, g) => Some (set_phase StopCancel (set_gateway g l))
    | _ => None
    end
  | StopCancel => Some (set_phase StopWait
      (mkLife (l_server l) (l_tasks l) (l_httpServer l) (l_shutdown l) true
         (l_producer l) (l_consumer l) (l_nacos l) (l_phase l)))
  | StopWait => if decide (l_tasks l = []) then Some (set_phase StopKafka l) else None
  | StopKafka => Some (set_phase StopNacos
      (mkLife (l_server l) (l_tasks l) (l_httpServer l) (l_shutdown l) (l_cancelled l)
         false false (l_nacos l) (l_phase l)))
  | StopNacos => Some (set_phase Stopped
      (mkLife (l_server l) (l_tasks l) (l_httpServer l) (l_shutdown l) (l_cancelled l)
         (l_producer l) (l_consumer l) false (l_phase l)))
  | Stopped => None
  end.

(** What the counted goroutines and [Stop] do themselves. *)
Inductive own_step : Life → Life → Prop :=
  | LifeReturn l ts1 t ts2 :
    l_tasks l = ts1 ++ t :: ts2 → returns l t = true →
    own_step l (set_tasks (ts1 ++ ts2) l)
  | LifeAssign l :
    RunWebSocketServer ∈ l_tasks l → l_httpServer l = false → own_step l (assign_http l)
  | LifeStop l l' : Stop_step l = Some l' → own_step l l'.

(** The handlers change the gateway in every phase: [Shutdown] does not wait
    for hijacked connections, so messages are handled and handshakes end in
    [AddConnection] while [Stop] runs, and afterwards. *)
Inductive life_step : Life → Life → Prop :=
  | LifeOwn l l' : own_step l l' → life_step l l'
  | LifeServe l g : gw_wf g → held g = [] → life_step l (set_gateway g l).

(** From the signal on: any work of the handlers, then a step of the
    server's own. *)
Inductive stop_run : Life → Life → Prop :=
  | StopRun l g l' :
    l_phase l ≠ Serving → gw_wf g → held g = [] → own_step (set_gateway g l) l' → stop_run l l'.

(** *** Lemmas *)
Definition phase_rank (p : Phase) : nat :=
  match p with
  | Serving => 7 | StopHTTP => 6 | StopConns => 5 | StopCancel => 4 | StopWait => 3
  | StopKafka => 2 | StopNacos => 1 | Stopped => 0
  end.

(** What is left to do once the signal is there. *)
Definition left l : nat :=
  phase_rank (l_phase l) + length (l_tasks l) + (if l_httpServer l then 0 else 1).

Lemma own_step_less l l' : l_phase l ≠ Serving → own_step l l' → (left l' < left l)%nat.
Proof.
  unfold left. intros Hp Hs. revert Hp.
  destruct Hs as [l0 ts1 t ts2 Hts _|l0 _ Ha|l0 l1 Hst]; intros Hp;
    cbn; [rewrite Hts, !length_app; simpl; lia|rewrite Ha; lia|].
  unfold Stop_step in Hst. destruct (l_phase l0) eqn:E; try done; repeat case_match;
    simplify_eq/=; congruence || lia.
Qed.

Lemma stop_run_less l l' : stop_run l l' → (left l' < left l)%nat.
Proof. intros [l0 g l1 Hp _ _ Hs]. by apply (own_step_less (set_gateway g l0)). Qed.

(** A goroutine that cannot return is there for ever, and [Stop] does not
    get past its wait. *)
Definition waits_at_most (p : Phase) : Prop :=
  match p with StopKafka | StopNacos | Stopped => False | _ => True end.

Lemma stuck_task t (P : Life → Prop) l l' :
  (∀ l, P l → returns l t = false) → (∀ l l', P l → life_step l l' → P l') →
  P l → rtc life_step l l' → t ∈ l_tasks l → waits_at_most (l_phase l) →
  t ∈ l_tasks l' ∧ waits_at_most (l_phase l') ∧
  l_producer l' = l_producer l ∧ l_consumer l' = l_consumer l.
Proof.
  intros Hret Hpres HP Hr. induction Hr as [l|l1 l2 l3 Hs Hr IH]; [done|]. intros Ht Hw.
  destruct IH as (? & ? & Hp & Hc); [by eapply Hpres|..].
  - destruct Hs as [? ? [l0 ts1 t' ts2 Hts Hret'|l0 Hin Ha|l0 l1' Hst]|l0 g _ _]; cbn; [|done| |done].
    + rewrite Hts in Ht. rewrite elem_of_app, elem_of_cons in Ht.
      destruct Ht as [?|[->|?]]; [set_solver| |set_solver]. specialize (Hret l0 HP). congruence.
    + unfold Stop_step in Hst. destruct (l_phase l0) eqn:E; repeat case_match; by simplify_eq/=.
  - destruct Hs as [? ? [| |l0 l1' Hst]|]; cbn; [done|done| |done].
    unfold Stop_step in Hst.
    destruct (l_phase l0) eqn:E; repeat case_match; simplify_eq/=; try done.
    all: match goal with Hnil : l_tasks _ = [] |- _ => by rewrite Hnil in Ht; set_solver end.
  - split_and!; [done..| |].
    + rewrite Hp. destruct Hs as [? ? [| |l0 l1' Hst]|]; try done.
      unfold Stop_step in Hst. destruct (l_phase l0); repeat case_match; by simplify_eq/=.
    + rewrite Hc. destruct Hs as [? ? [| |l0 l1' Hst]|]; try done.
      unfold Stop_step in Hst. destruct (l_phase l0); repeat case_match; by simplify_eq/=.
Qed.

(** The course of [Stop] when the WebSocket server was there in time. *)
Definition stopping l : Prop :=
  l_httpServer l = true ∧ gw_wf (gs_gateway (l_server l)) ∧ held (gs_gateway (l_server l)) = [] ∧
  match l_phase l with
  | Serving => False
  | StopHTTP => True
  | _ => l_shutdown l = true
  end ∧
  match l_phase l with
  | Serving | StopHTTP | StopConns | StopCancel => True
  | StopWait => l_cancelled l = true
  | StopKafka => l_tasks l = []
  | StopNacos => l_tasks l = [] ∧ l_producer l = false ∧ l_consumer l = false
  | Stopped =>
    l_tasks l = [] ∧ l_producer l = false ∧ l_consumer l = false ∧ l_nacos l = false
  end.

Lemma stopping_own l l' : stopping l → own_step l l' → stopping l'.
Proof.
  intros Hst Hs. revert Hst. unfold stopping.
  destruct Hs as [l0 ts1 t ts2 Hts _|l0 _ Ha|l0 l1 Hstep]; intros Hst.
  - destruct Hst as (Hh & Hwf & Hhe & H1 & H2). cbn. destruct (l_phase l0); try done.
    all: assert (l_tasks l0 = []) as Hnil by first [exact H2|exact (proj1 H2)];
      rewrite Hts in Hnil; by destruct ts1.
  - destruct Hst as [Hh _]. congruence.
  - unfold Stop_step in Hstep. destruct (l_phase l0) eqn:E; try done.
    + by destruct Hst as (_ & _ & _ & [] & _).
    + injection Hstep as <-. cbn. destruct Hst as (Hh & ? & ? & _). rewrite Hh.
      by rewrite orb_true_r.
    + destruct Hst as (Hh & Hwf & Hhe & Hsh & _).
      destruct (closeAllConnections_run _ Hwf Hhe) as (g' & Hrun & Hwf' & Hhe' & _).
      rewrite Hrun in Hstep. injection Hstep as <-. by cbn.
    + injection Hstep as <-. destruct Hst as (? & ? & ? & ? & _). by split_and!.
    + case_decide as Hnil; [|done]. injection Hstep as <-.
      destruct Hst as (? & ? & ? & ? & _). by split_and!.
    + injection Hstep as <-. destruct Hst as (? & ? & ? & ? & ?). by split_and!.
    + injection Hstep as <-. destruct Hst as (? & ? & ? & ? & ? & ? & ?). by split_and!.
Qed.

Lemma stopping_step l l' : stopping l → stop_run l l' → stopping l'.
Proof.
  intros Hst Hrun. revert Hst. destruct Hrun as [l g l' _ Hwf Hh Hs]. intros Hst.
  apply (stopping_own (set_gateway g l)); [|done]. unfold stopping in *. naive_solver.
Qed.

Lemma set_gateway_same l : set_gateway (gs_gateway (l_server l)) l = l.
Proof. by destruct l as [[]]. Qed.

Lemma stopping_progress l :
  health_listens = false → stopping l → l_phase l = Stopped ∨ ∃ l', stop_run l l'.
Proof.
  intros Hhl Hst. pose proof Hst as (_ & Hwf & Hhe & _).
  destruct (decide (l_phase l = Stopped)) as [|Hns]; [by left|right].
  assert (l_phase l ≠ Serving) as Hser.
  { intros E. unfold stopping in Hst. rewrite E in Hst. by destruct Hst as (_ & _ & _ & [] & _). }
  assert (∃ l', own_step l l') as [l' Hs]; cycle 1.
  { exists l'. apply (StopRun l (gs_gateway (l_server l))); [done..|]. by rewrite set_gateway_same. }
  unfold stopping in Hst. destruct (l_phase l) eqn:E; try done.
  4: { destruct (l_tasks l) as [|t ts] eqn:Ets.
    - eexists. apply LifeStop. unfold Stop_step. by rewrite E, Ets.
    - eexists. apply (LifeReturn l [] t ts); [done|].
      destruct Hst as (Hh & _ & _ & Hsh & Hc).
      destruct t; cbn; rewrite ?Hc, ?Hh, ?Hhl, ?Hsh; rewrite ?orb_true_r; done. }
  2: { destruct (closeAllConnections_run _ Hwf Hhe) as (g' & Hrun & _).
    eexists. apply LifeStop. unfold Stop_step. by rewrite E, Hrun. }
  all: eexists; apply LifeStop; unfold Stop_step; by rewrite E.
Qed.

Lemma reaches_StopNacos l :
  health_listens = false → stopping l → l_phase l ≠ Stopped →
  ∃ l', rtc stop_run l l' ∧ l_phase l' = StopNacos.
Proof.
  intros Hhl. remember (left l) as n eqn:En. revert l En.
  induction n as [n IH] using lt_wf_ind. intros l -> Hst Hp.
  destruct (decide (l_phase l = StopNacos)) as [|Hne]; [by exists l|].
  destruct (stopping_progress l Hhl Hst) as [|[l1 Hs]]; [done|].
  destruct (IH _ (stop_run_less l l1 Hs) l1 eq_refl) as (l' & Hr & Hp').
  - by apply (stopping_step l).
  - destruct Hs as [l g l1 _ _ _ Hs]. remember (set_gateway g l) as l0 eqn:El0.
    assert (l_phase l0 = l_phase l) as Hp0 by by rewrite El0.
    destruct Hs as [| |l0 l1 Hst1]; cbn; [congruence..|]. rewrite <-Hp0 in Hne, Hp.
    unfold Stop_step in Hst1. destruct (l_phase l0); try done; repeat case_match; by simplify_eq/=.
  - exists l'. split; [by eapply rtc_l|done].
Qed.
End run.
End GatewayLife.

(** ** The roomserver *)
Module RoomserverLife.
Inductive Task :=
  | RunGRPCServer
  | RunHTTPServer
  | RunRecoveryMonitor
  | RunDisconnectTimeoutChecker.

#[export] Instance Task_eq_dec : EqDecision Task.
Proof. solve_decision. Defined.

(** [Stop] cancels the context and waits. *)
Inductive Phase := Serving | StopCancel | StopWait | Stopped.

Record Life := mkLife {
  l_server : Server SessionService;
  l_streams : gset ConnRef;       (* the running [Channel] calls *)
  l_start : Z;                    (* when [Start] was called *)
  l_now : Z;
  l_tasks : list Task;
  l_cancelled : bool;
  l_phase : Phase;
}.

Definition Start (s : Server SessionService) (now : Z) : Life :=
  mkLife s ∅ now now
    [RunGRPCServer; RunHTTPServer; RunRecoveryMonitor; RunDisconnectTimeoutChecker] false Serving.

Section run.
(** Whether the two listeners can be opened and go on accepting. *)
Context (grpc_listens http_listens : bool).
Implicit Types (l : Life) (t : Task).

(** [Serve] returns when [GracefulStop], called on the end of the context,
    has seen every stream end; nothing shuts the HTTP server down. *)
Definition returns l t : bool :=
  match t with
  | RunGRPCServer => negb grpc_listens || (l_cancelled l && bool_decide (l_streams l = ∅))
  | RunHTTPServer => negb http_listens
  | RunRecoveryMonitor => bool_decide (is_Some (recoveryMonitor (l_start l) (l_now l) (l_server l)))
  | RunDisconnectTimeoutChecker => l_cancelled l
  end.

Definition set_tasks ts l : Life :=
  mkLife (l_server l) (l_streams l) (l_start l) (l_now l) ts (l_cancelled l) (l_phase l).

(** What a goroutine leaves behind: the end of the recovery. *)
Definition after_return t l : Life :=
  match t with
  | RunRecoveryMonitor =>
    mkLife (default (l_server l) (recoveryMonitor (l_start l) (l_now l) (l_server l)))
      (l_streams l) (l_start l) (l_now l) (l_tasks l) (l_cancelled l) (l_phase l)
  | _ => l
  end.

Definition Stop_step l : option Life :=
  let at_phase p c := mkLife (l_server l) (l_streams l) (l_start l) (l_now l) (l_tasks l) c p in
  match l_phase l with
  | Serving => Some (at_phase StopCancel (l_cancelled l))
  | StopCancel => Some (at_phase StopWait true)
  | StopWait => if decide (l_tasks l = []) then Some (at_phase Stopped (l_cancelled l)) else None
  | Stopped => None
  end.

Inductive life_step : Life → Life → Prop :=
  | LifeReturn l ts1 t ts2 :
    l_tasks l = ts1 ++ t :: ts2 → returns l t = true →
    life_step l (set_tasks (ts1 ++ ts2) (after_return t l))
  | LifeServe l s streams now :
    (* messages, requests and ticks change the server, time goes on; after
       the context is done no stream begins *)
    (l_cancelled l = true → streams ⊆ l_streams l) → l_now l <= now →
    life_step l (mkLife s streams (l_start l) now (l_tasks l) (l_cancelled l) (l_phase l))
  | LifeStop l l' : Stop_step l = Some l' → life_step l l'.

(** *** Lemmas *)
Lemma in_remaining (t t' : Task) ts1 ts2 :
  t ∈ ts1 ++ t' :: ts2 → t ≠ t' → t ∈ ts1 ++ ts2.
Proof. rewrite !elem_of_app, elem_of_cons. naive_solver. Qed.

(** The HTTP goroutine of a working listener, and the gRPC goroutine as
    long as a stream is open. *)
Definition holds_stop l : Prop :=
  (http_listens = true → RunHTTPServer ∈ l_tasks l) ∧
  (grpc_listens = true → RunGRPCServer ∈ l_tasks l ∨ l_cancelled l = true ∧ l_streams l = ∅) ∧
  (l_phase l = Stopped → l_tasks l = []).

Lemma holds_stop_step l l' : holds_stop l → life_step l l' → holds_stop l'.
Proof.
  intros Hl Hs. revert Hl. destruct Hs as [l ts1 t ts2 Hts Hret|l s streams now Hstr _|l l' Hst];
    intros (Hhttp & Hgrpc & Hend).
  - assert (l_phase l ≠ Stopped) as Hrun.
    { intros Hp. rewrite (Hend Hp) in Hts. by destruct ts1. }
    rewrite Hts in Hhttp, Hgrpc. split_and!.
    + intros Hl. apply (in_remaining _ t); [by apply Hhttp|]. intros <-. cbn in Hret.
      by rewrite Hl in Hret.
    + intros Hl. destruct (decide (t = RunGRPCServer)) as [->|Hne].
      * right. cbn in *. rewrite Hl in Hret. cbn in Hret.
        apply andb_prop in Hret as [? ?%bool_decide_eq_true_1]. done.
      * destruct (Hgrpc Hl) as [Hin|?]; [left|right; by destruct t].
        apply (in_remaining _ t); [done|congruence].
    + intros Hp. destruct Hrun. by destruct t.
  - split_and!; [done| |done]. intros Hl. destruct (Hgrpc Hl) as [?|[Hc He]]; [by left|right].
    cbn. split; [done|]. specialize (Hstr Hc). rewrite He in Hstr. set_solver.
  - unfold Stop_step in Hst.
    destruct (l_phase l); [| |case_decide|]; simplify_eq/=; split_and!; cbn; try done.
    + intros Hl. destruct (Hgrpc Hl) as [?|[_ ?]]; auto.
Qed.

Lemma holds_stop_reachable s now l : rtc life_step (Start s now) l → holds_stop l.
Proof.
  intros Hr. remember (Start s now) as l0 eqn:E.
  assert (holds_stop l0) as Hl0.
  { subst. split_and!; cbn; [set_solver|set_solver|done]. }
  clear E. induction Hr as [|l1 l2 l3 Hs Hr IH]; [done|]. by eapply IH, holds_stop_step.
Qed.
End run.
End RoomserverLife.

(** ** The main programs *)
Inductive MainResult (L : Type) :=
  | MainPanic (why : string)
  | MainServes (l : L).
Arguments MainPanic {L}.
Arguments MainServes {L}.

Section main.
Context (ReadFile : string → result string (list byte)) (OpenFile : string → option string).
Context (Unmarshal_gateway : list byte → result string Config.GatewayConfig).
Context (Unmarshal_roomserver : list byte → result string Config.RoomserverConfig).

(** [cmd/gateway/main.go], up to the wait for a signal; what follows is
    [Stop]. *)
Definition gateway_main (configPath : string) (now : Z) : MainResult GatewayLife.Life :=
  match LoadGatewayConfig ReadFile Unmarshal_gateway configPath with
  | Err err => MainPanic ("load config failed: " ++ err)
  | Ok cfg =>
    match Init OpenFile (Config.g_Log cfg) with
    | Err err => MainPanic ("init logger failed: " ++ err)
    | Ok _ =>
      match NewGatewayServer cfg now with
      | Done gs => MainServes (GatewayLife.Start gs)
      | Panic why => MainPanic why
      | Deadlock l => MainPanic l
      end
    end
  end.

(** [cmd/roomserver/main.go] *)
Definition roomserver_main (configPath : string) (now now_ms : Z) :
    MainResult RoomserverLife.Life :=
  match LoadRoomserverConfig ReadFile Unmarshal_roomserver configPath with
  | Err err => MainPanic ("load config failed: " ++ err)
  | Ok cfg =>
    match Init OpenFile (Config.r_Log cfg) with
    | Err err => MainPanic ("init logger failed: " ++ err)
    | Ok _ => MainServes (RoomserverLife.Start (NewRoomserver cfg now now_ms) now)
    end
  end.
End main.

(** ** Properties *)
Section properties.
Context `{Msgpack LeaveRoomRequest, Msgpack DisconnectNotify} `{O : MapOrder}.
Context (ReadFile : string → result string (list byte)) (OpenFile : string → option string).
Context (Unmarshal_gateway : list byte → result string Config.GatewayConfig).
Context (Unmarshal_roomserver : list byte → result string Config.RoomserverConfig).

(** C37. A gateway whose health endpoint works cannot be stopped: whatever
    it does after its start, and whatever its handlers do to its tables, the
    goroutine of the health server stays in the WaitGroup, so that [Stop]
    never gets past its wait, never returns, and never closes the clients of
    Kafka. *)
Theorem gateway_Stop_waits_for_health path now ws_listens l0 l :
  gateway_main ReadFile OpenFile Unmarshal_gateway path now = MainServes l0 →
  rtc (GatewayLife.life_step true ws_listens) l0 l →
  GatewayLife.RunHealthServer ∈ GatewayLife.l_tasks l ∧
  GatewayLife.l_phase l ≠ GatewayLife.Stopped ∧
  GatewayLife.l_producer l = GatewayLife.l_producer l0 ∧
  GatewayLife.l_consumer l = GatewayLife.l_consumer l0.
Proof.
  intros Hmain Hr.
  assert (GatewayLife.RunHealthServer ∈ GatewayLife.l_tasks l0 ∧
    GatewayLife.l_phase l0 = GatewayLife.Serving) as [Hin Hph].
  { unfold gateway_main in Hmain. repeat case_match; simplify_eq. cbn. set_solver. }
  destruct (GatewayLife.stuck_task true ws_listens GatewayLife.RunHealthServer (λ _, True) l0 l)
    as (? & Hw & ? & ?); [done..|by rewrite Hph|].
  split_and!; [done| |done..]. intros Hs. by rewrite Hs in Hw.
Qed.

(** When the health endpoint is not there, [Stop] ends.  From the signal on,
    with the WebSocket server in place, no lock held and the handlers free to
    change the gateway between any two steps, the server makes at most six
    steps and one for each goroutine, and it is not stuck before all
    goroutines have returned and the clients of Kafka and Nacos are closed.
    Nothing is said of the connections: see [late_handshake_stays_open]. *)
Theorem gateway_Stop_completes ws_listens l k l' :
  GatewayLife.l_phase l = GatewayLife.StopHTTP → GatewayLife.l_httpServer l = true →
  gw_wf (gs_gateway (GatewayLife.l_server l)) → held (gs_gateway (GatewayLife.l_server l)) = [] →
  nsteps (GatewayLife.stop_run false ws_listens) k l l' →
  (k ≤ 6 + length (GatewayLife.l_tasks l))%nat ∧
  ((∃ l'', GatewayLife.stop_run false ws_listens l' l'') ∨
   GatewayLife.l_phase l' = GatewayLife.Stopped ∧ GatewayLife.l_tasks l' = [] ∧
   GatewayLife.l_producer l' = false ∧ GatewayLife.l_consumer l' = false ∧
   GatewayLife.l_nacos l' = false).
Proof.
  intros Hph Hhttp Hwf Hh Hk.
  assert (GatewayLife.stopping l) as Hst by (unfold GatewayLife.stopping; by rewrite Hph).
  assert (GatewayLife.left l = (6 + length (GatewayLife.l_tasks l))%nat) as Hleft.
  { unfold GatewayLife.left. rewrite Hph, Hhttp. cbn. lia. }
  rewrite <-Hleft. clear Hph Hhttp Hwf Hh Hleft.
  induction Hk as [l|k l1 l2 l3 Hs Hk IH].
  - split; [lia|].
    destruct (GatewayLife.stopping_progress false ws_listens l eq_refl Hst) as [Hp|?]; [right|by left].
    unfold GatewayLife.stopping in Hst. rewrite Hp in Hst. naive_solver.
  - destruct IH as [Hle ?]; [by eapply GatewayLife.stopping_step|]. split; [|done].
    pose proof (GatewayLife.stop_run_less false ws_listens l1 l2 Hs). lia.
Qed.

(** A signal right after the start: [Stop] looks at [s.httpServer] before
    the goroutine has set it, so nobody shuts the WebSocket server down and
    [Stop] waits for it for ever, whatever the health endpoint does. *)
Theorem gateway_Stop_before_listen health_listens l l' :
  GatewayLife.l_phase l = GatewayLife.StopHTTP → GatewayLife.l_httpServer l = false →
  GatewayLife.l_shutdown l = false →
  GatewayLife.RunWebSocketServer ∈ GatewayLife.l_tasks l →
  ∃ l1, GatewayLife.Stop_step l = Some l1 ∧
    (rtc (GatewayLife.life_step health_listens true) l1 l' →
     GatewayLife.RunWebSocketServer ∈ GatewayLife.l_tasks l' ∧
     GatewayLife.l_phase l' ≠ GatewayLife.Stopped).
Proof.
  intros Hph Hno Hsh Hin. unfold GatewayLife.Stop_step. rewrite Hph.
  eexists. split; [done|]. intros Hr.
  destruct (GatewayLife.stuck_task health_listens true GatewayLife.RunWebSocketServer
    (λ l, GatewayLife.l_shutdown l = false ∧
          GatewayLife.l_phase l ≠ GatewayLife.Serving ∧
          GatewayLife.l_phase l ≠ GatewayLife.StopHTTP)) with (l := GatewayLife.set_phase
      GatewayLife.StopConns (GatewayLife.mkLife (GatewayLife.l_server l) (GatewayLife.l_tasks l)
      (GatewayLife.l_httpServer l) (GatewayLife.l_shutdown l || GatewayLife.l_httpServer l)
      (GatewayLife.l_cancelled l) (GatewayLife.l_producer l) (GatewayLife.l_consumer l)
      (GatewayLife.l_nacos l) GatewayLife.StopHTTP)) (l' := l') as (? & Hw & _).
  - intros l2 (Hs2 & _). cbn. rewrite Hs2. by rewrite andb_false_r.
  - intros l2 l3 (Hs2 & H2 & H3) Hst. revert Hs2 H2 H3.
    destruct Hst as [? ? [| |l2 l3 Hst]|]; [done..| |done]. intros Hs2 H2 H3.
    unfold GatewayLife.Stop_step in Hst.
    destruct (GatewayLife.l_phase l2); repeat case_match; by simplify_eq/=.
  - cbn. by rewrite Hsh, Hno.
  - by rewrite <-Hph.
  - done.
  - done.
  - split; [done|]. intros Hs. by rewrite Hs in Hw.
Qed.

(** [Stop] of the roomserver does not return while its HTTP listener
    works, as nothing shuts that server down, nor while a gateway is
    connected, as the gRPC server waits for the streams to end. *)
Theorem roomserver_Stop_never_returns path now now_ms grpc_listens http_listens l0 l :
  roomserver_main ReadFile OpenFile Unmarshal_roomserver path now now_ms = MainServes l0 →
  rtc (RoomserverLife.life_step grpc_listens http_listens) l0 l →
  http_listens = true ∨ grpc_listens = true ∧ RoomserverLife.l_streams l ≠ ∅ →
  RoomserverLife.l_phase l ≠ RoomserverLife.Stopped.
Proof.
  intros Hmain Hr Hwhy Hp.
  assert (∃ s, l0 = RoomserverLife.Start s now) as [s ->].
  { unfold roomserver_main in Hmain. repeat case_match; simplify_eq. eauto. }
  destruct (RoomserverLife.holds_stop_reachable grpc_listens http_listens s now l Hr)
    as (Hhttp & Hgrpc & Hend). rewrite (Hend Hp) in Hhttp, Hgrpc.
  destruct Hwhy as [Hl|[Hl Hne]].
  - by apply Hhttp, elem_of_nil in Hl.
  - destruct (Hgrpc Hl) as [?%elem_of_nil|[_ ?]]; done.
Qed.
End properties.

(** ** Concrete instances: the shipped configuration *)
Section examples.
Import ToyCodec.
#[local] Existing Instance default_order.

Definition shipped_read (path : string) : result string (list byte) := Ok [].
Definition no_file (path : string) : option string := Some "permission denied"%string.
Definition shipped_unmarshal (data : list byte) : result string Config.GatewayConfig :=
  Ok shipped_gateway.
Definition shipped_unmarshal_rs (data : list byte) : result string Config.RoomserverConfig :=
  Ok shipped_roomserver.

Definition demo_server_gw : GatewayServer :=
  match NewGatewayServer shipped_gateway 0 with
  | Done gs => gs | _ => mkGatewayServer shipped_gateway (NewGateway demo_gw_cfg 0) None None end.
Definition demo_life : GatewayLife.Life := GatewayLife.Start demo_server_gw.

(** The WebSocket server is up; a signal has come. *)
Definition demo_signal : GatewayLife.Life :=
  GatewayLife.set_phase GatewayLife.StopHTTP (GatewayLife.assign_http demo_life).
Definition stop_on (l : GatewayLife.Life) : GatewayLife.Life :=
  default l (GatewayLife.Stop_step l).

Lemma gateway_Stop_waits_for_health_witness :
  let l := Nat.iter 3 stop_on demo_signal in
  gateway_main shipped_read no_file shipped_unmarshal "gateway.yaml" 0 = MainServes demo_life ∧
  GatewayLife.l_phase l = GatewayLife.StopWait ∧
  GatewayLife.RunHealthServer ∈ GatewayLife.l_tasks l ∧
  GatewayLife.l_phase l ≠ GatewayLife.Stopped ∧
  GatewayLife.l_producer l = GatewayLife.l_producer demo_life ∧
  GatewayLife.l_consumer l = GatewayLife.l_consumer demo_life.
Proof.
  split; [done|]. split; [by vm_compute|].
  apply (gateway_Stop_waits_for_health shipped_read no_file shipped_unmarshal "gateway.yaml" 0
    true demo_life); [done|].
  eapply rtc_l; [apply GatewayLife.LifeOwn, GatewayLife.LifeAssign; [cbn; set_solver|done]|].
  do 4 (eapply rtc_l; [by apply GatewayLife.LifeOwn, GatewayLife.LifeStop|]). apply rtc_refl.
Defined.

Lemma gateway_Stop_completes_witness :
  let l' := Nat.iter 2 stop_on demo_signal in
  (2 ≤ 6 + length (GatewayLife.l_tasks demo_signal))%nat ∧
  ((∃ l'', GatewayLife.stop_run false true l' l'') ∨
   GatewayLife.l_phase l' = GatewayLife.Stopped ∧ GatewayLife.l_tasks l' = [] ∧
   GatewayLife.l_producer l' = false ∧ GatewayLife.l_consumer l' = false ∧
   GatewayLife.l_nacos l' = false).
Proof.
  apply (gateway_Stop_completes true demo_signal 2); [done|done|apply gw_wf_new|done|].
  eapply nsteps_l; [apply (GatewayLife.StopRun _ _ _ (gs_gateway demo_server_gw));
    [done|apply gw_wf_new|done|by apply GatewayLife.LifeStop]|].
  eapply nsteps_l; [apply (GatewayLife.StopRun _ _ _ (gs_gateway demo_server_gw));
    [done|apply gw_wf_new|done|by apply GatewayLife.LifeStop]|].
  apply nsteps_O.
Defined.

(** A handshake under way when the signal comes: [Shutdown] does not wait for
    it, it registers after [closeAllConnections], and [Stop] returns with the
    connection open and in the table. *)
Definition late_conn : Connection :=
  NewConnection "u1" "c1" (cfg_Connection (g_cfg (gs_gateway demo_server_gw))).
Definition late_hijacked : Gateway :=
  set_objects (<[0%nat := late_conn]> (objects (gs_gateway demo_server_gw)))
    (gs_gateway demo_server_gw).
Definition late_gateway : Gateway :=
  match AddConnection 0%nat late_hijacked with Done (_, g) => g | _ => late_hijacked end.

Lemma late_gateway_wf : gw_wf late_gateway ∧ held late_gateway = [].
Proof.
  assert (connections late_hijacked = ∅) as Hnone by by vm_compute.
  assert (gw_wf late_hijacked) as Hwf.
  { destruct (gw_wf_new (g_cfg (gs_gateway demo_server_gw)) 0) as (_ & Hdis & Hloc).
    split_and!; [|exact Hdis|exact Hloc]. intros u ref. by rewrite Hnone. }
  pose proof (AddConnection_registers 0%nat late_conn late_hijacked Hwf eq_refl eq_refl eq_refl)
    as Hreg.
  unfold late_gateway. destruct (shard_index _ _) as [i|w|?] eqn:Hsh;
    [|vm_compute in Hsh; discriminate..].
  destruct Hreg as (g' & -> & ? & ? & _); [intros u; by rewrite Hnone|by rewrite Hnone|].
  done.
Qed.

Lemma late_handshake_stays_open : ∃ l',
  rtc (GatewayLife.stop_run false true) demo_signal l' ∧
  GatewayLife.l_phase l' = GatewayLife.Stopped ∧
  connections (gs_gateway (GatewayLife.l_server l')) !! "u1"%string = Some 0%nat ∧
  c_closeOnce <$> objects (gs_gateway (GatewayLife.l_server l')) !! 0%nat = Some false.
Proof.
  destruct late_gateway_wf as [Hwf Hh].
  destruct (GatewayLife.reaches_StopNacos false true demo_signal eq_refl) as (l1 & Hr & Hp);
    [split_and!; [done|apply gw_wf_new|done..]|done|].
  eexists. split.
  - eapply rtc_r; [exact Hr|]. apply (GatewayLife.StopRun _ _ _ late_gateway); [by rewrite Hp|done..|].
    apply GatewayLife.LifeStop. unfold GatewayLife.Stop_step. cbn. by rewrite Hp.
  - cbn -[late_gateway]. by vm_compute.
Qed.

Lemma gateway_Stop_before_listen_witness :
  ∃ l1, GatewayLife.Stop_step (GatewayLife.set_phase GatewayLife.StopHTTP demo_life) = Some l1 ∧
    (rtc (GatewayLife.life_step false true) l1 l1 →
     GatewayLife.RunWebSocketServer ∈ GatewayLife.l_tasks l1 ∧
     GatewayLife.l_phase l1 ≠ GatewayLife.Stopped).
Proof.
  destruct (gateway_Stop_before_listen false
    (GatewayLife.set_phase GatewayLife.StopHTTP demo_life)
    (stop_on (GatewayLife.set_phase GatewayLife.StopHTTP demo_life)))
    as (l1 & Hl1 & Hrest); [done|done|done|cbn; set_solver|].
  exists l1. split; [exact Hl1|]. injection Hl1 as <-. exact Hrest.
Defined.

Definition demo_rs_life : RoomserverLife.Life :=
  RoomserverLife.Start (NewRoomserver shipped_roomserver 0 0) 0.
Definition demo_rs_wait : RoomserverLife.Life :=
  Nat.iter 2 (λ l, default l (RoomserverLife.Stop_step l)) demo_rs_life.

Lemma roomserver_Stop_never_returns_witness :
  roomserver_main shipped_read no_file shipped_unmarshal_rs "roomserver.yaml" 0 0 =
    MainServes demo_rs_life ∧
  RoomserverLife.l_phase demo_rs_wait = RoomserverLife.StopWait ∧
  RoomserverLife.l_phase demo_rs_wait ≠ RoomserverLife.Stopped.
Proof.
  split; [done|]. split; [done|].
  apply (roomserver_Stop_never_returns shipped_read no_file shipped_unmarshal_rs
    "roomserver.yaml" 0 0 true true demo_rs_life); [done| |by left].
  do 2 (eapply rtc_l; [by apply RoomserverLife.LifeStop|]). apply rtc_refl.
Defined.
End examples.
