(* ===== verification/TestClient.v ===== *)
(** [cmd/testclient/main.go] and [interactive.go]: the client side of the
    protocol.
    The WebSocket is what it will still deliver and what was written to it;
    running out of messages stands for a read error (a close, a deadline).
    The errors keep what the code prints of them.  Msgpack is a parameter:
    the client marshals maps where the gateway decodes structs. *)

From Stdlib Require Import ZArith Lia SpecFloat Ascii.
From stdpp Require Import base tactics gmap strings numbers list.
From S2P Require Import Prelude GoInt Protocol Frame Chan Connection Gateway GatewayHandler RoomserverClient Login.

Local Open Scope Z_scope.

(** ** Its own copy of the frame codec: no limit on the payload *)
Inductive DecodeError := TooShort (n : nat) | Incomplete (got expected : Z).

Definition encodeFrame (f : Frame) : list byte :=
  let payloadLen := length (f_Payload f) in
  let buf := replicate (HeaderSize + payloadLen) Byte.x00 in
  let buf := write_at 0 (PutUint32 (f_MsgType f)) buf in
  let buf := write_at 4 (PutUint64 (f_Seq f)) buf in
  let buf := write_at 12 (PutUint32 (u32 (Z.of_nat payloadLen))) buf in
  if (0 <? payloadLen)%nat then write_at HeaderSize (f_Payload f) buf else buf.

Definition decodeFrame (data : list byte) : result DecodeError Frame :=
  if (length data <? HeaderSize)%nat then Err (TooShort (length data)) else
  let msgType := Uint32 (slice 0 4 data) in
  let seq := Uint64 (slice 4 12 data) in
  let payloadLen := Uint32 (slice 12 16 data) in
  let expectedLen := Z.of_nat HeaderSize + payloadLen in
  if Z.of_nat (length data) <? expectedLen
  then Err (Incomplete (Z.of_nat (length data)) expectedLen) else
  let payload := if 0 <? payloadLen then slice HeaderSize (Z.to_nat expectedLen) data else [] in
  Ok (mkFrame msgType seq payload).

(** ** Values and messages *)
(** What the maps of type [map[string]interface{}] hold. *)
Inductive Value :=
  | VStr (s : string)
  | VInt (z : Z)
  | VFloat (f : float64)
  | VBool (b : bool).

(** [msgpack.Marshal] of such a map. *)
Class MapCodec := { Marshal : list (string * Value) → option (list byte) }.

(** The answer to a join as the client declares it; the gateway's has no
    room id. *)
Record JoinResponse := mkJoinResponse {
  jr_Success : bool; jr_RoomID : string; jr_Code : Z; jr_Message : string }.

(** Documented behaviour of msgpack: a struct is decoded from a map by the
    names of its fields, unknown keys are skipped, and missing ones leave
    the zero value. *)
Class MapLaws `{MapCodec} `{Msgpack AuthRequest, Msgpack RoomRequest, Msgpack StatusResponse,
    Msgpack JoinResponse} := {
  Marshal_ok m : is_Some (Marshal m);
  Decode_auth_map tok uid b :
    Marshal [("token", VStr tok); ("user_id", VStr uid)]%string = Some b →
    Decode b = Some (mkAuthRequest tok uid);
  Decode_room_map rid rest b :
    Marshal (("room_id", VStr rid)%string :: rest) = Some b → Decode b = Some (mkRoomRequest rid);
  Decode_join_response ok code msg b :
    Encode (mkStatusResponse ok code msg) = Some b →
    Decode b = Some (mkJoinResponse ok "" code msg);
}.

(** ** The connection *)
Record Ws := mkWs { ws_in : list (list byte); ws_out : list (list byte); ws_open : bool }.

Inductive ClientError :=
  | MarshalFailed
  | SendFailed
  | ReadFailed
  | BadFrame (e : DecodeError)
  | UnexpectedType (t : Z)
  | UnmarshalFailed
  | Refused (code : Z) (message : string).

(** The sequence counter (a [uint64]) and the socket. *)
Record Client := mkClient { cl_seq : Z; cl_ws : Ws }.

(** Fallible operations of the client. *)
Definition C (A : Type) : Type := Client → result ClientError A * Client.
#[export] Instance C_ret : MRet C := λ A a c, (Ok a, c).
#[export] Instance C_bind : MBind C := λ A B f m c,
  match m c with
  | (Ok a, c) => f a c
  | (Err e, c) => (Err e, c)
  end.
Definition fail {A} (e : ClientError) : C A := λ c, (Err e, c).

Definition nextSeq : C Z := λ c,
  let seq := u64 (cl_seq c + 1) in (Ok seq, mkClient seq (cl_ws c)).

Definition sendFrame (f : Frame) : C unit := λ c,
  let ws := cl_ws c in
  if ws_open ws
  then (Ok tt, mkClient (cl_seq c)
                 (mkWs (ws_in ws) (ws_out ws ++ [encodeFrame f]) (ws_open ws)))
  else (Err SendFailed, c).

(** One WebSocket message is one frame, for this client. *)
Definition recvFrame : C Frame := λ c,
  let ws := cl_ws c in
  match ws_in ws with
  | [] => (Err ReadFailed, c)
  | data :: rest =>
    let c := mkClient (cl_seq c) (mkWs rest (ws_out ws) (ws_open ws)) in
    match decodeFrame data with
    | Ok f => (Ok f, c)
    | Err e => (Err (BadFrame e), c)
    end
  end.

(** The flags of the command line. *)
Record Flags := mkFlags { fl_userID : string; fl_roomID : string; fl_token : string }.

Section client.
Context `{MapCodec} `{Msgpack AuthResponse, Msgpack JoinResponse}.

(** Marshal, build the frame, send it. *)
Definition send_map (msgType : Z) (m : list (string * Value)) : C unit :=
  match Marshal m with
  | None => fail MarshalFailed
  | Some payload => seq ← nextSeq; sendFrame (mkFrame msgType seq payload)
  end.

Definition authenticate (fl : Flags) : C AuthResponse :=
  send_map MsgTypeAuth [("token", VStr (fl_token fl)); ("user_id", VStr (fl_userID fl))]%string;;
  respFrame ← recvFrame;
  if negb (f_MsgType respFrame =? MsgTypeAuthResp) then fail (UnexpectedType (f_MsgType respFrame))
  else match Decode (f_Payload respFrame) with
  | None => fail UnmarshalFailed
  | Some resp =>
    if negb (ar_Success resp) then fail (Refused (ar_Code resp) (ar_Message resp)) else mret resp
  end.

Definition joinRoom (fl : Flags) : C JoinResponse :=
  send_map MsgTypeJoinRoom [("room_id", VStr (fl_roomID fl))]%string;;
  respFrame ← recvFrame;
  if negb (f_MsgType respFrame =? MsgTypeJoinRoomResp)
  then fail (UnexpectedType (f_MsgType respFrame))
  else match Decode (f_Payload respFrame) with
  | None => fail UnmarshalFailed
  | Some resp =>
    if negb (jr_Success resp) then fail (Refused (jr_Code resp) (jr_Message resp)) else mret resp
  end.

(** The errors on the way are dropped; the flag says whether the client
    reports success. *)
Definition leaveRoom (fl : Flags) : Client → bool * Client := λ c,
  let payload := default [] (Marshal [("room_id", VStr (fl_roomID fl))]%string) in
  let '(seq, c) := (u64 (cl_seq c + 1), mkClient (u64 (cl_seq c + 1)) (cl_ws c)) in
  let '(_, c) := sendFrame (mkFrame MsgTypeLeaveRoom seq payload) c in
  match recvFrame c with
  | (Ok respFrame, c) => (f_MsgType respFrame =? MsgTypeLeaveRoomResp, c)
  | (Err _, c) => (false, c)
  end.

Definition sendHeartbeat (fl : Flags) (now_ms : Z) : Client → Client := λ c,
  let payload := default []
    (Marshal [("room_id", VStr (fl_roomID fl)); ("timestamp", VInt now_ms)]%string) in
  let seq := u64 (cl_seq c + 1) in
  (sendFrame (mkFrame MsgTypeHeartbeat seq payload) (mkClient seq (cl_ws c))).2.

(** ** Receiving *)
(** What [receiveLoop] puts on [msgCh] before it closes it. *)
Fixpoint receiveLoop (incoming : list (list byte)) : list Frame :=
  match incoming with
  | [] => []
  | data :: incoming =>
    match decodeFrame data with
    | Err _ => []
    | Ok f => if f_MsgType f =? MsgTypeHeartbeatResp then receiveLoop incoming
              else f :: receiveLoop incoming
    end
  end.

(** What [handleMessage] makes of a frame; [UnmarshalMap] is
    [msgpack.Unmarshal] into a map. *)
Context (UnmarshalMap : list byte → option (list (string * Value))).
Inductive ClientEvent :=
  | PushReceived (seq : Z) (msg : list (string * Value))
  | BizReceived (seq : Z) (resp : list (string * Value))
  | UnmarshalError
  | UnknownType (t : Z).

Definition handlePushMessage (f : Frame) : ClientEvent :=
  match UnmarshalMap (f_Payload f) with
  | None => UnmarshalError | Some msg => PushReceived (f_Seq f) msg end.
Definition handleBizResponse (f : Frame) : ClientEvent :=
  match UnmarshalMap (f_Payload f) with
  | None => UnmarshalError | Some resp => BizReceived (f_Seq f) resp end.
Definition handleMessage (f : Frame) : ClientEvent :=
  if f_MsgType f =? MsgTypePushMessage then handlePushMessage f
  else if f_MsgType f =? MsgTypeBizResponse then handleBizResponse f
  else UnknownType (f_MsgType f).

(** [main] up to its loop: the connection is dialled, [Err] is
    [log.Fatalf]. *)
Definition start (fl : Flags) : C unit :=
  authenticate fl;;
  joinRoom fl;;
  mret tt.
End client.

(** ** Interactive commands (interactive.go)
    A command is the list of words of a line.  Reading the terminal and
    printing are left out; [mainInteractive] is called by nothing. *)
Module Interactive.

(** [strconv.Atoi]: an optional sign and decimal digits, in the range of an
    int64. *)
Definition digit (base : Z) (c : Ascii.ascii) : option Z :=
  let n := Z.of_N (Ascii.N_of_ascii c) in
  let d := if (48 <=? n) && (n <=? 57) then n - 48
           else if (97 <=? n) && (n <=? 122) then n - 87
           else if (65 <=? n) && (n <=? 90) then n - 55 else base in
  if d <? base then Some d else None.
Fixpoint digits (base acc : Z) (s : string) : option Z :=
  match s with
  | EmptyString => Some acc
  | String c s => d ← digit base c; digits base (acc * base + d) s
  end.
(** An unsigned number: at least one digit. *)
Definition number (base : Z) (s : string) : option Z :=
  match s with EmptyString => None | _ => digits base 0 s end.
Definition Atoi (s : string) : option Z :=
  n ← match s with
      | String "-"%char s => Z.opp <$> number 10 s
      | String "+"%char s => number 10 s
      | _ => number 10 s
      end;
  if (- 2 ^ 63 <=? n) && (n <? 2 ^ 63) then Some n else None.
(** [strconv.ParseUint(s, 16, 32)] *)
Definition ParseUint_16_32 (s : string) : option Z :=
  n ← number 16 s; if n <? 2 ^ 32 then Some n else None.
(** [strings.TrimPrefix(s, "0x")] *)
Definition TrimPrefix_0x (s : string) : string :=
  match s with String "0"%char (String "x"%char s) => s | _ => s end.
(** [strings.SplitN(kv, "=", 2)], when it yields two parts. *)
Fixpoint split_eq (s : string) : option (string * string) :=
  match s with
  | EmptyString => None
  | String "="%char s => Some (EmptyString, s)
  | String c s => '(k, v) ← split_eq s; Some (String c k, v)
  end.
(** [strings.Join(parts, " ")] *)
Fixpoint join_words (parts : list string) : string :=
  match parts with
  | [] => ""
  | [p] => p
  | p :: parts => p ++ " " ++ join_words parts
  end.
(** The digits of [strconv.FormatInt], and the padding with zeros of [%04X]
    and [%04d]. *)
Definition format_digit (d : Z) : Ascii.ascii :=
  Ascii.ascii_of_N (Z.to_N (if d <? 10 then d + 48 else d + 55)).
Fixpoint format_go (base : Z) (fuel : nat) (n : Z) (acc : string) : string :=
  match fuel with
  | O => acc
  | S fuel =>
    let acc := String (format_digit (n mod base)) acc in
    if n / base =? 0 then acc else format_go base fuel (n / base) acc
  end.
Definition pad_left (width : nat) (s : string) : string :=
  Nat.iter (width - String.length s) (String "0"%char) s.
(** Eight digits are enough for a uint32, and nineteen for an int64 that is
    not negative. *)
Definition format_04X (n : Z) : string := pad_left 4 (format_go 16 8 n "").
Definition format_d (width : nat) (n : Z) : string := pad_left width (format_go 10 19 n "").

Section commands.
Context `{MapCodec}.
(** [strconv.ParseFloat(s, 64)] *)
Context (ParseFloat : string → option float64).
Implicit Types (parts : list string).

Definition parse_value (s : string) : Value :=
  match Atoi s with
  | Some i => VInt i
  | None =>
    match ParseFloat s with
    | Some f => VFloat f
    | None =>
      if decide (s = "true"%string) then VBool true
      else if decide (s = "false"%string) then VBool false
      else VStr s
    end
  end.

(** [data[k] = v] on a map kept as a list without repeated keys. *)
Fixpoint map_set (k : string) (v : Value) (m : list (string * Value)) : list (string * Value) :=
  match m with
  | [] => [(k, v)]
  | (k', v') :: m => if decide (k' = k) then (k, v) :: m else (k', v') :: map_set k v m
  end.
Definition biz_map (action : string) (kvPairs : list string) : list (string * Value) :=
  foldl (λ data kv, match split_eq kv with
                    | Some (k, v) => map_set k (parse_value v) data
                    | None => data
                    end) [("action", VStr action)]%string kvPairs.

(** The senders: marshalling errors are dropped, sending errors printed. *)
Definition send_quiet (msgType : Z) (m : list (string * Value)) (c : Client) : Client :=
  let payload := default [] (Marshal m) in
  let seq := u64 (cl_seq c + 1) in
  (sendFrame (mkFrame msgType seq payload) (mkClient seq (cl_ws c))).2.

Definition sendAuth (uid tok : string) : Client → Client :=
  send_quiet MsgTypeAuth [("token", VStr tok); ("user_id", VStr uid)]%string.
Definition sendJoin (rid : string) : Client → Client :=
  send_quiet MsgTypeJoinRoom [("room_id", VStr rid)]%string.
Definition sendLeave (rid : string) : Client → Client :=
  send_quiet MsgTypeLeaveRoom [("room_id", VStr rid)]%string.
Definition sendResume (rid : string) : Client → Client :=
  send_quiet MsgTypeResume [("room_id", VStr rid)]%string.
Definition sendHB (rid : string) (now_ms : Z) : Client → Client :=
  send_quiet MsgTypeHeartbeat [("room_id", VStr rid); ("timestamp", VInt now_ms)]%string.
Definition sendBiz (action : string) (kvPairs : list string) : Client → Client :=
  send_quiet MsgTypeBizRequest (biz_map action kvPairs).
Definition sendRaw (typeStr payloadJSON : string) : Client → Client := λ c,
  match ParseUint_16_32 (TrimPrefix_0x typeStr) with
  | None => c
  | Some msgType => send_quiet msgType [("raw", VStr payloadJSON)]%string c
  end.

(** One line of the loop; the flag says whether it goes on. *)
Definition run_command (fl : Flags) (now_ms : Z) parts (c : Client) : bool * Client :=
  let arg (n : nat) (d : string) := default d (parts !! n) in
  match parts with
  | [] => (true, c)
  | cmd :: _ =>
    if decide (cmd = "help"%string) then (true, c)
    else if decide (cmd = "auth"%string) then
      (true, sendAuth (arg 1%nat (fl_userID fl)) (arg 2%nat (fl_token fl)) c)
    else if decide (cmd = "join"%string) then (true, sendJoin (arg 1%nat (fl_roomID fl)) c)
    else if decide (cmd = "leave"%string) then (true, sendLeave (arg 1%nat (fl_roomID fl)) c)
    else if decide (cmd = "resume"%string) then (true, sendResume (arg 1%nat (fl_roomID fl)) c)
    else if decide (cmd = "hb"%string ∨ cmd = "heartbeat"%string) then
      (true, sendHB (arg 1%nat (fl_roomID fl)) now_ms c)
    else if decide (cmd = "biz"%string) then
      (true, match parts with _ :: action :: kvs => sendBiz action kvs c | _ => c end)
    else if decide (cmd = "raw"%string) then
      (true, match parts with _ :: t :: p :: ps => sendRaw t (join_words (p :: ps)) c | _ => c end)
    else if decide (cmd = "quit"%string ∨ cmd = "exit"%string) then (false, c)
    else (true, c)
  end.
End commands.

Definition getMsgTypeName (msgType : Z) : string :=
  let names : gmap Z string := list_to_map [
    (MsgTypeAuth, "Auth"); (MsgTypeJoinRoom, "JoinRoom"); (MsgTypeLeaveRoom, "LeaveRoom");
    (MsgTypeResume, "Resume"); (MsgTypeBizRequest, "BizRequest");
    (MsgTypeHeartbeat, "Heartbeat"); (MsgTypeAuthResp, "AuthResp");
    (MsgTypeJoinRoomResp, "JoinRoomResp"); (MsgTypeLeaveRoomResp, "LeaveRoomResp");
    (MsgTypeResumeResp, "ResumeResp"); (MsgTypePushMessage, "PushMessage");
    (MsgTypeBizResponse, "BizResponse"); (MsgTypeHeartbeatResp, "HeartbeatResp")]%string in
  default "Unknown"%string (names !! msgType).

(** The line [printFrame] prints, without the payload. *)
Definition printFrame (direction : string) (f : Frame) : string * string * string * Z :=
  (direction, ("0x" ++ format_04X (f_MsgType f))%string, getMsgTypeName (f_MsgType f), f_Seq f).
End Interactive.


(** ** The client's frame codec *)
Lemma encodeFrame_EncodeFrame f : encodeFrame f = EncodeFrame f.
Proof. done. Qed.

Definition sized (payload : list byte) : Prop := Z.of_nat (length payload) < 2 ^ 32.

Lemma decodeFrame_wire f rest :
  frame_wf f → sized (f_Payload f) → decodeFrame (wire f ++ rest) = Ok f.
Proof.
  intros [Ht Hs] Hlen. destruct (wire_header f rest) as (H1 & H2 & H3 & H4).
  unfold decodeFrame, sized in *. rewrite H1, H2, H3, !Uint32_Put, Uint64_Put.
  rewrite !u32_small, u64_small by lia. rewrite length_app, length_wire.
  destruct (Nat.ltb_spec (HeaderSize + length (f_Payload f) + length rest) HeaderSize); [lia|].
  destruct (Z.ltb_spec (Z.of_nat (HeaderSize + length (f_Payload f) + length rest))
    (Z.of_nat HeaderSize + Z.of_nat (length (f_Payload f)))); [lia|].
  destruct f as [t s p]. cbn [f_MsgType f_Seq f_Payload] in *. f_equal. f_equal.
  unfold slice. rewrite H4.
  replace (Z.to_nat (Z.of_nat HeaderSize + Z.of_nat (length p)) - HeaderSize)%nat
    with (length p) by lia.
  destruct (Z.ltb_spec 0 (Z.of_nat (length p))); [by rewrite take_app_length|].
  destruct p; [done|simpl in *; lia].
Qed.

Lemma decodeFrame_app f rest :
  frame_wf f → sized (f_Payload f) → decodeFrame (EncodeFrame f ++ rest) = Ok f.
Proof. rewrite EncodeFrame_wire. apply decodeFrame_wire. Qed.

Lemma decodeFrame_encode f :
  frame_wf f → sized (f_Payload f) → decodeFrame (EncodeFrame f) = Ok f.
Proof. intros. rewrite <-(app_nil_r (EncodeFrame f)). by apply decodeFrame_app. Qed.

Lemma frame_ok_sized f : frame_ok f → sized (f_Payload f).
Proof. intros [_ H]. rewrite MaxPayloadLen_val in H. unfold sized. lia. Qed.

Lemma decodeFrame_complete data f : DecodeFrame data = Done (Ok f) → decodeFrame data = Ok f.
Proof.
  rewrite DecodeFrame_run. intros [= Hd]. revert Hd. unfold decoded, decodeFrame. case_match; [done|]. cbv zeta.
  destruct (MaxPayloadLen <? _); [done|].
  destruct (Z.of_nat (length data) <? Z.of_nat HeaderSize + _); [done|]. by intros [= <-].
Qed.

(** The client's own decoder accepts exactly the images of frames whose
    payload length fits the header, with anything behind them: it agrees
    with the one of the protocol package wherever that one succeeds, and
    lacks only its limit of 1 MiB. *)
Theorem decodeFrame_spec data f :
  decodeFrame data = Ok f ↔
  frame_wf f ∧ sized (f_Payload f) ∧ ∃ rest, data = EncodeFrame f ++ rest.
Proof.
  split; [|intros (Hwf & Hs & rest & ->); by apply decodeFrame_app].
  intros Hd. pose proof Hd as Hd'. unfold decodeFrame in Hd.
  destruct (Nat.ltb_spec (length data) HeaderSize) as [|Hl]; [done|].
  pose proof (declared_range data Hl) as Hr.
  destruct (Z.ltb_spec (Z.of_nat (length data))
    (Z.of_nat HeaderSize + Uint32 (slice 12 16 data))) as [|Hn]; [done|]. clear Hd.
  destruct (wire_of_data data (Z.to_nat (Uint32 (slice 12 16 data)))) as [Hwf Hw]; [lia..|].
  match type of Hw with _ = wire ?f ++ _ => set (f0 := f) in * end.
  assert (sized (f_Payload f0)) as Hs.
  { unfold sized, f0. cbn [f_Payload]. rewrite length_take, length_drop. lia. }
  rewrite Hw, decodeFrame_wire in Hd' by done. injection Hd' as <-.
  split_and!; [done..|]. eexists. by rewrite EncodeFrame_wire.
Qed.


(** ** One frame per WebSocket message *)
(** The decoded frame of a packed batch is its first one. *)
Lemma decodeFrame_packed f fs :
  frame_ok f → decodeFrame (packMessages (EncodeFrame <$> f :: fs)) = Ok f.
Proof.
  intros Hf. rewrite packMessages_concat. apply decodeFrame_app; [apply Hf|].
  by apply frame_ok_sized.
Qed.

(** Of every WebSocket message that the gateway's write loop packs, the
    client sees the first frame and drops the others: what its receive loop
    passes on is the first frame of every batch, without the answers to
    heartbeats. *)
Theorem receiveLoop_packed (batches : list (Frame * list Frame)) :
  Forall (λ b, frame_ok b.1) batches →
  receiveLoop ((λ b, packMessages (EncodeFrame <$> b.1 :: b.2)) <$> batches) =
  filter (λ f, f_MsgType f ≠ MsgTypeHeartbeatResp) batches.*1.
Proof.
  induction 1 as [|[f fs] batches Hf _ IH]; [done|]. rewrite !(fmap_cons _ (f, fs)).
  cbn [receiveLoop fst snd]. rewrite decodeFrame_packed, filter_cons, <-IH by done.
  destruct (Z.eqb_spec (f_MsgType f) MsgTypeHeartbeatResp); case_decide; done.
Qed.

(** A push packed behind a heartbeat answer, and a second push, never
    reach the user. *)
Lemma receiveLoop_packed_witness :
  let beat := mkFrame MsgTypeHeartbeatResp 0 [] in
  let push n := mkFrame MsgTypePushMessage n [Byte.x61] in
  receiveLoop [packMessages (EncodeFrame <$> [beat; push 1]);
               packMessages (EncodeFrame <$> [push 2; push 3])] = [push 2].
Proof.
  apply (receiveLoop_packed [
    (mkFrame MsgTypeHeartbeatResp 0 [], [mkFrame MsgTypePushMessage 1 [Byte.x61]]);
    (mkFrame MsgTypePushMessage 2 [Byte.x61], [mkFrame MsgTypePushMessage 3 [Byte.x61]])]).
  repeat constructor; by_computation.
Defined.

(** ** The handshake *)
Section handshake.
Context `{MC : MapCodec} `{LA : MsgpackLaws AuthRequest, LR : MsgpackLaws RoomRequest,
  LS : MsgpackLaws StatusResponse} `{MJ : Msgpack JoinResponse} `{ML : !MapLaws}.
Context `{LP : MsgpackLaws AuthResponse} `{LL : Msgpack LeaveResponse}.
Context `{Msgpack JoinRoomRequest, Msgpack LeaveRoomRequest, Msgpack ResumeRequest,
  Msgpack DisconnectNotify} `{O : MapOrder}.
Implicit Types (fl : Flags).

(** A connection on which the server will deliver [incoming]. *)
Definition dialled (seq : Z) (incoming out : list (list byte)) : Client :=
  mkClient seq (mkWs incoming out true).

Definition auth_map fl : list (string * Value) :=
  [("token", VStr (fl_token fl)); ("user_id", VStr (fl_userID fl))]%string.
Definition room_map (rid : string) : list (string * Value) := [("room_id", VStr rid)]%string.

(** The message the client writes. *)
Definition message (msgType seq : Z) (m : list (string * Value)) : list byte :=
  EncodeFrame (mkFrame msgType (u64 seq) (default [] (Marshal m))).
Definition small (m : list (string * Value)) : Prop :=
  Z.of_nat (length (default [] (Marshal m))) <= MaxPayloadLen.

Lemma send_map_run msgType m seq incoming out :
  send_map msgType m (dialled seq incoming out) =
  (Ok tt, dialled (u64 (seq + 1)) incoming (out ++ [message msgType (seq + 1) m])).
Proof. unfold send_map, message. by destruct (Marshal_ok m) as [payload ->]. Qed.

Lemma decode_message msgType seq m :
  0 <= msgType < 2 ^ 32 → small m →
  DecodeFrame (message msgType seq m) =
  Done (Ok (mkFrame msgType (u64 seq) (default [] (Marshal m)))).
Proof.
  intros Ht Hs. unfold message. rewrite <-(app_nil_r (EncodeFrame _)). apply DecodeFrame_app.
  split; [|done]. split; [done|]. apply Z.mod_pos_bound. lia.
Qed.

Lemma recvFrame_run seq f rest out :
  frame_wf f → sized (f_Payload f) →
  recvFrame (dialled seq (EncodeFrame f :: rest) out) = (Ok f, dialled seq rest out).
Proof. intros. unfold recvFrame. simpl. by rewrite decodeFrame_encode. Qed.

(** What the client makes of the answer of the gateway. *)
Definition auth_result (resp : AuthResponse) : result ClientError AuthResponse :=
  if ar_Success resp then Ok resp else Err (Refused (ar_Code resp) (ar_Message resp)).
Definition answer_sized (resp : AuthResponse) : Prop := sized (Encode_ resp).

Lemma sendAuthResp_frame gwID ok u code msg :
  sendAuthResp gwID ok u code msg =
  [EncodeFrame (mkFrame MsgTypeAuthResp 0 (Encode_ (mkAuthResponse ok u gwID code msg)))].
Proof.
  unfold sendAuthResp, Encode_. by destruct (Decode_Encode (mkAuthResponse ok u gwID code msg))
    as (b & -> & _).
Qed.

Lemma authenticate_answer fl seq out resp rest :
  answer_sized resp →
  authenticate fl (dialled seq
    (EncodeFrame (mkFrame MsgTypeAuthResp 0 (Encode_ resp)) :: rest) out) =
  (auth_result resp,
   dialled (u64 (seq + 1)) rest (out ++ [message MsgTypeAuth (seq + 1) (auth_map fl)])).
Proof.
  intros Hs. unfold authenticate. unfold mbind at 1, C_bind at 1. rewrite send_map_run.
  unfold mbind at 1, C_bind at 1. rewrite recvFrame_run; [|split; simpl; by unfold MsgTypeAuthResp|done].
  cbn [f_MsgType f_Payload]. rewrite Z.eqb_refl. cbn [negb]. rewrite Decode_Encode_.
  unfold auth_result. by destruct (ar_Success resp).
Qed.
(** What the client makes of the first frame it gets after its request. *)
Definition join_result (f : Frame) : result ClientError JoinResponse :=
  if negb (f_MsgType f =? MsgTypeJoinRoomResp) then Err (UnexpectedType (f_MsgType f))
  else match Decode (f_Payload f) with
  | None => Err UnmarshalFailed
  | Some resp => if jr_Success resp then Ok resp else Err (Refused (jr_Code resp) (jr_Message resp))
  end.

Lemma joinRoom_first fl seq f fs rest out :
  frame_ok f →
  joinRoom fl (dialled seq (packMessages (EncodeFrame <$> f :: fs) :: rest) out) =
  (join_result f, dialled (u64 (seq + 1)) rest
     (out ++ [message MsgTypeJoinRoom (seq + 1) (room_map (fl_roomID fl))])).
Proof.
  intros Hf. unfold joinRoom. unfold mbind at 1, C_bind at 1. rewrite send_map_run.
  unfold mbind at 1, C_bind at 1, recvFrame. cbn [ws_in cl_ws dialled].
  rewrite decodeFrame_packed by done. unfold join_result, fail, mret, C_ret. by case_all.
Qed.

Definition join_answer : Frame :=
  mkFrame MsgTypeJoinRoomResp 0 (Encode_ (mkStatusResponse true ErrCodeSuccess "")).

Lemma join_result_answer : join_result join_answer = Ok (mkJoinResponse true "" ErrCodeSuccess "").
Proof.
  unfold join_result. cbn [join_answer f_MsgType f_Payload]. rewrite Z.eqb_refl. cbn [negb].
  unfold Encode_. destruct (Decode_Encode (mkStatusResponse true ErrCodeSuccess "")) as (b & Hb & _).
  rewrite Hb. cbn [default]. by rewrite (Decode_join_response _ _ _ _ Hb).
Qed.

(** C36. A join, end to end, at a gateway in normal mode, of a client whose
    queue has a free slot and holds no join answer yet: the gateway passes
    the request on, and when the roomserver confirms it the user is in the
    room.  The client reports the success (without the name of the room,
    which the answer does not have) only when nothing else was queued for it:
    a frame queued before the answer, such as a push, makes it report a
    failed join, with the user in the room. *)
Theorem join_agrees kafka now_ms msgID ref fl seq g (c : Connection) (queue : list Frame) :
  let msg := message MsgTypeJoinRoom (seq + 1) (room_map (fl_roomID fl)) in
  let u := c_UserID c in
  small (room_map (fl_roomID fl)) → frame_ok join_answer →
  held g = [] → g_status g = StatusNormal →
  objects g !! ref = Some c → connections g !! u = Some ref →
  ch_buf (c_sendCh c) = EncodeFrame <$> queue → (length queue < ch_cap (c_sendCh c))%nat →
  Forall (λ f, frame_ok f ∧ f_MsgType f ≠ MsgTypeJoinRoomResp) queue →
  ∃ g1 g2 c2,
    GatewayHandler.handleMessage kafka now_ms msgID ref msg g = Done (tt, g1) ∧
    rs_sendCh g1 = queue_all [join_envelope (cfg_ID (g_cfg g)) u (fl_roomID fl)] (rs_sendCh g) ∧
    OnJoinRoomAck u (fl_roomID fl) true ErrCodeSuccess "" g1 = Done (tt, g2) ∧
    objects g2 !! ref = Some c2 ∧
    c_JoinState c2 = JoinStateConfirmed ∧ c_RoomID c2 = fl_roomID fl ∧
    (∃ us, localRooms g2 !! fl_roomID fl = Some us ∧ u ∈ us) ∧
    (joinRoom fl (dialled seq [packMessages (ch_buf (c_sendCh c2))] [])).1 =
      match queue with
      | [] => Ok (mkJoinResponse true "" ErrCodeSuccess "")
      | f :: _ => Err (UnexpectedType (f_MsgType f))
      end.
Proof.
  intros msg u Hsm Ha Hh Hst Hc Hu Hq Hlen Hfs.
  assert (Decode (default [] (Marshal (room_map (fl_roomID fl)))) =
          Some (mkRoomRequest (fl_roomID fl))) as Hd.
  { destruct (Marshal_ok (room_map (fl_roomID fl))) as [b Hb]. rewrite Hb.
    by apply (Decode_room_map _ []). }
  eexists _, _, _. split.
  { unfold GatewayHandler.handleMessage, msg, mbind at 1, G_bind at 1.
    erewrite (lift_run (DecodeFrame _)) by by apply decode_message. cbn beta iota.
    by apply handleJoinRoom_run. }
  split; [done|]. split.
  { eapply OnJoinRoomAck_success; [done..|]. apply lookup_insert_eq. }
  split; [apply lookup_insert_eq|].
  set (c1 := set_c_join _ _ (set_c_join _ _ c)).
  pose proof (Send_frame (join_response true ErrCodeSuccess "") (clock g) c1)
    as (_ & HJ & HR & _). split; [exact HJ|]. split; [exact HR|].
  split. { eexists. split; [apply lookup_insert_eq|]. cbn. set_solver. }
  unfold Send. rewrite decide_True by (cbn; by rewrite Hq, length_fmap).
  cbn [snd set_c_health set_c_sendCh c_sendCh]. unfold sent.
  rewrite decide_True by (cbn; by rewrite Hq, length_fmap). cbn [ch_buf].
  change (c_sendCh c1) with (c_sendCh c). rewrite Hq.
  change [join_response true ErrCodeSuccess ""] with (EncodeFrame <$> [join_answer]).
  rewrite <-fmap_app. destruct Hfs as [|f fs [Hf Ht] _].
  - rewrite app_nil_l, joinRoom_first by done. apply join_result_answer.
  - rewrite <-app_comm_cons, joinRoom_first by done. unfold join_result.
    by apply Z.eqb_neq in Ht as ->.
Qed.
Context (ParseWithClaims : string → (SigningMethod → option (list byte)) → ParseResult).

(** The gateway's answer that the client reads. *)
Definition first_answer (gwID : string) (r : result LoginError string) : AuthResponse :=
  match r with
  | Ok u => mkAuthResponse true u gwID ErrCodeSuccess ""
  | Err LoginTokenExpired => mkAuthResponse false "" gwID ErrCodeTokenExpired "token expired"
  | Err e => mkAuthResponse false "" gwID ErrCodeAuthFailed (login_error e)
  end.

Definition answer_frame (resp : AuthResponse) : list byte :=
  EncodeFrame (mkFrame MsgTypeAuthResp 0 (Encode_ resp)).

(** What the gateway writes for a login, whatever its outcome. *)
Lemma authenticate_replies gwID jwt read r sent :
  Login.authenticate ParseWithClaims gwID jwt read = Done (r, sent) →
  match r with
  | Ok _ => sent = [answer_frame (first_answer gwID r)]
  | Err e => ∃ rest, sent ++ sendAuthResp gwID false "" ErrCodeAuthFailed (login_error e) =
      answer_frame (first_answer gwID r) :: rest
  end.
Proof.
  unfold Login.authenticate, mret, outcome_ret. intros Ha. unfold answer_frame.
  destruct read as [data|];
    [|injection Ha as <- <-; rewrite ?sendAuthResp_frame; by eexists].
  destruct (DecodeFrame_returns data) as [res Hres]. rewrite Hres, outcome_bind_ret in Ha.
  repeat (case_match; simplify_eq/=); rewrite ?sendAuthResp_frame; try done; by eexists.
Qed.

(** Who the gateway takes the client for, when tokens are not checked. *)
Lemma login_user gwID jwt fl seq u :
  small (auth_map fl) → jwt = None ∨ is_mock_token (fl_token fl) = true →
  fst <$> Login.authenticate ParseWithClaims gwID jwt
     (Some (message MsgTypeAuth seq (auth_map fl))) = Done (Ok u) → u = fl_userID fl.
Proof.
  intros Hs Hm. unfold Login.authenticate. rewrite decode_message by (done || by unfold MsgTypeAuth).
  rewrite outcome_bind_ret.
  cbn [f_MsgType f_Payload]. rewrite Z.eqb_refl. cbn [negb].
  destruct (Marshal_ok (auth_map fl)) as [b Hb]. rewrite Hb. cbn [default].
  rewrite (Decode_auth_map _ _ _ Hb). cbv zeta. cbn [aq_Token aq_UserID].
  destruct jwt as [v|].
  - destruct Hm as [|Hm]; [done|]. unfold ValidateOrMock. rewrite Hm. cbn [cl_UserID].
    case_decide; by intros [= <-].
  - case_decide; by intros [= <-].
Qed.

(** C35. The first login of a user, end to end.  [r] is what the gateway makes
    of the client's authentication message.  If it names a user, that user is
    not connected yet and has a distributor: then the client reports success
    exactly when the gateway registered its connection, under the user id the
    client is told; when tokens are not checked this is the user id it asked
    for.  A refused client learns the code and the reason, and the gateway is
    as before.  (Request and answer are of a size that a frame can carry.
    For a user that is still connected the code answers success and then
    blocks before it registers the connection, see
    [AddConnection_replacing_deadlocks].) *)
Theorem login_agrees jwt fl seq connID g r :
  let msg := message MsgTypeAuth (seq + 1) (auth_map fl) in
  fst <$> Login.authenticate ParseWithClaims (cfg_ID (g_cfg g)) jwt (Some msg) = Done r →
  small (auth_map fl) → sessions_ok g → answer_sized (first_answer (cfg_ID (g_cfg g)) r) →
  (∀ u, r = Ok u → connections g !! u = None ∧
     ∃ i, shard_index u (length (distributors g)) = Done i) →
  ∃ replies reg g' res c',
    handleWebSocket ParseWithClaims jwt (Some msg) connID g = Done ((replies, reg), g') ∧
    authenticate fl (dialled seq replies []) = (res, c') ∧ ws_out (cl_ws c') = [msg] ∧
    match res with
    | Ok resp => ∃ ref, reg = Some ref ∧
        connections g' = <[ar_UserID resp := ref]> (connections g) ∧
        ar_GatewayID resp = cfg_ID (g_cfg g) ∧
        (jwt = None ∨ is_mock_token (fl_token fl) = true → ar_UserID resp = fl_userID fl)
    | Err e => reg = None ∧ g' = g ∧ ∃ code reason, e = Refused code reason
    end.
Proof.
  intros msg Hr0 Hsm Hok Hsz Hfree.
  destruct (Login.authenticate _ _ _ _) as [[r0 sent]| |] eqn:Ha; try done.
  injection Hr0 as ->. destruct r as [u|e].
  - pose proof (authenticate_replies _ _ _ _ _ Ha) as Hr. cbv beta iota in Hr.
    destruct (Hfree u eq_refl) as [Hn [i Hi]].
    destruct (handleWebSocket_ok ParseWithClaims jwt (Some msg) u sent connID i g)
      as (g' & ref & Hrun & _ & Hc & _); [done..|].
    eexists sent, (Some ref), g', _, _. split; [done|]. subst sent.
    unfold answer_frame at 1. rewrite authenticate_answer by done.
    split; [done|]. split; [done|]. exists ref. split_and!; [done..|]. intros Hm.
    eapply (login_user (cfg_ID (g_cfg g)) jwt fl (seq + 1) u); [done..|].
    fold msg. by rewrite Ha.
  - pose proof (authenticate_replies _ _ _ _ _ Ha) as [rest Hr].
    eexists _, None, g, _, _. split.
    { unfold handleWebSocket, mbind, G_bind, gets, mret, G_ret.
      by rewrite (lift_run _ _ _ Ha). }
    rewrite Hr. unfold answer_frame at 1. rewrite authenticate_answer by done.
    split; [done|]. split; [done|]. by destruct e; split_and!; try by eexists _, _.
Qed.
End handshake.


(** ** The interactive commands *)
Section interactive.
Import Interactive.
Context `{MC : MapCodec} (ParseFloat : string → option float64).
Implicit Types (c : Client) (s : string).

Lemma digits_nonneg base a s n : 0 <= base → 0 <= a → digits base a s = Some n → 0 <= n.
Proof.
  intros Hb. revert a. induction s as [|ch s IH]; intros a Ha; cbn [digits]; [by intros [= <-]|].
  unfold digit. repeat case_match; try done; cbn [mbind option_bind]; apply IH; lia.
Qed.

Lemma number_nonneg base s n : 0 <= base → number base s = Some n → 0 <= n.
Proof. intros Hb. destruct s; [done|]. by apply digits_nonneg. Qed.

Lemma digit_smaller base (c : ascii) d :
  base <= 16 → d < base → digit 16 c = Some d → digit base c = Some d.
Proof.
  intros Hb Hd. unfold digit. intros Hc. repeat case_match; simplify_eq;
    rewrite ?Z.ltb_lt, ?Z.ltb_ge in *; first [done|lia].
Qed.

Lemma digit_format_digit base d :
  base <= 16 → 0 <= d < base → digit base (format_digit d) = Some d.
Proof.
  intros Hb Hd. apply digit_smaller; [done|lia|].
  assert (∃ n : nat, d = Z.of_nat n ∧ (n < 16)%nat) as (n & -> & Hn)
    by (exists (Z.to_nat d); lia).
  clear Hd. do 16 (destruct n as [|n]; [done|]). lia.
Qed.

Section format.
Context (base : Z) (Hbase : 1 < base <= 16).

Lemma digits_format_go k n s :
  0 <= n < base ^ Z.of_nat k → digits base 0 (format_go base k n s) = digits base n s.
Proof.
  revert n s. induction k as [|k IH]; intros n s Hn.
  { change (base ^ Z.of_nat 0) with 1 in Hn. by replace n with 0 by lia. }
  rewrite Nat2Z.inj_succ, Z.pow_succ_r in Hn by lia. cbn [format_go].
  pose proof (Z.mod_pos_bound n base ltac:(lia)) as Hm.
  pose proof (Z.div_mod n base ltac:(lia)) as Hdm.
  assert (∀ a, digits base a (String (format_digit (n mod base)) s) =
               digits base (a * base + n mod base) s)
    as Hstep by (intros a; cbn [digits]; by rewrite digit_format_digit by lia).
  destruct (Z.eqb_spec (n / base) 0) as [Hz|Hz].
  - rewrite Hstep. f_equal. lia.
  - rewrite IH, Hstep; [f_equal; lia|]. split; [apply Z.div_pos; lia|].
    apply Z.div_lt_upper_bound; lia.
Qed.

Lemma digits_pad_left w s : digits base 0 (pad_left w s) = digits base 0 s.
Proof.
  unfold pad_left. induction (w - String.length s)%nat as [|k IH]; [done|].
  rewrite Nat.iter_succ. cbn [digits]. replace (digit base "0"%char) with (Some 0); [exact IH|].
  symmetry. apply (digit_format_digit base 0); lia.
Qed.

Lemma format_go_ne k n s : format_go base (S k) n s ≠ ""%string.
Proof.
  revert n s. induction k as [|k IH]; intros n s; cbn [format_go]; case_match; [done..|].
  apply IH.
Qed.

(** Printed numbers read back. *)
Lemma number_format w k n :
  0 <= n < base ^ Z.of_nat (S k) → number base (pad_left w (format_go base (S k) n "")) = Some n.
Proof.
  intros Hn. pose proof (format_go_ne k n "") as Hne.
  assert (∀ s, s ≠ ""%string → number base s = digits base 0 s) as Hnum by by intros [].
  rewrite Hnum, digits_pad_left, digits_format_go by
    (done || unfold pad_left; by destruct (w - String.length _)%nat). done.
Qed.
End format.

Lemma parse_format n :
  0 <= n < 2 ^ 32 → ParseUint_16_32 (format_04X n) = Some n.
Proof.
  intros Hn. unfold ParseUint_16_32, format_04X. rewrite number_format by (done || lia).
  cbn. by destruct (Z.ltb_spec n (2 ^ 32)); [|lia].
Qed.

Lemma format_d_inj w n m :
  0 <= n < 10 ^ 19 → 0 <= m < 10 ^ 19 → format_d w n = format_d w m → n = m.
Proof.
  intros Hn Hm Heq. apply (f_equal (number 10)) in Heq. unfold format_d in Heq.
  rewrite !number_format in Heq by (done || lia). by injection Heq.
Qed.

(** The effect of a sender on an open connection. *)
Definition sent_on (f : Frame) c : Client :=
  mkClient (u64 (cl_seq c + 1))
    (mkWs (ws_in (cl_ws c)) (ws_out (cl_ws c) ++ [EncodeFrame f]) (ws_open (cl_ws c))).

Lemma send_quiet_run msgType m c :
  ws_open (cl_ws c) = true →
  send_quiet msgType m c =
  sent_on (mkFrame msgType (u64 (cl_seq c + 1)) (default [] (Marshal m))) c.
Proof. intros Ho. unfold send_quiet, sendFrame, sent_on. cbn [cl_ws]. by rewrite Ho. Qed.

(** What the client prints of a frame can be typed back: [raw] with the
    printed type sends a frame of exactly that type. *)
Theorem sendRaw_printed f payload direction c :
  frame_wf f → ws_open (cl_ws c) = true →
  sendRaw (printFrame direction f).1.1.2 payload c =
  sent_on (mkFrame (f_MsgType f) (u64 (cl_seq c + 1))
             (default [] (Marshal [("raw", VStr payload)]%string))) c.
Proof.
  intros [Ht _] Ho. unfold sendRaw, printFrame. cbn [fst snd].
  change (TrimPrefix_0x ("0x" ++ format_04X (f_MsgType f))) with (format_04X (f_MsgType f)).
  rewrite parse_format by done. by apply send_quiet_run.
Qed.

(** The loop over the lines that are typed, each with the clock reading. *)
Fixpoint run_commands (fl : Flags) (lines : list (Z * list string)) c : Client :=
  match lines with
  | [] => c
  | (now_ms, parts) :: lines =>
    match run_command ParseFloat fl now_ms parts c with
    | (true, c) => run_commands fl lines c
    | (false, c) => c
    end
  end.

(** A line sends nothing or one frame. *)
Lemma run_command_sends fl now_ms parts c :
  ws_open (cl_ws c) = true →
  let c' := (run_command ParseFloat fl now_ms parts c).2 in
  c' = c ∨ ∃ t payload, 0 <= t < 2 ^ 32 ∧
    c' = sent_on (mkFrame t (u64 (cl_seq c + 1)) payload) c.
Proof.
  intros Ho. destruct parts as [|cmd args]; [by left|]. cbn [run_command].
  assert (∀ t m, 0 <= t < 2 ^ 32 → ∃ t' payload, 0 <= t' < 2 ^ 32 ∧
    send_quiet t m c = sent_on (mkFrame t' (u64 (cl_seq c + 1)) payload) c) as Hq.
  { intros t m Ht. exists t, (default [] (Marshal m)). split; [done|]. by apply send_quiet_run. }
  repeat (case_decide; [first [by left|right; by apply Hq|idtac]|]); [..|by left].
  - destruct args as [|action kvs]; [by left|]. right. by apply Hq.
  - destruct args as [|t [|p ps]]; [by left..|]. cbn [snd]. unfold sendRaw.
    destruct (ParseUint_16_32 _) as [n|] eqn:Hn; [|by left]. right. apply Hq.
    unfold ParseUint_16_32 in Hn. destruct (number 16 _) as [k|] eqn:Hk; [|done].
    cbn [mbind option_bind] in Hn. destruct (Z.ltb_spec k (2 ^ 32)); [|done].
    injection Hn as <-. split; [by eapply (number_nonneg 16)|done].
Qed.

(** Whatever is typed, the interactive client writes one well-formed
    frame per WebSocket message, with sequence numbers that follow each
    other, and its counter is the last one. *)
Theorem commands_in_sequence fl lines c :
  ws_open (cl_ws c) = true → 0 <= cl_seq c < 2 ^ 64 →
  ∃ fs : list Frame,
    let c' := run_commands fl lines c in
    ws_out (cl_ws c') = ws_out (cl_ws c) ++ (encodeFrame <$> fs) ∧
    Forall frame_wf fs ∧
    f_Seq <$> fs = (λ i, u64 (cl_seq c + Z.of_nat i)) <$> seq 1 (length fs) ∧
    cl_seq c' = u64 (cl_seq c + Z.of_nat (length fs)).
Proof.
  revert c. induction lines as [|[now parts] lines IH]; intros c Ho Hs.
  { exists []. cbn. rewrite app_nil_r, Z.add_0_r, u64_small by done. by split_and!. }
  cbn [run_commands]. pose proof (run_command_sends fl now parts c Ho) as Hc. cbv zeta in Hc.
  destruct (run_command _ _ _ _ _) as [go c1]. cbn [snd] in Hc.
  assert (∃ fs : list Frame,
    ws_out (cl_ws c1) = ws_out (cl_ws c) ++ (encodeFrame <$> fs) ∧ Forall frame_wf fs ∧
    f_Seq <$> fs = (λ i, u64 (cl_seq c + Z.of_nat i)) <$> seq 1 (length fs) ∧
    cl_seq c1 = u64 (cl_seq c + Z.of_nat (length fs)) ∧ ws_open (cl_ws c1) = true)
    as (fs1 & Hw1 & Hf1 & Hs1 & Hc1 & Ho1).
  { pose proof (Z.mod_pos_bound (cl_seq c + 1) (2 ^ 64) ltac:(lia)) as Hm.
    destruct Hc as [->|(t & p & Ht & ->)].
    - exists []. cbn. rewrite app_nil_r, Z.add_0_r, u64_small by done. by split_and!.
    - exists [mkFrame t (u64 (cl_seq c + 1)) p]. split_and!; [done| |done|done|done].
      apply Forall_singleton. by split. }
  destruct go; [|by exists fs1]. pose proof (Z.mod_pos_bound
    (cl_seq c + Z.of_nat (length fs1)) (2 ^ 64) ltac:(lia)) as Hm1.
  destruct (IH c1 Ho1 ltac:(by rewrite Hc1)) as (fs2 & Hw2 & Hf2 & Hs2 & Hc2).
  exists (fs1 ++ fs2). cbv zeta in *. split_and!.
  - by rewrite Hw2, Hw1, fmap_app, <-app_assoc.
  - by apply Forall_app.
  - rewrite fmap_app, length_app, seq_app, fmap_app, Hs1, Hs2, Hc1. f_equal.
    replace (1 + length fs1)%nat with (length fs1 + 1)%nat by lia.
    rewrite <-fmap_add_seq, <-list_fmap_compose. apply list_fmap_ext. intros _ i _. cbn.
    unfold u64. rewrite Zplus_mod_idemp_l. f_equal. lia.
  - rewrite Hc2, Hc1, length_app. unfold u64. rewrite Zplus_mod_idemp_l. f_equal. lia.
Qed.

(** The list that stands for the Go map of a business request. *)
Lemma map_set_lookup k v m :
  list_to_map (map_set k v m) = <[k := v]> (list_to_map m : gmap string Value).
Proof.
  induction m as [|[k' v'] m IH]; [done|]. cbn [map_set]. case_decide as Hk; [subst|]; simpl.
  - by rewrite insert_insert_eq.
  - rewrite IH. by apply insert_insert_ne.
Qed.

Lemma map_set_keys k v m x : x ∈ (map_set k v m).*1 ↔ x = k ∨ x ∈ m.*1.
Proof.
  induction m as [|[k' v'] m IH]; cbn [map_set]; [set_solver|].
  case_decide; set_solver.
Qed.

Lemma map_set_NoDup k v m : NoDup m.*1 → NoDup (map_set k v m).*1.
Proof.
  induction m as [|[k' v'] m IH]; cbn [map_set].
  { intros _. apply NoDup_singleton. }
  intros [Hn Hm]%NoDup_cons. case_decide as Hk; [by subst; apply NoDup_cons|].
  apply NoDup_cons. split; [|auto]. change ((_, _).1) with k'. rewrite map_set_keys. naive_solver.
Qed.

(** The payload of [biz] is the map the code builds: the action, then
    the assignments in order, so that the last one of a key wins, and one to
    "action" replaces the action itself. *)
Theorem biz_map_refines action kvPairs :
  NoDup (biz_map ParseFloat action kvPairs).*1 ∧
  list_to_map (biz_map ParseFloat action kvPairs) =
  foldl (λ m kv, match split_eq kv with
                 | Some (k, v) => <[k := parse_value ParseFloat v]> m
                 | None => m
                 end) ({["action" := VStr action]}%string : gmap string Value) kvPairs.
Proof.
  unfold biz_map.
  set (m0 := [("action", VStr action)]%string). set (g0 := {[ _ := _ ]}).
  assert (NoDup m0.*1) as Hn by apply NoDup_singleton.
  assert (list_to_map m0 = g0) as Hg by done. clearbody m0 g0.
  revert m0 g0 Hn Hg. induction kvPairs as [|kv kvs IH]; intros m0 g0 Hn Hg; [done|].
  cbn [foldl]. apply IH; destruct (split_eq kv) as [[k v]|]; try done.
  - by apply map_set_NoDup.
  - by rewrite map_set_lookup, Hg.
Qed.
End interactive.

(** ** Concrete instances *)
(** A codec that, as msgpack does, encodes structs as maps keyed by the
    names of their fields. *)
Module KeyedCodec.
Import ToyCodec.

#[export] Instance spec_float_eq_dec : EqDecision spec_float.
Proof. solve_decision. Defined.
#[export] Instance spec_float_countable : Countable spec_float.
Proof.
  refine (inj_countable' (λ f, match f with
    | S754_zero s => inl (inl s) | S754_infinity s => inl (inr s)
    | S754_nan => inr (inl ()) | S754_finite s m e => inr (inr (s, m, e)) end)
   (λ x, match x with
    | inl (inl s) => S754_zero s | inl (inr s) => S754_infinity s
    | inr (inl _) => S754_nan | inr (inr (s, m, e)) => S754_finite s m e end) _). by intros [].
Defined.
#[export] Instance Value_eq_dec : EqDecision Value.
Proof. solve_decision. Defined.
#[export] Instance Value_countable : Countable Value.
Proof.
  refine (inj_countable' (λ v, match v with
    | VStr s => inl (inl s) | VInt z => inl (inr z)
    | VFloat f => inr (inl f) | VBool b => inr (inr b) end)
   (λ x, match x with
    | inl (inl s) => VStr s | inl (inr z) => VInt z
    | inr (inl f) => VFloat f | inr (inr b) => VBool b end) _). by intros [].
Defined.

Definition put_fields (m : list (string * Value)) : list byte := bits_of_pos (encode m).
Definition get_fields (b : list byte) : option (list (string * Value)) := decode (pos_of_bits b).
Lemma get_put_fields m : get_fields (put_fields m) = Some m.
Proof. unfold get_fields, put_fields. by rewrite pos_of_bits_of_pos, decode_encode. Qed.

Definition field (k : string) (m : list (string * Value)) : option Value :=
  snd <$> List.find (λ kv, String.eqb kv.1 k) m.
Definition str_field k m : string := match field k m with Some (VStr s) => s | _ => "" end.
Definition int_field k m : Z := match field k m with Some (VInt z) => z | _ => 0 end.
Definition bool_field k m : bool := match field k m with Some (VBool b) => b | _ => false end.

#[export] Instance keyed_map : MapCodec := {| Marshal m := Some (put_fields m) |}.
#[export] Instance keyed_auth : Msgpack AuthRequest := {|
  Encode r := Some (put_fields [("token", VStr (aq_Token r)); ("user_id", VStr (aq_UserID r))]%string);
  Decode b := (λ m, mkAuthRequest (str_field "token" m) (str_field "user_id" m)) <$> get_fields b |}.
#[export] Instance keyed_auth_response : Msgpack AuthResponse := {|
  Encode r := Some (put_fields [("success", VBool (ar_Success r)); ("user_id", VStr (ar_UserID r));
    ("gateway_id", VStr (ar_GatewayID r)); ("code", VInt (ar_Code r));
    ("message", VStr (ar_Message r))]%string);
  Decode b := (λ m, mkAuthResponse (bool_field "success" m) (str_field "user_id" m)
    (str_field "gateway_id" m) (int_field "code" m) (str_field "message" m)) <$> get_fields b |}.
#[export] Instance keyed_room : Msgpack RoomRequest := {|
  Encode r := Some (put_fields [("room_id", VStr (rq_RoomID r))]%string);
  Decode b := (λ m, mkRoomRequest (str_field "room_id" m)) <$> get_fields b |}.
#[export] Instance keyed_status : Msgpack StatusResponse := {|
  Encode r := Some (put_fields [("success", VBool (sr_Success r)); ("code", VInt (sr_Code r));
    ("message", VStr (sr_Message r))]%string);
  Decode b := (λ m, mkStatusResponse (bool_field "success" m) (int_field "code" m)
    (str_field "message" m)) <$> get_fields b |}.
#[export] Instance keyed_join : Msgpack JoinResponse := {|
  Encode r := Some (put_fields [("success", VBool (jr_Success r)); ("room_id", VStr (jr_RoomID r));
    ("code", VInt (jr_Code r)); ("message", VStr (jr_Message r))]%string);
  Decode b := (λ m, mkJoinResponse (bool_field "success" m) (str_field "room_id" m)
    (int_field "code" m) (str_field "message" m)) <$> get_fields b |}.

Ltac keyed := intros; simpl; eauto; simplify_eq; cbn; rewrite ?get_put_fields; try done.
#[export] Instance keyed_auth_laws : MsgpackLaws AuthRequest.
Proof. split. intros []. eexists. split; [done|]. keyed. Qed.
#[export] Instance keyed_auth_response_laws : MsgpackLaws AuthResponse.
Proof. split. intros []. eexists. split; [done|]. keyed. Qed.
#[export] Instance keyed_room_laws : MsgpackLaws RoomRequest.
Proof. split. intros []. eexists. split; [done|]. keyed. Qed.
#[export] Instance keyed_status_laws : MsgpackLaws StatusResponse.
Proof. split. intros []. eexists. split; [done|]. keyed. Qed.
#[export] Instance keyed_laws : MapLaws.
Proof. split; intros; simplify_eq/=; rewrite ?get_put_fields; eauto. Qed.
End KeyedCodec.

Section examples.
Import ToyCodec KeyedCodec Interactive.
#[local] Existing Instance default_order.

Definition demo_flags : Flags := mkFlags "u1" "r1" "dev_token".

Lemma login_agrees_witness :
  let g := NewGateway demo_gw_cfg 0 in
  let msg := message MsgTypeAuth 1 (auth_map demo_flags) in
  ∃ replies reg g' res c',
    handleWebSocket demo_parse (Some demo_validator) (Some msg) "c1" g =
      Done ((replies, reg), g') ∧
    authenticate demo_flags (dialled 0 replies []) = (res, c') ∧ ws_out (cl_ws c') = [msg] ∧
    match res with
    | Ok resp => ∃ ref, reg = Some ref ∧
        connections g' = <[ar_UserID resp := ref]> (connections g) ∧
        ar_GatewayID resp = "gw-1"%string ∧
        (Some demo_validator = None ∨ is_mock_token "dev_token" = true →
         ar_UserID resp = "u1"%string)
    | Err e => reg = None ∧ g' = g ∧ ∃ code reason, e = Refused code reason
    end.
Proof.
  apply (login_agrees demo_parse (Some demo_validator) demo_flags 0 "c1"
    (NewGateway demo_gw_cfg 0) (Ok "u1"%string)).
  - by vm_compute.
  - unfold small. vm_compute. discriminate.
  - split_and!; [apply gw_wf_new..|done|done].
  - unfold answer_sized, sized. vm_compute. reflexivity.
  - intros u Hu. vm_compute in Hu. injection Hu as <-. split; [done|].
    exists demo_shard. by vm_compute.
Defined.

(** A member of the room "r0" with a push in the queue changes rooms. *)
Lemma join_agrees_witness :
  let push := mkFrame MsgTypePushMessage 7 [Byte.x61] in
  let c := set_c_sendCh (mkChan [EncodeFrame push] 4 false) demo_conn in
  let g := put 0%nat c demo_gw in
  let msg := message MsgTypeJoinRoom 2 (room_map "r1") in
  ∃ g1 g2 c2,
    GatewayHandler.handleMessage None 0 "" 0%nat msg g = Done (tt, g1) ∧
    rs_sendCh g1 = queue_all [join_envelope "gw-1" "u1" "r1"] (rs_sendCh g) ∧
    OnJoinRoomAck "u1" "r1" true ErrCodeSuccess "" g1 = Done (tt, g2) ∧
    objects g2 !! 0%nat = Some c2 ∧
    c_JoinState c2 = JoinStateConfirmed ∧ c_RoomID c2 = "r1"%string ∧
    (∃ us, localRooms g2 !! "r1"%string = Some us ∧ "u1"%string ∈ us) ∧
    (joinRoom demo_flags (dialled 1 [packMessages (ch_buf (c_sendCh c2))] [])).1 =
      Err (UnexpectedType MsgTypePushMessage).
Proof.
  set (push := mkFrame MsgTypePushMessage 7 [Byte.x61]).
  set (c := set_c_sendCh (mkChan [EncodeFrame push] 4 false) demo_conn).
  apply (join_agrees None 0 "" 0%nat demo_flags 1 (put 0%nat c demo_gw) c [push]);
    [unfold small; vm_compute; discriminate|by_computation|by vm_compute..|simpl; lia|].
  repeat constructor; [vm_compute; discriminate..|done].
Defined.

Lemma sendRaw_printed_witness :
  let f := mkFrame MsgTypePushMessage 3 [] in
  let c := dialled 4 [] [] in
  printFrame "RECV" f = ("RECV", "0x1010", "PushMessage", 3)%string ∧
  sendRaw (printFrame "RECV" f).1.1.2 "{}" c =
  sent_on (mkFrame MsgTypePushMessage 5 (default [] (Marshal [("raw", VStr "{}")]%string))) c.
Proof.
  split; [by vm_compute|].
  apply (sendRaw_printed (mkFrame MsgTypePushMessage 3 []) "{}" "RECV" (dialled 4 [] []));
    [by split|done].
Defined.

Lemma commands_in_sequence_witness :
  let lines := [(0, ["join"; "r2"]); (1, ["biz"; "gift"; "n=3"]); (2, ["quit"])]%string in
  let c := dialled 4 [] [] in
  ∃ fs : list Frame,
    let c' := run_commands (λ _, None) demo_flags lines c in
    ws_out (cl_ws c') = [] ++ (encodeFrame <$> fs) ∧
    Forall frame_wf fs ∧
    f_Seq <$> fs = (λ i, u64 (4 + Z.of_nat i)) <$> seq 1 (length fs) ∧
    cl_seq c' = u64 (4 + Z.of_nat (length fs)).
Proof.
  apply (commands_in_sequence (λ _, None) demo_flags
    [(0, ["join"; "r2"]); (1, ["biz"; "gift"; "n=3"]); (2, ["quit"])]%string (dialled 4 [] []));
    [done|simpl; lia].
Defined.
End examples.
