(* ===== verification/Console.v ===== *)
(** [cmd/testclient/interactive.go], the loop of [mainInteractive]: from the
    lines of the terminal to the words of commands, with [strings.TrimSpace]
    and [strings.Fields] on the bytes of UTF-8.  The commands themselves are
    in TestClient.v. *)

From Stdlib Require Import ZArith Lia SpecFloat Ascii.
From stdpp Require Import base tactics gmap strings numbers list.
From S2P Require Import Prelude GoInt Protocol Frame Connection TestClient.

Local Open Scope nat_scope.

(** ** White space *)
Fixpoint starts_with (bytes : list nat) (s : string) : bool :=
  match bytes, s with
  | [], _ => true
  | b :: bytes, String c s => (Ascii.nat_of_ascii c =? b) && starts_with bytes s
  | _ :: _, EmptyString => false
  end.

(** The characters of [unicode.IsSpace], in UTF-8.  Their first bytes are in
    no other position of any character, so that they can be looked for
    at every byte, from either end and in strings that are not UTF-8, too. *)
Definition spaces : list (list nat) :=
  [[9]; [10]; [11]; [12]; [13]; [32]; [194; 133]; [194; 160]; [225; 154; 128]] ++
  ((λ k, [226; 128; k]) <$> seq 128 11) ++
  [[226; 128; 168]; [226; 128; 169]; [226; 128; 175]; [226; 129; 159]; [227; 128; 128]].

(** The length of the white space character a string starts with, or 0. *)
Definition space_width (s : string) : nat :=
  default 0 (length <$> List.find (λ bytes, starts_with bytes s) spaces).

(** A string of white space only; [skip] bytes of a character are left. *)
Fixpoint blank_from (skip : nat) (s : string) : bool :=
  match s with
  | EmptyString => true
  | String _ s' =>
    match skip with
    | S skip => blank_from skip s'
    | O => match space_width s with O => false | S w => blank_from w s' end
    end
  end.
Definition blank : string → bool := blank_from 0.

(** [strings.TrimSpace]: from the left, then from the right. *)
Fixpoint trim_left_from (skip : nat) (s : string) : string :=
  match s with
  | EmptyString => EmptyString
  | String _ s' =>
    match skip with
    | S skip => trim_left_from skip s'
    | O => match space_width s with O => s | S w => trim_left_from w s' end
    end
  end.
Fixpoint trim_right (s : string) : string :=
  match s with
  | EmptyString => EmptyString
  | String c s' => if blank s then EmptyString else String c (trim_right s')
  end.
Definition TrimSpace (s : string) : string := trim_right (trim_left_from 0 s).

(** [strings.Fields]: the maximal strings without white space. *)
Definition flush (cur : string) : list string :=
  if decide (cur = EmptyString) then [] else [cur].
Fixpoint Fields_from (skip : nat) (cur s : string) : list string :=
  match s with
  | EmptyString => flush cur
  | String c s' =>
    match skip with
    | S skip => Fields_from skip cur s'
    | O =>
      match space_width s with
      | O => Fields_from 0 (cur ++ String c EmptyString)%string s'
      | S w => flush cur ++ Fields_from w EmptyString s'
      end
    end
  end.
Definition Fields : string → list string := Fields_from 0 EmptyString.

(** ** The loop *)
Section console.
Context `{MapCodec} (ParseFloat : string → option float64).

(** [mainInteractive] over the lines that are scanned, each with the clock;
    [parts[0]] of no parts would panic.  The flag: the loop was left by a
    command. *)
Fixpoint mainInteractive (fl : Flags) (lines : list (Z * string)) (c : Client) :
    outcome (bool * Client) :=
  match lines with
  | [] => mret (false, c)
  | (now_ms, text) :: lines =>
    let line := TrimSpace text in
    if decide (line = EmptyString) then mainInteractive fl lines c
    else match Fields line with
    | [] => Panic "index out of range"
    | cmd :: args =>
      match Interactive.run_command ParseFloat fl now_ms (cmd :: args) c with
      | (true, c) => mainInteractive fl lines c
      | (false, c) => mret (true, c)
      end
    end
  end.

(** The flags of [mainInteractive], with their defaults (main.go). *)
Definition default_flags : Flags := mkFlags "test_user_001" "test_room_001" "dev_token".
End console.

(** ** Lemmas *)
Lemma trim_right_empty s : trim_right s = EmptyString ↔ blank s = true.
Proof. destruct s as [|c s]; [done|]. cbn [trim_right]. by destruct (blank _). Qed.

Lemma blank_Fields k s cur : blank_from k s = true → Fields_from k cur s = flush cur.
Proof.
  revert k cur. induction s as [|c s IH]; intros k cur Hb; [done|]. cbn [Fields_from blank_from] in *.
  destruct k as [|k]; [|by apply IH]. destruct (space_width (String c s)) as [|w]; [done|].
  rewrite IH by done. by rewrite app_nil_r.
Qed.

Lemma flush_app cur c : flush (cur ++ String c EmptyString) = [(cur ++ String c EmptyString)%string].
Proof. unfold flush. rewrite decide_False; [done|]. by destruct cur. Qed.

(** A word in hand stays in hand or is put out. *)
Lemma Fields_cur k cur s : cur ≠ EmptyString → Fields_from k cur s ≠ [].
Proof.
  revert k cur. induction s as [|c s IH]; intros k cur Hc; cbn [Fields_from].
  - unfold flush. by rewrite decide_False.
  - destruct k as [|k]; [|by apply IH]. destruct (space_width _) as [|w].
    + apply IH. by destruct cur.
    + unfold flush. by rewrite decide_False.
Qed.

Lemma Fields_nil k s : Fields_from k EmptyString s = [] ↔ blank_from k s = true.
Proof.
  revert k. induction s as [|c s IH]; intros k; [done|]. cbn [Fields_from blank_from].
  destruct k as [|k]; [|apply IH]. destruct (space_width _) as [|w]; [|apply IH].
  split; [|done]. intros Hn. by apply Fields_cur in Hn.
Qed.

Lemma starts_with_app b s t : starts_with b s = true → starts_with b (s ++ t)%string = true.
Proof.
  revert s. induction b as [|x b IH]; intros [|c s]; try done. cbn.
  intros [Hc Hs]%andb_prop. apply andb_true_intro. split; [done|by apply IH].
Qed.

(** No width means that no white space is there. *)
Lemma space_width_0 s : space_width s = 0 ↔ ∀ b, b ∈ spaces → starts_with b s = false.
Proof.
  unfold space_width. destruct (List.find _ spaces) as [b|] eqn:E; cbn.
  - apply List.find_some in E as [Hin Hs]. apply list_elem_of_In in Hin. split.
    + intros Hl. assert (Forall (λ b, 0 < length b) spaces) as Hpos
        by (by apply (bool_decide_unpack _); vm_compute).
      rewrite Forall_forall in Hpos. specialize (Hpos b Hin). lia.
    + intros Hno. by rewrite (Hno b Hin) in Hs.
  - split; [|done]. intros _ b Hin. eapply List.find_none in E; [exact E|].
    by apply list_elem_of_In.
Qed.

Lemma space_width_prefix s t : space_width (s ++ t)%string = 0 → space_width s = 0.
Proof.
  rewrite !space_width_0. intros Hno b Hin. specialize (Hno b Hin).
  destruct (starts_with b s) eqn:E; [|done]. by rewrite (starts_with_app b s t E) in Hno.
Qed.

Lemma trim_right_prefix s : ∃ t, s = (trim_right s ++ t)%string.
Proof.
  induction s as [|c s [t IH]]; [by exists EmptyString|]. cbn [trim_right].
  destruct (blank _); [by exists (String c s)|]. exists t.
  change (String c s = String c (trim_right s ++ t)). by f_equal.
Qed.

Lemma trim_left_starts k s :
  trim_left_from k s = EmptyString ∨ space_width (trim_left_from k s) = 0.
Proof.
  revert k. induction s as [|c s IH]; intros k; [by left|]. cbn [trim_left_from].
  destruct k as [|k]; [|apply IH]. destruct (space_width (String c s)) as [|w] eqn:E; [by right|apply IH].
Qed.

(** A line that is not empty after trimming has a first word. *)
Lemma TrimSpace_Fields s : TrimSpace s ≠ EmptyString → Fields (TrimSpace s) ≠ [].
Proof.
  intros Hne. assert (space_width (TrimSpace s) = 0) as Hw.
  { unfold TrimSpace in *. destruct (trim_left_starts 0 s) as [Hl|Hl]; [by rewrite Hl in Hne|].
    destruct (trim_right_prefix (trim_left_from 0 s)) as [t Ht]. rewrite Ht in Hl.
    by eapply space_width_prefix. }
  destruct (TrimSpace s) as [|c s']; [done|]. unfold Fields. cbn [Fields_from]. rewrite Hw.
  by apply Fields_cur.
Qed.

(** *** Words of visible ASCII characters *)
Definition visible (c : ascii) : Prop := 33 ≤ nat_of_ascii c < 127.
Definition printable (c : ascii) : Prop := 32 ≤ nat_of_ascii c < 127.
Fixpoint all_chars (P : ascii → Prop) (s : string) : Prop :=
  match s with EmptyString => True | String c s => P c ∧ all_chars P s end.
Definition word (w : string) : Prop := w ≠ EmptyString ∧ all_chars visible w.

Lemma width_visible c s : visible c → space_width (String c s) = 0.
Proof.
  unfold visible. intros Hc. destruct c as [[] [] [] [] [] [] [] []];
    first [reflexivity|exfalso; vm_compute in Hc; lia].
Qed.
Lemma width_space s : space_width (String " "%char s) = 1.
Proof. reflexivity. Qed.

Lemma printable_cases c : printable c → visible c ∨ c = " "%char.
Proof.
  intros Hc. destruct (decide (nat_of_ascii c = 32)) as [He|].
  - right. rewrite <-(ascii_nat_embedding c), He. done.
  - left. unfold visible, printable in *. lia.
Qed.

Lemma all_chars_app P s t : all_chars P (s ++ t)%string ↔ all_chars P s ∧ all_chars P t.
Proof. induction s as [|c s IH]; simpl; [tauto|]. rewrite IH. tauto. Qed.

Lemma all_chars_impl (P Q : ascii → Prop) s : (∀ c, P c → Q c) → all_chars P s → all_chars Q s.
Proof. intros HPQ. induction s as [|c s IH]; cbn; [done|]. intros [? ?]. auto. Qed.

Lemma String_app c (s t : string) : (String c s ++ t)%string = String c (s ++ t).
Proof. done. Qed.
Lemma String_nil (s : string) : (EmptyString ++ s)%string = s.
Proof. done. Qed.
Lemma string_app_assoc (s t u : string) : ((s ++ t) ++ u)%string = (s ++ (t ++ u))%string.
Proof. induction s as [|c s IH]; [done|exact (f_equal (String c) IH)]. Qed.
Lemma string_app_empty (s : string) : (s ++ EmptyString)%string = s.
Proof. induction s as [|c s IH]; [done|exact (f_equal (String c) IH)]. Qed.

Lemma Fields_word w cur s :
  all_chars visible w → Fields_from 0 cur (w ++ s)%string = Fields_from 0 (cur ++ w)%string s.
Proof.
  revert cur. induction w as [|c w IH]; intros cur; cbn [all_chars].
  - by rewrite string_app_empty.
  - intros [Hc Hw]. rewrite String_app. cbn [Fields_from].
    rewrite width_visible, IH by done. by rewrite string_app_assoc.
Qed.

Lemma flush_word w : word w → flush w = [w].
Proof. intros [Hne _]. unfold flush. by rewrite decide_False. Qed.

Lemma Fields_join ws : Forall word ws → Fields (Interactive.join_words ws) = ws.
Proof.
  intros Hws. unfold Fields. induction Hws as [|w ws Hw Hws IH]; [done|].
  destruct ws as [|w' ws].
  - cbn [Interactive.join_words]. rewrite <-(string_app_empty w) at 1.
    rewrite Fields_word by apply Hw. cbn. by apply flush_word.
  - change (Interactive.join_words (w :: w' :: ws)) with
      (w ++ String " "%char (Interactive.join_words (w' :: ws)))%string.
    rewrite Fields_word by apply Hw. cbn [Fields_from]. rewrite width_space.
    rewrite flush_word by done. by rewrite IH.
Qed.

Lemma blank_end s c : all_chars printable s → visible c → blank (s ++ String c EmptyString) = false.
Proof.
  unfold blank. intros Hs Hc. induction s as [|d s IH].
  - change (blank_from 0 (String c EmptyString) = false). cbn [blank_from].
    by rewrite width_visible.
  - rewrite String_app. cbn [blank_from]. destruct Hs as [[Hd| ->]%printable_cases Hs]; [by rewrite width_visible|].
    rewrite width_space. by apply IH.
Qed.

Lemma trim_right_end s c :
  all_chars printable s → visible c →
  trim_right (s ++ String c EmptyString) = (s ++ String c EmptyString)%string.
Proof.
  intros Hs Hc. induction s as [|d s IH].
  - pose proof (blank_end EmptyString c Hs Hc) as Hb. rewrite String_nil in Hb |- *.
    cbn [trim_right]. by rewrite Hb.
  - pose proof (blank_end (String d s) c Hs Hc) as Hb. rewrite String_app in Hb |- *.
    cbn [trim_right]. rewrite Hb.
    f_equal. apply IH. apply Hs.
Qed.

Lemma word_end w : word w → ∃ s c, w = (s ++ String c EmptyString)%string ∧
  all_chars visible s ∧ visible c.
Proof.
  intros [Hne Hw]. induction w as [|c w IH]; [done|]. destruct Hw as [Hc Hw].
  destruct w as [|d w]; [by exists EmptyString, c|].
  destruct IH as (s & e & Heq & Hs & He); [done|done|]. exists (String c s), e.
  split_and!; [by rewrite Heq|done..].
Qed.

Lemma join_words_end ws : ws ≠ [] → Forall word ws →
  ∃ s c, Interactive.join_words ws = (s ++ String c EmptyString)%string ∧
    all_chars printable s ∧ visible c.
Proof.
  assert (∀ c, visible c → printable c) as Hvp by (unfold visible, printable; lia).
  intros Hne Hws. induction Hws as [|w ws Hw Hws IH]; [done|].
  destruct ws as [|w' ws].
  - destruct (word_end w Hw) as (s & c & -> & Hs & Hc). exists s, c.
    split_and!; [done|by eapply all_chars_impl|done].
  - destruct IH as (s & c & Heq & Hs & Hc); [done|].
    exists (w ++ String " "%char s)%string, c. split_and!; [|apply all_chars_app; split|done].
    + change (Interactive.join_words (w :: w' :: ws)) with
        (w ++ String " "%char (Interactive.join_words (w' :: ws)))%string.
      rewrite Heq. by rewrite string_app_assoc.
    + by eapply all_chars_impl, Hw.
    + split; [unfold printable; vm_compute; lia|done].
Qed.

Lemma TrimSpace_join ws :
  ws ≠ [] → Forall word ws → TrimSpace (Interactive.join_words ws) = Interactive.join_words ws.
Proof.
  intros Hne Hws. unfold TrimSpace.
  assert (trim_left_from 0 (Interactive.join_words ws) = Interactive.join_words ws) as ->.
  { destruct ws as [|w ws]; [done|]. apply Forall_cons in Hws as [[Hw Hv] _].
    destruct w as [|c w]; [done|]. destruct ws as [|w' ws]; cbn [Interactive.join_words];
      rewrite ?String_app; cbn [trim_left_from]; by rewrite width_visible by apply Hv. }
  destruct (join_words_end ws Hne Hws) as (s & c & -> & Hs & Hc). by apply trim_right_end.
Qed.

(** ** Properties *)
Section properties.
Context `{MapCodec} (ParseFloat : string → option float64).
Implicit Types (fl : Flags) (c : Client).

(** Whatever bytes are typed, the loop does not panic on [parts[0]]: a line
    that is not blank has a first word. *)
Theorem mainInteractive_total fl lines c :
  ∃ left c', mainInteractive ParseFloat fl lines c = Done (left, c').
Proof.
  revert c. induction lines as [|[now_ms text] lines IH]; intros c; [by eexists _, _|].
  cbn [mainInteractive]. case_decide as Hne; [apply IH|].
  destruct (Fields (TrimSpace text)) as [|cmd args] eqn:E; [by apply TrimSpace_Fields in Hne|].
  destruct (Interactive.run_command _ _ _ _ c) as [[] c1]; [apply IH|by eexists _, _].
Qed.

(** Commands that are typed as words with a blank between them are
    the commands that are run, until one of them leaves the loop. *)
Theorem mainInteractive_runs fl lines c :
  Forall (λ l, l.2 ≠ [] ∧ Forall word l.2) lines →
  snd <$> mainInteractive ParseFloat fl
    ((λ l, (l.1, Interactive.join_words l.2)) <$> lines) c =
  Done (run_commands ParseFloat fl lines c).
Proof.
  intros Hok. revert c. induction Hok as [|[now_ms ws] lines [Hne Hws] Hok IH]; intros c; [done|].
  cbn [fmap list_fmap fst snd mainInteractive run_commands] in *.
  rewrite TrimSpace_join, Fields_join by done.
  rewrite decide_False. 2: { destruct (join_words_end ws Hne Hws) as (s & d & -> & _). by destruct s. }
  destruct ws as [|cmd args]; [done|].
  destruct (Interactive.run_command _ _ _ _ c) as [[] c1]; [apply IH|done].
Qed.
End properties.

(** ** Concrete instances *)
Section examples.
Import KeyedCodec.

(** A tab before the words, and a no-break space between them. *)
Definition typed_line : string :=
  (String "009" "join" ++ String "194" (String "160" "room7 "))%string.
Example typed_words : Fields (TrimSpace typed_line) = ["join"; "room7"]%string.
Proof. reflexivity. Qed.

Definition demo_typed : list (Z * list string) :=
  [(1%Z, ["join"; "room7"]%string); (2%Z, ["quit"%string]); (3%Z, ["hb"%string])].

Lemma mainInteractive_runs_witness :
  let c := dialled 0 [] [] in
  snd <$> mainInteractive (λ _, None) default_flags
    ((λ l, (l.1, Interactive.join_words l.2)) <$> demo_typed) c =
  Done (run_commands (λ _, None) default_flags demo_typed c).
Proof.
  apply (mainInteractive_runs (λ _, None) default_flags demo_typed).
  repeat (apply Forall_cons_2; [split; [done|]|]); try by apply Forall_nil.
  all: unfold visible; repeat split; vm_compute; lia.
Defined.
End examples.
