(* ===== verification/TestMain.v ===== *)
(** The goroutines of [src/cmd/testclient/main.go] after the handshake: the
    select of [main], [heartbeatLoop] and [receiveLoop], around one WebSocket
    and the channel [msgCh].  The steps of each are in TestClient.v; here is
    how they run together. *)

From Stdlib Require Import ZArith Lia.
From stdpp Require Import base tactics gmap strings numbers list.
From S2P Require Import Prelude GoInt Protocol Frame Chan Connection Gateway GatewayHandler Login TestClient.

Local Open Scope Z_scope.

(** Where [main] is: in its select; in [leaveRoom] before the request and
    before the answer; at its end. *)
Inductive MainPc := Select | Leaving | Awaiting | Exited.

(** [receiveLoop]: in [recvFrame], before [msgCh <- frame], or returned with
    the channel closed. *)
Inductive RecvPc := Reading | Pushing (f : Frame) | Ended.

(** [heartbeatLoop]: in its select, in the middle of [sendHeartbeat], or
    returned. *)
Inductive BeatPc := Ticking | Writing | Stopped.

#[export] Instance BeatPc_eq_dec : EqDecision BeatPc.
Proof. solve_decision. Defined.

Record TestRun := mkTestRun {
  t_pc : MainPc;
  t_recv : RecvPc;
  t_beat : BeatPc;
  t_stop : bool;                 (* stopHeartbeat is closed *)
  t_signal : bool;               (* a signal is in sigCh *)
  t_msgCh : chan Frame;
  t_client : Client;
  t_handled : list Frame;        (* what handleMessage was called with *)
  t_read : list (list byte) }.   (* what receiveLoop has read *)

Inductive TestEvent :=
  | TSignal | TArrive (data : list byte) | TServerClose         (* the world *)
  | TMainSignal | TMainMsg | TLeaveSend | TLeaveRead | TLeaveTimeout
  | TRead | TPush
  | TTick | TTickDone (now_ms : Z) | TBeatStop.

Section run.
Context `{MapCodec} `{Msgpack AuthResponse, Msgpack JoinResponse}.
Context (fl : Flags).

Definition set_t_pc pc r := mkTestRun pc (t_recv r) (t_beat r) (t_stop r) (t_signal r)
  (t_msgCh r) (t_client r) (t_handled r) (t_read r).
Definition set_t_recv p r := mkTestRun (t_pc r) p (t_beat r) (t_stop r) (t_signal r)
  (t_msgCh r) (t_client r) (t_handled r) (t_read r).
Definition set_t_beat p r := mkTestRun (t_pc r) (t_recv r) p (t_stop r) (t_signal r)
  (t_msgCh r) (t_client r) (t_handled r) (t_read r).
Definition set_t_msgCh ch r := mkTestRun (t_pc r) (t_recv r) (t_beat r) (t_stop r) (t_signal r)
  ch (t_client r) (t_handled r) (t_read r).
Definition set_t_client c r := mkTestRun (t_pc r) (t_recv r) (t_beat r) (t_stop r) (t_signal r)
  (t_msgCh r) c (t_handled r) (t_read r).

(** The client after the handshake: two goroutines and the channel of 100
    frames. *)
Definition after_start (c : Client) : TestRun :=
  mkTestRun Select Reading Ticking false false (make_chan 100) c [] [].

(** The next message of the socket; [None] blocks. *)
Definition next_message (c : Client) : option (option (list byte) * Client) :=
  let ws := cl_ws c in
  match ws_in ws with
  | data :: rest => Some (Some data, mkClient (cl_seq c) (mkWs rest (ws_out ws) (ws_open ws)))
  | [] => if ws_open ws then None else Some (None, c)
  end.

(** The deferred [close(msgCh)]. *)
Definition end_recv (r : TestRun) : outcome TestRun :=
  match close_chan (t_msgCh r) with
  | Done ch => Done (set_t_recv Ended (set_t_msgCh ch r))
  | Panic why => Panic why
  | Deadlock l => Deadlock l
  end.

(** One iteration of [receiveLoop] up to [msgCh <- frame]. *)
Definition recv_read (r : TestRun) : option (outcome TestRun) :=
  match t_recv r with
  | Reading =>
    '(data, c) ← next_message (t_client r);
    match data with
    | None => Some (end_recv (set_t_client c r))
    | Some data =>
      let r := mkTestRun (t_pc r) Reading (t_beat r) (t_stop r) (t_signal r) (t_msgCh r) c
                 (t_handled r) (t_read r ++ [data]) in
      match decodeFrame data with
      | Err _ => Some (end_recv r)
      | Ok f => if f_MsgType f =? MsgTypeHeartbeatResp then Some (Done r)
                else Some (Done (set_t_recv (Pushing f) r))
      end
    end
  | _ => None
  end.

(** [msgCh <- frame], which blocks while the channel is full. *)
Definition recv_push (r : TestRun) : option (outcome TestRun) :=
  match t_recv r with
  | Pushing f =>
    match try_send f (t_msgCh r) with
    | Done (true, ch) => Some (Done (set_t_recv Reading (set_t_msgCh ch r)))
    | Done (false, _) => None
    | Panic why => Some (Panic why)
    | Deadlock l => Some (Deadlock l)
    end
  | _ => None
  end.

(** The library supports one writer at a time and panics when it sees two. *)
Definition concurrent_write : string := "concurrent write to websocket connection".

(** [leaveRoom] up to its read. *)
Definition leave_send (r : TestRun) : outcome TestRun :=
  match t_beat r with
  | Writing => Panic concurrent_write
  | _ =>
    let payload := default [] (Marshal [("room_id", VStr (fl_roomID fl))]%string) in
    let seq := u64 (cl_seq (t_client r) + 1) in
    let '(_, c) := sendFrame (mkFrame MsgTypeLeaveRoom seq payload)
                     (mkClient seq (cl_ws (t_client r))) in
    Done (set_t_pc Awaiting (set_t_client c r))
  end.

(** One step; [None] when it cannot happen. *)
Definition test_step (ev : TestEvent) (r : TestRun) : option (outcome TestRun) :=
  match t_pc r with
  | Exited => None                                     (* the process has ended *)
  | pc =>
    match ev, pc with
    | TSignal, _ => Some (Done (mkTestRun pc (t_recv r) (t_beat r) (t_stop r) true (t_msgCh r)
        (t_client r) (t_handled r) (t_read r)))
    | TArrive data, _ =>
      let ws := cl_ws (t_client r) in
      if ws_open ws then Some (Done (set_t_client (mkClient (cl_seq (t_client r))
        (mkWs (ws_in ws ++ [data]) (ws_out ws) true)) r)) else None
    | TServerClose, _ =>
      let ws := cl_ws (t_client r) in
      Some (Done (set_t_client (mkClient (cl_seq (t_client r))
        (mkWs (ws_in ws) (ws_out ws) false)) r))
    | TMainSignal, Select =>
      if t_signal r
      then Some (Done (mkTestRun Leaving (t_recv r) (t_beat r) true false (t_msgCh r)
        (t_client r) (t_handled r) (t_read r)))
      else None
    | TMainMsg, Select =>
      match recv (t_msgCh r) with
      | None => None
      | Some (None, _) => Some (Done (set_t_pc Exited r))
      | Some (Some f, ch) =>
        Some (Done (mkTestRun Select (t_recv r) (t_beat r) (t_stop r) (t_signal r) ch
          (t_client r) (t_handled r ++ [f]) (t_read r)))
      end
    | TLeaveSend, Leaving => Some (leave_send r)
    | TLeaveRead, Awaiting =>
      '(_, c) ← next_message (t_client r);
      Some (Done (set_t_pc Exited (set_t_client c r)))
    | TLeaveTimeout, Awaiting => Some (Done (set_t_pc Exited r))
    | TRead, _ => recv_read r
    | TPush, _ => recv_push r
    | TTick, _ => if decide (t_beat r = Ticking) then Some (Done (set_t_beat Writing r)) else None
    | TTickDone now_ms, _ =>
      if decide (t_beat r = Writing)
      then Some (Done (set_t_beat Ticking (set_t_client (sendHeartbeat fl now_ms (t_client r)) r)))
      else None
    | TBeatStop, _ =>
      if decide (t_beat r = Ticking) then
        if t_stop r then Some (Done (set_t_beat Stopped r)) else None
      else None
    | _, _ => None
    end
  end.

Fixpoint test_run (evs : list TestEvent) (r : TestRun) : option (outcome TestRun) :=
  match evs with
  | [] => Some (Done r)
  | ev :: evs =>
    o ← test_step ev r;
    match o with Done r => test_run evs r | o => Some o end
  end.

(** ** What is handled *)
Definition pending (r : TestRun) : list Frame :=
  ch_buf (t_msgCh r) ++ match t_recv r with Pushing f => [f] | _ => [] end.

Definition arrived (ev : TestEvent) : list (list byte) :=
  match ev with TArrive data => [data] | _ => [] end.

(** [total] are the messages that the socket has delivered or will deliver. *)
Definition run_ok (total : list (list byte)) (r : TestRun) : Prop :=
  receiveLoop (t_read r) = t_handled r ++ pending r ∧
  (t_recv r ≠ Ended → Forall (λ data, ∃ f, decodeFrame data = Ok f) (t_read r)) ∧
  chan_ok (t_msgCh r) ∧ ch_cap (t_msgCh r) = 100%nat ∧
  (ch_closed (t_msgCh r) = true ↔ t_recv r = Ended) ∧
  (t_stop r = false → total = t_read r ++ ws_in (cl_ws (t_client r)) ∧
     (t_pc r = Select ∨ t_pc r = Exited ∧ t_recv r = Ended ∧ pending r = [])) ∧
  (t_recv r = Ended → t_stop r = false →
     ws_in (cl_ws (t_client r)) = [] ∧ ws_open (cl_ws (t_client r)) = false ∨
     ∃ data e, last (t_read r) = Some data ∧ decodeFrame data = Err e).

Lemma receiveLoop_snoc l data :
  Forall (λ data, ∃ f, decodeFrame data = Ok f) l →
  receiveLoop (l ++ [data]) = receiveLoop l ++
    match decodeFrame data with
    | Ok f => if f_MsgType f =? MsgTypeHeartbeatResp then [] else [f]
    | Err _ => []
    end.
Proof.
  induction 1 as [|d l [f Hf] _ IH]; simpl; [by repeat case_match|].
  rewrite Hf, IH. by destruct (f_MsgType f =? _).
Qed.

Lemma run_ok_start c : run_ok (ws_in (cl_ws c)) (after_start c).
Proof.
  split_and!; try done.
  - apply Nat.le_0_l.
  - intros _. split; [done|by left].
Qed.

(** Changes of the parts the invariant does not look at. *)
Lemma run_ok_ext total r r' :
  run_ok total r → t_recv r' = t_recv r → t_msgCh r' = t_msgCh r → t_handled r' = t_handled r →
  t_read r' = t_read r →
  (t_stop r' = false → t_stop r = false ∧ t_pc r' = t_pc r ∧
     ws_in (cl_ws (t_client r')) = ws_in (cl_ws (t_client r)) ∧
     (ws_open (cl_ws (t_client r)) = false → ws_open (cl_ws (t_client r')) = false)) →
  run_ok total r'.
Proof.
  unfold run_ok, pending. intros (K1 & K2 & K3 & K4 & K5 & K6 & K7) -> -> -> -> Hs.
  split_and!; try done; try (by apply K5).
  - intros Hstop. destruct (Hs Hstop) as (Hs' & -> & -> & _). by apply K6.
  - intros He Hstop. destruct (Hs Hstop) as (Hs' & _ & -> & Ho).
    destruct (K7 He Hs') as [[? ?]|?]; [left; auto|by right].
Qed.

Lemma sendHeartbeat_in now_ms c : ws_in (cl_ws (sendHeartbeat fl now_ms c)) = ws_in (cl_ws c).
Proof. unfold sendHeartbeat, sendFrame. cbn. by destruct (ws_open (cl_ws c)). Qed.

(** What the receiving goroutine does. *)
Lemma end_recv_ok total r r' :
  receiveLoop (t_read r) = t_handled r ++ ch_buf (t_msgCh r) →
  chan_ok (t_msgCh r) → ch_cap (t_msgCh r) = 100%nat →
  (t_stop r = false →
     total = t_read r ++ ws_in (cl_ws (t_client r)) ∧ t_pc r = Select ∧
     (ws_in (cl_ws (t_client r)) = [] ∧ ws_open (cl_ws (t_client r)) = false ∨
      ∃ data e, last (t_read r) = Some data ∧ decodeFrame data = Err e)) →
  end_recv r = Done r' → run_ok total r'.
Proof.
  intros K1 K3 K4 K6. unfold end_recv, close_chan.
  destruct (ch_closed (t_msgCh r)) eqn:Hcl; [done|]. intros [= <-].
  split_and!; cbn; try done.
  - rewrite K1. unfold pending. cbn. by rewrite app_nil_r.
  - intros Hs. destruct (K6 Hs) as (Ht & Hpc & _). by auto.
  - intros _ Hs. by apply K6.
Qed.

Lemma next_message_in c data c' :
  next_message c = Some (data, c') →
  match data with
  | Some d => ws_in (cl_ws c) = d :: ws_in (cl_ws c')
  | None => ws_in (cl_ws c) = [] ∧ c' = c ∧ ws_open (cl_ws c) = false
  end.
Proof.
  unfold next_message. destruct (ws_in (cl_ws c)) as [|d rest] eqn:E.
  - destruct (ws_open (cl_ws c)) eqn:Ho; [done|]. by intros [= <- <-].
  - by intros [= <- <-].
Qed.

Lemma recv_read_ok total r r' :
  run_ok total r → recv_read r = Some (Done r') → run_ok total r'.
Proof.
  intros Hok. unfold recv_read. destruct (t_recv r) eqn:Hr; [|done..].
  destruct (next_message (t_client r)) as [[data c]|] eqn:Hn; [|done].
  apply next_message_in in Hn. cbn [mbind option_bind].
  pose proof Hok as (K1 & K2 & K3 & K4 & K5 & K6 & K7).
  assert (pending r = ch_buf (t_msgCh r)) as Hp by (unfold pending; by rewrite Hr, app_nil_r).
  destruct data as [data|].
  - specialize (K2 ltac:(by rewrite Hr)).
    set (r1 := mkTestRun (t_pc r) Reading (t_beat r) (t_stop r) (t_signal r) (t_msgCh r) c
                 (t_handled r) (t_read r ++ [data])).
    assert (t_stop r = false → total = t_read r1 ++ ws_in (cl_ws (t_client r1)) ∧ t_pc r = Select) as Ht.
    { intros Hs. destruct (K6 Hs) as [-> Hpc]. cbn. rewrite Hn, <-app_assoc. split; [done|].
      destruct Hpc as [|(_ & ? & _)]; [done|congruence]. }
    pose proof (receiveLoop_snoc _ data K2) as Hsnoc. rewrite K1, Hp in Hsnoc.
    destruct (decodeFrame data) as [f|e] eqn:Hd.
    + assert (Forall (λ data, ∃ f, decodeFrame data = Ok f) (t_read r ++ [data])) as Hall.
      { apply Forall_app. split; [done|]. constructor; [by exists f|constructor]. }
      assert (ch_closed (t_msgCh r) = true → False) as Hcl by (intros Hc%K5; congruence).
      assert (∀ recv, (recv = Reading ∨ recv = Pushing f) →
        receiveLoop (t_read r ++ [data]) =
          t_handled r ++ ch_buf (t_msgCh r) ++ match recv with Pushing f => [f] | _ => [] end →
        run_ok total (set_t_recv recv r1)) as Hdone.
      { intros recv Hrecv Heq. split_and!; cbn; try done.
        - split; [intros Hc; by apply Hcl in Hc|intros ->; by destruct Hrecv].
        - intros Hs. destruct (Ht Hs). split; [done|by left].
        - intros ->. by destruct Hrecv. }
      destruct (f_MsgType f =? MsgTypeHeartbeatResp); intros [= <-].
      * apply (Hdone Reading); [by left|]. by rewrite Hsnoc, !app_nil_r.
      * apply (Hdone (Pushing f)); [by right|]. by rewrite Hsnoc, <-app_assoc.
    + rewrite app_nil_r in Hsnoc. intros [= Hs]. apply (end_recv_ok total r1); try done.
      intros Hstop. destruct (Ht Hstop) as [Htot Hpc]. split_and!; [done..|]. right.
      exists data, e. split; [cbn; by rewrite last_snoc|done].
  - destruct Hn as (Hin & -> & Ho). intros [= Hs].
    apply (end_recv_ok total (set_t_client (t_client r) r)); try done; cbn.
    + by rewrite K1, Hp.
    + intros Hstop. destruct (K6 Hstop) as [Htot Hpc]. split_and!; [done| |by left].
      destruct Hpc as [|(_ & ? & _)]; [done|congruence].
Qed.

Lemma recv_push_ok total r r' :
  run_ok total r → recv_push r = Some (Done r') → run_ok total r'.
Proof.
  intros (K1 & K2 & K3 & K4 & K5 & K6 & K7). unfold recv_push.
  destruct (t_recv r) as [|f|] eqn:Hr; [done| |done].
  assert (ch_closed (t_msgCh r) = false) as Hcl.
  { apply not_true_iff_false. intros Hc%K5. congruence. }
  rewrite try_send_open by done. case_bool_decide as Hroom; [|done]. intros [= <-].
  unfold sent. rewrite decide_True by done.
  split_and!; cbn; try done.
  - rewrite K1. unfold pending. rewrite Hr. cbn. by rewrite app_nil_r.
  - intros _. apply K2. done.
  - unfold chan_ok. cbn. rewrite length_app. simpl. lia.
  - by rewrite Hcl.
  - intros Hs. destruct (K6 Hs) as [Ht [Hpc|(_ & ? & _)]]; [by auto|congruence].
Qed.

Lemma sendFrame_in f c : ws_in (cl_ws (sendFrame f c).2) = ws_in (cl_ws c) ∧
  ws_open (cl_ws (sendFrame f c).2) = ws_open (cl_ws c).
Proof. unfold sendFrame. by destruct (ws_open (cl_ws c)) eqn:E. Qed.

Lemma sendHeartbeat_open now_ms c :
  ws_open (cl_ws (sendHeartbeat fl now_ms c)) = ws_open (cl_ws c).
Proof. unfold sendHeartbeat, sendFrame. cbn. by destruct (ws_open (cl_ws c)) eqn:E. Qed.

Lemma main_msg_ok total r r' :
  run_ok total r → t_pc r = Select → test_step TMainMsg r = Some (Done r') → run_ok total r'.
Proof.
  intros (K1 & K2 & K3 & K4 & K5 & K6 & K7) Hpc. unfold test_step, recv. rewrite Hpc.
  destruct (ch_buf (t_msgCh r)) as [|f buf] eqn:Hb.
  - destruct (ch_closed (t_msgCh r)) eqn:Hc; [|done]. intros [= <-].
    assert (t_recv r = Ended) as He by by apply K5.
    split_and!; cbn; try done.
    intros Hs. destruct (K6 Hs) as [Ht _]. split; [done|right]. split_and!; [done..|].
    unfold pending. cbn. by rewrite Hb, He.
  - intros [= <-]. split_and!; cbn; try done.
    + rewrite K1. unfold pending. cbn. by rewrite Hb, <-app_assoc.
    + unfold chan_ok in *. rewrite Hb in K3. simpl in *. lia.
    + intros Hs. destruct (K6 Hs) as [Ht _]. split; [done|by left].
Qed.

(** Cases in which the invariant looks at nothing that changes. *)
Ltac same_parts Hok Hpc :=
  eapply run_ok_ext; [exact Hok|done..|];
  cbn; rewrite ?sendHeartbeat_in, ?sendHeartbeat_open, ?Hpc; try done; intros; by split_and!.

Lemma arrive_ok data total r :
  run_ok total r → ws_open (cl_ws (t_client r)) = true →
  run_ok (total ++ [data]) (set_t_client (mkClient (cl_seq (t_client r))
    (mkWs (ws_in (cl_ws (t_client r)) ++ [data]) (ws_out (cl_ws (t_client r))) true)) r).
Proof.
  intros (K1 & K2 & K3 & K4 & K5 & K6 & K7) Ho. split_and!; cbn; try done.
  - intros Hs. destruct (K6 Hs) as [-> Hp]. by rewrite <-app_assoc.
  - intros He Hs. destruct (K7 He Hs) as [[_ ?]|?]; [congruence|by right].
Qed.

Lemma leaving_stopped total r :
  run_ok total r → t_pc r = Leaving ∨ t_pc r = Awaiting → t_stop r = true.
Proof.
  intros (_ & _ & _ & _ & _ & K6 & _) Hpc. apply not_false_iff_true. intros Hs.
  destruct (K6 Hs) as [_ [Hp|[Hp _]]]; rewrite Hp in Hpc; by destruct Hpc.
Qed.

Lemma test_step_ok ev total r r' :
  run_ok total r → test_step ev r = Some (Done r') → run_ok (total ++ arrived ev) r'.
Proof.
  intros Hok Hs. destruct (t_pc r) eqn:Hpc.
  4: { unfold test_step in Hs. by rewrite Hpc in Hs. }
  all: destruct ev; cbn [arrived]; rewrite ?app_nil_r;
    try (by eapply main_msg_ok); unfold test_step in Hs; rewrite Hpc in Hs; try done;
    try (by eapply recv_read_ok); try (by eapply recv_push_ok);
    repeat match type of Hs with
    | (if decide ?P then _ else _) = _ => destruct (decide P); [|done]
    | (if t_signal ?r then _ else _) = _ => destruct (t_signal r); [|done]
    | (if t_stop ?r then _ else _) = _ => destruct (t_stop r) eqn:?; [|done]
    end;
    try (injection Hs as <-; same_parts Hok Hpc);
    try (destruct (ws_open (cl_ws (t_client r))) eqn:Ho; [|done]; injection Hs as <-;
      by apply arrive_ok);
    pose proof (leaving_stopped total r Hok ltac:(auto)) as Hstop.
  - unfold leave_send in Hs. destruct (t_beat r); [|done|].
    all: destruct (sendFrame _ _) as [res c]; injection Hs as <-;
      (eapply run_ok_ext; [exact Hok|done..|]); cbn; congruence.
  - destruct (next_message (t_client r)) as [[d c]|]; [|done]. injection Hs as <-.
    eapply run_ok_ext; [exact Hok|done..|]. cbn. congruence.
  - injection Hs as <-. eapply run_ok_ext; [exact Hok|done..|]. cbn. congruence.
Qed.

(** The test client handles the messages in the order they come: what it
    has handled, then what waits in its channel (at most 100 frames, and one
    more in the hand of the receiver), is what [receiveLoop] makes of the
    messages read; without an interrupt these are the messages that arrived,
    and when the client ends then, nothing that it read is left unhandled and
    it has read everything, up to a message it cannot decode. *)
Theorem client_handles_in_order evs c r :
  test_run evs (after_start c) = Some (Done r) →
  let total := ws_in (cl_ws c) ++ evs ≫= arrived in
  ∃ waiting, receiveLoop (t_read r) = t_handled r ++ waiting ∧ (length waiting ≤ 101)%nat ∧
    (t_stop r = false →
     total = t_read r ++ ws_in (cl_ws (t_client r)) ∧
     (t_pc r = Exited → waiting = [] ∧
        (total = t_read r ∨
         ∃ data e, last (t_read r) = Some data ∧ decodeFrame data = Err e))).
Proof.
  intros Hr total.
  assert (∀ evs tot r0, run_ok tot r0 → test_run evs r0 = Some (Done r) →
    run_ok (tot ++ evs ≫= arrived) r) as Hgen.
  { clear. induction evs as [|ev evs IH]; intros tot r0 Hok Hrun.
    - injection Hrun as <-. by rewrite app_nil_r.
    - cbn in Hrun. destruct (test_step ev r0) as [[r1| |]|] eqn:Hs; try done.
      cbn [mbind list_bind]. rewrite app_assoc. eapply IH; [|done]. by eapply test_step_ok. }
  destruct (Hgen evs _ _ (run_ok_start c) Hr) as (K1 & K2 & K3 & K4 & K5 & K6 & K7).
  exists (pending r). split; [done|]. split.
  - unfold pending, chan_ok in *. rewrite length_app. destruct (t_recv r); simpl; lia.
  - intros Hs. destruct (K6 Hs) as [Ht Hp]. split; [exact Ht|]. intros He.
    destruct Hp as [Hp|(_ & Hend & Hp)]; [congruence|]. split; [done|].
    destruct (K7 Hend Hs) as [[Hin _]|Hbad]; [left|by right].
    fold total in Ht. by rewrite Ht, Hin, app_nil_r.
Qed.

(** ** The end *)

(** The steps that the server's end leaves to the client. *)
Definition to_do (r : TestRun) : nat :=
  3 * length (ws_in (cl_ws (t_client r))) + length (ch_buf (t_msgCh r)) +
  (match t_recv r with Reading => 1 | Pushing _ => 3 | Ended => 0 end) +
  (match t_pc r with Exited => 0 | _ => 1 end).

Definition draining (ev : TestEvent) : bool :=
  match ev with TMainMsg | TRead | TPush => true | _ => false end.

Definition quiet_event (ev : TestEvent) : bool :=
  match ev with TSignal | TArrive _ => false | _ => true end.

Definition server_gone (r : TestRun) : Prop :=
  ws_open (cl_ws (t_client r)) = false ∧ t_signal r = false ∧ t_stop r = false ∧
  (t_pc r = Select ∨ t_pc r = Exited).

Lemma end_recv_gone r r' :
  end_recv r = Done r' →
  t_recv r' = Ended ∧ t_client r' = t_client r ∧ t_pc r' = t_pc r ∧
  ch_buf (t_msgCh r') = ch_buf (t_msgCh r) ∧ t_signal r' = t_signal r ∧ t_stop r' = t_stop r.
Proof.
  unfold end_recv, close_chan. destruct (ch_closed _); [done|]. by intros [= <-].
Qed.

Lemma recv_read_gone r r' :
  recv_read r = Some (Done r') →
  (to_do r' < to_do r)%nat ∧ t_pc r' = t_pc r ∧ t_signal r' = t_signal r ∧ t_stop r' = t_stop r ∧
  ws_open (cl_ws (t_client r')) = ws_open (cl_ws (t_client r)).
Proof.
  unfold recv_read. destruct (t_recv r) eqn:Hr; [|done..].
  destruct (next_message (t_client r)) as [[data c]|] eqn:Hn; [|done].
  assert (ws_open (cl_ws c) = ws_open (cl_ws (t_client r))) as Ho.
  { revert Hn. unfold next_message. destruct (ws_in _); [|by intros [= _ <-]].
    destruct (ws_open (cl_ws (t_client r))) eqn:E; [done|]. by intros [= _ <-]. }
  apply next_message_in in Hn. cbn [mbind option_bind]. unfold to_do.
  destruct data as [data|]; [destruct (decodeFrame data) as [f|e];
    [destruct (f_MsgType f =? MsgTypeHeartbeatResp); intros [= <-]|intros [= Hs]]|intros [= Hs]].
  - cbn. rewrite Hn, Hr, Ho. simpl. split; [lia|done].
  - cbn. rewrite Hn, Hr, Ho. simpl. split; [lia|done].
  - destruct (end_recv_gone _ _ Hs) as (-> & -> & -> & -> & -> & ->). cbn. rewrite Hn, Hr, Ho.
    simpl. split; [lia|done].
  - destruct Hn as (Hn & -> & _). destruct (end_recv_gone _ _ Hs) as (-> & -> & -> & -> & -> & ->).
    cbn. rewrite Hn, Hr. simpl. split; [lia|done].
Qed.

Lemma recv_push_gone r r' :
  recv_push r = Some (Done r') →
  (to_do r' < to_do r)%nat ∧ t_pc r' = t_pc r ∧ t_signal r' = t_signal r ∧ t_stop r' = t_stop r ∧
  t_client r' = t_client r.
Proof.
  unfold recv_push, try_send. destruct (t_recv r) as [|f|] eqn:Hr; [done| |done].
  destruct (ch_closed _); [done|]. case_decide; [|done]. intros [= <-].
  unfold to_do. cbn. rewrite Hr, length_app. simpl. split; [lia|done].
Qed.

Lemma quiet_step_gone ev r r' :
  server_gone r → quiet_event ev = true → test_step ev r = Some (Done r') →
  server_gone r' ∧ (to_do r' + (if draining ev then 1 else 0) ≤ to_do r)%nat.
Proof.
  intros (Ho & Hsig & Hstop & Hpc) Hq Hs. unfold server_gone.
  destruct Hpc as [Hpc|Hpc]; [|unfold test_step in Hs; by rewrite Hpc in Hs].
  unfold test_step in Hs. rewrite Hpc in Hs. destruct ev; try done; cbn [draining].
  - injection Hs as <-. unfold to_do. cbn. rewrite Hpc, Hsig. (split; [auto|lia]).
  - by rewrite Hsig in Hs.
  - unfold recv in Hs. destruct (ch_buf (t_msgCh r)) as [|f buf] eqn:Hb.
    + destruct (ch_closed (t_msgCh r)); [|done]. injection Hs as <-. unfold to_do. cbn.
      rewrite Hpc. split; [auto|lia].
    + injection Hs as <-. unfold to_do. cbn. rewrite Hb, Hpc. simpl. split; [auto|lia].
  - apply recv_read_gone in Hs as (Hm & -> & -> & -> & ->). split; [auto|lia].
  - apply recv_push_gone in Hs as (Hm & -> & -> & -> & ->). split; [auto|lia].
  - case_decide; [|done]. injection Hs as <-. unfold to_do. cbn. rewrite Hpc. (split; [auto|lia]).
  - case_decide; [|done]. injection Hs as <-. unfold to_do. cbn.
    rewrite sendHeartbeat_in, sendHeartbeat_open, Hpc. (split; [auto|lia]).
  - case_decide; [|done]. by rewrite Hstop in Hs.
Qed.

(** When the server closes the connection the client ends, without a
    signal and whatever its heartbeats do: it has only so many steps left, and
    until [main] has returned one of them is always possible. *)
Theorem server_close_ends_client before evs c r r' :
  test_run before (after_start c) = Some (Done r) → server_gone r →
  Forall (λ ev, quiet_event ev = true) evs → test_run evs r = Some (Done r') →
  (length (filter draining evs) + to_do r' ≤ to_do r)%nat ∧
  (t_pc r' ≠ Exited →
   ∃ ev r'', draining ev = true ∧ test_step ev r' = Some (Done r'')).
Proof.
  intros Hb Hgone Hq Hr.
  assert (∀ total, run_ok total r → ∃ total', run_ok total' r') as Hok.
  { clear Hb Hgone Hq. revert r Hr. induction evs as [|ev evs IH]; intros r Hr total Ht;
      [injection Hr as <-; eauto|].
    cbn in Hr. destruct (test_step ev r) as [[r1| |]|] eqn:Hs; try done.
    eapply IH; [done|]. by eapply test_step_ok. }
  assert (∃ total, run_ok total r) as [total Ht].
  { clear Hok Hgone Hr Hq. revert Hb. generalize (run_ok_start c).
    generalize (ws_in (cl_ws c)), (after_start c). induction before as [|ev evs' IH];
      intros tot r0 Hok Hb; [injection Hb as <-; eauto|].
    cbn in Hb. destruct (test_step ev r0) as [[r1| |]|] eqn:Hs; try done.
    eapply IH; [|done]. by eapply test_step_ok. }
  destruct (Hok total Ht) as [total' Hok']. clear Hok Hb Ht.
  assert (server_gone r' ∧ (length (filter draining evs) + to_do r' ≤ to_do r)%nat) as [Hg' Hm].
  { clear Hok'. revert r Hgone Hr. induction Hq as [|ev evs Hev _ IH]; intros r Hgone Hr.
    - injection Hr as <-. split; [done|]. simpl. lia.
    - cbn in Hr. destruct (test_step ev r) as [[r1| |]|] eqn:Hs; try done.
      destruct (quiet_step_gone ev r r1 Hgone Hev Hs) as [Hg1 Hm1].
      destruct (IH r1 Hg1 Hr) as [Hg' Hm']. split; [done|]. rewrite filter_cons.
      destruct (draining ev); simpl; lia. }
  split; [done|]. intros Hpc. destruct Hg' as (Ho & _ & _ & [Hp|?]); [|done].
  destruct Hok' as (_ & _ & _ & Hcap & Hcl & _).
  destruct (ch_buf (t_msgCh r')) as [|f buf] eqn:Hbuf.
  2: { exists TMainMsg. eexists. split; [done|]. unfold test_step, recv. by rewrite Hp, Hbuf. }
  destruct (t_recv r') as [|f|] eqn:Hrv.
  - assert (ch_closed (t_msgCh r') = false) as Hopen
      by (apply not_true_iff_false; intros Hc%Hcl; congruence).
    exists TRead. unfold test_step, recv_read, next_message, end_recv, close_chan.
    rewrite Hp, Hrv. destruct (ws_in (cl_ws (t_client r'))) as [|d rest].
    + rewrite Ho. cbn. rewrite Hopen. by eexists.
    + cbn. rewrite Hopen. destruct (decodeFrame d) as [f|e]; [|by eexists].
      destruct (f_MsgType f =? MsgTypeHeartbeatResp); by eexists.
  - assert (ch_closed (t_msgCh r') = false) as Hopen
      by (apply not_true_iff_false; intros Hc%Hcl; congruence).
    exists TPush. unfold test_step, recv_push, try_send. rewrite Hp, Hrv, Hopen.
    rewrite decide_True by (rewrite Hbuf, Hcap; simpl; lia). by eexists.
  - exists TMainMsg. eexists. split; [done|]. unfold test_step, recv. rewrite Hp, Hbuf.
    by rewrite (proj2 Hcl) by done.
Qed.

(** The end by a signal races with the other two goroutines: a heartbeat
    in progress makes the client panic, since the library allows one writer at
    a time, and the answer to the leave request can go to the receiving
    goroutine, so that [main] waits for its deadline and does not report that
    it has left. *)
Theorem interrupt_races c answer f :
  ws_open (cl_ws c) = true → ws_in (cl_ws c) = [] →
  decodeFrame answer = Ok f → f_MsgType f = MsgTypeLeaveRoomResp →
  test_run [TTick; TSignal; TMainSignal; TLeaveSend] (after_start c) =
    Some (Panic concurrent_write) ∧
  ∃ r, test_run [TSignal; TMainSignal; TLeaveSend; TArrive answer; TRead; TPush; TLeaveTimeout]
      (after_start c) = Some (Done r) ∧
    t_pc r = Exited ∧ t_handled r = [] ∧ ch_buf (t_msgCh r) = [f].
Proof.
  intros Ho Hin Hf Ht. split; [done|]. destruct c as [seq [incoming out op]]. simpl in Ho, Hin.
  subst. cbn -[decodeFrame u64 decide Z.eqb]. rewrite Hf. cbn -[decodeFrame u64 decide Z.eqb].
  rewrite Ht. cbn. by eexists.
Qed.
End run.

(** ** Examples *)
Section examples.
Import KeyedCodec.

Definition demo_push : Frame := mkFrame MsgTypePushMessage 7 [Byte.x61].
Definition demo_beat : Frame := mkFrame MsgTypeHeartbeatResp 0 [].
Definition demo_evs : list TestEvent :=
  [TTick; TArrive (encodeFrame demo_push); TRead; TArrive (encodeFrame demo_beat); TPush;
   TTickDone 5; TRead; TMainMsg; TServerClose].
Definition demo_end : list TestEvent := [TTick; TRead; TTickDone 9; TMainMsg].
Definition demo_client : Client := dialled 0 [] [].
Definition demo_at (evs : list TestEvent) : TestRun :=
  match test_run (mkFlags "u1" "r1" "dev_token") evs (after_start demo_client) with
  | Some (Done r) => r | _ => after_start demo_client end.

Lemma client_handles_in_order_witness :
  let r := demo_at (demo_evs ++ demo_end) in
  t_handled r = [demo_push] ∧ t_pc r = Exited ∧
  ∃ waiting, receiveLoop (t_read r) = t_handled r ++ waiting ∧ (length waiting ≤ 101)%nat ∧
    (t_stop r = false →
     [encodeFrame demo_push; encodeFrame demo_beat] =
       t_read r ++ ws_in (cl_ws (t_client r)) ∧
     (t_pc r = Exited → waiting = [] ∧
        ([encodeFrame demo_push; encodeFrame demo_beat] = t_read r ∨
         ∃ data e, last (t_read r) = Some data ∧ decodeFrame data = Err e))).
Proof.
  split; [by vm_compute|]. split; [by vm_compute|].
  apply (client_handles_in_order (mkFlags "u1" "r1" "dev_token") (demo_evs ++ demo_end)
    demo_client (demo_at (demo_evs ++ demo_end))). by vm_compute.
Defined.

Lemma server_close_ends_client_witness :
  let r := demo_at demo_evs in
  let r' := demo_at (demo_evs ++ demo_end) in
  (length (filter draining demo_end) + to_do r' ≤ to_do r)%nat ∧
  (t_pc r' ≠ Exited → ∃ ev r'', draining ev = true ∧
     test_step (mkFlags "u1" "r1" "dev_token") ev r' = Some (Done r'')).
Proof.
  apply (server_close_ends_client (mkFlags "u1" "r1" "dev_token") demo_evs demo_end
    demo_client (demo_at demo_evs) (demo_at (demo_evs ++ demo_end))).
  - by vm_compute.
  - split_and!; [by vm_compute..|]. by left; vm_compute.
  - repeat constructor.
  - by vm_compute.
Defined.

Lemma interrupt_races_witness :
  let answer := mkFrame MsgTypeLeaveRoomResp 2 [] in
  let run := test_run (mkFlags "u1" "r1" "dev_token") in
  run [TTick; TSignal; TMainSignal; TLeaveSend] (after_start demo_client) =
    Some (Panic concurrent_write) ∧
  ∃ r, run [TSignal; TMainSignal; TLeaveSend; TArrive (encodeFrame answer); TRead; TPush;
         TLeaveTimeout] (after_start demo_client) = Some (Done r) ∧
    t_pc r = Exited ∧ t_handled r = [] ∧ ch_buf (t_msgCh r) = [answer].
Proof. by apply (interrupt_races (mkFlags "u1" "r1" "dev_token") demo_client). Defined.
End examples.
