(* ===== verification/LoadTest.v ===== *)
(** [cmd/testclient/loadtest.go] and [cmd/test_client/main.go]: the load
    test, with its clients as a transition system over the shared counters,
    and the small one-file client with its own frame decoder.
    As in TestClient.v, tickers and deadlines are events of the run, and
    printing is left out. *)

From Stdlib Require Import ZArith Lia SpecFloat Ascii.
From stdpp Require Import base tactics gmap strings numbers list.
From S2P Require Import Prelude GoInt Protocol Frame Chan Connection Gateway GatewayHandler Login TestClient.

Local Open Scope Z_scope.

(** ** The load test *)
Module LoadTest.
Import Interactive.

(** [Stats]: five [int64] counters, added to atomically. *)
Record Stats := mkStats {
  connected : Z; disconnected : Z; msgSent : Z; msgRecv : Z; errors : Z }.
Definition no_stats : Stats := mkStats 0 0 0 0 0.
Definition add_connected n s :=
  mkStats (i64 (connected s + n)) (disconnected s) (msgSent s) (msgRecv s) (errors s).
Definition add_disconnected n s :=
  mkStats (connected s) (i64 (disconnected s + n)) (msgSent s) (msgRecv s) (errors s).
Definition add_msgSent n s :=
  mkStats (connected s) (disconnected s) (i64 (msgSent s + n)) (msgRecv s) (errors s).
Definition add_msgRecv n s :=
  mkStats (connected s) (disconnected s) (msgSent s) (i64 (msgRecv s + n)) (errors s).
Definition add_errors n s :=
  mkStats (connected s) (disconnected s) (msgSent s) (msgRecv s) (i64 (errors s + n)).

Section clients.
Context `{MapCodec} `{Msgpack AuthResponse, Msgpack JoinResponse}.

Definition sendFrameQuiet : Frame → C unit := sendFrame.

(** Marshalling errors are dropped, and an answer that does not parse is
    one without success. *)
Definition doAuth (userID : string) : C unit :=
  let payload := default [] (Marshal [("token", VStr ("dev_" ++ userID));
                                      ("user_id", VStr userID)])%string in
  sendFrameQuiet (mkFrame MsgTypeAuth 1 payload);;
  resp ← recvFrame;
  if negb (f_MsgType resp =? MsgTypeAuthResp) then fail (UnexpectedType (f_MsgType resp))
  else match Decode (f_Payload resp) with
  | Some authResp => if ar_Success authResp then mret tt else fail (Refused 0 "auth failed")
  | None => fail (Refused 0 "auth failed")
  end.

Definition doJoin (roomID : string) : C unit :=
  let payload := default [] (Marshal [("room_id", VStr roomID)])%string in
  sendFrameQuiet (mkFrame MsgTypeJoinRoom 2 payload);;
  resp ← recvFrame;
  if negb (f_MsgType resp =? MsgTypeJoinRoomResp) then fail (UnexpectedType (f_MsgType resp))
  else match Decode (f_Payload resp) with
  | Some joinResp => if jr_Success joinResp then mret tt else fail (Refused 0 "join failed")
  | None => fail (Refused 0 "join failed")
  end.

(** The first part of [runClient], after a successful dial. *)
Definition connect (userID roomID : string) : C unit := doAuth userID;; doJoin roomID.

Definition heartbeat_frame (roomID : string) (seq now_ms : Z) : Frame :=
  mkFrame MsgTypeHeartbeat seq (default []
    (Marshal [("room_id", VStr roomID); ("timestamp", VInt now_ms)])%string).
Definition biz_frame (userID : string) (seq now_s : Z) : Frame :=
  mkFrame MsgTypeBizRequest seq (default []
    (Marshal [("action", VStr "send_message");
              ("content", VStr ("Hello from " ++ userID ++ " at " ++ format_d 0 now_s))])%string).

(** ** The run *)
(** A client: starting up, in its loop with the next sequence number, or
    finished, by an error or by the end of the test. *)
Inductive Phase :=
  | Connecting
  | Running (seq : Z)
  | Failed
  | Left.
Record LoadClient := mkLoadClient {
  lc_userID : string; lc_roomID : string; lc_phase : Phase;
  lc_sent : list Frame;            (* handed to the socket by the loop *)
}.
Definition set_phase p fs (c : LoadClient) : LoadClient :=
  mkLoadClient (lc_userID c) (lc_roomID c) p fs.

(** The ids and rooms of [mainLoadTest]: [%] of ints keeps the sign of the
    dividend and panics on zero. *)
Definition clientID (i : Z) : string := "load_user_" ++ format_d 4 i.
Definition go_rem (a b : Z) : outcome Z :=
  if b =? 0 then Panic "integer divide by zero" else Done (Z.rem a b).
Definition go_quot (a b : Z) : outcome Z :=
  if b =? 0 then Panic "integer divide by zero" else Done (Z.quot a b).
Definition roomID_of (numRooms i : Z) : outcome string :=
  k ← go_rem i numRooms; Done ("load_room_" ++ format_d 3 k)%string.

(** [mainLoadTest]: before the loop, in it with the next index, waiting for
    the duration, waiting for the clients, or at the end. *)
Inductive MainPhase := Starting (i : Z) | Waiting | Joining | Finished | Crashed.
Record Run := mkRun {
  run_main : MainPhase;
  run_cancelled : bool;
  run_clients : list LoadClient;
  run_stats : Stats;
}.

(** [interval := rampUp / numClients], then the loop. *)
Definition mainLoadTest (numClients rampUp : Z) : Run :=
  match go_quot rampUp numClients with
  | Done _ => mkRun (Starting 0) false [] no_stats
  | _ => mkRun Crashed false [] no_stats
  end.

Inductive Event :=
  | MainStep                          (* the main goroutine goes on *)
  | Signal                            (* SIGINT or SIGTERM *)
  | Connect (k : nat) (ok : bool)     (* client k: dial, auth and join *)
  | Beat (k : nat) (now_ms : Z)
  | Biz (k : nat) (now_s : Z)
  | Recv (k : nat)
  | Leave (k : nat).                  (* client k sees ctx.Done() *)

(** The main goroutine; the [break] of the loop's [select] leaves the
    [select] only, so that a cancelled test still starts its clients. *)
Definition main_step (numClients numRooms : Z) (r : Run) : option Run :=
  match run_main r with
  | Starting i =>
    if i <? numClients then
      match roomID_of numRooms i with
      | Done room => Some (mkRun (Starting (i + 1)) (run_cancelled r)
          (run_clients r ++ [mkLoadClient (clientID i) room Connecting []]) (run_stats r))
      | _ => Some (mkRun Crashed (run_cancelled r) (run_clients r) (run_stats r))
      end
    else Some (mkRun Waiting (run_cancelled r) (run_clients r) (run_stats r))
  | Waiting => Some (mkRun Joining true (run_clients r) (run_stats r))
  | Joining =>
    if forallb (λ c, match lc_phase c with Failed | Left => true | _ => false end)
         (run_clients r)
    then Some (mkRun Finished (run_cancelled r) (run_clients r) (run_stats r)) else None
  | Finished | Crashed => None
  end.

(** What client [k] does: its new state, and the change of the counters. *)
Definition client_step (cancelled : bool) (ev : Event) (c : LoadClient) :
    option (LoadClient * (Stats → Stats)) :=
  match ev, lc_phase c with
  | Connect _ true, Connecting => Some (set_phase (Running 100) (lc_sent c) c, add_connected 1)
  | Connect _ false, Connecting => Some (set_phase Failed (lc_sent c) c, add_errors 1)
  | Beat _ now_ms, Running seq =>
    Some (set_phase (Running (u64 (seq + 1)))
            (lc_sent c ++ [heartbeat_frame (lc_roomID c) seq now_ms]) c, add_msgSent 1)
  | Biz _ now_s, Running seq =>
    Some (set_phase (Running (u64 (seq + 1)))
            (lc_sent c ++ [biz_frame (lc_userID c) seq now_s]) c, add_msgSent 1)
  | Recv _, (Running _ | Left) => Some (c, add_msgRecv 1)
  | Leave _, Running _ =>
    if cancelled
    then Some (set_phase Left (lc_sent c) c, add_disconnected 1 ∘ add_connected (-1))
    else None
  | _, _ => None
  end.

#[export] Instance Event_eq_dec : EqDecision Event.
Proof. solve_decision. Defined.

Definition event_client (ev : Event) : nat :=
  match ev with
  | Connect k _ | Beat k _ | Biz k _ | Recv k | Leave k => k
  | MainStep | Signal => 0
  end.

Definition step (numClients numRooms : Z) (ev : Event) (r : Run) : option Run :=
  match run_main r with
  | Finished | Crashed => None           (* the process has ended *)
  | _ =>
    match ev with
    | MainStep => main_step numClients numRooms r
    | Signal => Some (mkRun (run_main r) true (run_clients r) (run_stats r))
    | _ =>
      c ← run_clients r !! event_client ev;
      '(c', f) ← client_step (run_cancelled r) ev c;
      Some (mkRun (run_main r) (run_cancelled r)
              (<[event_client ev := c']> (run_clients r)) (f (run_stats r)))
    end
  end.

Fixpoint steps (numClients numRooms : Z) (evs : list Event) (r : Run) : option Run :=
  match evs with
  | [] => Some r
  | ev :: evs => r ← step numClients numRooms ev r; steps numClients numRooms evs r
  end.

(** ** What is printed *)
(** The flags of the test, with their defaults; durations in nanoseconds. *)
Record LoadOptions := mkLoadOptions {
  lo_numClients : Z; lo_numRooms : Z; lo_rampUp : Z; lo_duration : Z; lo_msgInterval : Z }.
Definition default_load_options : LoadOptions :=
  mkLoadOptions 100 10 (10 * 10 ^ 9) (60 * 10 ^ 9) (5 * 10 ^ 9).

Definition stats_line (s : Stats) : string :=
  "Stats: connected=" ++ format_d 0 (connected s) ++ " sent=" ++ format_d 0 (msgSent s) ++
  " recv=" ++ format_d 0 (msgRecv s) ++ " errors=" ++ format_d 0 (errors s).

(** The goroutine of [statsLoop], over its events: a tick, with the counters
    it finds, or the end of the context. *)
Fixpoint statsLoop (evs : list (option Stats)) : list string :=
  match evs with
  | Some s :: evs => stats_line s :: statsLoop evs
  | None :: _ | [] => []
  end.

Definition printFinalStats (s : Stats) : list string :=
  ["=== Final Stats ===";
   "  Total Connected: " ++ format_d 0 (connected s);
   "  Total Disconnected: " ++ format_d 0 (disconnected s);
   "  Messages Sent: " ++ format_d 0 (msgSent s);
   "  Messages Received: " ++ format_d 0 (msgRecv s);
   "  Errors: " ++ format_d 0 (errors s)]%string.

(** The last lines of the process, for a main goroutine that is through. *)
Definition final_lines (r : Run) : option (list string) :=
  match run_main r with Finished => Some (printFinalStats (run_stats r)) | _ => None end.
End clients.
End LoadTest.


(** ** Totals over the clients *)
Section totals.
Import LoadTest.

Fixpoint total (w : LoadClient → Z) (cs : list LoadClient) : Z :=
  match cs with [] => 0 | c :: cs => w c + total w cs end.

Lemma total_app w cs1 cs2 : total w (cs1 ++ cs2) = total w cs1 + total w cs2.
Proof. induction cs1 as [|c cs1 IH]; [done|]. cbn. rewrite IH. lia. Qed.

Lemma total_insert w cs k c c' :
  cs !! k = Some c → total w (<[k := c']> cs) = total w cs - w c + w c'.
Proof.
  intros Hk. rewrite insert_take_drop by (by eapply lookup_lt_Some).
  replace (total w cs) with (total w (take k cs ++ c :: drop (S k) cs))
    by (by rewrite take_drop_middle). rewrite !total_app. cbn. lia.
Qed.

Lemma total_ext w1 w2 cs : (∀ c, c ∈ cs → w1 c = w2 c) → total w1 cs = total w2 cs.
Proof.
  induction cs as [|c cs IH]; intros Hw; [done|]. cbn.
  rewrite (Hw c), IH by set_solver. done.
Qed.

Lemma i64_add a b : i64 (i64 a + b) = i64 (a + b).
Proof.
  unfold i64. replace ((a + 2 ^ 63) mod 2 ^ 64 - 2 ^ 63 + b + 2 ^ 63)
    with ((a + 2 ^ 63) mod 2 ^ 64 + b) by lia.
  rewrite Zplus_mod_idemp_l. f_equal. f_equal. lia.
Qed.

Definition is_running c : Z := match lc_phase c with Running _ => 1 | _ => 0 end.
Definition is_failed c : Z := match lc_phase c with Failed => 1 | _ => 0 end.
Definition is_left c : Z := match lc_phase c with Left => 1 | _ => 0 end.
Definition sent_count c : Z := Z.of_nat (length (lc_sent c)).

(** The counters count the clients. *)
Definition stats_ok (s : Stats) (cs : list LoadClient) : Prop :=
  connected s = i64 (total is_running cs) ∧ disconnected s = i64 (total is_left cs) ∧
  errors s = i64 (total is_failed cs) ∧ msgSent s = i64 (total sent_count cs).

(** The frames of a client's loop are numbered from 100 on. *)
Definition numbered (c : LoadClient) : Prop :=
  f_Seq <$> lc_sent c = (λ i, u64 (100 + Z.of_nat i)) <$> seq 0 (length (lc_sent c)) ∧
  ∀ n, lc_phase c = Running n → n = u64 (100 + Z.of_nat (length (lc_sent c))).
End totals.

(** ** Invariants of the run *)
Section run.
Import LoadTest Interactive.
Context `{MC : MapCodec}.
Context (numClients numRooms rampUp : Z).

(** The clients the loop starts, up to [n] of them. *)
Definition room_name (k : Z) : string := ("load_room_" ++ format_d 3 k)%string.
Definition plan (n : nat) : list (string * string) :=
  (λ i, (clientID (Z.of_nat i), room_name (Z.rem (Z.of_nat i) numRooms))) <$> seq 0 n.
Definition identities (r : Run) : list (string * string) :=
  (λ c, (lc_userID c, lc_roomID c)) <$> run_clients r.

Definition main_ok (r : Run) : Prop :=
  match run_main r with
  | Starting i => ∃ n : nat, i = Z.of_nat n ∧ (n ≤ Z.to_nat numClients)%nat ∧ identities r = plan n
  | Waiting => identities r = plan (Z.to_nat numClients)
  | Joining => identities r = plan (Z.to_nat numClients) ∧ run_cancelled r = true
  | Finished => identities r = plan (Z.to_nat numClients) ∧
      Forall (λ c, lc_phase c = Failed ∨ lc_phase c = Left) (run_clients r)
  | Crashed => numRooms = 0 ∧ 0 < numClients ∨ numClients = 0
  end.

(** Before a client runs it has sent nothing. *)
Definition waits_silent (c : LoadClient) : Prop := lc_phase c = Connecting → lc_sent c = [].
Definition client_ok (c : LoadClient) : Prop := numbered c ∧ waits_silent c.
Definition run_ok (r : Run) : Prop :=
  main_ok r ∧ stats_ok (run_stats r) (run_clients r) ∧ Forall client_ok (run_clients r).

Lemma plan_S n :
  plan (S n) = plan n ++ [(clientID (Z.of_nat n), room_name (Z.rem (Z.of_nat n) numRooms))].
Proof. unfold plan. by rewrite seq_S, fmap_app. Qed.

Lemma numbered_same c p :
  numbered c → (∀ n, p = Running n → lc_phase c = Running n ∨ n = 100 ∧ lc_sent c = []) →
  numbered (set_phase p (lc_sent c) c).
Proof.
  intros [H1 H2] Hp. split; [done|]. cbn. intros n ->.
  destruct (Hp n eq_refl) as [|[-> ->]]; [auto|done].
Qed.

Lemma numbered_snoc c n f :
  numbered c → lc_phase c = Running n → f_Seq f = n →
  numbered (set_phase (Running (u64 (n + 1))) (lc_sent c ++ [f]) c).
Proof.
  intros [H1 H2] Hp Hf. pose proof (H2 n Hp) as Hn. split; cbn.
  - rewrite fmap_app, length_app. cbn [length]. rewrite Nat.add_1_r, seq_S, fmap_app, H1.
    cbn. by rewrite Hf, Hn.
  - intros m [= <-]. rewrite length_app. cbn. rewrite Hn. unfold u64. rewrite Zplus_mod_idemp_l.
    f_equal. lia.
Qed.

Lemma client_step_effect cancelled ev c c' f s cs :
  client_step cancelled ev c = Some (c', f) → cs !! event_client ev = Some c →
  numbered c → waits_silent c →
  lc_userID c' = lc_userID c ∧ lc_roomID c' = lc_roomID c ∧ numbered c' ∧ waits_silent c' ∧
  (stats_ok s cs → stats_ok (f s) (<[event_client ev := c']> cs)).
Proof.
  intros Hs Hk Hn Hw. unfold client_step in Hs.
  destruct ev as [| |k ok|k t|k t|k|k], (lc_phase c) as [|m| |] eqn:Hp; try done;
    try destruct ok; try (destruct cancelled; [|done]); simplify_eq/=;
    (split_and!; [done|done|
      first [by apply numbered_snoc|apply numbered_same; naive_solver|done]|intros ?; cbn in *; congruence|
      intros (H1 & H2 & H3 & H4); unfold stats_ok; cbn;
      rewrite !(total_insert _ _ _ _ _ Hk), H1, H2, H3, H4, ?i64_add;
      unfold is_running, is_left, is_failed, sent_count; cbn; rewrite ?Hp, ?length_app;
      split_and!; f_equal; cbn; lia]).
Qed.

Lemma identities_insert (cs : list LoadClient) (k : nat) c c' :
  cs !! k = Some c → lc_userID c' = lc_userID c → lc_roomID c' = lc_roomID c →
  (λ c, (lc_userID c, lc_roomID c)) <$> <[k := c']> cs =
  (λ c, (lc_userID c, lc_roomID c)) <$> cs.
Proof.
  intros Hk H1 H2. rewrite list_fmap_insert, H1, H2.
  apply list_insert_id. by rewrite list_lookup_fmap, Hk.
Qed.

Lemma main_step_ok r r' :
  run_ok r → main_step numClients numRooms r = Some r' → run_ok r'.
Proof.
  intros (Hm & Hs & Hc) Hr. unfold main_step in Hr. unfold main_ok in Hm.
  destruct (run_main r) as [i| | | |]; simplify_eq/=.
  - destruct Hm as (n & -> & Hn & Hid). destruct (Z.ltb_spec (Z.of_nat n) numClients).
    + unfold roomID_of, go_rem in Hr. destruct (Z.eqb_spec numRooms 0); simplify_eq/=.
      * split; [cbn; left; lia|done].
      * split; [|split].
        -- exists (S n). split_and!; [lia..|]. rewrite plan_S, <-Hid. unfold identities.
           cbn [run_clients]. by rewrite fmap_app.
        -- destruct Hs as (H1 & H2 & H3 & H4). unfold stats_ok. cbn.
           rewrite !total_app, H1, H2, H3, H4. cbn. by rewrite !Z.add_0_r.
        -- apply Forall_app. split; [done|]. apply Forall_singleton. by repeat split.
    + simplify_eq. split; [|done]. unfold main_ok. cbn. unfold identities in *. cbn.
      rewrite Hid. f_equal. lia.
  - by split; [split|].
  - destruct (forallb _ _) eqn:Hb; [|done]. simplify_eq. split; [|done].
    destruct Hm as [Hid _]. split; [done|]. cbn.
    apply Is_true_true, forallb_True in Hb. eapply Forall_impl; [exact Hb|].
    intros c. cbv beta. destruct (lc_phase c); naive_solver.
Qed.

Lemma step_ok ev r r' :
  run_ok r → step numClients numRooms ev r = Some r' → run_ok r'.
Proof.
  intros Hr Hs. unfold step in Hs.
  assert (match ev with
    | MainStep => main_step numClients numRooms r
    | Signal => Some (mkRun (run_main r) true (run_clients r) (run_stats r))
    | _ =>
      c ← run_clients r !! event_client ev;
      '(c', f) ← client_step (run_cancelled r) ev c;
      Some (mkRun (run_main r) (run_cancelled r)
              (<[event_client ev := c']> (run_clients r)) (f (run_stats r)))
    end = Some r' ∧ run_main r ≠ Finished) as [Hs' Hf] by by destruct (run_main r). clear Hs.
  destruct (decide (ev = MainStep)) as [->|Hne1]; [by eapply main_step_ok|].
  destruct (decide (ev = Signal)) as [->|Hne2].
  { simplify_eq. destruct Hr as (Hm & Hr). split; [|exact Hr]. unfold main_ok in *. cbn.
    destruct (run_main r); naive_solver. }
  assert (∃ c c' f, run_clients r !! event_client ev = Some c ∧
    client_step (run_cancelled r) ev c = Some (c', f) ∧
    r' = mkRun (run_main r) (run_cancelled r)
           (<[event_client ev := c']> (run_clients r)) (f (run_stats r)))
    as (c & c' & f & Hk & Hstep & ->).
  { destruct ev; try done; cbn [event_client] in *;
      (destruct (run_clients r !! k) as [c|]; [|done]); cbn [mbind option_bind] in Hs';
      (destruct (client_step _ _ _) as [[c' f]|] eqn:E; [|done]);
      injection Hs' as <-; by exists c, c', f. }
  destruct Hr as (Hm & Hst & Hcl).
  pose proof (Forall_lookup_1 _ _ _ _ Hcl Hk) as [Hn Hw].
  edestruct client_step_effect as (H1 & H2 & H3 & H4 & H5); [done..|].
  split; [|split]; cbn; [|by apply H5|by apply Forall_insert].
  assert (identities (mkRun (run_main r) (run_cancelled r)
    (<[event_client ev := c']> (run_clients r)) (f (run_stats r))) = identities r) as Hid
    by by eapply identities_insert.
  unfold main_ok in *. cbn [run_main run_cancelled]. rewrite !Hid. by destruct (run_main r).
Qed.

Lemma steps_ok evs r r' :
  run_ok r → steps numClients numRooms evs r = Some r' → run_ok r'.
Proof.
  revert r. induction evs as [|ev evs IH]; intros r Hr Hs; simplify_eq/=; [done|].
  destruct (step _ _ ev r) as [r1|] eqn:E; [|done]. eapply IH; [|done]. by eapply step_ok.
Qed.

Lemma mainLoadTest_ok : run_ok (mainLoadTest numClients rampUp).
Proof.
  unfold mainLoadTest, go_quot. destruct (Z.eqb_spec numClients 0); [|].
  { split; [by right|]. split; [done|constructor]. }
  split; [|split; [done|constructor]]. exists 0%nat. split_and!; [done|lia|done].
Qed.

(** ** Properties *)
Definition finished (c : LoadClient) : Prop := lc_phase c = Failed ∨ lc_phase c = Left.

Lemma total_finished cs :
  Forall finished cs →
  total is_running cs = 0 ∧ total is_left cs + total is_failed cs = Z.of_nat (length cs) ∧
  0 <= total is_left cs ∧ 0 <= total is_failed cs.
Proof.
  induction 1 as [|c cs Hc _ IH]; [done|]. cbn [total length].
  unfold is_running at 1, is_left at 1 3, is_failed at 1 3. destruct Hc as [-> | ->]; lia.
Qed.

(** The counters of the load test, at any point of any run: connected
    counts the clients in their loop, disconnected those that left it, errors
    those that never got in, and each loop numbers its frames from 100 on.
    At the end all clients of the plan have been started, even when the test
    was cancelled at once, and the "Total Connected" that is printed is
    always zero. *)
Theorem load_test_stats evs r :
  numClients < 2 ^ 63 →
  steps numClients numRooms evs (mainLoadTest numClients rampUp) = Some r →
  stats_ok (run_stats r) (run_clients r) ∧ Forall numbered (run_clients r) ∧
  (run_main r = Finished →
   identities r = plan (Z.to_nat numClients) ∧ connected (run_stats r) = 0 ∧
   disconnected (run_stats r) + errors (run_stats r) = Z.max 0 numClients).
Proof.
  intros Hn Hs. destruct (steps_ok _ _ _ mainLoadTest_ok Hs) as (Hm & Hst & Hc).
  split; [done|]. split; [by eapply Forall_impl; [exact Hc|intros ? []]|].
  intros Hf. unfold main_ok in Hm. rewrite Hf in Hm. destruct Hm as [Hid Hfin].
  split; [done|]. destruct (total_finished _ Hfin) as (H1 & H2 & H3 & H4).
  destruct Hst as (-> & -> & -> & _).
  assert (length (run_clients r) = Z.to_nat numClients) as Hl.
  { apply (f_equal length) in Hid. unfold identities, plan in Hid.
    by rewrite !length_fmap, length_seq in Hid. }
  rewrite H1. split; [done|]. rewrite !i64_small; lia.
Qed.

(** The report at the end: nobody is shown as connected, and those shown as
    disconnected are the clients that did get in. *)
Theorem final_report evs r lines :
  numClients < 2 ^ 63 →
  steps numClients numRooms evs (mainLoadTest numClients rampUp) = Some r →
  final_lines r = Some lines →
  lines !! 1%nat = Some "  Total Connected: 0"%string ∧
  lines !! 2%nat = Some ("  Total Disconnected: " ++
    format_d 0 (Z.max 0 numClients - errors (run_stats r)))%string.
Proof.
  intros Hn Hs Hl. destruct (load_test_stats evs r Hn Hs) as (_ & _ & Hfin).
  unfold final_lines in Hl. destruct (run_main r); simplify_eq.
  destruct (Hfin eq_refl) as (_ & Hc & Hsum). unfold printFinalStats.
  rewrite Hc. split; [done|]. cbn [lookup list_lookup]. do 4 f_equal. lia.
Qed.

(** Steps that the main goroutine makes alone. *)
Lemma main_starts k r i :
  0 < numRooms → run_main r = Starting i → i + Z.of_nat k = Z.max i numClients →
  ∃ r', steps numClients numRooms (replicate (S k) MainStep) r = Some r' ∧
    run_main r' = Waiting ∧ run_cancelled r' = run_cancelled r.
Proof.
  intros Hr. revert r i. induction k as [|k IH]; intros r i Hi Hk.
  - cbn. unfold step, main_step. rewrite Hi.
    destruct (Z.ltb_spec i numClients); [lia|]. by eexists.
  - change (replicate (S (S k)) MainStep) with (MainStep :: replicate (S k) MainStep).
    cbn [steps]. unfold step at 1, main_step at 1. rewrite Hi.
    destruct (Z.ltb_spec i numClients); [|lia].
    unfold roomID_of, go_rem. destruct (Z.eqb_spec numRooms 0); [lia|].
    cbn [mbind outcome_bind option_bind].
    lazymatch goal with |- context [steps _ _ _ ?r1] =>
      destruct (IH r1 (i + 1) eq_refl) as (r' & H1 & H2 & H3); [lia|by exists r'] end.
Qed.

Lemma steps_app evs1 evs2 r :
  steps numClients numRooms (evs1 ++ evs2) r =
  (steps numClients numRooms evs1 r ≫= steps numClients numRooms evs2).
Proof.
  revert r. induction evs1 as [|ev evs1 IH]; intros r; [done|]. cbn [app steps].
  destruct (step _ _ ev r); cbn [mbind option_bind]; [apply IH|done].
Qed.

(** A cancelled test gets rid of a client in at most one event. *)
Lemma client_finishes r k c :
  run_main r = Joining → run_cancelled r = true → run_clients r !! k = Some c →
  ∃ evs c' s, finished c' ∧
    steps numClients numRooms evs r = Some (mkRun Joining true (<[k := c']> (run_clients r)) s).
Proof.
  intros Hm Hc Hk. destruct (lc_phase c) eqn:Hp.
  - exists [Connect k false], (set_phase Failed (lc_sent c) c). eexists. split; [by left|]. cbn [steps].
    unfold step. rewrite Hm, Hc. cbn [event_client]. rewrite Hk. cbn [mbind option_bind].
    unfold client_step. by rewrite Hp.
  - exists [Leave k], (set_phase Left (lc_sent c) c). eexists. split; [by right|]. cbn [steps].
    unfold step. rewrite Hm, Hc. cbn [event_client]. rewrite Hk. cbn [mbind option_bind].
    unfold client_step. by rewrite Hp.
  - exists [], c, (run_stats r). split; [by left|]. cbn. rewrite list_insert_id by done.
    destruct r. by simplify_eq/=.
  - exists [], c, (run_stats r). split; [by right|]. cbn. rewrite list_insert_id by done.
    destruct r. by simplify_eq/=.
Qed.

Lemma clients_finish n r :
  run_main r = Joining → run_cancelled r = true → (n ≤ length (run_clients r))%nat →
  ∃ evs r', steps numClients numRooms evs r = Some r' ∧ run_main r' = Joining ∧
    run_cancelled r' = true ∧ length (run_clients r') = length (run_clients r) ∧
    Forall finished (take n (run_clients r')).
Proof.
  intros Hm Hc. induction n as [|n IH]; intros Hn; [exists [], r; by split_and!|].
  destruct IH as (evs & r1 & Hs & Hm1 & Hc1 & Hl1 & Hf1); [lia|].
  destruct (lookup_lt_is_Some_2 (run_clients r1) n) as [c Hk]; [lia|].
  destruct (client_finishes r1 n c Hm1 Hc1 Hk) as (evs2 & c' & s & Hc' & Hs2).
  exists (evs ++ evs2). eexists. rewrite steps_app, Hs. split; [exact Hs2|].
  cbn [run_main run_cancelled run_clients]. rewrite length_insert.
  split_and!; [done..|].
  rewrite (take_S_r _ _ c') by (apply list_lookup_insert_eq; lia).
  rewrite take_insert_ge by lia. by apply Forall_app_2, Forall_singleton.
Qed.

(** The load test can always come to its end: from every point of
    every run, with at least one client and a positive number of rooms, the
    main goroutine starts the remaining clients, waits, cancels, and each
    client, wherever it is, needs one event to finish. *)
Theorem load_test_ends evs r :
  0 < numClients → 0 < numRooms →
  steps numClients numRooms evs (mainLoadTest numClients rampUp) = Some r →
  ∃ evs' r', steps numClients numRooms evs' r = Some r' ∧ run_main r' = Finished.
Proof.
  intros Hn Hr Hs. destruct (steps_ok _ _ _ mainLoadTest_ok Hs) as (Hm & _ & _).
  assert (∀ r, run_main r = Joining → run_cancelled r = true →
    ∃ evs' r', steps numClients numRooms evs' r = Some r' ∧ run_main r' = Finished) as HJ.
  { clear. intros r Hm Hc.
    destruct (clients_finish (length (run_clients r)) r Hm Hc) as (evs & r1 & Hs & Hm1 & _ & Hl & Hf);
      [done|]. rewrite <-Hl, firstn_all in Hf.
    exists (evs ++ [MainStep]). eexists. rewrite steps_app, Hs. cbn [mbind option_bind steps].
    unfold step, main_step. rewrite Hm1.
    assert (forallb (λ c, match lc_phase c with Failed | Left => true | _ => false end)
              (run_clients r1) = true) as ->; [|done].
    apply Is_true_true, forallb_True. eapply Forall_impl; [exact Hf|].
    by intros c [-> | ->]. }
  assert (∀ r, run_main r = Waiting →
    ∃ evs' r', steps numClients numRooms evs' r = Some r' ∧ run_main r' = Finished) as HW.
  { intros r0 Hm0. destruct (HJ (mkRun Joining true (run_clients r0) (run_stats r0)))
      as (evs' & r' & H1 & H2); [done..|].
    exists (MainStep :: evs'), r'. split; [|done]. cbn [steps]. unfold step, main_step.
    by rewrite Hm0. }
  unfold main_ok in Hm. destruct (run_main r) as [i| | | |] eqn:E.
  - destruct Hm as (n & -> & Hle & _).
    destruct (main_starts (Z.to_nat numClients - n) r (Z.of_nat n)) as (r1 & H1 & H2 & _);
      [done..|lia|].
    destruct (HW r1 H2) as (evs' & r' & H3 & H4). eexists (_ ++ evs'), r'.
    by rewrite steps_app, H1.
  - by apply HW.
  - apply HJ; [done|apply Hm].
  - by exists [], r.
  - lia.
Qed.

(** The numbers on the command line are not checked: the load test
    panics with an integer division by zero exactly when it is given no
    clients, or some clients and no room. *)
Theorem load_test_crashes :
  (∃ evs r, steps numClients numRooms evs (mainLoadTest numClients rampUp) = Some r ∧
            run_main r = Crashed) ↔
  numClients = 0 ∨ 0 < numClients ∧ numRooms = 0.
Proof.
  split.
  - intros (evs & r & Hs & Hc). destruct (steps_ok _ _ _ mainLoadTest_ok Hs) as (Hm & _).
    unfold main_ok in Hm. rewrite Hc in Hm. lia.
  - intros [H0|[Hn Hr]].
    + exists [], (mainLoadTest numClients rampUp). split; [done|].
      unfold mainLoadTest, go_quot. by apply Z.eqb_eq in H0 as ->.
    + exists [MainStep]. eexists. unfold mainLoadTest, go_quot.
      destruct (Z.eqb_spec numClients 0); [lia|]. cbn [steps]. unfold step, main_step.
      cbn [run_main]. apply Z.ltb_lt in Hn as ->. unfold roomID_of, go_rem. by rewrite Hr.
Qed.

Lemma clientID_inj i j : 0 <= i < 2 ^ 63 → 0 <= j < 2 ^ 63 → clientID i = clientID j → i = j.
Proof. unfold clientID. intros Hi Hj [= H]. by apply (format_d_inj 4); [lia..|]. Qed.

Lemma room_name_inj i j : 0 <= i < 2 ^ 63 → 0 <= j < 2 ^ 63 → room_name i = room_name j → i = j.
Proof. unfold room_name. intros Hi Hj [= H]. by apply (format_d_inj 3); [lia..|]. Qed.

(** One more client, and the number of those with remainder [k]. *)
Lemma share_step n r k :
  0 <= n → 0 < r → 0 <= k < r →
  (n + 1) / r + (if k <? (n + 1) mod r then 1 else 0) =
  n / r + (if k <? n mod r then 1 else 0) + (if n mod r =? k then 1 else 0).
Proof.
  intros Hn Hr Hk. pose proof (Z.div_mod n r ltac:(lia)) as Hd.
  pose proof (Z.mod_pos_bound n r Hr) as Hm.
  destruct (decide (n mod r + 1 < r)).
  - rewrite <-(Z.div_unique (n + 1) r (n / r) (n mod r + 1)),
      <-(Z.mod_unique (n + 1) r (n / r) (n mod r + 1)) by lia.
    destruct (Z.ltb_spec k (n mod r + 1)), (Z.ltb_spec k (n mod r)),
      (Z.eqb_spec (n mod r) k); lia.
  - rewrite <-(Z.div_unique (n + 1) r (n / r + 1) 0),
      <-(Z.mod_unique (n + 1) r (n / r + 1) 0) by lia.
    destruct (Z.ltb_spec k 0), (Z.ltb_spec k (n mod r)), (Z.eqb_spec (n mod r) k); lia.
Qed.

(** How the clients are spread: all user ids are different, and each of
    the rooms gets its share of them, the first ones one more when the
    numbers do not divide. *)
Theorem load_test_balanced (n : nat) :
  Z.of_nat n < 2 ^ 63 → 0 < numRooms < 2 ^ 63 →
  NoDup (plan n).*1 ∧
  ∀ k, 0 <= k < numRooms →
    Z.of_nat (length (filter (λ p, p.2 = room_name k) (plan n))) =
    Z.of_nat n / numRooms + (if k <? Z.of_nat n mod numRooms then 1 else 0).
Proof.
  intros Hn Hr. split.
  - unfold plan. rewrite <-list_fmap_compose. apply NoDup_fmap_2_strong; [|apply NoDup_seq].
    intros i j Hi Hj Heq. apply elem_of_seq in Hi, Hj.
    apply Nat2Z.inj, clientID_inj; [lia..|exact Heq].
  - intros k Hk. induction n as [|n IH].
    { cbn [plan seq fmap list_fmap]. rewrite Z.div_0_l, Z.mod_0_l by lia.
      destruct (Z.ltb_spec k 0); [lia|done]. }
    rewrite plan_S, filter_app, length_app, Nat2Z.inj_add, IH, Nat2Z.inj_succ by lia.
    unfold Z.succ. rewrite share_step by lia. f_equal.
    rewrite Z.rem_mod_nonneg by lia.
    pose proof (Z.mod_pos_bound (Z.of_nat n) numRooms ltac:(lia)) as Hm.
    rewrite filter_cons, filter_nil. cbn [snd].
    destruct (Z.eqb_spec (Z.of_nat n mod numRooms) k) as [->|Hne]; case_decide as Hd; try done.
    exfalso. apply Hne, room_name_inj; [lia..|done].
Qed.
End run.

(** ** The clients of the load test log in *)
Section load_login.
Import LoadTest Interactive.
Context `{MC : MapCodec} `{LA : MsgpackLaws AuthRequest, LR : MsgpackLaws RoomRequest,
  LS : MsgpackLaws StatusResponse} `{MJ : Msgpack JoinResponse} `{ML : !MapLaws}.
Context `{LP : MsgpackLaws AuthResponse}.
Context (ParseWithClaims : string → (SigningMethod → option (list byte)) → ParseResult).

Definition load_flags (i : Z) (rid : string) : Flags :=
  mkFlags (clientID i) rid ("dev_" ++ clientID i).

(** No secret keeps the load test out: a gateway accepts each of its
    users on the strength of the "dev_" in the token, whatever key its
    validator has, and the client takes the gateway's answer for a success. *)
Theorem load_users_accepted gwID jwt i rid :
  let fl := load_flags i rid in
  let msg := message MsgTypeAuth 1 (auth_map fl) in
  small (auth_map fl) →
  answer_sized (mkAuthResponse true (clientID i) gwID ErrCodeSuccess "") →
  ∃ replies,
    Login.authenticate ParseWithClaims gwID jwt (Some msg) = Done (Ok (clientID i), replies) ∧
    doAuth (clientID i) (dialled 0 replies []) = (Ok tt, dialled 0 [] [msg]).
Proof.
  intros fl msg Hs Ha.
  assert (Login.authenticate ParseWithClaims gwID jwt (Some msg) =
    Done (Ok (clientID i), sendAuthResp gwID true (clientID i) ErrCodeSuccess "")) as Hl.
  { unfold Login.authenticate, msg. rewrite decode_message, outcome_bind_ret by done.
    cbn [f_MsgType f_Payload]. rewrite Z.eqb_refl. cbn [negb].
    destruct (Marshal_ok (auth_map fl)) as [b Hb]. rewrite Hb. cbn [default].
    rewrite (Decode_auth_map _ _ _ Hb). cbn [aq_Token aq_UserID fl load_flags fl_token fl_userID].
    rewrite decide_False by done. by destruct jwt. }
  eexists. split; [exact Hl|]. rewrite sendAuthResp_frame.
  unfold doAuth, sendFrameQuiet. unfold mbind at 1, C_bind at 1.
  change (sendFrame _ (dialled 0 ?r [])) with (Ok (E := ClientError) tt, dialled 0 r [msg]).
  cbv beta iota. unfold mbind at 1, C_bind at 1.
  rewrite recvFrame_run by (done || by split). cbn [f_MsgType f_Payload].
  rewrite Z.eqb_refl. cbn [negb]. by rewrite Decode_Encode_.
Qed.
End load_login.

(** ** cmd/test_client: decoding without a length check *)
Module Probe.

(** [DecodeFrame] of a message whose slice has [spare] behind its length, up
    to its capacity: a slice expression may reach there. *)
Definition DecodeFrame (data spare : list byte) : outcome (result nat Frame) :=
  if (length data <? HeaderSize)%nat then Done (Err (length data)) else
  let msgType := Uint32 (slice 0 4 data) in
  let seq := Uint64 (slice 4 12 data) in
  let payloadLen := Uint32 (slice 12 16 data) in
  if 0 <? payloadLen then
    let j := Z.of_nat HeaderSize + payloadLen in
    if Z.of_nat (length data + length spare) <? j
    then Panic "slice bounds out of range"
    else Done (Ok (mkFrame msgType seq (slice HeaderSize (Z.to_nat j) (data ++ spare))))
  else Done (Ok (mkFrame msgType seq [])).

Definition EncodeFrame : Frame → list byte := encodeFrame.

Section main.
Context `{Msgpack AuthRequest, Msgpack RoomRequest}.

(** The three messages [main] writes. *)
Definition requests (userID roomID : string) : list Frame :=
  [mkFrame MsgTypeAuth 1 (Encode_ (mkAuthRequest "" userID));
   mkFrame MsgTypeJoinRoom 2 (Encode_ (mkRoomRequest roomID));
   mkFrame MsgTypeHeartbeat 3 []].
Definition main_writes (userID roomID : string) : list (list byte) :=
  EncodeFrame <$> requests userID roomID.

(** The flags, with their defaults. *)
Record Options := mkOptions { opt_addr : string; opt_user : string; opt_room : string }.
Definition default_options : Options :=
  mkOptions "ws://localhost:8080/ws" "test-user-1" "room-1".

(** [main]: the address it dials, what it has written, and how it stands.
    [log.Fatal] ends the process with code 1, without the deferred close;
    after an interrupt the connection is closed. *)
Inductive MainEnd := FatalConnect | FatalWrite | Waits | Exited.

Definition main (dial : string → bool) (write : list byte → bool) (interrupt : bool)
    (o : Options) : list (list byte) * MainEnd :=
  if dial (opt_addr o) then
    (fix go msgs := match msgs with
     | [] => ([], if interrupt then Exited else Waits)
     | msg :: msgs =>
       if write msg then let '(done, e) := go msgs in (msg :: done, e) else ([], FatalWrite)
     end) (main_writes (opt_user o) (opt_room o))
  else ([], FatalConnect).
End main.

(** What the reader goroutine prints of a message. *)
Record JoinRoomAck := mkJoinRoomAck {
  ja_Code : Z; ja_Message : string; ja_RoomID : string; ja_Success : bool }.
Inductive Printed :=
  | PrintAuth (resp : AuthResponse)
  | PrintJoin (ack : JoinRoomAck)
  | PrintLeave | PrintHeartbeat | PrintPush
  | PrintOther (msgType seq : Z) (payload_len : nat)
  | PrintError.

Section reader.
Context `{Msgpack AuthResponse, Msgpack JoinRoomAck}.
Definition print_frame (f : Frame) : Printed :=
  let t := f_MsgType f in
  if t =? MsgTypeAuthResp then
    match Decode (f_Payload f) with Some r => PrintAuth r | None => PrintError end
  else if t =? MsgTypeJoinRoomResp then
    match Decode (f_Payload f) with Some a => PrintJoin a | None => PrintError end
  else if t =? MsgTypeLeaveRoomResp then PrintLeave
  else if t =? MsgTypeHeartbeatResp then PrintHeartbeat
  else if t =? MsgTypePushMessage then PrintPush
  else PrintOther t (f_Seq f) (length (f_Payload f)).

Definition on_message (data spare : list byte) : outcome Printed :=
  r ← DecodeFrame data spare;
  mret match r with Err _ => PrintError | Ok f => print_frame f end.

(** The goroutine, over what [ReadMessage] gives: a message with what lies
    behind it in its buffer, or an error, which ends it.  What it prints. *)
Fixpoint reader (reads : list (option (list byte * list byte))) : outcome (list Printed) :=
  match reads with
  | [] => mret []
  | None :: _ => mret [PrintError]
  | Some (data, spare) :: reads =>
    line ← on_message data spare;
    lines ← reader reads;
    mret (line :: lines)
  end.
End reader.
End Probe.

Lemma slice_app i j data rest :
  (i ≤ length data)%nat → (j ≤ length data)%nat → slice i j (data ++ rest) = slice i j data.
Proof.
  intros Hi Hj. unfold slice. rewrite drop_app_le by done.
  apply take_app_le. rewrite length_drop. lia.
Qed.

Lemma slice_take i j k data : (j ≤ k)%nat → slice i j (take k data) = slice i j data.
Proof.
  intros Hj. unfold slice. rewrite skipn_firstn_comm.
  rewrite take_take. f_equal. lia.
Qed.

Lemma probe_complete data spare f :
  decodeFrame data = Ok f → Probe.DecodeFrame data spare = Done (Ok f).
Proof.
  unfold decodeFrame, Probe.DecodeFrame.
  destruct (Nat.ltb_spec (length data) HeaderSize); [done|]. cbv zeta.
  set (n := Uint32 (slice 12 16 data)).
  destruct (Z.ltb_spec (Z.of_nat (length data)) (Z.of_nat HeaderSize + n)); [done|].
  intros [= <-]. destruct (Z.ltb_spec 0 n); [|done].
  destruct (Z.ltb_spec (Z.of_nat (length data + length spare)) (Z.of_nat HeaderSize + n)); [lia|].
  rewrite slice_app by (unfold HeaderSize in *; lia). done.
Qed.

Lemma probe_truncated f k spare :
  frame_ok f → (HeaderSize ≤ k < length (EncodeFrame f))%nat →
  Probe.DecodeFrame (take k (EncodeFrame f)) spare =
  if (length (EncodeFrame f) <=? k + length spare)%nat
  then Done (Ok (mkFrame (f_MsgType f) (f_Seq f)
    (drop HeaderSize (take k (EncodeFrame f)) ++
     take (length (EncodeFrame f) - k) spare)))
  else Panic "slice bounds out of range".
Proof.
  intros [[Ht Hs] Hlen] Hk. rewrite MaxPayloadLen_val in Hlen.
  destruct (wire_header f []) as (H1 & H2 & H3 & _). rewrite app_nil_r in H1, H2, H3.
  rewrite <-EncodeFrame_wire in H1, H2, H3.
  rewrite length_EncodeFrame in Hk |- *. set (n := length (f_Payload f)) in *.
  assert (length (take k (EncodeFrame f)) = k) as Hl
    by (rewrite length_take, length_EncodeFrame; fold n; lia).
  unfold Probe.DecodeFrame. rewrite Hl. destruct (Nat.ltb_spec k HeaderSize); [lia|].
  rewrite !slice_take by (unfold HeaderSize in *; lia). rewrite H1, H2, H3.
  rewrite !Uint32_Put, Uint64_Put, (u32_small (f_MsgType f)), (u32_small (Z.of_nat n)), u64_small by lia.
  cbv zeta.
  destruct (Z.ltb_spec 0 (Z.of_nat n)); [|lia].
  destruct (Z.ltb_spec (Z.of_nat (k + length spare)) (Z.of_nat HeaderSize + Z.of_nat n)),
    (Nat.leb_spec (HeaderSize + n) (k + length spare)); try lia; [done|].
  do 3 f_equal. unfold slice.
  rewrite drop_app_le by lia. rewrite take_app_ge by (rewrite length_drop; lia).
  rewrite length_drop, Hl. do 2 f_equal. lia.
Qed.

(** The small client decodes what the protocol package decodes; a
    message that the protocol package rejects as cut short makes it panic,
    or, when the buffer behind the message is large enough, yields a frame
    padded with bytes that were never received. *)
Theorem probe_DecodeFrame_spec data spare :
  (∀ f, Frame.DecodeFrame data = Done (Ok f) → Probe.DecodeFrame data spare = Done (Ok f)) ∧
  (∀ f k, frame_ok f → (HeaderSize ≤ k < length (EncodeFrame f))%nat →
    data = take k (EncodeFrame f) →
    Frame.DecodeFrame data = Done (Err ErrInvalidFrame) ∧
    Probe.DecodeFrame data spare =
      if (length (EncodeFrame f) <=? k + length spare)%nat
      then Done (Ok (mkFrame (f_MsgType f) (f_Seq f)
        (drop HeaderSize data ++ take (length (EncodeFrame f) - k) spare)))
      else Panic "slice bounds out of range").
Proof.
  split; [by intros f ?%decodeFrame_complete%(probe_complete _ spare)|].
  intros f k Hf Hk ->. split; [|by apply probe_truncated].
  apply DecodeFrame_truncated; [done|lia].
Qed.

Lemma probe_on_batch `{Msgpack AuthResponse, Msgpack Probe.JoinRoomAck} f rest spare :
  frame_ok f →
  Probe.on_message (EncodeFrame f ++ rest) spare = Done (Probe.print_frame f).
Proof.
  intros Hf. unfold Probe.on_message. rewrite (probe_complete _ spare f); [done|].
  by apply decodeFrame_complete, DecodeFrame_app.
Qed.

(** What the write loop of a gateway packs into messages never stops the
    reader: it prints one line for each message, of its first frame; the
    other frames of a batch are not seen.  It ends with a read error. *)
Theorem probe_reads_batches `{Msgpack AuthResponse, Msgpack Probe.JoinRoomAck}
    (batches : list (Frame * list Frame * list byte)) :
  Forall (λ b, Forall frame_ok (b.1.1 :: b.1.2)) batches →
  let wire := λ b : Frame * list Frame * list byte,
    Some (packMessages (EncodeFrame <$> b.1.1 :: b.1.2), b.2) in
  Probe.reader (wire <$> batches) = Done ((λ b, Probe.print_frame b.1.1) <$> batches) ∧
  ∀ later, Probe.reader ((wire <$> batches) ++ None :: later) =
    Done (((λ b, Probe.print_frame b.1.1) <$> batches) ++ [Probe.PrintError]).
Proof.
  intros Hok wire. assert (∀ b reads, Forall frame_ok (b.1.1 :: b.1.2) →
    Probe.reader (wire b :: reads) =
      (lines ← Probe.reader reads; mret (Probe.print_frame b.1.1 :: lines))) as Hb.
  { intros [[f fs] spare] reads [Hf _]%Forall_cons. unfold wire. cbn [Probe.reader fst snd].
    rewrite packMessages_concat. cbn [fmap list_fmap concat]. by rewrite probe_on_batch. }
  split; [|intros later]; (induction Hok as [|b bs Hf Hok IH]; [done|]);
    rewrite fmap_cons, <-?app_comm_cons, (Hb b _ Hf), IH; done.
Qed.

(** What the small client asks for is understood: it is logged in under
    the name it gives, since an empty token is a mock one, and prints so;
    its requests are decoded one by one. *)
Theorem probe_understood `{LA : MsgpackLaws AuthRequest, LR : MsgpackLaws RoomRequest,
    LP : MsgpackLaws AuthResponse} `{Msgpack Probe.JoinRoomAck} ParseWithClaims gwID jwt u rid :
  Forall frame_ok (Probe.requests u rid) → u ≠ ""%string →
  answer_sized (mkAuthResponse true u gwID ErrCodeSuccess "") →
  Frame.DecodeFrame <$> Probe.main_writes u rid = (λ f, Done (Ok f)) <$> Probe.requests u rid ∧
  ∃ first replies, Probe.main_writes u rid !! 0%nat = Some first ∧
    Login.authenticate ParseWithClaims gwID jwt (Some first) = Done (Ok u, replies) ∧
    (λ m, Probe.on_message m []) <$> replies =
      [Done (Probe.PrintAuth (mkAuthResponse true u gwID ErrCodeSuccess ""))].
Proof.
  intros Hok Hu Ha. unfold Probe.main_writes.
  assert (∀ f, frame_ok f → Frame.DecodeFrame (Probe.EncodeFrame f) = Done (Ok f)) as Hdec.
  { intros f Hf. rewrite <-(app_nil_r (Probe.EncodeFrame f)). by apply DecodeFrame_app. }
  split.
  { rewrite <-list_fmap_compose. apply list_fmap_ext. intros i f Hf. cbn. apply Hdec.
    by eapply Forall_lookup_1. }
  eexists _, (sendAuthResp gwID true u ErrCodeSuccess ""). split; [done|]. split.
  { unfold Login.authenticate.
    rewrite Hdec, outcome_bind_ret by by apply (Forall_lookup_1 _ _ 0 _ Hok).
    cbn [f_MsgType f_Payload]. rewrite Z.eqb_refl. cbn [negb]. rewrite Decode_Encode_.
    cbn [aq_Token aq_UserID]. unfold ValidateOrMock.
    change (is_mock_token "") with true. cbn [cl_UserID]. rewrite decide_False by done.
    by destruct jwt. }
  rewrite sendAuthResp_frame. cbn [fmap list_fmap]. f_equal.
  unfold Probe.on_message, Probe.print_frame. set (f := mkFrame _ _ _).
  rewrite (probe_complete (EncodeFrame f) [] f (decodeFrame_encode f ltac:(by split) Ha)).
  subst f.
  cbn [mbind outcome_bind mret outcome_ret f_MsgType f_Payload]. rewrite Z.eqb_refl. by rewrite Decode_Encode_.
Qed.

(** ** Concrete instances *)
Section examples.
Import ToyCodec KeyedCodec LoadTest Interactive.

Definition demo_events : list Event :=
  [MainStep; Connect 0 true; Beat 0 7; Signal; MainStep; Recv 0; Connect 1 false; Leave 0;
   MainStep; MainStep; MainStep].

(** Two clients, one refused, with an interrupt after the first start. *)
Lemma load_test_stats_witness :
  ∃ r, steps 2 1 demo_events (mainLoadTest 2 10) = Some r ∧ run_main r = Finished ∧
    run_stats r = mkStats 0 1 1 1 1 ∧
    stats_ok (run_stats r) (run_clients r) ∧ Forall numbered (run_clients r) ∧
    (run_main r = Finished →
     identities r = plan 1 (Z.to_nat 2) ∧ connected (run_stats r) = 0 ∧
     disconnected (run_stats r) + errors (run_stats r) = Z.max 0 2).
Proof.
  destruct (steps 2 1 demo_events (mainLoadTest 2 10)) as [r|] eqn:E; [|by vm_compute in E].
  exists r. split; [done|]. pose proof E as E'. vm_compute in E'. injection E' as Er.
  split; [by rewrite <-Er|]. split; [by rewrite <-Er|].
  apply (load_test_stats 2 1 10 demo_events r); [lia|exact E].
Defined.

Lemma final_report_witness :
  ∃ r lines, steps 2 1 demo_events (mainLoadTest 2 10) = Some r ∧ final_lines r = Some lines ∧
  lines !! 1%nat = Some "  Total Connected: 0"%string ∧
  lines !! 2%nat = Some ("  Total Disconnected: " ++
    format_d 0 (Z.max 0 2 - errors (run_stats r)))%string.
Proof.
  destruct (steps 2 1 demo_events (mainLoadTest 2 10)) as [r|] eqn:E; [|by vm_compute in E].
  destruct (final_lines r) as [lines|] eqn:El.
  - exists r, lines. split; [done|]. split; [done|].
    apply (final_report 2 1 10 demo_events r lines); [lia|exact E|exact El].
  - exfalso. vm_compute in E. injection E as <-. by vm_compute in El.
Defined.

Lemma load_test_ends_witness :
  ∃ r, steps 2 1 [MainStep; Connect 0 true] (mainLoadTest 2 10) = Some r ∧
  ∃ evs' r', steps 2 1 evs' r = Some r' ∧ run_main r' = Finished.
Proof.
  destruct (steps 2 1 [MainStep; Connect 0 true] (mainLoadTest 2 10)) as [r|] eqn:E;
    [|by vm_compute in E].
  exists r. split; [done|].
  apply (load_test_ends 2 1 10 [MainStep; Connect 0 true] r); [lia..|exact E].
Defined.

Lemma load_test_balanced_witness :
  NoDup (plan 3 10).*1 ∧
  ∀ k, 0 <= k < 3 →
    Z.of_nat (length (filter (λ p, p.2 = room_name k) (plan 3 10))) =
    Z.of_nat 10 / 3 + (if k <? Z.of_nat 10 mod 3 then 1 else 0).
Proof. apply (load_test_balanced 3 10); lia. Defined.

Lemma load_users_accepted_witness :
  let fl := load_flags 7 "load_room_007" in
  let msg := message MsgTypeAuth 1 (auth_map fl) in
  ∃ replies,
    Login.authenticate demo_parse "gw-1" (Some demo_validator) (Some msg) =
      Done (Ok "load_user_0007"%string, replies) ∧
    doAuth "load_user_0007" (dialled 0 replies []) = (Ok tt, dialled 0 [] [msg]).
Proof.
  apply (load_users_accepted demo_parse "gw-1" (Some demo_validator) 7 "load_room_007").
  - unfold small. vm_compute. discriminate.
  - unfold answer_sized, sized. vm_compute. reflexivity.
Defined.

Lemma probe_DecodeFrame_spec_witness :
  let f := mkFrame MsgTypePushMessage 1 [Byte.x61; Byte.x62] in
  let data := take 17 (EncodeFrame f) in
  Frame.DecodeFrame data = Done (Err ErrInvalidFrame) ∧
  Probe.DecodeFrame data [] = Panic "slice bounds out of range".
Proof.
  destruct (probe_DecodeFrame_spec
    (take 17 (EncodeFrame (mkFrame MsgTypePushMessage 1 [Byte.x61; Byte.x62]))) []) as [_ H].
  apply (H (mkFrame MsgTypePushMessage 1 [Byte.x61; Byte.x62]) 17%nat);
    [by_computation|by_computation|done].
Defined.

#[local] Instance keyed_ack : Msgpack Probe.JoinRoomAck := {|
  Encode r := Some (put_fields [("success", VBool (Probe.ja_Success r));
    ("room_id", VStr (Probe.ja_RoomID r)); ("code", VInt (Probe.ja_Code r));
    ("message", VStr (Probe.ja_Message r))]%string);
  Decode b := (λ m, Probe.mkJoinRoomAck (int_field "code" m) (str_field "message" m)
    (str_field "room_id" m) (bool_field "success" m)) <$> get_fields b |}.

Lemma probe_reads_batches_witness :
  let fs := [mkFrame MsgTypeHeartbeatResp 3 []; mkFrame MsgTypePushMessage 4 [Byte.x61]] in
  Probe.reader [Some (packMessages (EncodeFrame <$> fs), []); None] =
    Done [Probe.PrintHeartbeat; Probe.PrintError].
Proof.
  destruct (probe_reads_batches
    [(mkFrame MsgTypeHeartbeatResp 3 [], [mkFrame MsgTypePushMessage 4 [Byte.x61]], [])]) as [_ H].
  - repeat constructor; by_computation.
  - exact (H []).
Defined.

Lemma probe_understood_witness :
  Frame.DecodeFrame <$> Probe.main_writes "u1" "r1" = (λ f, Done (Ok f)) <$> Probe.requests "u1" "r1" ∧
  ∃ first replies, Probe.main_writes "u1" "r1" !! 0%nat = Some first ∧
    Login.authenticate demo_parse "gw-1" (Some demo_validator) (Some first) =
      Done (Ok "u1"%string, replies) ∧
    (λ m, Probe.on_message m []) <$> replies =
      [Done (Probe.PrintAuth (mkAuthResponse true "u1" "gw-1" ErrCodeSuccess ""))].
Proof.
  apply (probe_understood demo_parse "gw-1" (Some demo_validator) "u1" "r1").
  - repeat constructor; by_computation.
  - done.
  - unfold answer_sized, sized. vm_compute. reflexivity.
Defined.
End examples.
