(* ===== verification/Transport.v ===== *)
(** [pkg/transport]: the transport abstraction and its WebSocket
    implementation.  No other package imports it; the gateway has its own
    server.
    The queue of upgraded connections is a step relation, since a [select]
    with two ready branches takes either. *)

From Stdlib Require Import ZArith Lia.
From stdpp Require Import base tactics gmap strings numbers list relations.
From S2P Require Import Prelude GoInt Protocol Frame Chan.

Local Open Scope Z_scope.

(** ** WebSocketTransport *)
Record WebSocketConfig := mkWebSocketConfig {
  wc_ReadBufferSize : Z; wc_WriteBufferSize : Z; wc_HandshakeTimeout : Z }.

(** An upgraded connection is known by its number; the address is the one
    of the request. *)
Record WebSocketConn := mkWebSocketConn { wsc_conn : nat; wsc_remoteAddr : string }.

(** [t_server]: the server of [Listen], and whether it was closed. *)
Record WebSocketTransport := mkWebSocketTransport {
  t_addr : string;
  t_upgrader : WebSocketConfig;
  t_server : option bool;
  t_connCh : chan WebSocketConn;
  t_doneCh : bool;
}.

Definition NewWebSocketTransport (cfg : WebSocketConfig) : WebSocketTransport :=
  mkWebSocketTransport "" cfg None (make_chan 1000) false.

(** The error of [ListenAndServe] is dropped. *)
Definition Listen (addr : string) (t : WebSocketTransport) : WebSocketTransport :=
  mkWebSocketTransport addr (t_upgrader t) (Some false) (t_connCh t) (t_doneCh t).

Definition Close (t : WebSocketTransport) : outcome WebSocketTransport :=
  if t_doneCh t then Panic "close of closed channel"
  else Done (mkWebSocketTransport (t_addr t) (t_upgrader t)
    (match t_server t with Some _ => Some true | None => None end) (t_connCh t) true).

Definition set_connCh ch (t : WebSocketTransport) : WebSocketTransport :=
  mkWebSocketTransport (t_addr t) (t_upgrader t) (t_server t) ch (t_doneCh t).

(** [handleWebSocket]: a failed upgrade returns; otherwise one of the ready
    branches of the [select] is taken: queued, or closed. *)
Inductive handleWebSocket (t : WebSocketTransport) :
    option WebSocketConn → WebSocketTransport * list WebSocketConn → Prop :=
  | handle_not_upgraded : handleWebSocket t None (t, [])
  | handle_queue conn :
      (length (ch_buf (t_connCh t)) < ch_cap (t_connCh t))%nat →
      handleWebSocket t (Some conn) (set_connCh (sent conn (t_connCh t)) t, [])
  | handle_done conn :
      t_doneCh t = true → handleWebSocket t (Some conn) (t, [conn]).

(** [Accept]: a connection, or [http.ErrServerClosed]. *)
Inductive Accept (t : WebSocketTransport) : option WebSocketConn * WebSocketTransport → Prop :=
  | accept_conn conn ch :
      recv (t_connCh t) = Some (Some conn, ch) → Accept t (Some conn, set_connCh ch t)
  | accept_closed : t_doneCh t = true → Accept t (None, t).

(** ** A transport in use
    The handlers that are blocked in their [select], the connections that
    [Accept] handed out, and those that were closed. *)
Record World := mkWorld {
  w_t : WebSocketTransport;
  w_waiting : list WebSocketConn;
  w_accepted : list WebSocketConn;
  w_closed : list WebSocketConn;
}.

(** The label is the connections upgraded in the step. *)
Inductive world_step : World → list WebSocketConn → World → Prop :=
  | step_upgrade conn w :
      world_step w [conn] (mkWorld (w_t w) (w_waiting w ++ [conn]) (w_accepted w) (w_closed w))
  | step_handle l1 conn l2 t' cl w :
      w_waiting w = l1 ++ conn :: l2 → handleWebSocket (w_t w) (Some conn) (t', cl) →
      world_step w [] (mkWorld t' (l1 ++ l2) (w_accepted w) (w_closed w ++ cl))
  | step_accept r t' w :
      Accept (w_t w) (r, t') →
      world_step w [] (mkWorld t' (w_waiting w) (w_accepted w ++ option_list r) (w_closed w))
  | step_close t' w :
      Close (w_t w) = Done t' →
      world_step w [] (mkWorld t' (w_waiting w) (w_accepted w) (w_closed w)).

Inductive world_run : World → list WebSocketConn → World → Prop :=
  | run_nil w : world_run w [] w
  | run_snoc w us w' vs w'' :
      world_run w us w' → world_step w' vs w'' → world_run w (us ++ vs) w''.

Definition world0 (cfg : WebSocketConfig) (addr : string) : World :=
  mkWorld (Listen addr (NewWebSocketTransport cfg)) [] [] [].

(** ** WebSocketConn
    The messages that will arrive, with the error behind them, and those
    that were written. *)
Record Socket := mkSocket {
  sk_in : list (list byte); sk_err : string; sk_out : list (list byte) }.

(** [Read(p)] for a buffer of [n] bytes: what does not fit is dropped. *)
Definition Read (n : nat) (s : Socket) : result string (list byte) * Socket :=
  match sk_in s with
  | [] => (Err (sk_err s), s)
  | data :: msgs => (Ok (take n data), mkSocket msgs (sk_err s) (sk_out s))
  end.

Definition Write (s : Socket) (p : list byte) : Socket * option string :=
  (mkSocket (sk_in s) (sk_err s) (sk_out s ++ [p]), None).

(** [io.ReadFull] over [Read]: it reads until the buffer is full; [got] tells
    that it is not empty. *)
Fixpoint read_full (n : nat) (got : bool) (msgs : list (list byte)) (err : string) :
    result string (list byte) * list (list byte) :=
  if (n =? 0)%nat then (Ok [], msgs) else
  match msgs with
  | [] => (Err (if got && String.eqb err EOF then ErrUnexpectedEOF else err), [])
  | data :: msgs =>
    let p := take n data in
    match read_full (n - length p) (got || (0 <? length p)%nat) msgs err with
    | (Ok rest, msgs) => (Ok (p ++ rest), msgs)
    | (Err e, msgs) => (Err e, msgs)
    end
  end.

(** [protocol.ReadFrame] on such a connection. *)
Definition ReadFrame_conn (s : Socket) : result FrameError Frame * Socket :=
  let upd := λ msgs, mkSocket msgs (sk_err s) (sk_out s) in
  match read_full HeaderSize false (sk_in s) (sk_err s) with
  | (Err e, msgs) => (Err (ErrRead e), upd msgs)
  | (Ok header, msgs) =>
    let msgType := Uint32 (slice 0 4 header) in
    let seq := Uint64 (slice 4 12 header) in
    let payloadLen := Uint32 (slice 12 16 header) in
    if MaxPayloadLen <? payloadLen then (Err ErrPayloadTooLarge, upd msgs) else
    if 0 <? payloadLen then
      match read_full (Z.to_nat payloadLen) false msgs (sk_err s) with
      | (Err e, msgs) => (Err (ErrRead e), upd msgs)
      | (Ok payload, msgs) => (Ok (mkFrame msgType seq payload), upd msgs)
      end
    else (Ok (mkFrame msgType seq []), upd msgs)
  end.

(** ** Properties *)
Definition world_inv (upgraded : list WebSocketConn) (w : World) : Prop :=
  let queue := ch_buf (t_connCh (w_t w)) in
  (length queue ≤ 1000)%nat ∧ ch_cap (t_connCh (w_t w)) = 1000%nat ∧
  ch_closed (t_connCh (w_t w)) = false ∧
  (w_waiting w ++ queue) ++ w_accepted w ++ w_closed w ≡ₚ upgraded ∧
  (w_closed w ≠ [] → t_doneCh (w_t w) = true).

Lemma world_inv_step upgraded w us w' :
  world_inv upgraded w → world_step w us w' → world_inv (upgraded ++ us) w'.
Proof.
  intros (Hl & Hc & Ho & Hp & Hd) Hs.
  destruct Hs as [conn w|l1 conn l2 t' cl w Hw Hh|r t' w Ha|t' w Hcl];
    unfold world_inv; cbn [w_t w_waiting w_accepted w_closed].
  - split_and!; try done. rewrite <-Hp. solve_Permutation.
  - rewrite app_nil_r. rewrite Hw in Hp.
    inversion Hh as [|? Hlt|? Hdone]; subst; cbn [t_connCh t_doneCh set_connCh].
    + unfold sent. rewrite decide_True by done. cbn [ch_buf ch_cap ch_closed].
      rewrite length_app, app_nil_r. cbn [length]. split_and!; [lia|done|done| |done].
      rewrite <-Hp. solve_Permutation.
    + split_and!; [done..| |done]. rewrite <-Hp. solve_Permutation.
  - rewrite app_nil_r. inversion Ha as [conn ch Hr|Hdone]; subst;
      cbn [t_connCh t_doneCh set_connCh option_list].
    + unfold recv in Hr. destruct (ch_buf (t_connCh (w_t w))) as [|x buf] eqn:E.
      { rewrite Ho in Hr. done. }
      injection Hr as -> <-. cbn [ch_buf ch_cap ch_closed length] in *.
      split_and!; [lia|done..| |done]. rewrite <-Hp. solve_Permutation.
    + by rewrite app_nil_r.
  - rewrite app_nil_r. unfold Close in Hcl. destruct (t_doneCh (w_t w)) eqn:E; [done|].
    injection Hcl as <-. by cbn [t_connCh t_doneCh].
Qed.

(** No upgraded connection is lost or handed out twice, in any
    interleaving of upgrades, handlers, [Accept] and [Close]: each one is in
    exactly one place, waiting in its handler, in the queue of at most a
    thousand, accepted, or closed; and none is closed before [Close]. *)
Theorem transport_conserves cfg addr us w :
  world_run (world0 cfg addr) us w → world_inv us w.
Proof.
  intros Hr. remember (world0 cfg addr) as w0 eqn:E. induction Hr as [w|w us w' vs w'' _ IH Hs].
  - subst. split_and!; [simpl; lia|done..].
  - eapply world_inv_step; [by apply IH|done].
Qed.

(** A closed transport without handlers only hands out its queue. *)
Lemma closed_run w us w' :
  world_run w us w' → us = [] → w_waiting w = [] → t_doneCh (w_t w) = true →
  ch_closed (t_connCh (w_t w)) = false →
  w_waiting w' = [] ∧ t_doneCh (w_t w') = true ∧ ch_closed (t_connCh (w_t w')) = false ∧
  w_closed w' = w_closed w ∧
  w_accepted w' ++ ch_buf (t_connCh (w_t w')) = w_accepted w ++ ch_buf (t_connCh (w_t w)).
Proof.
  induction 1 as [w|w us w' vs w'' _ IH Hs]; [done|].
  intros [-> ->]%app_nil Hw Hd Ho. destruct IH as (Hw' & Hd' & Ho' & Hc & Hq); [done..|].
  inversion Hs as [|l1 conn l2 t' cl ? Hl|r t' ? Ha|t' ? Hcl]; subst; cbn in *.
  - rewrite Hw' in Hl. by destruct l1.
  - inversion Ha as [conn ch Hr|]; subst; cbn [option_list]; [|by rewrite app_nil_r].
    unfold recv in Hr. rewrite Ho' in Hr.
    destruct (ch_buf (t_connCh (w_t w'))) as [|x buf] eqn:E; [done|].
    injection Hr as -> <-. cbn. by rewrite <-app_assoc.
  - unfold Close in Hcl. by rewrite Hd' in Hcl.
Qed.

(** [Close] forgets the queue: the connections that were upgraded and
    not yet accepted stay in it, and however the transport is used after the
    last handler is done, none of them is ever closed; a second [Close]
    panics. *)
Theorem Close_leaks_queue w t' us w' :
  Close (w_t w) = Done t' → w_waiting w = [] → ch_closed (t_connCh (w_t w)) = false →
  world_run (mkWorld t' [] (w_accepted w) (w_closed w)) us w' → us = [] →
  Close (w_t w') = Panic "close of closed channel" ∧ w_closed w' = w_closed w ∧
  w_accepted w' ++ ch_buf (t_connCh (w_t w')) = w_accepted w ++ ch_buf (t_connCh (w_t w)).
Proof.
  intros Hc Hw Ho Hr ->. unfold Close in Hc. destruct (t_doneCh (w_t w)) eqn:E; [done|].
  injection Hc as <-. apply closed_run in Hr as (_ & Hd & _ & Hcl & Hq); [|done..].
  split; [|done]. unfold Close. by rewrite Hd.
Qed.

(** ** Reading frames *)
Lemma read_full_message n got data msgs err :
  (0 < n ≤ length data)%nat → read_full n got (data :: msgs) err = (Ok (take n data), msgs).
Proof.
  intros Hn. destruct n as [|n]; [lia|]. cbn [read_full Nat.eqb].
  rewrite length_take, Nat.min_l, Nat.sub_diag by lia.
  destruct msgs; cbn [read_full Nat.eqb]; by rewrite app_nil_r.
Qed.

(** A frame that came as one message: the header is read, and the payload
    is looked for in the messages behind it. *)
Lemma ReadFrame_conn_message f msgs err out :
  frame_ok f →
  ReadFrame_conn (mkSocket (EncodeFrame f :: msgs) err out) =
  match f_Payload f with
  | [] => (Ok f, mkSocket msgs err out)
  | _ =>
    match read_full (length (f_Payload f)) false msgs err with
    | (Ok p, msgs) => (Ok (mkFrame (f_MsgType f) (f_Seq f) p), mkSocket msgs err out)
    | (Err e, msgs) => (Err (ErrRead e), mkSocket msgs err out)
    end
  end.
Proof.
  intros [[Ht Hs] Hlen]. unfold ReadFrame_conn. cbn [sk_in sk_err sk_out].
  rewrite read_full_message by (rewrite length_EncodeFrame; unfold HeaderSize; lia).
  cbv iota beta zeta.
  destruct (wire_header f []) as (H1 & H2 & H3 & _). rewrite app_nil_r, <-EncodeFrame_wire in *.
  assert (∀ i j, (j ≤ HeaderSize)%nat →
    slice i j (take HeaderSize (EncodeFrame f)) = slice i j (EncodeFrame f)) as Hsl.
  { intros i j Hj. unfold slice. rewrite skipn_firstn_comm, take_take. f_equal. lia. }
  rewrite !Hsl, H1, H2, H3, !Uint32_Put, Uint64_Put by (unfold HeaderSize; lia).
  rewrite MaxPayloadLen_val in *.
  rewrite (u32_small (f_MsgType f)), (u32_small (Z.of_nat _)), u64_small by lia.
  destruct (Z.ltb_spec 1048576 (Z.of_nat (length (f_Payload f)))); [lia|].
  destruct f as [t s [|b p]]; [done|]. cbn [f_Payload f_MsgType f_Seq].
  destruct (Z.ltb_spec 0 (Z.of_nat (length (b :: p)))); [|simpl in *; lia].
  by rewrite Nat2Z.id.
Qed.

(** Frames cannot be read from the transport: [Read] drops what does
    not fit into its buffer, so the payload behind a header is lost, and the
    frame gets the bytes of the next message instead, which is lost in turn;
    from a stream of the same bytes both frames are read as sent. *)
Theorem transport_loses_payload f1 f2 msgs err out :
  frame_ok f1 → frame_ok f2 → f_Payload f1 ≠ [] →
  (length (f_Payload f1) ≤ length (EncodeFrame f2))%nat →
  ReadFrame_conn (mkSocket (EncodeFrame f1 :: EncodeFrame f2 :: msgs) err out) =
    (Ok (mkFrame (f_MsgType f1) (f_Seq f1) (take (length (f_Payload f1)) (EncodeFrame f2))),
     mkSocket msgs err out) ∧
  ReadFrames 3 (mkReader (EncodeFrame f1 ++ EncodeFrame f2) EOF) = ([f1; f2], ErrRead EOF).
Proof.
  intros H1 H2 Hp Hl. split.
  - rewrite ReadFrame_conn_message by done. destruct (f_Payload f1) as [|b p]; [done|].
    by rewrite read_full_message by (simpl in *; lia).
  - rewrite <-(app_nil_r (EncodeFrame f2)).
    apply (ReadFrames_all [f1; f2] 3); [by rewrite !Forall_cons|simpl; lia].
Qed.

(** ** Concrete instances *)
Lemma Close_leaks_queue_witness :
  let conn := mkWebSocketConn 1 "10.0.0.1:5000" in
  let t := set_connCh (sent conn (make_chan 1000))
             (Listen ":8080" (NewWebSocketTransport (mkWebSocketConfig 4096 4096 10))) in
  let w := mkWorld t [] [] [] in
  ∃ t', Close t = Done t' ∧
  let w' := mkWorld t' [] [] [] in
  Close (w_t w') = Panic "close of closed channel" ∧ w_closed w' = w_closed w ∧
  w_accepted w' ++ ch_buf (t_connCh (w_t w')) = [] ++ [conn].
Proof.
  eexists. split; [reflexivity|].
  eapply (Close_leaks_queue
    (mkWorld (set_connCh (sent (mkWebSocketConn 1 "10.0.0.1:5000") (make_chan 1000))
       (Listen ":8080" (NewWebSocketTransport (mkWebSocketConfig 4096 4096 10)))) [] [] [])
    _ []); [reflexivity|done|done|constructor|done].
Defined.

Lemma transport_conserves_witness :
  let cfg := mkWebSocketConfig 4096 4096 10 in
  let conn := mkWebSocketConn 1 "10.0.0.1:5000" in
  let w := mkWorld (Listen ":8080" (NewWebSocketTransport cfg)) [conn] [] [] in
  world_run (world0 cfg ":8080") [conn] w ∧ world_inv [conn] w.
Proof.
  cbv zeta. assert (world_run (world0 (mkWebSocketConfig 4096 4096 10) ":8080")
    ([] ++ [mkWebSocketConn 1 "10.0.0.1:5000"])
    (mkWorld (Listen ":8080" (NewWebSocketTransport (mkWebSocketConfig 4096 4096 10)))
       [mkWebSocketConn 1 "10.0.0.1:5000"] [] [])) as Hr.
  { eapply run_snoc; [constructor|]. exact (step_upgrade _ (world0 _ _)). }
  split; [exact Hr|]. exact (transport_conserves _ _ _ _ Hr).
Defined.

Lemma transport_loses_payload_witness :
  let f1 := mkFrame 1 1 [Byte.x61; Byte.x62] in
  let f2 := mkFrame 2 2 [Byte.x63] in
  ReadFrame_conn (mkSocket [EncodeFrame f1; EncodeFrame f2] EOF []) =
    (Ok (mkFrame 1 1 [Byte.x00; Byte.x00]), mkSocket [] EOF []) ∧
  ReadFrames 3 (mkReader (EncodeFrame f1 ++ EncodeFrame f2) EOF) = ([f1; f2], ErrRead EOF).
Proof.
  apply (transport_loses_payload (mkFrame 1 1 [Byte.x61; Byte.x62]) (mkFrame 2 2 [Byte.x63])
    [] EOF []); [by_computation|by_computation|done|simpl; lia].
Defined.
