(* ===== verification/Metrics.v ===== *)
(** [pkg/metrics/metrics.go]: the Prometheus metrics, which are registered
    when the process starts.  A name that is taken, malformed names and
    unordered buckets make promauto panic, so that neither program would
    start.  Where the models count what a metric counts, the count is a field
    of their state. *)

From Stdlib Require Import ZArith Lia SpecFloat Ascii.
From stdpp Require Import base tactics gmap strings numbers list.
From S2P Require Import Prelude GoInt Connection.

Local Open Scope Z_scope.

Inductive MetricKind :=
  | Gauge
  | Counter
  | Histogram (buckets : list float64).
Record Metric := mkMetric {
  m_name : string; m_help : string; m_kind : MetricKind; m_labels : list string }.

(** ** What Prometheus asks of a metric (its data model) *)
Definition name_char (first colon : bool) (c : ascii) : bool :=
  let n := Z.of_N (N_of_ascii c) in
  ((97 <=? n) && (n <=? 122)) || ((65 <=? n) && (n <=? 90)) || (n =? 95) ||
  (colon && (n =? 58)) || (negb first && (48 <=? n) && (n <=? 57)).
Fixpoint all_chars (p : ascii → bool) (s : string) : bool :=
  match s with EmptyString => true | String c s => p c && all_chars p s end.
Definition valid_name (colon : bool) (s : string) : bool :=
  match s with
  | EmptyString => false
  | String c s => name_char true colon c && all_chars (name_char false colon) s
  end.
Definition valid_label (l : string) : bool :=
  valid_name false l && negb (String.prefix "__" l) && negb (String.eqb l "le").
Fixpoint increasing (xs : list float64) : bool :=
  match xs with
  | x :: (y :: _) as xs => SFltb x y && increasing xs
  | _ => true
  end.
Definition valid_metric (m : Metric) : bool :=
  valid_name true (m_name m) && forallb valid_label (m_labels m) &&
  bool_decide (NoDup (m_labels m)) &&
  match m_kind m with Histogram buckets => increasing buckets | _ => true end.

(** The default registry of the library, and its default buckets. *)
Class Prometheus := {
  Registry : Type;
  registered : Registry → gset string;
  empty_registry : Registry;
  MustRegister : Registry → Metric → outcome Registry;
  DefBuckets : list float64;
}.
Class PrometheusLaws `{Prometheus} := {
  registered_empty : registered empty_registry = ∅;
  MustRegister_ok r m :
    valid_metric m = true → m_name m ∉ registered r →
    ∃ r', MustRegister r m = Done r' ∧ registered r' = {[m_name m]} ∪ registered r;
  DefBuckets_increasing : increasing DefBuckets = true;
}.

Section metrics.
Context `{Prometheus}.
Definition GatewayConnections : Metric :=
  mkMetric "gateway_connections_total"
  "Total number of active connections"
  Gauge [].
Definition GatewayConnectionsInRoom : Metric :=
  mkMetric "gateway_connections_in_room"
  "Number of connections per room"
  Gauge ["room_id"]%string.
Definition GatewayMessagesReceived : Metric :=
  mkMetric "gateway_messages_received_total"
  "Total messages received from clients"
  Counter ["msg_type"]%string.
Definition GatewayMessagesSent : Metric :=
  mkMetric "gateway_messages_sent_total"
  "Total messages sent to clients"
  Counter ["msg_type"]%string.
Definition GatewayMessagesDropped : Metric :=
  mkMetric "gateway_messages_dropped_total"
  "Total messages dropped due to backpressure"
  Counter ["priority"]%string.
Definition GatewayQueueUsage : Metric :=
  mkMetric "gateway_connection_queue_usage"
  "Connection send queue usage ratio"
  (Histogram [f64_const 1 10; f64_const 25 100; f64_const 5 10; f64_const 75 100;
    f64_const 8 10; f64_const 9 10; f64_const 95 100; f64_const 10 10]) [].
Definition GatewayConnectionCloseReason : Metric :=
  mkMetric "gateway_connection_close_total"
  "Connection close count by reason"
  Counter ["reason"]%string.
Definition GatewayWriteTimeouts : Metric :=
  mkMetric "gateway_write_timeouts_total"
  "Total write timeout count"
  Counter [].
Definition DistributorQueueSize : Metric :=
  mkMetric "gateway_distributor_queue_size"
  "Distributor input queue size"
  Gauge ["shard"]%string.
Definition GatewayKafkaMessageReceived : Metric :=
  mkMetric "gateway_kafka_messages_received_total"
  "Total messages received from Kafka"
  Counter [].
Definition GatewayKafkaMessageFiltered : Metric :=
  mkMetric "gateway_kafka_messages_filtered_total"
  "Total messages filtered (not for this gateway)"
  Counter [].
Definition GatewayKafkaMessageDropped : Metric :=
  mkMetric "gateway_kafka_messages_dropped_total"
  "Total messages dropped due to parse error"
  Counter [].
Definition GatewayBroadcastMessages : Metric :=
  mkMetric "gateway_broadcast_messages_total"
  "Total room broadcast messages processed"
  Counter [].
Definition GatewayUnicastMessages : Metric :=
  mkMetric "gateway_unicast_messages_total"
  "Total unicast messages processed"
  Counter [].
Definition GatewayMulticastMessages : Metric :=
  mkMetric "gateway_multicast_messages_total"
  "Total multicast messages processed"
  Counter [].
Definition GatewayPlatformBroadcastMessages : Metric :=
  mkMetric "gateway_platform_broadcast_messages_total"
  "Total platform broadcast messages processed"
  Counter [].
Definition RoomserverRooms : Metric :=
  mkMetric "roomserver_rooms_total"
  "Total number of active rooms"
  Gauge [].
Definition RoomserverRoomMembers : Metric :=
  mkMetric "roomserver_room_members"
  "Room member count distribution"
  (Histogram [f64_of_Z 10; f64_of_Z 100; f64_of_Z 500; f64_of_Z 1000; f64_of_Z 5000;
    f64_of_Z 10000; f64_of_Z 50000]) [].
Definition RoomserverUsers : Metric :=
  mkMetric "roomserver_users_total"
  "Total number of users"
  Gauge [].
Definition RoomserverBroadcasts : Metric :=
  mkMetric "roomserver_broadcasts_total"
  "Total broadcast messages"
  Counter ["type"]%string.
Definition RoomserverGatewayConnections : Metric :=
  mkMetric "roomserver_gateway_connections"
  "Number of connected gateways"
  Gauge [].
Definition RoomserverRecoveryMode : Metric :=
  mkMetric "roomserver_recovery_mode"
  "1 if in recovery mode, 0 otherwise"
  Gauge [].
Definition RoomserverEpoch : Metric :=
  mkMetric "roomserver_epoch"
  "Current epoch number"
  Gauge [].
Definition RoomserverRequestDuration : Metric :=
  mkMetric "roomserver_request_duration_seconds"
  "Request processing duration"
  (Histogram DefBuckets) ["method"]%string.

(** In the order of the package's variables. *)
Definition all_metrics : list Metric := [
  GatewayConnections; GatewayConnectionsInRoom; GatewayMessagesReceived; GatewayMessagesSent;
  GatewayMessagesDropped; GatewayQueueUsage; GatewayConnectionCloseReason;
  GatewayWriteTimeouts; DistributorQueueSize; GatewayKafkaMessageReceived;
  GatewayKafkaMessageFiltered; GatewayKafkaMessageDropped; GatewayBroadcastMessages;
  GatewayUnicastMessages; GatewayMulticastMessages; GatewayPlatformBroadcastMessages;
  RoomserverRooms; RoomserverRoomMembers; RoomserverUsers; RoomserverBroadcasts;
  RoomserverGatewayConnections; RoomserverRecoveryMode; RoomserverEpoch;
  RoomserverRequestDuration].

Fixpoint register_all (r : Registry) (ms : list Metric) : outcome Registry :=
  match ms with
  | [] => Done r
  | m :: ms => r ← MustRegister r m; register_all r ms
  end.
(** The initialisation of the package. *)
Definition init_metrics : outcome Registry := register_all empty_registry all_metrics.
End metrics.

Section properties.
Context `{PrometheusLaws}.

Lemma register_all_ok ms r :
  Forall (λ m, valid_metric m = true) ms → NoDup (m_name <$> ms) →
  (∀ m, m ∈ ms → m_name m ∉ registered r) →
  ∃ r', register_all r ms = Done r' ∧
    registered r' = list_to_set (m_name <$> ms) ∪ registered r.
Proof.
  intros Hv. revert r. induction Hv as [|m ms Hm _ IH]; intros r Hn Hf.
  { exists r. split; [done|]. set_solver. }
  rewrite fmap_cons in Hn. apply NoDup_cons in Hn as [Hm' Hn].
  destruct (MustRegister_ok r m) as (r1 & Hr1 & Hreg); [done|apply Hf; by left|].
  destruct (IH r1 Hn) as (r2 & Hr2 & Hreg2).
  { intros m2 Hin. rewrite Hreg, not_elem_of_union, not_elem_of_singleton.
    split; [|apply Hf; by right]. intros Heq. apply Hm'. rewrite <-Heq.
    by apply list_elem_of_fmap_2. }
  exists r2. cbn [register_all]. rewrite Hr1. split; [done|].
  rewrite Hreg2, Hreg. cbn. set_solver.
Qed.

Lemma all_metrics_valid : Forall (λ m, valid_metric m = true) all_metrics.
Proof.
  unfold all_metrics.
  repeat first [apply Forall_nil_2|apply Forall_cons_2; [try (by vm_compute)|]].
  unfold valid_metric, RoomserverRequestDuration. cbn [m_kind]. by rewrite DefBuckets_increasing.
Qed.

(** The metrics of the two programs can be registered: all names and
    labels are well-formed, no name is used twice and every histogram has
    increasing buckets, so the initialisation of the package does not panic,
    and afterwards exactly these names are registered. *)
Theorem init_metrics_registers_all :
  ∃ r, init_metrics = Done r ∧ registered r = list_to_set (m_name <$> all_metrics) ∧
    size (registered r) = length all_metrics.
Proof.
  assert (NoDup (m_name <$> all_metrics)) as Hn by by_computation.
  destruct (register_all_ok all_metrics empty_registry all_metrics_valid Hn) as (r & Hr & Hreg).
  { intros m _. rewrite registered_empty. set_solver. }
  exists r. rewrite registered_empty, union_empty_r_L in Hreg. split; [done|]. split; [done|].
  rewrite Hreg, size_list_to_set by done. by rewrite length_fmap.
Qed.
End properties.

(** ** A concrete registry *)
Section examples.
#[local] Instance demo_prometheus : Prometheus := {|
  Registry := gset string;
  registered r := r;
  empty_registry := ∅;
  MustRegister r m :=
    if valid_metric m && bool_decide (m_name m ∉ r) then Done ({[m_name m]} ∪ r)
    else Panic "duplicate metrics collector registration attempted";
  DefBuckets := [f64_const 5 1000; f64_const 1 100; f64_of_Z 1; f64_of_Z 10];
|}.
#[local] Instance demo_prometheus_laws : PrometheusLaws.
Proof.
  split; [done| |by vm_compute]. intros r m Hv Hn. cbn. rewrite Hv, bool_decide_true by done. eauto.
Qed.

Lemma init_metrics_registers_all_witness :
  ∃ r, init_metrics = Done r ∧ registered r = list_to_set (m_name <$> all_metrics) ∧
    size (registered r) = length all_metrics.
Proof. apply init_metrics_registers_all. Defined.
End examples.
