(* ===== verification/System.v ===== *)
(** Gateway and roomserver together: what a request of a client means end to
    end, with the messages of one component handed to the other. *)

From Stdlib Require Import ZArith Lia.
From stdpp Require Import base tactics gmap strings numbers list.
From S2P Require Import Prelude GoInt Protocol Frame Chan SessionStore SessionService RoomService Recovery HashRing Roomserver GrpcServer PushApi Connection Gateway GatewayHandler RoomserverClient.

Local Open Scope Z_scope.

#[local] Existing Instance ToyCodec.UserRoomPair_eq_dec.

Section system.
Context {SS : Type} `{SessionStoreLaws SS}.
Context `{Msgpack RoomRequest, Msgpack StatusResponse, Msgpack LeaveResponse,
  Msgpack CloseNotice}.
Context `{MsgpackLaws GatewayInfo, MsgpackLaws JoinRoomRequest, MsgpackLaws LeaveRoomRequest,
  MsgpackLaws ResumeRequest, MsgpackLaws DisconnectNotify, MsgpackLaws BatchReSync,
  MsgpackLaws ReSyncComplete}.
Context `{MsgpackLaws JoinRoomAck, MsgpackLaws BroadcastMessage, Msgpack UnicastMessage,
  Msgpack MulticastMessage, Msgpack EpochNotify, Msgpack RoomCloseNotify}.
Context `{O : MapOrder}.
Implicit Types (s : Server SS) (g : Gateway) (u rid gw : string).

Definition ack_envelope u rid (success : bool) (code : Z) (message : string) : Envelope :=
  mkEnvelope InternalMsgJoinRoomAck (Encode_ (mkJoinRoomAck u rid success code message)).

(** The stream of a gateway at the roomserver. *)
Definition serves_stream s (conn : ConnRef) (sc : GatewayConnection) : Prop :=
  server_wf s ∧ conns s !! conn = Some sc ∧ conn_ok sc ∧ gc_closed sc = false.

Lemma requested_join gw u rid now :
  requested (join_envelope gw u rid) now = [CtlJoin u rid gw now].
Proof. unfold requested, join_envelope. cbn. by rewrite Decode_Encode_. Qed.

Lemma answers_join gw u rid now s :
  answers (join_envelope gw u rid) now s = [ack_envelope u rid true ErrCodeSuccess ""].
Proof. unfold answers, join_envelope. cbn. by rewrite Decode_Encode_. Qed.

Lemma requested_leave u rid now :
  requested (leave_room_envelope u rid) now = [CtlLeave u rid].
Proof. unfold requested, leave_room_envelope. cbn. by rewrite Decode_Encode_. Qed.

Lemma requested_disconnect gw req now :
  requested (disconnect_envelope gw req) now = [CtlDisconnect (pr_UserID req) (pr_RoomID req) now].
Proof. unfold requested, disconnect_envelope. cbn. by rewrite Decode_Encode_. Qed.

Lemma requested_batch gw us now :
  requested (batch_envelope gw us) now =
    (λ p, CtlJoin (urp_UserID p) (urp_RoomID p) gw now) <$> us.
Proof. unfold requested, batch_envelope. cbn. by rewrite Decode_Encode_. Qed.

(** The roomserver's side of a join. *)
Lemma server_join conn sc gw u rid now s :
  serves_stream s conn sc →
  ∃ s', handleGatewayMessage conn (join_envelope gw u rid) now s = Done s' ∧
    serves_stream s' conn (deliver [ack_envelope u rid true ErrCodeSuccess ""] sc) ∧
    presence s' = <[u := mkPresence rid gw MemberStatusOnline None]> (presence s).
Proof.
  intros (Hwf & Hc & Hok & Ho). rewrite (handled conn _ now s sc) by done.
  rewrite requested_join, answers_join. eexists. split; [done|].
  destruct (presence_JoinRoom u rid gw now s (proj1 Hwf)) as [_ Hp].
  pose proof (JoinRoom_wf u rid gw now s Hwf) as Hwf'.
  split; [|exact Hp]. split; [exact Hwf'|]. split; [cbn; apply lookup_insert_eq|].
  split; [by apply deliver_ok|]. by rewrite deliver_closed.
Qed.

Lemma server_disconnect conn sc gw req now s :
  serves_stream s conn sc →
  ∃ s', handleGatewayMessage conn (disconnect_envelope gw req) now s = Done s' ∧
    serves_stream s' conn sc ∧
    presence s' = alter (go_offline now) (pr_UserID req) (presence s).
Proof.
  intros (Hwf & Hc & Hok & Ho). rewrite (handled conn _ now s sc) by done.
  rewrite requested_disconnect. cbn [answers disconnect_envelope env_MsgType].
  eexists. split; [done|]. rewrite deliver_nil.
  destruct (presence_UserDisconnect (pr_UserID req) (pr_RoomID req) now s (proj1 Hwf)) as [_ Hp].
  pose proof (UserDisconnect_wf (pr_UserID req) (pr_RoomID req) now s Hwf) as Hwf'.
  split; [|exact Hp]. split; [exact Hwf'|]. split; [cbn; apply lookup_insert_eq|done].
Qed.

Lemma server_leave conn sc u rid now s :
  serves_stream s conn sc →
  ∃ s', handleGatewayMessage conn (leave_room_envelope u rid) now s = Done s' ∧
    serves_stream s' conn sc ∧ presence s' = delete u (presence s).
Proof.
  intros (Hwf & Hc & Hok & Ho). rewrite (handled conn _ now s sc) by done.
  rewrite requested_leave. cbn [answers leave_room_envelope env_MsgType].
  eexists. split; [done|]. rewrite deliver_nil.
  destruct (presence_LeaveRoom u rid s (proj1 Hwf)) as [_ Hp].
  pose proof (LeaveRoom_wf u rid s Hwf) as Hwf'.
  split; [|exact Hp]. split; [exact Hwf'|]. split; [cbn; apply lookup_insert_eq|done].
Qed.

(** The gateway's side of an acknowledgement. *)
Lemma gateway_ack u rid code message ref c g :
  held g = [] → connections g !! u = Some ref → objects g !! ref = Some c →
  handleEnvelope (ack_envelope u rid true code message) g =
    Done (false, put ref (Send (join_response true code message) (clock g)
      (set_c_join JoinStateConfirmed rid c)).2 (joined_room rid u g)).
Proof.
  intros Hh Hu Hc. unfold handleEnvelope, ack_envelope. cbn [env_MsgType env_Payload].
  rewrite Z.eqb_refl. unfold handleJoinRoomAck, mbind, G_bind. rewrite Decode_Encode_.
  cbn [jra_UserID jra_RoomID jra_Success jra_Code jra_Message].
  by rewrite (OnJoinRoomAck_success u rid code message ref g c).
Qed.

(** The client behind [ref] is confirmed in [rid] at the gateway. *)
Definition confirmed_at g (ref : CRef) u rid : Prop :=
  (∃ c, objects g !! ref = Some c ∧ c_JoinState c = JoinStateConfirmed ∧ c_RoomID c = rid) ∧
  (∃ us, localRooms g !! rid = Some us ∧ u ∈ us).

Lemma gateway_ack_confirms u rid code message ref c g :
  held g = [] → connections g !! u = Some ref → objects g !! ref = Some c →
  ∃ g', handleEnvelope (ack_envelope u rid true code message) g = Done (false, g') ∧
    confirmed_at g' ref u rid ∧ connections g' = connections g.
Proof.
  intros Hh Hu Hc. rewrite (gateway_ack u rid code message ref c g) by done.
  eexists. split; [done|]. split; [|done].
  destruct (Send_frame (join_response true code message) (clock g)
    (set_c_join JoinStateConfirmed rid c)) as (_ & Hj & Hr & _). split.
  - eexists. cbn. rewrite lookup_insert_eq. split; [done|]. by rewrite Hj, Hr.
  - eexists. cbn. rewrite lookup_insert_eq. split; [done|]. set_solver.
Qed.

(** ** Resynchronisation at the roomserver *)

(** The presence a list of reports amounts to. *)
Definition report gw (σ : gmap string Presence) (p : UserRoomPair) : gmap string Presence :=
  <[urp_UserID p := mkPresence (urp_RoomID p) gw MemberStatusOnline None]> σ.

Lemma presence_joins gw now us s :
  server_wf s →
  let s' := foldl run_ctl s ((λ p, CtlJoin (urp_UserID p) (urp_RoomID p) gw now) <$> us) in
  server_wf s' ∧ presence s' = foldl (report gw) (presence s) us.
Proof.
  revert s. induction us as [|p us IH]; intros s Hwf; [done|].
  cbn [fmap list_fmap foldl run_ctl].
  destruct (IH (JoinRoom (urp_UserID p) (urp_RoomID p) gw now s).2) as [Hwf' ->];
    [by apply JoinRoom_wf|].
  split; [done|]. by rewrite (proj2 (presence_JoinRoom _ _ _ _ _ (proj1 Hwf))).
Qed.

(** The batches counted by the recovery. *)
Definition received (bs : list (list UserRoomPair)) (r : RecoveryState) : RecoveryState :=
  foldl (λ r us, OnUsersReceived (Z.of_nat (length us)) r) r bs.

Lemma server_batches conn sc gw now bs s :
  serves_stream s conn sc →
  ∃ s', Channel_loop conn ((λ us, (batch_envelope gw us, now)) <$> bs) s = Done s' ∧
    serves_stream s' conn sc ∧ presence s' = foldl (report gw) (presence s) (concat bs) ∧
    recovery s' = received bs (recovery s).
Proof.
  revert s. induction bs as [|us bs IH]; intros s Hs; cbn [fmap list_fmap Channel_loop].
  - by exists s.
  - destruct Hs as (Hwf & Hc & Hok & Ho). rewrite (handled conn _ now s sc) by done.
    rewrite requested_batch. cbn [answers batch_envelope env_MsgType mbind outcome_bind].
    destruct (presence_joins gw now us s Hwf) as [Hwf1 Hp1].
    rewrite deliver_nil. set (s1 := put_conn _ _ _).
    assert (presence s1 = foldl (report gw) (presence s) us) as Hps by exact Hp1.
    assert (recovery s1 = OnUsersReceived (Z.of_nat (length us)) (recovery s)) as Hrs.
    { unfold s1, reported, batch_envelope. cbn. by rewrite Decode_Encode_. }
    destruct (IH s1) as (s' & -> & Hs' & Hp' & Hr').
    { split; [exact Hwf1|]. split; [cbn; apply lookup_insert_eq|done]. }
    exists s'. split; [done|]. split; [done|]. split.
    + by rewrite Hp', Hps, concat_cons, foldl_app.
    + by rewrite Hr', Hrs.
Qed.

Lemma Channel_loop_app conn es1 es2 s :
  Channel_loop conn (es1 ++ es2) s = (Channel_loop conn es1 s ≫= Channel_loop conn es2).
Proof.
  revert s. induction es1 as [|[e t] es1 IH]; intros s; [done|]. cbn [app Channel_loop].
  destruct (handleGatewayMessage conn e t s); cbn; [apply IH|done..].
Qed.

Lemma server_complete conn sc gw total now s :
  serves_stream s conn sc →
  ∃ s', handleGatewayMessage conn (complete_envelope gw total) now s = Done s' ∧
    serves_stream s' conn sc ∧ presence s' = presence s ∧
    recovery s' = OnGatewayComplete (recovery s).
Proof.
  intros (Hwf & Hc & Hok & Ho). rewrite (handled conn _ now s sc) by done.
  unfold reported, requested, answers, complete_envelope. cbn.
  rewrite Decode_Encode_, deliver_nil. eexists. split; [done|]. split; [|done].
  split; [exact Hwf|]. split; [cbn; apply lookup_insert_eq|done].
Qed.

Lemma foldl_report_notin gw us u σ :
  (∀ rid, mkUserRoomPair u rid ∉ us) → foldl (report gw) σ us !! u = σ !! u.
Proof.
  revert σ. induction us as [|p us IH]; intros σ Hno; [done|]. cbn [foldl]. rewrite IH.
  - unfold report. rewrite lookup_insert_ne; [done|]. intros <-.
    apply (Hno (urp_RoomID p)). destruct p. by left.
  - intros rid Hin. apply (Hno rid). by right.
Qed.

Lemma foldl_report_in gw us u rid σ :
  mkUserRoomPair u rid ∈ us → (∀ rid', mkUserRoomPair u rid' ∈ us → rid' = rid) →
  foldl (report gw) σ us !! u = Some (mkPresence rid gw MemberStatusOnline None).
Proof.
  revert σ. induction us as [|p us IH]; intros σ Hin Huniq; [by apply not_elem_of_nil in Hin|].
  cbn [foldl]. destruct (decide (mkUserRoomPair u rid ∈ us)) as [Hin'|Hnin].
  - apply IH; [done|]. intros rid' ?. apply Huniq. by right.
  - apply elem_of_cons in Hin as [<-|?]; [|done]. rewrite foldl_report_notin.
    + unfold report. cbn. apply lookup_insert_eq.
    + intros rid' Hin'. assert (rid' = rid) as -> by (apply Huniq; by right). done.
Qed.
End system.

(** ** Properties *)
Section properties.
Context {SS : Type} `{SessionStoreLaws SS}.
Context `{Msgpack RoomRequest, Msgpack StatusResponse, Msgpack LeaveResponse,
  Msgpack CloseNotice}.
Context `{MsgpackLaws GatewayInfo, MsgpackLaws JoinRoomRequest, MsgpackLaws LeaveRoomRequest,
  MsgpackLaws ResumeRequest, MsgpackLaws DisconnectNotify, MsgpackLaws BatchReSync,
  MsgpackLaws ReSyncComplete}.
Context `{MsgpackLaws JoinRoomAck, MsgpackLaws BroadcastMessage, Msgpack UnicastMessage,
  Msgpack MulticastMessage, Msgpack EpochNotify, Msgpack RoomCloseNotify}.
Context `{JsonRequest GlobalBroadcastRequest}.
Context `{O : MapOrder}.
Implicit Types (s : Server SS) (g : Gateway) (u rid : string).

(** C1. A join, end to end, through a gateway in normal mode and the open
    stream it is registered with.  The client's request makes the gateway
    queue one message; the roomserver turns it into a presence entry and one
    acknowledgement; the gateway handles that by confirming the client in
    the room and offering it one success answer.  Afterwards both sides
    agree on the room.  Each of the three queues takes its message when it
    has a free slot and drops it otherwise; the step after it is stated for
    a message that got through. *)
Theorem join_round_trip frame req ref c g conn sc s now :
  Decode (f_Payload frame) = Some req → g_status g = StatusNormal → held g = [] →
  objects g !! ref = Some c → connections g !! c_UserID c = Some ref →
  serves_stream s conn sc →
  let u := c_UserID c in let rid := rq_RoomID req in let gw := cfg_ID (g_cfg g) in
  let ack := ack_envelope u rid true ErrCodeSuccess "" in
  ∃ g1 s1 g2 c2,
    handleJoinRoom ref frame g = Done (tt, g1) ∧
    rs_sendCh g1 = sent (join_envelope gw u rid) (rs_sendCh g) ∧
    handleGatewayMessage conn (join_envelope gw u rid) now s = Done s1 ∧
    conns s1 !! conn = Some (deliver [ack] sc) ∧
    handleEnvelope ack g1 = Done (false, g2) ∧
    presence s1 !! u = Some (mkPresence rid gw MemberStatusOnline None) ∧
    confirmed_at g2 ref u rid ∧
    objects g2 !! ref = Some c2 ∧ offered (join_response true ErrCodeSuccess "") c c2.
Proof.
  intros Hd Hst Hh Hc Hu Hs u rid gw ack.
  rewrite (handleJoinRoom_run ref frame req g c) by done.
  destruct (server_join conn sc gw u rid now s Hs) as (s1 & Hs1 & (_ & Hc1 & _) & Hp).
  set (c1 := set_c_join JoinStatePending rid c). set (g1 := queued _ _).
  assert (objects g1 !! ref = Some c1) as Hc1' by (cbn; apply lookup_insert_eq).
  destruct (gateway_ack_confirms u rid ErrCodeSuccess "" ref c1 g1) as (g2 & Hg2 & Hconf & _);
    [done..|].
  assert (objects g2 !! ref = Some (Send (join_response true ErrCodeSuccess "") (clock g1)
    (set_c_join JoinStateConfirmed rid c1)).2) as Hc2.
  { rewrite (gateway_ack u rid ErrCodeSuccess "" ref c1 g1) in Hg2 by done.
    injection Hg2 as <-. cbn. apply lookup_insert_eq. }
  exists g1, s1, g2. eexists. split_and!; try done; [|apply Hconf..|].
  - by rewrite Hp, lookup_insert_eq.
  - exact (Send_offered (join_response true ErrCodeSuccess "") (clock g1)
      (set_c_join JoinStateConfirmed rid c1)).
Qed.

(** A leave that overtakes the acknowledgement of the join: the
    roomserver has dropped the user, but the late acknowledgement confirms
    it at the gateway, which keeps it in the local room. *)
Theorem late_ack_resurrects u rid gw ref c conn sc s g now now' :
  held g = [] → connections g !! u = Some ref → objects g !! ref = Some c →
  serves_stream s conn sc →
  let ack := ack_envelope u rid true ErrCodeSuccess "" in
  ∃ s1 s2 g2,
    handleGatewayMessage conn (join_envelope gw u rid) now s = Done s1 ∧
    conns s1 !! conn = Some (deliver [ack] sc) ∧
    handleGatewayMessage conn (leave_room_envelope u rid) now' s1 = Done s2 ∧
    handleEnvelope ack g = Done (false, g2) ∧
    presence s2 !! u = None ∧ confirmed_at g2 ref u rid.
Proof.
  intros Hh Hu Hc Hs ack.
  destruct (server_join conn sc gw u rid now s Hs) as (s1 & Hs1 & Hst1 & _).
  destruct (server_leave conn _ u rid now' s1 Hst1) as (s2 & Hs2 & _ & Hp2).
  destruct (gateway_ack_confirms u rid ErrCodeSuccess "" ref c g) as (g2 & Hg2 & Hconf & _);
    [done..|].
  exists s1, s2, g2. split_and!; try done; [apply Hst1| |apply Hconf..].
  by rewrite Hp2, lookup_delete_eq.
Qed.

(** The compensation of an outage can overtake the user's return.  A
    disconnect stored during the outage is sent by its own goroutine; when
    the user's new join is queued before it, the roomserver ends up with a
    disconnected user that the gateway has confirmed, and evicts it after
    the timeout. *)
Theorem compensation_overtakes_rejoin frame req ref c old g conn sc s t1 t2 :
  Decode (f_Payload frame) = Some req → held g = [] →
  g_status g = StatusDegraded → pendingLeaves g = [] → pendingDisconnects g = [old] →
  pr_UserID old = c_UserID c →
  objects g !! ref = Some c → connections g !! c_UserID c = Some ref →
  serves_stream s conn sc →
  let u := c_UserID c in let rid := rq_RoomID req in let gw := cfg_ID (g_cfg g) in
  ∃ g1 g2 g3 s1 s2 g4,
    SetNormal g = Done (true, g1) ∧
    handleJoinRoom ref frame g1 = Done (tt, g2) ∧
    processPendingRequests g2 = Done (tt, g3) ∧
    rs_sendCh g3 = queue_all [join_envelope gw u rid; disconnect_envelope gw old] (rs_sendCh g) ∧
    handleGatewayMessage conn (join_envelope gw u rid) t1 s = Done s1 ∧
    handleGatewayMessage conn (disconnect_envelope gw old) t2 s1 = Done s2 ∧
    handleEnvelope (ack_envelope u rid true ErrCodeSuccess "") g3 = Done (false, g4) ∧
    confirmed_at g4 ref u rid ∧
    presence s2 !! u = Some (mkPresence rid gw MemberStatusDisconnected (Some t2)).
Proof.
  intros Hd Hh Hst Hpl Hpd Hold Hc Hu Hs u rid gw.
  rewrite SetNormal_run, Hst, bool_decide_true by done.
  destruct (normal_fields g) as (Hcfg & _ & Hch & Hn).
  assert (objects (normal g) = objects g ∧ connections (normal g) = connections g ∧
    held (normal g) = held g ∧ pendingLeaves (normal g) = pendingLeaves g ∧
    pendingDisconnects (normal g) = pendingDisconnects g)
    as (Ho & Hcs & Hhe & Hnl & Hnd) by (unfold normal; by rewrite Hst).
  eexists (normal g), _, _.
  destruct (server_join conn sc gw u rid t1 s Hs) as (s1 & Hs1 & Hst1 & Hp1).
  destruct (server_disconnect conn _ gw old t2 s1 Hst1) as (s2 & Hs2 & _ & Hp2).
  set (c1 := set_c_join JoinStatePending rid c).
  exists s1, s2. eexists. split; [done|]. split.
  { apply (handleJoinRoom_run ref frame req _ c); [done..|by rewrite Ho]. }
  split; [apply processPendingRequests_run; cbn; congruence|].
  split.
  { cbn. rewrite Hnl, Hnd, Hpl, Hpd, Hcfg. cbn. by rewrite Hch. }
  split; [done|]. split; [done|]. split.
  { eapply (gateway_ack u rid _ _ ref c1); [cbn; congruence|cbn; by rewrite Hcs|].
    cbn. rewrite Ho. apply lookup_insert_eq. }
  split.
  - destruct (Send_frame (join_response true ErrCodeSuccess "") (clock (normal g))
      (set_c_join JoinStateConfirmed rid c1)) as (_ & Hj & Hr & _). split.
    + eexists. cbn. rewrite lookup_insert_eq. split; [done|]. by rewrite Hj, Hr.
    + eexists. cbn. rewrite lookup_insert_eq. split; [done|]. set_solver.
  - rewrite Hp2, Hold. fold u. by rewrite lookup_alter_eq, Hp1, lookup_insert_eq.
Qed.

(** C14. After a restart the reports of a gateway restore the presence map:
    once the roomserver has handled the batches and the completion report,
    every member of a local room is online there on that gateway, nobody
    else is affected, and the recovery has counted the users of every batch
    and one more complete gateway, provided no user is listed in two local
    rooms. *)
Theorem resync_restores_presence g conn sc s now :
  held g = [] → serves_stream s conn sc →
  (∀ u r1 r2 us1 us2, localRooms g !! r1 = Some us1 → u ∈ us1 →
     localRooms g !! r2 = Some us2 → u ∈ us2 → r1 = r2) →
  let gw := cfg_ID (g_cfg g) in
  ∃ bs total s',
    startProgressiveReSync g = Done (tt, queued
      ((batch_envelope gw <$> bs) ++ [complete_envelope gw total]) g) ∧
    Channel_loop conn ((λ e, (e, now)) <$>
      ((batch_envelope gw <$> bs) ++ [complete_envelope gw total])) s = Done s' ∧
    (∀ u rid us, localRooms g !! rid = Some us → u ∈ us →
       presence s' !! u = Some (mkPresence rid gw MemberStatusOnline None)) ∧
    (∀ u, (∀ rid us, localRooms g !! rid = Some us → u ∉ us) →
       presence s' !! u = presence s !! u) ∧
    recovery s' = OnGatewayComplete (received bs (recovery s)).
Proof.
  intros Hh Hs Huniq gw. destruct (startProgressiveReSync_run g Hh) as (bs & Hrun & Hbs & _).
  destruct (server_batches conn sc gw now bs s Hs) as (s1 & Hl1 & Hs1 & Hp1 & Hr1).
  destruct (server_complete conn sc gw (Z.of_nat (length (local_pairs g))) now s1 Hs1)
    as (s2 & Hl2 & _ & Hp2 & Hr2).
  eexists bs, _, s2. split; [exact Hrun|]. split.
  { rewrite fmap_app, Channel_loop_app, <-list_fmap_compose.
    change (Channel_loop conn ((λ us, (batch_envelope gw us, now)) <$> bs) s
      ≫= Channel_loop conn [(complete_envelope gw (Z.of_nat (length (local_pairs g))), now)] =
      Done s2).
    rewrite Hl1. cbn [mbind outcome_bind Channel_loop]. by rewrite Hl2. }
  rewrite Hbs in Hp1. split_and!; [| |by rewrite Hr2, Hr1].
  - intros u rid us Hr Hu. rewrite Hp2, Hp1. apply foldl_report_in.
    + apply elem_of_local_pairs. eauto.
    + intros rid' (us' & Hr' & Hu')%elem_of_local_pairs. by eapply Huniq.
  - intros u Hno. rewrite Hp2, Hp1. apply foldl_report_notin.
    intros rid (us & Hr & Hu)%elem_of_local_pairs. by eapply Hno.
Qed.

(** The platform-wide broadcast of the push interface is accepted and
    handed to every registered gateway that has a member in some room, but
    its message names no room: no gateway delivers it to anybody. *)
Theorem global_broadcast_is_lost R s r req :
  server_wf s → streams_inv R s → accepted r s → decode_request (hr_Body r) = Some req →
  ∃ e resp s', handleGlobalBroadcastHTTP r s = Done (resp, s') ∧ resp_code resp = StatusOK ∧
    (∀ rid u m conn c, member (roomSvc s) rid u = Some m →
      gateways s !! rm_GatewayID m = Some conn → conns s !! conn = Some c →
      conns s' !! conn = Some (deliver [e] c)) ∧
    (∀ g, held g = [] → localRooms g !! ""%string = None → handleEnvelope e g = Done (false, g)).
Proof.
  intros Hwf Hinv [Hpost Hready] Hreq. unfold handleGlobalBroadcastHTTP, Roomserver.GetStatus.
  rewrite Hready, Hreq, decide_False, decide_False by naive_solver.
  set (msg := mkBroadcastMessage "" 0 (gbr_Message req)).
  set (e := mkEnvelope InternalMsgBroadcast (Encode_ msg)).
  destruct (send_each_registered R s (range_set (all_gateway_ids s)) (λ _, e))
    as (s' & Hs & _ & _ & _ & Hs'); [done|apply NoDup_range_set|].
  unfold send_to_all. fold e. rewrite Hs. eexists e, _, s'. split; [done|].
  split; [done|]. split.
  - intros rid u m conn c Hm Hg Hc. rewrite (Hs' _ _ Hg), Hc, decide_True; [done|].
    apply elem_of_range_set, elem_of_all_gateway_ids. exists rid.
    eapply GetRoomGatewayIDs_member; [apply Hwf|done].
  - intros g Hh Hno. unfold handleEnvelope. cbn [env_MsgType env_Payload e].
    unfold mbind, G_bind. cbn beta iota.
    replace (InternalMsgBroadcast =? InternalMsgJoinRoomAck) with false by done.
    rewrite Z.eqb_refl. unfold handleBroadcast. rewrite Decode_Encode_.
    unfold mbind, G_bind. cbn [bm_RoomID msg].
    assert (GetRoomUsers "" g = Done ([], g)) as ->.
    { unfold GetRoomUsers. assert (free LocalRoomsMu g) by (by apply no_locks_free).
      run_locks. cbn [localRooms set_held]. rewrite Hno.
      do 2 f_equal. exact (set_held_id g). }
    done.
Qed.
End properties.

(** ** Concrete instances: gateway "gw-1" with "u1", and a roomserver with one
    registered stream *)
Section examples.
Import ToyCodec.
#[local] Existing Instance default_order.

#[local] Instance CloseNotice_eq_dec : EqDecision CloseNotice.
Proof. solve_decision. Defined.
#[local] Instance CloseNotice_countable : Countable CloseNotice.
Proof.
  refine (inj_countable' (λ m, (cn_RoomID m, cn_Reason m)) (λ '(a, b), mkCloseNotice a b) _).
  by intros [].
Defined.
#[local] Instance demo_global : JsonRequest GlobalBroadcastRequest :=
  λ body, Some (mkGlobalBroadcastRequest body).

Lemma demo_serves : serves_stream (H0 := SessionService_laws) demo_stream_server 0%nat demo_stream.
Proof.
  split; [split; [apply NewSessionService_wf|apply NewRoomService_wf]|].
  split; [by vm_compute|]. split; by vm_compute.
Qed.

Definition join_frame (rid : string) : Frame :=
  mkFrame MsgTypeJoinRoom 0 (Encode_ (mkRoomRequest rid)).

Lemma join_round_trip_witness :
  let ack := ack_envelope "u1" "r1" true ErrCodeSuccess "" in
  ∃ g1 s1 g2 c2,
    handleJoinRoom 0%nat (join_frame "r1") demo_gw = Done (tt, g1) ∧
    rs_sendCh g1 = sent (join_envelope "gw-1" "u1" "r1") (rs_sendCh demo_gw) ∧
    handleGatewayMessage 0%nat (join_envelope "gw-1" "u1" "r1") 9 demo_stream_server = Done s1 ∧
    conns s1 !! 0%nat = Some (deliver [ack] demo_stream) ∧
    handleEnvelope ack g1 = Done (false, g2) ∧
    presence s1 !! "u1"%string = Some (mkPresence "r1" "gw-1" MemberStatusOnline None) ∧
    confirmed_at g2 0%nat "u1" "r1" ∧
    objects g2 !! 0%nat = Some c2 ∧ offered (join_response true ErrCodeSuccess "") demo_conn c2.
Proof.
  apply (join_round_trip (H0 := SessionService_laws) (join_frame "r1") (mkRoomRequest "r1")
    0%nat demo_conn demo_gw 0%nat demo_stream demo_stream_server 9);
    [by vm_compute|done|done|by vm_compute|by vm_compute|apply demo_serves].
Defined.

Lemma late_ack_resurrects_witness :
  let ack := ack_envelope "u1" "r1" true ErrCodeSuccess "" in
  ∃ s1 s2 g2,
    handleGatewayMessage 0%nat (join_envelope "gw-1" "u1" "r1") 9 demo_stream_server = Done s1 ∧
    conns s1 !! 0%nat = Some (deliver [ack] demo_stream) ∧
    handleGatewayMessage 0%nat (leave_room_envelope "u1" "r1") 10 s1 = Done s2 ∧
    handleEnvelope ack demo_gw = Done (false, g2) ∧
    presence s2 !! "u1"%string = None ∧ confirmed_at g2 0%nat "u1" "r1".
Proof.
  apply (late_ack_resurrects (H0 := SessionService_laws) "u1" "r1" "gw-1" 0%nat demo_conn
    0%nat demo_stream demo_stream_server demo_gw 9 10);
    [done|by vm_compute|by vm_compute|apply demo_serves].
Defined.

(** The connection of "u1" was lost in "r1" during an outage; "u1" is back. *)
Definition outage_gw : Gateway :=
  set_pendingDisconnects [mkPendingRequest "u1" "r1" PendingDisconnect 3]
    (set_g_status StatusDegraded demo_gw).

Lemma compensation_overtakes_rejoin_witness :
  let old := mkPendingRequest "u1" "r1" PendingDisconnect 3 in
  ∃ g1 g2 g3 s1 s2 g4,
    SetNormal outage_gw = Done (true, g1) ∧
    handleJoinRoom 0%nat (join_frame "r1") g1 = Done (tt, g2) ∧
    processPendingRequests g2 = Done (tt, g3) ∧
    rs_sendCh g3 = queue_all [join_envelope "gw-1" "u1" "r1"; disconnect_envelope "gw-1" old]
      (rs_sendCh outage_gw) ∧
    handleGatewayMessage 0%nat (join_envelope "gw-1" "u1" "r1") 9 demo_stream_server = Done s1 ∧
    handleGatewayMessage 0%nat (disconnect_envelope "gw-1" old) 10 s1 = Done s2 ∧
    handleEnvelope (ack_envelope "u1" "r1" true ErrCodeSuccess "") g3 = Done (false, g4) ∧
    confirmed_at g4 0%nat "u1" "r1" ∧
    presence s2 !! "u1"%string =
      Some (mkPresence "r1" "gw-1" MemberStatusDisconnected (Some 10)).
Proof.
  apply (compensation_overtakes_rejoin (H0 := SessionService_laws) (join_frame "r1")
    (mkRoomRequest "r1") 0%nat demo_conn (mkPendingRequest "u1" "r1" PendingDisconnect 3)
    outage_gw 0%nat demo_stream demo_stream_server 9 10);
    [by vm_compute|done|done|done|done|done|by vm_compute|by vm_compute|apply demo_serves].
Defined.

Lemma resync_restores_presence_witness :
  let g := demo_in_room JoinStateConfirmed in
  ∃ bs total s',
    startProgressiveReSync g = Done (tt, queued
      ((batch_envelope "gw-1" <$> bs) ++ [complete_envelope "gw-1" total]) g) ∧
    Channel_loop 0%nat ((λ e, (e, 5)) <$>
      ((batch_envelope "gw-1" <$> bs) ++ [complete_envelope "gw-1" total])) demo_stream_server =
      Done s' ∧
    (∀ u rid us, localRooms g !! rid = Some us → u ∈ us →
       presence s' !! u = Some (mkPresence rid "gw-1" MemberStatusOnline None)) ∧
    (∀ u, (∀ rid us, localRooms g !! rid = Some us → u ∉ us) →
       presence s' !! u = presence demo_stream_server !! u) ∧
    recovery s' = OnGatewayComplete (received bs (recovery demo_stream_server)).
Proof.
  apply (resync_restores_presence (H0 := SessionService_laws)
    (demo_in_room JoinStateConfirmed) 0%nat demo_stream); [done|apply demo_serves|].
  intros u r1 r2 us1 us2 H1 _ H2 _. cbn in H1, H2.
  apply lookup_singleton_Some in H1 as [<- _], H2 as [<- _]. done.
Defined.

Lemma global_broadcast_is_lost_witness :
  ∃ e resp s', handleGlobalBroadcastHTTP demo_post demo_push = Done (resp, s') ∧
    resp_code resp = StatusOK ∧
    (∀ rid u m conn c, member (roomSvc demo_push) rid u = Some m →
      gateways demo_push !! rm_GatewayID m = Some conn → conns demo_push !! conn = Some c →
      conns s' !! conn = Some (deliver [e] c)) ∧
    (∀ g, held g = [] → localRooms g !! ""%string = None → handleEnvelope e g = Done (false, g)).
Proof.
  apply (global_broadcast_is_lost (H0 := SessionService_laws) {[0%nat]} demo_push demo_post
    (mkGlobalBroadcastRequest [Byte.x01])); [apply demo_push_wf|apply demo_push_inv|by split|done].
Defined.
End examples.
