(* ===== verification/Typing.v ===== *)
(** The messages a client can get: a type discipline for the send queues
    of the gateway, kept by every handler in any order, and what it means
    for the bytes on the WebSocket. *)

From Stdlib Require Import ZArith Lia.
From stdpp Require Import base tactics gmap strings numbers list.
From S2P Require Import Prelude GoInt Protocol Frame Chan Connection Gateway GwLogic Distributor GatewayHandler RoomserverClient KafkaConsumer Login.

Local Open Scope Z_scope.

(** The types of the messages that reach a client through its queue.  The
    answer to a login is written before there is a queue; [MsgTypeResumeResp]
    is never used, as resumes are answered like joins. *)
Definition queued_types : list Z :=
  [MsgTypeJoinRoomResp; MsgTypeLeaveRoomResp; MsgTypePushMessage; MsgTypeBizResponse;
   MsgTypeHeartbeatResp].

Definition typed (data : list byte) : Prop :=
  ∃ f, data = EncodeFrame f ∧ f_MsgType f ∈ queued_types.

Lemma typed_encode t seq payload :
  t ∈ queued_types → typed (EncodeFrame (mkFrame t seq payload)).
Proof. intros. by exists (mkFrame t seq payload). Qed.

Definition conn_typed (c : Connection) : Prop := Forall typed (ch_buf (c_sendCh c)).

(** All queues of clients are typed, and nobody uses the input queues of
    the distributors. *)
Definition gw_typed (g : Gateway) : Prop :=
  (∀ ref c, objects g !! ref = Some c → conn_typed c) ∧
  (∀ i d, distributors g !! i = Some d → ch_buf (d_inputQueue d) = []).

(** A handler that keeps the queues typed, from any state at all. *)
Abbreviation types := (preserves gw_typed).

Create HintDb types.

Section primitives.
Context `{Msgpack LeaveRoomRequest, Msgpack DisconnectNotify} `{O : MapOrder}.
Implicit Types (ref : CRef) (g : Gateway) (c : Connection).

Lemma gw_typed_held h g : gw_typed g → gw_typed (set_held h g).
Proof. done. Qed.

Lemma types_modify (f : Gateway → Gateway) :
  (∀ g, objects (f g) = objects g ∧ distributors (f g) = distributors g) → types (modify f).
Proof.
  intros Hf. apply preserves_modify. intros g [Ho Hd]. destruct (Hf g) as [Hfo Hfd]. split.
  - intros ref c. rewrite Hfo. apply Ho.
  - intros i d. rewrite Hfd. apply Hd.
Qed.

Lemma types_get_c_then {B} ref (f : Connection → G B) :
  (∀ c, conn_typed c → types (f c)) → types (c ← get_c ref; f c).
Proof.
  intros Hf. eapply ensures_bind; [|exact Hf]. apply ensures_get_c. intros g c [Ho _]. apply Ho.
Qed.

Lemma types_put_c ref c : conn_typed c → types (put_c ref c).
Proof.
  intros Hc. apply preserves_modify. intros g [Ho Hd]. split; [|done]. cbn.
  intros ref' c' [[_ <-]|[_ ?]]%lookup_insert_Some; [done|by eapply Ho].
Qed.

Lemma conn_typed_Send data now c : typed data → conn_typed c → conn_typed (Send data now c).2.
Proof.
  intros Hd Hc. unfold Send. case_decide as Hl; [|done]. unfold conn_typed. cbn.
  destruct (sent_buf data (c_sendCh c)) as [->| ->]; [|done].
  apply Forall_app. split; [done|]. by constructor.
Qed.

Lemma types_update_c ref (f : Connection → Connection) :
  (∀ c, conn_typed c → conn_typed (f c)) → types (update_c ref f).
Proof.
  intros Hf. unfold update_c. apply types_get_c_then. intros c Hc. apply types_put_c. by apply Hf.
Qed.

Lemma types_send_c ref data : typed data → types (send_c ref data).
Proof.
  intros Hd. unfold send_c. apply types_get_c_then. intros c Hc.
  apply preserves_bind; [apply preserves_gets|]. intros now.
  pose proof (conn_typed_Send data now c Hd Hc) as Hc'. destruct (Send data now c) as [ok c'].
  apply preserves_bind; [by apply types_put_c|]. intros _. apply preserves_ret.
Qed.

Lemma types_update_d i (f : Distributor → Distributor) :
  (∀ d, d_inputQueue (f d) = d_inputQueue d) → types (update_d i f).
Proof.
  intros Hf. apply preserves_modify. intros g [Ho Hd]. split; [done|]. cbn. intros j d.
  destruct (decide (j = i)) as [->|Hne].
  - rewrite list_lookup_alter_eq. intros (d0 & Hd0 & ->)%fmap_Some. rewrite Hf. by eapply Hd.
  - rewrite list_lookup_alter_ne by done. apply Hd.
Qed.
End primitives.

#[export] Hint Resolve preserves_ret preserves_gets preserves_get_c types_update_c types_send_c
  types_put_c : types.
#[export] Hint Extern 2 (types (lock _)) => apply preserves_lock, gw_typed_held : types.
#[export] Hint Extern 2 (types (rlock _)) => apply preserves_rlock, gw_typed_held : types.
#[export] Hint Extern 2 (types (modify _)) => apply types_modify; done : types.
#[export] Hint Extern 2 (types (unlock _)) => apply types_modify; done : types.
#[export] Hint Extern 2 (types (runlock _)) => apply types_modify; done : types.
#[export] Hint Extern 2 (types (update_d _ _)) => apply types_update_d; done : types.
#[export] Hint Extern 2 (typed (EncodeFrame (mkFrame _ _ _))) =>
  apply typed_encode; unfold queued_types; set_solver : types.

(** Binds, critical sections and case distinctions, down to the primitives. *)
Ltac solve_types :=
  repeat lazymatch goal with
  | |- types (_ ≫= _) => apply preserves_bind; [|intros]
  | |- types (for_each _ _) => apply preserves_for_each; intros
  | |- types (match ?x with _ => _ end) => destruct x
  | |- types (lift _) => apply preserves_lift
  | |- types _ => solve [eauto with types]
  end.

Section handlers.
Context `{Msgpack RoomRequest, Msgpack StatusResponse, Msgpack LeaveResponse,
  Msgpack CloseNotice, Msgpack PushContent}.
Context `{Msgpack GatewayInfo, Msgpack JoinRoomRequest, Msgpack LeaveRoomRequest,
  Msgpack ResumeRequest, Msgpack DisconnectNotify, Msgpack BatchReSync,
  Msgpack ReSyncComplete}.
Context `{Msgpack JoinRoomAck, Msgpack BroadcastMessage, Msgpack UnicastMessage,
  Msgpack MulticastMessage, Msgpack EpochNotify, Msgpack RoomCloseNotify} `{O : MapOrder}.
Implicit Types (ref : CRef) (g : Gateway).

Lemma types_with_lock {A} l (m : G A) : types m → types (with_lock l m).
Proof. apply ensures_with_lock, gw_typed_held. Qed.

Lemma types_with_rlock {A} l (m : G A) : types m → types (with_rlock l m).
Proof. apply ensures_with_rlock, gw_typed_held. Qed.

Lemma types_Close ref reason : types (Close ref reason).
Proof.
  unfold Close, RemoveConnection, RemoveConn, RemoveUserFromRoom, notifyDisconnect, GetStatus,
    SendDisconnect, client_send.
  apply types_get_c_then. intros c Hc. destruct (c_closeOnce c); [apply preserves_ret|].
  apply preserves_bind; [by apply types_put_c|intros _]. solve_types.
Qed.

Lemma types_AddConnection ref : types (AddConnection ref).
Proof.
  unfold AddConnection, AddConn. pose proof types_Close. solve_types.
  intros g ? g' Hg. case_match; [|done..]. by intros [= <- <-].
Qed.

Lemma types_handleMessage kafka now_ms msgID ref data :
  types (handleMessage kafka now_ms msgID ref data).
Proof.
  unfold handleMessage, handleJoinRoom, handleLeaveRoom, handleResume, handleHeartbeat,
    handleBizRequest, sendJoinRoomResp, sendLeaveRoomResp, sendHeartbeatResp, sendBizResponse,
    SendJoinRoom, SendLeaveRoom, SendResume, client_send, GetStatus, RemoveUserFromRoom.
  pose proof @types_with_lock. pose proof @types_with_rlock.
  solve_types.
Qed.

Lemma types_readLoop_step kafka now_ms msgID ref read :
  types (readLoop_step kafka now_ms msgID ref read).
Proof.
  unfold readLoop_step. pose proof types_handleMessage. pose proof types_Close. solve_types.
Qed.

Lemma types_push_to t seq payload u :
  t ∈ queued_types → types (push_to (EncodeFrame (mkFrame t seq payload)) u).
Proof.
  intros Ht. unfold push_to, GetConnection. pose proof (typed_encode t seq payload Ht).
  solve_types.
Qed.

Lemma types_handleEnvelope e : types (handleEnvelope e).
Proof.
  unfold handleEnvelope, handleJoinRoomAck, handleBroadcast, RoomserverClient.handleUnicast,
    RoomserverClient.handleMulticast,
    handleEpochNotify, handleRoomClose, OnJoinRoomAck, sendJoinRoomResp, AddUserToRoom,
    GetRoomUsers, ClearRoom, push_to, GetConnection.
  cbv zeta. solve_types.
Qed.

Lemma types_resync : types startProgressiveReSync.
Proof.
  assert (∀ b, types (SendBatchReSync b)) as Hsend
    by (intros; unfold SendBatchReSync, client_send; solve_types).
  assert (∀ rid us b, types (resync_room rid us b)) as Hroom.
  { intros rid us. induction us as [|u us IH]; intros b; cbn [resync_room]; cbv zeta;
      solve_types. }
  assert (∀ rooms b, types (resync_rooms rooms b)) as Hrooms.
  { induction rooms as [|[rid us] rooms IH]; intros b; cbn [resync_rooms]; solve_types. }
  unfold startProgressiveReSync, sendReSyncComplete, GetConfirmedUsers, client_send. cbv zeta.
  solve_types.
Qed.

Lemma types_dispatchToUser t seq payload prio u :
  t ∈ queued_types → types (dispatchToUser (EncodeFrame (mkFrame t seq payload)) prio u).
Proof.
  intros Ht. unfold dispatchToUser. pose proof (typed_encode t seq payload Ht).
  pose proof @types_with_rlock. cbv zeta. solve_types.
Qed.

Lemma types_handlePushMessage json m : types (handlePushMessage json m).
Proof.
  assert (∀ msg prio u, types (dispatchToUser (buildPushPayload msg) prio u)) as Hd.
  { intros. apply types_dispatchToUser. unfold queued_types. set_solver. }
  unfold handlePushMessage, handleRoomBroadcast, KafkaConsumer.handleUnicast,
    KafkaConsumer.handleMulticast, handlePlatformBroadcast.
  pose proof @types_with_rlock as Hlock. solve_types.
  all: apply Hlock; solve_types.
Qed.

(** A new connection has an empty queue. *)
Lemma types_handleWebSocket `{Msgpack AuthRequest, Msgpack AuthResponse} parse jwt read connID :
  types (handleWebSocket parse jwt read connID).
Proof.
  unfold handleWebSocket. apply preserves_bind; [apply preserves_gets|intros cfg].
  apply preserves_lift_then. intros [[u|e] ms] _; [|apply preserves_ret].
  apply preserves_bind; [apply preserves_gets|intros objs]. cbv zeta.
  pose proof types_AddConnection. apply preserves_bind; [|intros; solve_types].
  apply preserves_modify. intros g [Ho Hd]. split; [|done]. cbn.
  intros ref c [[_ <-]|[_ ?]]%lookup_insert_Some; [by constructor|by eapply Ho].
Qed.
End handlers.

(** ** Everything a gateway does *)
Inductive GwAction :=
  | ActLogin (jwt : option JWTValidator) (read : option (list byte)) (connID : string)
  | ActRead (kafka : option KafkaProducer) (now_ms : Z) (msgID : string) (ref : CRef)
      (read : option (list byte))
  | ActTake (ref : CRef)                      (* the write loop receives a message *)
  | ActClose (ref : CRef) (reason : string)   (* ... or gives up *)
  | ActEnvelope (e : Envelope)
  | ActResync
  | ActKafka (m : KafkaMessage)
  | ActLink (a : Attempt)
  | ActLinkDown
  | ActCompensate
  | ActShutdown
  | ActClock (now : Z).

Section actions.
Context `{Msgpack RoomRequest, Msgpack StatusResponse, Msgpack LeaveResponse,
  Msgpack CloseNotice, Msgpack PushContent, Msgpack AuthRequest, Msgpack AuthResponse}.
Context `{Msgpack GatewayInfo, Msgpack JoinRoomRequest, Msgpack LeaveRoomRequest,
  Msgpack ResumeRequest, Msgpack DisconnectNotify, Msgpack BatchReSync,
  Msgpack ReSyncComplete}.
Context `{Msgpack JoinRoomAck, Msgpack BroadcastMessage, Msgpack UnicastMessage,
  Msgpack MulticastMessage, Msgpack EpochNotify, Msgpack RoomCloseNotify} `{O : MapOrder}.
Context (parse : string → (SigningMethod → option (list byte)) → ParseResult).
Context (json : list byte → option PushMessage).

Definition take_message (c : Connection) : Connection :=
  match recv (c_sendCh c) with Some (_, ch) => set_c_sendCh ch c | None => c end.

Definition run_action (a : GwAction) : G unit :=
  match a with
  | ActLogin jwt read connID => handleWebSocket parse jwt read connID;; mret tt
  | ActRead kafka now_ms msgID ref read => readLoop_step kafka now_ms msgID ref read;; mret tt
  | ActTake ref => update_c ref take_message
  | ActClose ref reason => Close ref reason
  | ActEnvelope e => handleEnvelope e;; mret tt
  | ActResync => startProgressiveReSync
  | ActKafka m => handlePushMessage json m
  | ActLink a => connect a;; mret tt
  | ActLinkDown => disconnect
  | ActCompensate => processPendingRequests
  | ActShutdown => closeAllConnections
  | ActClock now => modify (set_clock now)
  end.

Lemma conn_typed_take c : conn_typed c → conn_typed (take_message c).
Proof.
  unfold take_message, recv, conn_typed. destruct (ch_buf (c_sendCh c)) as [|m buf] eqn:E.
  - destruct (ch_closed _); cbn; by rewrite E.
  - cbn. by intros [_ ?]%Forall_cons.
Qed.

Lemma types_run_action a : types (run_action a).
Proof.
  pose proof types_handleWebSocket. pose proof types_readLoop_step. pose proof types_Close.
  pose proof types_handleEnvelope. pose proof types_resync. pose proof types_handlePushMessage.
  pose proof conn_typed_take.
  destruct a; cbn [run_action]; unfold connect, disconnect, processPendingRequests,
    closeAllConnections, SetDegraded, SetNormal, sendGatewayInfo, SendLeaveRoom, SendDisconnect,
    client_send, GetStatus; solve_types.
Qed.

Lemma gw_typed_new cfg now : gw_typed (NewGateway cfg now).
Proof.
  split; [done|]. intros i d. cbn. rewrite list_lookup_fmap.
  by intros (j & _ & ->)%fmap_Some.
Qed.

Lemma types_actions acts : types (for_each run_action acts).
Proof. apply preserves_for_each. intros. apply types_run_action. Qed.

(** C22. What a client can be sent.  Whatever the gateway goes through in
    whatever order (logins, requests, messages of the roomserver, pushes of
    Kafka, outages, shutdown), every message in the queue of a connection
    is one encoded frame whose type is a join, leave or business response,
    a heartbeat response or a push; and nothing is ever in the input queue
    of a distributor: no code uses the shards. *)
Theorem client_messages_typed cfg now acts g :
  for_each run_action acts (NewGateway cfg now) = Done (tt, g) →
  (∀ ref c data, objects g !! ref = Some c → data ∈ ch_buf (c_sendCh c) →
     ∃ f, data = EncodeFrame f ∧ f_MsgType f ∈
       [MsgTypeJoinRoomResp; MsgTypeLeaveRoomResp; MsgTypePushMessage; MsgTypeBizResponse;
        MsgTypeHeartbeatResp]) ∧
  (∀ i d, distributors g !! i = Some d → ch_buf (d_inputQueue d) = []).
Proof.
  intros Hrun.
  destruct (preserves_run _ _ _ _ (types_actions acts) (gw_typed_new cfg now) Hrun) as [Ho Hd].
  split; [|done]. intros ref c data Hc Hin. by apply (proj1 (Forall_forall _ _) (Ho ref c Hc)).
Qed.
End actions.

(** ** On the wire *)

(** A message within the limit of the decoder. *)
Definition wire_typed (data : list byte) : Prop :=
  ∃ f, data = EncodeFrame f ∧ frame_ok f ∧ f_MsgType f ∈ queued_types.

(** A WebSocket message that is a batch of frames for a client. *)
Definition typed_batch (n : nat) (w : list byte) : Prop :=
  ∃ fs, ReadFrames (S (length fs)) (mkReader w EOF) = (fs, ErrRead EOF) ∧
    (1 ≤ length fs ≤ n)%nat ∧ Forall (λ f, f_MsgType f ∈ queued_types) fs.

Lemma wire_typed_frames ms :
  Forall wire_typed ms →
  ∃ fs, ms = EncodeFrame <$> fs ∧ Forall frame_ok fs ∧
    Forall (λ f, f_MsgType f ∈ queued_types) fs.
Proof.
  induction 1 as [|m ms (f & -> & Hok & Ht) _ (fs & -> & Hoks & Hts)]; [by exists []|].
  exists (f :: fs). split_and!; [done|by constructor..].
Qed.

Lemma typed_batch_packed n ms :
  Forall wire_typed ms → (1 ≤ length ms ≤ n)%nat → typed_batch n (packMessages ms).
Proof.
  intros Hms Hl. destruct (wire_typed_frames ms Hms) as (fs & -> & Hok & Ht).
  rewrite length_fmap in Hl. exists fs. split_and!; [|lia|lia|done].
  rewrite packMessages_concat. apply ReadFrames_all; [done|lia].
Qed.

(** The messages [Send] has accepted in a run. *)
Lemma run_loops_accepted bm mt es w acc w' acc' (P : list byte → Prop) :
  Forall P acc → (∀ data now, LSend data now ∈ es → P data) →
  run_loops bm mt (w, acc) es = Some (w', acc') → Forall P acc'.
Proof.
  revert w acc. induction es as [|e es IH]; intros w acc Hacc Hes.
  { by intros [= <- <-]. }
  cbn [run_loops]. intros (wa & Hstep & Hrest)%bind_Some. destruct wa as [w1 acc1].
  eapply (IH w1 acc1); [|intros data now Hin; eapply Hes; by right|exact Hrest].
  destruct e as [data now| |ev r now]; cbn in Hstep.
  - destruct (Send data now (wl_conn w)) as [ok c]. injection Hstep as <- <-.
    destruct ok; [|done]. apply Forall_app. split; [done|]. constructor; [|done].
    eapply Hes. by left.
  - by injection Hstep as <- <-.
  - destruct (wl_running w); [|done]. apply bind_Some in Hstep as (w2 & _ & [= <- <-]). done.
Qed.

(** C23. The bytes a client reads.  As long as what is queued for a client
    is typed and within the size limit, every WebSocket message the write
    loop hands to the socket, whatever failures and flushes happen, parses
    without an error into between one and [BatchMaxSize] frames, all of them of the
    types meant for clients. *)
Theorem written_messages_parse cfg u id maxTimeouts es w accepted :
  (1 ≤ BatchMaxSize cfg)%nat → (∀ data now, LSend data now ∈ es → wire_typed data) →
  run_loops (BatchMaxSize cfg) maxTimeouts
    (mkWriteLoop (NewConnection u id cfg) [] true None, []) es = Some (w, accepted) →
  Forall (typed_batch (BatchMaxSize cfg)) (c_wire (wl_conn w)).*2.
Proof.
  intros Hb Hes Hrun.
  pose proof (run_loops_accepted _ _ _ _ _ _ _ wire_typed (Forall_nil_2 _) Hes Hrun) as Hacc.
  destruct (run_loops_inv (BatchMaxSize cfg) maxTimeouts
    (mkWriteLoop (NewConnection u id cfg) [] true None) [] [] es w accepted Hb)
    as (bs & _ & Heq & Hw & Hlen & _); [|exact Hrun|].
  { split_and!; [apply NewConnection_ok|done..|]. intros _. simpl. lia. }
  rewrite Hw. unfold written. apply Forall_fmap, Forall_fmap. apply Forall_forall.
  intros b Hin. cbn. apply typed_batch_packed.
  - rewrite Heq in Hacc. apply Forall_app in Hacc as [Hacc _].
    apply Forall_forall. intros m Hm. apply (proj1 (Forall_forall _ _) Hacc).
    apply elem_of_concat. exists b.2. split; [|done]. apply list_elem_of_fmap. by exists b.
  - by apply (proj1 (Forall_forall _ _) Hlen b).
Qed.

(** The encoder has no size limit, the decoders have: a push of more than
    1 MiB is queued and written like any other, and makes every reader of
    the stream give up on it, with all that is packed behind it. *)
Theorem oversized_push_unreadable seq payload rest :
  0 <= seq < 2 ^ 64 → MaxPayloadLen < Z.of_nat (length payload) < 2 ^ 32 →
  let data := EncodeFrame (mkFrame MsgTypePushMessage seq payload) in
  typed data ∧ DecodeFrame (data ++ rest) = Done (Err ErrPayloadTooLarge) ∧
  ∀ fuel, (ReadFrames (S fuel) (mkReader (data ++ rest) EOF)) = ([], ErrPayloadTooLarge).
Proof.
  intros Hseq Hlen data. split; [apply typed_encode; unfold queued_types; set_solver|].
  assert (frame_wf (mkFrame MsgTypePushMessage seq payload)) as Hwf by done.
  split.
  - unfold data. rewrite DecodeFrame_run, EncodeFrame_wire, decoded_wire by (cbn; lia || done). cbn [f_Payload].
    by rewrite (proj2 (Z.ltb_lt _ _)) by lia.
  - intros fuel. cbn [ReadFrames]. unfold ReadFrame, ReadFull. cbn [rd_data].
    assert (16 ≤ length (data ++ rest))%nat as Hl.
    { unfold data. rewrite length_app, length_EncodeFrame. unfold HeaderSize. lia. }
    rewrite (proj2 (Nat.leb_le HeaderSize _)) by done.
    assert (Uint32 (slice 12 16 (take HeaderSize (data ++ rest))) = Z.of_nat (length payload)) as ->.
    { unfold slice. change (16 - 12)%nat with 4%nat. change HeaderSize with (12 + 4)%nat.
      rewrite <-(firstn_skipn_comm 4 12), take_take, Nat.min_id. unfold data. rewrite EncodeFrame_wire.
      destruct (wire_header (mkFrame MsgTypePushMessage seq payload) rest) as (_ & _ & H12 & _).
      unfold slice in H12. change (16 - 12)%nat with 4%nat in H12. rewrite H12, Uint32_Put.
      apply u32_small. cbn. lia. }
    cbv zeta. by rewrite (proj2 (Z.ltb_lt _ _)) by lia.
Qed.

(** ** Concrete instances *)
Section examples.
Import ToyCodec.
#[local] Existing Instance default_order.
#[local] Instance CloseNotice_eq_dec : EqDecision CloseNotice.
Proof. solve_decision. Defined.
#[local] Instance CloseNotice_countable : Countable CloseNotice.
Proof.
  refine (inj_countable' (λ m, (cn_RoomID m, cn_Reason m)) (λ '(a, b), mkCloseNotice a b) _).
  by intros [].
Defined.
#[local] Instance PushContent_codec : Msgpack PushContent :=
  {| Encode c := Some (pc_Message c); Decode bs := Some (mkPushContent "" "" "" 0 bs) |}.
#[local] Instance AuthRequest_codec : Msgpack AuthRequest :=
  {| Encode r := Some (String.list_byte_of_string (aq_UserID r));
     Decode bs := Some (mkAuthRequest "" (String.string_of_list_byte bs)) |}.
#[local] Instance AuthResponse_codec : Msgpack AuthResponse :=
  {| Encode r := Some (String.list_byte_of_string (ar_UserID r)); Decode _ := None |}.

Definition no_jwt (token : string) (key : SigningMethod → option (list byte)) : ParseResult :=
  ParseError false.
Definition no_json (data : list byte) : option PushMessage := None.

(** "u1" logs in on a gateway without a secret, joins "r1" and is confirmed
    there, sends a heartbeat and gets a broadcast. *)
Definition demo_login : list byte :=
  EncodeFrame (mkFrame MsgTypeAuth 0 (Encode_ (mkAuthRequest "" "u1"))).
Definition demo_actions : list GwAction :=
  [ActLink StreamOpen; ActLogin None (Some demo_login) "c1";
   ActRead None 0 "" 0%nat
     (Some (EncodeFrame (mkFrame MsgTypeJoinRoom 0 (Encode_ (mkRoomRequest "r1")))));
   ActEnvelope (mkEnvelope InternalMsgJoinRoomAck
     (Encode_ (mkJoinRoomAck "u1" "r1" true ErrCodeSuccess "")));
   ActRead None 0 "" 0%nat (Some (EncodeFrame (mkFrame MsgTypeHeartbeat 0 [])));
   ActEnvelope (mkEnvelope InternalMsgBroadcast
     (Encode_ (mkBroadcastMessage "r1" 7 [Byte.x2a])))].
Definition demo_typed_gw : Gateway :=
  match for_each (run_action no_jwt no_json) demo_actions (NewGateway demo_gw_cfg 0) with
  | Done (_, g) => g | _ => NewGateway demo_gw_cfg 0 end.

Example demo_three_queued :
  (λ c, length (ch_buf (c_sendCh c))) <$> objects demo_typed_gw !! 0%nat = Some 3%nat.
Proof. by vm_compute. Qed.

Lemma client_messages_typed_witness :
  for_each (run_action no_jwt no_json) demo_actions (NewGateway demo_gw_cfg 0) =
    Done (tt, demo_typed_gw) ∧
  (∀ ref c data, objects demo_typed_gw !! ref = Some c → data ∈ ch_buf (c_sendCh c) →
     ∃ f, data = EncodeFrame f ∧ f_MsgType f ∈
       [MsgTypeJoinRoomResp; MsgTypeLeaveRoomResp; MsgTypePushMessage; MsgTypeBizResponse;
        MsgTypeHeartbeatResp]) ∧
  (∀ i d, distributors demo_typed_gw !! i = Some d → ch_buf (d_inputQueue d) = []).
Proof.
  split; [by vm_compute|].
  apply (client_messages_typed no_jwt no_json demo_gw_cfg 0 demo_actions). by vm_compute.
Defined.

Definition demo_push_frame (n : Z) : list byte :=
  EncodeFrame (mkFrame MsgTypePushMessage n [Byte.x2a]).
Definition demo_events : list LoopEvent :=
  [LSend (demo_push_frame 1) 1; LSend (demo_push_frame 2) 2; LSend (demo_push_frame 3) 3;
   LStep OnMessage WriteOk 4; LStep OnMessage WriteOk 5; LStep OnMessage WriteOk 6;
   LStep OnTick WriteOk 7].

Lemma written_messages_parse_witness :
  ∃ w accepted, run_loops 2 10
      (mkWriteLoop (NewConnection "u1" "c1" demo_conn_cfg) [] true None, []) demo_events =
      Some (w, accepted) ∧
    length (c_wire (wl_conn w)) = 2%nat ∧ Forall (typed_batch 2) (c_wire (wl_conn w)).*2.
Proof.
  eexists _, _. split; [by vm_compute|]. split; [by vm_compute|].
  apply (written_messages_parse demo_conn_cfg "u1" "c1" 10 demo_events _
    [demo_push_frame 1; demo_push_frame 2; demo_push_frame 3]); [simpl; lia| |by vm_compute].
  intros data now Hin. assert (∃ n, 0 <= n < 2 ^ 64 ∧ data = demo_push_frame n) as (n & Hn & ->).
  { unfold demo_events in Hin.
    do 3 (apply elem_of_cons in Hin as [[= -> _]|Hin]; [eexists; split; [|reflexivity]; lia|]).
    do 4 (apply elem_of_cons in Hin as [?|Hin]; [done|]). by apply elem_of_nil in Hin. }
  exists (mkFrame MsgTypePushMessage n [Byte.x2a]). split; [done|].
  split; [by split|unfold queued_types; set_solver].
Defined.

Lemma oversized_push_unreadable_witness :
  let payload := replicate (Z.to_nat 1048577) Byte.x00 in
  let data := EncodeFrame (mkFrame MsgTypePushMessage 1 payload) in
  typed data ∧ DecodeFrame (data ++ []) = Done (Err ErrPayloadTooLarge) ∧
  ∀ fuel, ReadFrames (S fuel) (mkReader (data ++ []) EOF) = ([], ErrPayloadTooLarge).
Proof.
  apply (oversized_push_unreadable 1 (replicate (Z.to_nat 1048577) Byte.x00) []); [done|].
  rewrite length_replicate, Z2Nat.id by done. done.
Defined.
End examples.
