(* ===== verification/Network.v ===== *)
(** A gateway, the roomserver and the two message queues between them as a
    transition system: clients, deliveries, the timeout check, pushes and the
    other gateways take steps in any order, each by the handlers of the
    components.  What the queues still have to bring is part of the
    invariant, so that agreement holds once they are empty, for all users but
    those that a step of the run has named. *)

From Stdlib Require Import ZArith Lia.
From stdpp Require Import base tactics gmap strings numbers list relations.
From S2P Require Import Prelude GoInt Protocol Frame Chan SessionStore SessionService RoomService Recovery HashRing Roomserver GrpcServer PushApi Connection Gateway GatewayHandler RoomserverClient System.

Local Open Scope Z_scope.

(** ** Local rooms *)
Definition in_local (rooms : gmap string (gset string)) (rid u : string) : Prop :=
  ∃ us, rooms !! rid = Some us ∧ u ∈ us.

Lemma in_local_insert rooms rid u rid' u' :
  in_local rooms rid' u' →
  in_local (<[rid := default ∅ (rooms !! rid) ∪ {[u]}]> rooms) rid' u'.
Proof.
  intros (us & Hr & Hu). destruct (decide (rid' = rid)) as [->|Hne].
  - eexists. rewrite lookup_insert_eq. split; [done|]. rewrite Hr. set_solver.
  - exists us. by rewrite lookup_insert_ne.
Qed.

Lemma in_local_inserted rooms rid u :
  in_local (<[rid := default ∅ (rooms !! rid) ∪ {[u]}]> rooms) rid u.
Proof. eexists. rewrite lookup_insert_eq. split; [done|]. set_solver. Qed.

Lemma in_local_remove rooms rid u rid' u' :
  in_local rooms rid' u' → u' ≠ u → in_local (remove_from_room rid u rooms) rid' u'.
Proof.
  intros (us & Hr & Hu) Hne. unfold remove_from_room.
  destruct (rooms !! rid) as [vs|] eqn:Hv; [|by exists us].
  destruct (decide (rid' = rid)) as [->|Hrid].
  - simplify_eq. rewrite decide_False.
    + eexists. rewrite lookup_insert_eq. split; [done|]. set_solver.
    + rewrite size_empty_iff. set_solver.
  - case_decide; exists us; [by rewrite lookup_delete_ne|by rewrite lookup_insert_ne].
Qed.

(** ** What a gateway sends on behalf of its users *)
Inductive UpMsg :=
  | UpJoin (u rid : string)
  | UpLeave (u rid : string)
  | UpResume (u rid : string)
  | UpDisconnect (u rid : string).

Definition up_user (m : UpMsg) : string :=
  match m with UpJoin u _ | UpLeave u _ | UpResume u _ | UpDisconnect u _ => u end.

(** The messages that take the user out of its room, or off line. *)
Definition removal (m : UpMsg) : bool :=
  match m with UpLeave _ _ | UpDisconnect _ _ => true | _ => false end.

Section client.
Context `{Msgpack RoomRequest, Msgpack StatusResponse, Msgpack LeaveResponse}.
Context `{Msgpack JoinRoomRequest, Msgpack LeaveRoomRequest, Msgpack ResumeRequest,
  Msgpack DisconnectNotify} `{O : MapOrder}.
Implicit Types (ref : CRef) (g : Gateway) (c : Connection) (u rid gw : string).

Definition up_envelope gw (m : UpMsg) : Envelope :=
  match m with
  | UpJoin u rid => join_envelope gw u rid
  | UpLeave u rid => leave_room_envelope u rid
  | UpResume u rid => mkEnvelope InternalMsgResume (Encode_ (mkResumeRequest u rid gw))
  | UpDisconnect u rid =>
    mkEnvelope InternalMsgDisconnect (Encode_ (mkDisconnectNotify u rid gw None))
  end.

Definition same_identity (c c' : Connection) : Prop :=
  c_UserID c' = c_UserID c ∧ c_closeOnce c' = c_closeOnce c ∧
  c_distributor c' = c_distributor c.

(** What a request of the client behind [ref] may do: its own connection
    changes, messages about its user are queued, the user may leave local
    rooms, but not without a removal being queued. *)
Definition client_effect ref c g g' : Prop :=
  ∃ c' rooms' (ms : list UpMsg),
    g' = queued (up_envelope (cfg_ID (g_cfg g)) <$> ms) (put ref c' (set_localRooms rooms' g)) ∧
    same_identity c c' ∧ (length ms ≤ 2)%nat ∧
    Forall (λ m, up_user m = c_UserID c) ms ∧
    (∀ rid u, in_local (localRooms g) rid u → in_local rooms' rid u ∨
       u = c_UserID c ∧ Exists removal ms).

Lemma set_localRooms_id g : set_localRooms (localRooms g) g = g.
Proof. by destruct g. Qed.

Lemma put_id ref c g : objects g !! ref = Some c → put ref c g = g.
Proof. intros Hc. unfold put. destruct g; cbn in *. by rewrite insert_id. Qed.

(** Queueing messages without leaving a room. *)
Lemma client_effect_queue ref c c' g ms :
  same_identity c c' → (length ms ≤ 2)%nat → Forall (λ m, up_user m = c_UserID c) ms →
  client_effect ref c g (queued (up_envelope (cfg_ID (g_cfg g)) <$> ms) (put ref c' g)).
Proof.
  intros Hid Hl Hu. exists c', (localRooms g), ms. rewrite set_localRooms_id.
  split_and!; [done..|]. by left.
Qed.

Lemma client_effect_put ref c c' g : same_identity c c' → client_effect ref c g (put ref c' g).
Proof.
  intros. rewrite <-(queued_nil (put ref c' g)).
  apply (client_effect_queue ref c c' g []); [done|simpl; lia|constructor].
Qed.

Lemma client_effect_refl ref c g : objects g !! ref = Some c → client_effect ref c g g.
Proof. intros Hc. rewrite <-(put_id ref c g) at 2 by done. by apply client_effect_put. Qed.

Lemma Send_same_identity data now c : same_identity c (Send data now c).2.
Proof. destruct (Send_frame data now c) as (? & _ & _ & ? & ? & _). by split_and!. Qed.

Lemma client_effect_send ref data g c :
  objects g !! ref = Some c →
  ∃ g', (send_c ref data;; mret tt) g = Done (tt, g') ∧ client_effect ref c g g'.
Proof.
  intros Hc. unfold mbind, G_bind. rewrite (send_c_run ref data g c) by done.
  eexists. split; [done|]. apply client_effect_put, Send_same_identity.
Qed.

Lemma handleJoinRoom_effect ref frame g c :
  g_status g = StatusNormal → objects g !! ref = Some c →
  ∃ g', handleJoinRoom ref frame g = Done (tt, g') ∧ client_effect ref c g g'.
Proof.
  intros Hst Hc. destruct (Decode (A := RoomRequest) (f_Payload frame)) as [req|] eqn:Hd.
  - erewrite handleJoinRoom_run by done. eexists. split; [done|].
    apply (client_effect_queue ref c (set_c_join JoinStatePending (rq_RoomID req) c) g
      [UpJoin (c_UserID c) (rq_RoomID req)]); [done|simpl; lia|by repeat constructor].
  - unfold handleJoinRoom. rewrite Hd. by apply client_effect_send.
Qed.

Lemma handleResume_run ref frame req g c :
  Decode (f_Payload frame) = Some req → objects g !! ref = Some c →
  handleResume ref frame g =
    Done (tt, queued [up_envelope (cfg_ID (g_cfg g)) (UpResume (c_UserID c) (rq_RoomID req))]
      (put ref (set_c_join JoinStatePending (rq_RoomID req) c) g)).
Proof.
  intros Hd Hc. unfold handleResume. rewrite Hd. unfold mbind, G_bind.
  rewrite (update_c_run _ _ _ c) by done. cbn beta iota.
  by erewrite get_c_run by (cbn; apply lookup_insert_eq).
Qed.

Lemma handleResume_effect ref frame g c :
  objects g !! ref = Some c →
  ∃ g', handleResume ref frame g = Done (tt, g') ∧ client_effect ref c g g'.
Proof.
  intros Hc. destruct (Decode (A := RoomRequest) (f_Payload frame)) as [req|] eqn:Hd.
  - rewrite (handleResume_run ref frame req g c) by done. eexists. split; [done|].
    apply (client_effect_queue ref c (set_c_join JoinStatePending (rq_RoomID req) c) g
      [UpResume (c_UserID c) (rq_RoomID req)]); [done|simpl; lia|by repeat constructor].
  - unfold handleResume. rewrite Hd. eexists. split; [done|]. by apply client_effect_refl.
Qed.

Lemma handleLeaveRoom_effect ref frame g c :
  g_status g = StatusNormal → held g = [] → objects g !! ref = Some c →
  ∃ g', handleLeaveRoom ref frame g = Done (tt, g') ∧ client_effect ref c g g'.
Proof.
  intros Hst Hh Hc. unfold handleLeaveRoom. destruct (Decode (A := RoomRequest) (f_Payload frame)) as [req|].
  2: { eexists. split; [done|]. by apply client_effect_refl. }
  set (rooms' := remove_from_room (rq_RoomID req) (c_UserID c) (localRooms g)).
  unfold mbind, G_bind. rewrite (get_c_run _ _ c) by done. cbn beta iota.
  rewrite RemoveUserFromRoom_run by (by apply no_locks_free). cbn beta iota.
  rewrite (update_c_run _ _ _ c) by done. cbn beta iota.
  unfold GetStatus, gets. cbn. rewrite Hst, decide_False by done.
  eexists. split; [done|].
  exists (set_c_join JoinStateInit "" c), rooms', [UpLeave (c_UserID c) (rq_RoomID req)].
  split_and!; [done..|simpl; lia|by repeat constructor|].
  intros rid u Hl. destruct (decide (u = c_UserID c)) as [->|Hne].
  - right. split; [done|]. by constructor.
  - left. by apply in_local_remove.
Qed.

Lemma handleHeartbeat_effect ref frame g c :
  held g = [] → objects g !! ref = Some c →
  ∃ g', handleHeartbeat ref frame g = Done (tt, g') ∧ client_effect ref c g g'.
Proof.
  intros Hh Hc. destruct (Decode (A := RoomRequest) (f_Payload frame)) as [req|] eqn:Hd.
  2: { unfold handleHeartbeat. rewrite Hd. by apply client_effect_send. }
  destruct (decide (rq_RoomID req = ""%string)) as [He|Hne].
  { unfold handleHeartbeat. rewrite Hd, decide_False by naive_solver.
    unfold mbind at 1, G_bind at 1, mret, G_ret. by apply client_effect_send. }
  rewrite (handleHeartbeat_run ref frame req g c) by done. eexists. split; [done|].
  set (cur := local_room_of _ _). set (rid := rq_RoomID req). set (u := c_UserID c).
  case_decide.
  { apply client_effect_put, Send_same_identity. }
  set (ms := (if decide (cur = ""%string) then [] else [UpLeave u cur]) ++ [UpJoin u rid]).
  replace (_ ++ [join_envelope _ _ _]) with (up_envelope (cfg_ID (g_cfg g)) <$> ms)
    by (unfold ms; case_decide; done).
  apply client_effect_queue.
  - apply (Send_same_identity _ _ (set_c_join JoinStatePending rid c)).
  - unfold ms. case_decide; simpl; lia.
  - unfold ms. case_decide; by repeat constructor.
Qed.

Lemma handleBizRequest_effect kafka now_ms msgID ref frame g c :
  objects g !! ref = Some c →
  ∃ g', handleBizRequest kafka now_ms msgID ref frame g = Done (tt, g') ∧
    client_effect ref c g g'.
Proof.
  intros Hc. unfold handleBizRequest. destruct kafka as [p|]; [|by apply client_effect_send].
  destruct (kp_connected p); simpl; [|by apply client_effect_send].
  unfold mbind at 1, G_bind at 1. rewrite (get_c_run _ _ c) by done. cbn beta iota zeta.
  destruct (producer_Send _ _ _ _); [by apply client_effect_send|].
  eexists. split; [done|]. by apply client_effect_refl.
Qed.

(** A read of the client behind a registered connection. *)
Lemma readLoop_step_effect kafka now_ms msgID ref data g c :
  g_status g = StatusNormal → held g = [] → objects g !! ref = Some c →
  c_closeCh c = false →
  ∃ g', readLoop_step kafka now_ms msgID ref (Some data) g = Done (true, g') ∧
    client_effect ref c g g'.
Proof.
  intros Hst Hh Hc Hcl. unfold readLoop_step, mbind, G_bind.
  rewrite (get_c_run _ _ c) by done. rewrite Hcl.
  assert (∃ g', handleMessage kafka now_ms msgID ref data g = Done (tt, g') ∧
    client_effect ref c g g') as (g' & -> & ?); [|by eexists].
  destruct (DecodeFrame_returns data) as [res Hres].
  unfold handleMessage, mbind at 1, G_bind at 1. rewrite (lift_run _ _ _ Hres). cbn beta iota.
  destruct res as [frame|].
  2: { eexists. split; [done|]. by apply client_effect_refl. }
  cbv zeta. repeat case_match;
    eauto using handleJoinRoom_effect, handleLeaveRoom_effect, handleResume_effect,
      handleHeartbeat_effect, handleBizRequest_effect.
  eexists. split; [done|]. by apply client_effect_refl.
Qed.
End client.

(** ** The end of a connection *)
Section closing.
Context `{Msgpack JoinRoomRequest, Msgpack LeaveRoomRequest, Msgpack ResumeRequest,
  Msgpack DisconnectNotify} `{O : MapOrder}.
Implicit Types (ref : CRef) (g : Gateway) (c : Connection).

(** How a connection ends in normal mode. *)
Lemma close_fields ref c g :
  g_status g = StatusNormal →
  g_cfg (closed ref c g) = g_cfg g ∧ g_status (closed ref c g) = StatusNormal ∧
  if decide (c_RoomID c ≠ ""%string ∧ c_JoinState c = JoinStateConfirmed)
  then localRooms (closed ref c g) =
         remove_from_room (c_RoomID c) (c_UserID c) (localRooms g) ∧
       rs_sendCh (closed ref c g) = queue_all
         [up_envelope (cfg_ID (g_cfg g)) (UpDisconnect (c_UserID c) (c_RoomID c))] (rs_sendCh g)
  else localRooms (closed ref c g) = localRooms g ∧ rs_sendCh (closed ref c g) = rs_sendCh g.
Proof.
  intros Hst. unfold closed. case_decide; [|by split_and!].
  unfold notified. cbn. rewrite Hst. cbn. by split_and!.
Qed.

Lemma close_unconfirmed ref c reason g :
  gw_wf g → held g = [] → g_status g = StatusNormal → objects g !! ref = Some c →
  connections g !! c_UserID c = Some ref → c_JoinState c ≠ JoinStateConfirmed →
  ∃ g', Close ref reason g = Done (tt, g') ∧
    connections g' = delete (c_UserID c) (connections g) ∧ rs_sendCh g' = rs_sendCh g.
Proof.
  intros Hwf Hh Hst Hc Hreg Hj. exists (closed ref c g).
  destruct (proj1 Hwf _ _ Hreg) as (c0 & i & d & Hc0 & _ & Honce & _).
  assert (c0 = c) as -> by congruence. split.
  { apply Close_run; [done|done|by apply gw_wf_exist|intros; by apply no_locks_free..]. }
  destruct (closed_fields ref c g) as (Hcs & _). split; [done|].
  destruct (close_fields ref c g Hst) as (_ & _ & Hcase).
  rewrite decide_False in Hcase by (intros [_ ?]; congruence). by destruct Hcase.
Qed.
End closing.

(** ** What the roomserver sends to a gateway *)
Inductive DownMsg :=
  | DownAck (ack : JoinRoomAck)
  | DownBroadcast (msg : BroadcastMessage)
  | DownUnicast (msg : UnicastMessage)
  | DownMulticast (msg : MulticastMessage)
  | DownClose (msg : RoomCloseNotify).

Section deliveries.
Context `{Msgpack RoomRequest, Msgpack StatusResponse, Msgpack LeaveResponse,
  Msgpack CloseNotice}.
Context `{Msgpack LeaveRoomRequest, Msgpack DisconnectNotify}.
Context `{MsgpackLaws JoinRoomAck, MsgpackLaws BroadcastMessage, MsgpackLaws UnicastMessage,
  MsgpackLaws MulticastMessage, Msgpack EpochNotify, MsgpackLaws RoomCloseNotify}.
Context `{O : MapOrder}.
Implicit Types (ref : CRef) (g : Gateway) (c : Connection) (u rid gw : string).

Definition down_envelope (m : DownMsg) : Envelope :=
  match m with
  | DownAck ack => mkEnvelope InternalMsgJoinRoomAck (Encode_ ack)
  | DownBroadcast msg => mkEnvelope InternalMsgBroadcast (Encode_ msg)
  | DownUnicast msg => mkEnvelope InternalMsgUnicast (Encode_ msg)
  | DownMulticast msg => mkEnvelope InternalMsgMulticast (Encode_ msg)
  | DownClose msg => mkEnvelope InternalMsgRoomClose (Encode_ msg)
  end.

(** The message confirms the user in the room. *)
Definition confirms u rid (m : DownMsg) : bool :=
  match m with
  | DownAck ack => jra_Success ack && bool_decide (jra_UserID ack = u ∧ jra_RoomID ack = rid)
  | _ => false
  end.

(** The message closes the room. *)
Definition clears rid (m : DownMsg) : bool :=
  match m with DownClose msg => bool_decide (rcn_RoomID msg = rid) | _ => false end.

(** What the delivery of a message may do: connections change, but not
    which ones there are; users enter local rooms, and leave a room only
    when it is closed. *)
Definition delivery_effect (m : DownMsg) g g' : Prop :=
  ∃ objs rooms', g' = set_objects objs (set_localRooms rooms' g) ∧ gw_wf g' ∧
    (∀ rid u, in_local (localRooms g) rid u → clears rid m = false → in_local rooms' rid u) ∧
    (∀ rid u, confirms u rid m → is_Some (connections g !! u) → in_local rooms' rid u).

Lemma delivery_effect_objects m g g' :
  (∀ rid u, confirms u rid m → connections g !! u = None) →
  same_but_objects g g' → gw_wf g' → delivery_effect m g g'.
Proof.
  intros Hno [objs ->] Hwf. exists objs, (localRooms g).
  rewrite set_localRooms_id. split_and!; [done..|]. intros rid u Hc [? Hs].
  by rewrite (Hno _ _ Hc) in Hs.
Qed.

Lemma touch_wf u data g : gw_wf g → gw_wf (touch u (λ c, (Send data (clock g) c).2) g).
Proof.
  intros Hwf. eapply touched_wf; [apply Send_keeps_identity|done|]. by apply touched_one.
Qed.

Lemma touch_same u f g : same_but_objects g (touch u f g).
Proof.
  unfold touch. case_match; [destruct p; by eexists|]. exists (objects g). by destruct g.
Qed.

Lemma same_but_objects_trans g1 g2 g3 :
  same_but_objects g1 g2 → same_but_objects g2 g3 → same_but_objects g1 g3.
Proof. intros [o1 ->] [o2 ->]. by exists o2. Qed.

(** A push to any list of users, repetitions included. *)
Lemma for_each_push_frame data us g :
  gw_wf g → held g = [] →
  ∃ g', for_each (push_to data) us g = Done (tt, g') ∧ same_but_objects g g' ∧ gw_wf g'.
Proof.
  revert g. induction us as [|u us IH]; intros g Hwf Hh.
  { exists g. split_and!; [done| |done]. exists (objects g). by destruct g. }
  cbn [for_each]. unfold mbind, G_bind. rewrite push_to_run by done.
  set (g1 := touch _ _ g). pose proof (touch_same u (λ c, (Send data (clock g) c).2) g) as Hs.
  destruct (IH g1) as (g' & Hg' & Hs' & Hwf').
  - by apply touch_wf.
  - destruct Hs as [? Hs]. unfold g1. by rewrite Hs.
  - exists g'. split; [exact Hg'|]. split; [|done]. by eapply same_but_objects_trans.
Qed.

Lemma OnJoinRoomAck_failure u rid code msg ref g c :
  held g = [] → connections g !! u = Some ref → objects g !! ref = Some c →
  OnJoinRoomAck u rid false code msg g =
    Done (tt, put ref (Send (join_response false code msg) (clock g)
                (set_c_join JoinStateInit "" c)).2 g).
Proof.
  intros Hh Hu Hc. unfold OnJoinRoomAck, mbind, G_bind. rewrite GetConnection_run by done.
  rewrite Hu. cbn beta iota. rewrite (update_c_run _ _ _ c) by done. cbn beta iota.
  unfold sendJoinRoomResp, mbind, G_bind.
  erewrite send_c_run by (cbn; apply lookup_insert_eq). cbn beta iota.
  unfold mret, G_ret, put. cbn. by rewrite insert_insert_eq.
Qed.

(** The connection of an acknowledged user may change its join state. *)
Lemma gw_wf_ack g ref c js rid data rooms :
  gw_wf g → objects g !! ref = Some c →
  gw_wf (put ref (Send data (clock g) (set_c_join js rid c)).2 (set_localRooms rooms g)).
Proof.
  intros Hwf Hc. destruct (Send_same_identity data (clock g) (set_c_join js rid c))
    as (Hu & Hcl & Hd).
  apply (gw_wf_same (set_objects (<[ref := (Send data (clock g) (set_c_join js rid c)).2]>
    (objects g)) g)); [done..|]. by eapply gw_wf_put.
Qed.

Lemma gateway_refusal u rid code msg ref c g :
  gw_wf g → held g = [] → connections g !! u = Some ref → objects g !! ref = Some c →
  ∃ c', handleEnvelope (down_envelope (DownAck (mkJoinRoomAck u rid false code msg))) g =
      Done (false, put ref c' g) ∧
    c_UserID c' = c_UserID c ∧ c_JoinState c' = JoinStateInit ∧ gw_wf (put ref c' g).
Proof.
  intros Hwf Hh Hu Hc. eexists. split.
  { unfold handleEnvelope. cbn [env_MsgType env_Payload down_envelope].
    rewrite Z.eqb_refl. unfold handleJoinRoomAck, mbind, G_bind. rewrite Decode_Encode_.
    cbn [jra_UserID jra_RoomID jra_Success jra_Code jra_Message].
    by rewrite (OnJoinRoomAck_failure u rid code msg ref g c). }
  destruct (Send_frame (join_response false code msg) (clock g) (set_c_join JoinStateInit "" c))
    as (-> & -> & _). split_and!; [done..|].
  pose proof (gw_wf_ack g ref c JoinStateInit "" (join_response false code msg)
    (localRooms g) Hwf Hc) as Hput. by rewrite set_localRooms_id in Hput.
Qed.

Lemma OnJoinRoomAck_effect ack g :
  gw_wf g → held g = [] →
  ∃ g', OnJoinRoomAck (jra_UserID ack) (jra_RoomID ack) (jra_Success ack) (jra_Code ack)
      (jra_Message ack) g = Done (tt, g') ∧ delivery_effect (DownAck ack) g g'.
Proof.
  intros Hwf Hh. destruct ack as [u rid ok code msg]; cbn.
  destruct (connections g !! u) as [ref|] eqn:Hu.
  2: { unfold OnJoinRoomAck, mbind, G_bind. rewrite GetConnection_run, Hu by done.
       eexists. split; [done|]. apply delivery_effect_objects; [|by eexists (objects g); destruct g|done].
       intros rid' u' Hc. cbn in Hc. apply andb_True in Hc as [_ Hc%bool_decide_unpack].
       by destruct Hc as [<- _]. }
  destruct (proj1 Hwf u ref Hu) as (c & i & d & Hc & _).
  destruct ok.
  - rewrite (OnJoinRoomAck_success u rid code msg ref g c) by done.
    eexists. split; [done|]. eexists _, _. split; [done|].
    split; [by apply gw_wf_ack|]. split; [intros; by apply in_local_insert|].
    intros rid' u' Hconf _. cbn in Hconf. apply bool_decide_unpack in Hconf as [<- <-].
    apply in_local_inserted.
  - rewrite (OnJoinRoomAck_failure u rid code msg ref g c) by done.
    eexists. split; [done|]. apply delivery_effect_objects; [by intros ??| |].
    + by eexists.
    + pose proof (gw_wf_ack g ref c JoinStateInit "" (join_response false code msg)
        (localRooms g) Hwf Hc) as Hput. by rewrite set_localRooms_id in Hput.
Qed.

(** The members of a closed room get a notice. *)
Definition close_member (data : list byte) (userID : string) : G unit :=
  conn ← GetConnection userID;
  match conn with
  | None => mret tt
  | Some ref => update_c ref (set_c_join JoinStateInit "");; send_c ref data;; mret tt
  end.

Lemma for_each_close data us g :
  gw_wf g → held g = [] →
  ∃ g', for_each (close_member data) us g = Done (tt, g') ∧ same_but_objects g g' ∧ gw_wf g'.
Proof.
  revert g. induction us as [|u us IH]; intros g Hwf Hh.
  { exists g. split_and!; [done| |done]. exists (objects g). by destruct g. }
  assert (∃ g1, close_member data u g = Done (tt, g1) ∧ same_but_objects g g1 ∧ gw_wf g1)
    as (g1 & Hg1 & Hs & Hwf1).
  { unfold close_member, mbind, G_bind. rewrite GetConnection_run by done.
    destruct (connections g !! u) as [ref|] eqn:Hu; cbn beta iota.
    2: { exists g. split_and!; [done| |done]. exists (objects g). by destruct g. }
    destruct (proj1 Hwf u ref Hu) as (c & i & d & Hc & _).
    rewrite (update_c_run _ _ _ c) by done. cbn beta iota.
    erewrite send_c_run by (cbn; apply lookup_insert_eq). cbn beta iota.
    eexists. split; [done|]. cbn. split; [by eexists|].
    pose proof (gw_wf_ack g ref c JoinStateInit "" data (localRooms g) Hwf Hc) as Hput.
    rewrite set_localRooms_id in Hput. unfold put in Hput. by rewrite insert_insert_eq. }
  destruct (IH g1) as (g' & Hg' & Hs' & Hwf'); [done|by destruct Hs as [? ->]|].
  exists g'. cbn [for_each]. unfold mbind, G_bind. rewrite Hg1. split; [exact Hg'|].
  split; [|done]. by eapply same_but_objects_trans.
Qed.

Lemma handleRoomClose_effect msg g :
  gw_wf g → held g = [] →
  ∃ g', handleRoomClose (Encode_ msg) g = Done (tt, g') ∧ delivery_effect (DownClose msg) g g'.
Proof.
  intros Hwf Hh. set (rid := rcn_RoomID msg). set (rooms' := delete rid (localRooms g)).
  assert (∃ us, ClearRoom rid g = Done (us, set_localRooms rooms' g)) as [us Hclear].
  { assert (free LocalRoomsMu g) as Hf by by apply no_locks_free.
    eexists. unfold ClearRoom. by run_locks. }
  assert (gw_wf (set_localRooms rooms' g)) as Hwf0 by by apply (gw_wf_same g).
  unfold handleRoomClose. rewrite Decode_Encode_. unfold mbind at 1, G_bind at 1. fold rid.
  rewrite Hclear. cbn beta iota zeta.
  destruct (for_each_close (EncodeFrame (mkFrame MsgTypePushMessage 0
    (Encode_ (mkCloseNotice rid (rcn_Reason msg))))) us (set_localRooms rooms' g))
    as (g' & Hg' & [objs Hs] & Hwf'); [done..|].
  exists g'. split; [exact Hg'|]. exists objs, rooms'. split_and!; [done..| |by intros ??].
  intros rid' u (vs & Hvs & Hu) Hne%bool_decide_eq_false. exists vs.
  unfold rooms'. by rewrite lookup_delete_ne.
Qed.

Lemma handleEnvelope_effect m g :
  gw_wf g → held g = [] →
  ∃ g', handleEnvelope (down_envelope m) g = Done (false, g') ∧ delivery_effect m g g'.
Proof.
  intros Hwf Hh. destruct m as [ack|msg|msg|msg|msg].
  - destruct (OnJoinRoomAck_effect ack g Hwf Hh) as (g' & Hg' & He). exists g'.
    split; [|done]. unfold handleEnvelope. cbn [env_MsgType env_Payload down_envelope].
    rewrite Z.eqb_refl. unfold handleJoinRoomAck, mbind, G_bind. by rewrite Decode_Encode_, Hg'.
  - destruct (handleBroadcast_run (Encode_ msg) msg g Hwf Hh (Decode_Encode_ msg))
      as (g' & Hg' & Hp). exists g'. split.
    + unfold handleEnvelope. cbn. unfold mbind, G_bind. by rewrite Hg'.
    + apply delivery_effect_objects; [done|apply Hp|by eapply pushed_wf].
  - eexists. split.
    + unfold handleEnvelope, handleUnicast. cbn. rewrite Decode_Encode_.
      unfold mbind, G_bind. by rewrite push_to_run.
    + apply delivery_effect_objects; [done|apply touch_same|by apply touch_wf].
  - destruct (for_each_push_frame (EncodeFrame (mkFrame MsgTypePushMessage 0 (mm_Payload msg)))
      (mm_UserIDs msg) g Hwf Hh) as (g' & Hg' & Hs & Hwf'). exists g'. split.
    + unfold handleEnvelope, handleMulticast. cbn. rewrite Decode_Encode_.
      unfold mbind, G_bind. by rewrite Hg'.
    + by apply delivery_effect_objects.
  - destruct (handleRoomClose_effect msg g Hwf Hh) as (g' & Hg' & He). exists g'.
    split; [|done]. unfold handleEnvelope. cbn. unfold mbind, G_bind. by rewrite Hg'.
Qed.

(** The user will be in the local room once the messages have arrived, if
    [P] says whether it is there now. *)
Fixpoint arrives rid u (ds : list DownMsg) (P : Prop) : Prop :=
  match ds with
  | [] => P
  | d :: ds => arrives rid u ds (confirms u rid d ∨ P ∧ clears rid d = false)
  end.

Lemma arrives_impl rid u ds (P Q : Prop) : (P → Q) → arrives rid u ds P → arrives rid u ds Q.
Proof.
  revert P Q. induction ds as [|d ds IH]; intros P Q Hpq; cbn; [done|]. apply IH. tauto.
Qed.

Lemma arrives_app rid u ds ds' P : arrives rid u (ds ++ ds') P = arrives rid u ds' (arrives rid u ds P).
Proof. revert P. induction ds as [|d ds IH]; intros P; cbn; [done|]. by rewrite IH. Qed.

Lemma arrives_stay rid u ds (P : Prop) :
  Forall (λ d, clears rid d = false) ds → P → arrives rid u ds P.
Proof.
  intros Hds. revert P. induction Hds as [|d ds Hd Hds IH]; intros P HP; cbn; [done|].
  apply IH. by right.
Qed.
End deliveries.

(** ** Sessions backed by members
    The part of coherence that survives every operation but the closing of
    a room: the room of a session has the user as a member, on the same
    gateway.  The users of a set [S] are left out. *)
Section backed.
Context {SS : Type} `{SessionStoreLaws SS}.
Context (S : gset string).
Implicit Types (s : Server SS) (u rid gw : string) (σ : gmap string Presence).

Definition backed s : Prop :=
  ∀ u p, u ∉ S → presence s !! u = Some p →
    ∃ m, member (roomSvc s) (p_room p) u = Some m ∧ rm_GatewayID m = p_gateway p.

(** The two say the same about everybody else. *)
Definition same_off σ σ' : Prop := ∀ u, u ∉ S → σ !! u = σ' !! u.

Definition keeps_rooms (op : CtlOp) : Prop := match op with CtlClose _ => False | _ => True end.

Lemma same_off_refl σ : same_off σ σ.
Proof. by intros ??. Qed.

Lemma same_off_trans σ1 σ2 σ3 : same_off σ1 σ2 → same_off σ2 σ3 → same_off σ1 σ3.
Proof. intros H1 H2 u Hu. by rewrite H1, H2. Qed.

Lemma spec_ctl_off σ σ' op : same_off σ σ' → same_off (spec_ctl σ op) (spec_ctl σ' op).
Proof.
  intros Hoff u Hu. specialize (Hoff u Hu).
  destruct op as [v r g now|v r|v r g now|v r now|ord tmo now|r]; cbn; [..|done].
  - destruct (decide (u = v)) as [->|]; [by rewrite !lookup_insert_eq|by rewrite !lookup_insert_ne].
  - destruct (decide (u = v)) as [->|]; [by rewrite !lookup_delete_eq|by rewrite !lookup_delete_ne].
  - destruct (decide (u = v)) as [->|Hne].
    + rewrite Hoff. destruct (σ' !! v) eqn:Hv; [|congruence]. case_decide; [|congruence].
      by rewrite !lookup_insert_eq.
    + destruct (σ !! v), (σ' !! v); repeat case_decide; rewrite ?lookup_insert_ne by done; done.
  - destruct (decide (u = v)) as [->|].
    + by rewrite !lookup_alter_eq, Hoff.
    + by rewrite !lookup_alter_ne.
  - by rewrite !map_lookup_filter, Hoff.
Qed.

Lemma spec_ctls_off σ σ' ops :
  same_off σ σ' → same_off (foldl spec_ctl σ ops) (foldl spec_ctl σ' ops).
Proof.
  revert σ σ'. induction ops as [|op ops IH]; intros σ σ' Hoff; cbn; [done|].
  by apply IH, spec_ctl_off.
Qed.

Lemma backed_Join u rid g now s :
  server_wf s → backed s → backed (JoinRoom u rid g now s).2.
Proof.
  intros Hwf Hb v p HvS. rewrite (proj2 (presence_JoinRoom u rid g now s (proj1 Hwf))).
  rewrite member_JoinRoom. intros [[<- <-]|[Hv Hp]]%lookup_insert_Some.
  - cbn. rewrite decide_True, decide_True by done. by eexists.
  - rewrite decide_False by done. by apply Hb.
Qed.

Lemma backed_Leave u rid s : server_wf s → backed s → backed (LeaveRoom u rid s).
Proof.
  intros Hwf Hb v p HvS. rewrite (proj2 (presence_LeaveRoom u rid s (proj1 Hwf))).
  intros [Hv Hp]%lookup_delete_Some. cbn. rewrite member_RemoveUser, decide_False by naive_solver.
  by apply Hb.
Qed.

Lemma backed_Disconnect u rid now s :
  server_wf s → backed s → backed (UserDisconnect u rid now s).
Proof.
  intros Hwf Hb v p HvS. rewrite (proj2 (presence_UserDisconnect u rid now s (proj1 Hwf))).
  cbn. rewrite member_SetUserDisconnected. intros Hp.
  assert (∃ p0, presence s !! v = Some p0 ∧ p_room p0 = p_room p ∧ p_gateway p0 = p_gateway p)
    as (p0 & Hp0 & Hr & Hg).
  { destruct (decide (v = u)) as [->|Hne].
    - rewrite lookup_alter_eq in Hp. apply fmap_Some in Hp as (p0 & Hp0 & ->). eauto.
    - rewrite lookup_alter_ne in Hp by done. eauto. }
  destruct (Hb v p0 HvS Hp0) as (m & Hm & Hmg). rewrite Hr in Hm.
  case_decide as Hd; [destruct Hd as [Hd1 Hd2]; rewrite Hd1, Hd2 in Hm|]; rewrite Hm;
    eexists; (split; [done|]); cbn; congruence.
Qed.

Lemma backed_Resume u rid g now s :
  server_wf s → backed s →
  backed (Resume u rid g now s).2 ∧
  same_off (presence (Resume u rid g now s).2) (spec_ctl (presence s) (CtlResume u rid g now)).
Proof.
  intros Hwf Hb. pose proof (Resume_cases u rid g now s (proj1 Hwf)) as Hr. cbn.
  destruct (presence s !! u) as [p|] eqn:Hpu; [|by rewrite Hr].
  destruct (decide (p_room p = rid)) as [Hpr|Hpr].
  2: { rewrite decide_True in Hr by done. by rewrite Hr. }
  rewrite decide_False in Hr by naive_solver.
  destruct (decide (rooms (roomSvc s) !! rid = None)) as [Hn|_].
  { rewrite Hr. split; [done|]. intros v HvS. cbn. rewrite lookup_insert_ne; [done|].
    intros <-. destruct (Hb u p HvS Hpu) as (m & Hm & _).
    unfold member in Hm. by rewrite Hpr, Hn in Hm. }
  destruct Hr as (s' & -> & _ & Hrs & Hp'). cbn. split; [|by rewrite Hp'].
  intros v p' HvS. rewrite Hp', Hrs, member_UpdateUserGateway.
  intros [[<- <-]|[Hv Hp]]%lookup_insert_Some.
  - destruct (Hb u p HvS Hpu) as (m & Hm & _). rewrite Hpr in Hm.
    cbn. rewrite decide_True, Hm by done. by eexists.
  - rewrite decide_False by naive_solver. by apply Hb.
Qed.

Lemma backed_Tick `{O : MapOrder} tmo now s :
  server_wf s → backed s → backed (checkDisconnectTimeout tmo now s).
Proof.
  intros Hwf Hb v p HvS. destruct (checkDisconnectTimeout_spec tmo now s Hwf) as (_ & Hp & Hm).
  rewrite Hp, Hm. intros [Hv Hx]%map_lookup_filter_Some. rewrite Hv, decide_False by naive_solver.
  by apply Hb.
Qed.

(** A room is closed whose users do not count. *)
Lemma backed_Close rid s :
  (∀ u p, presence s !! u = Some p → p_room p = rid → u ∈ S) →
  backed s → backed (CloseRoomOf rid s).
Proof.
  intros HS Hb v p HvS Hp. cbn. rewrite member_CloseRoom.
  rewrite decide_False by (intros ?; by eapply HvS, HS). by apply Hb.
Qed.

Lemma backed_step s op :
  keeps_rooms op → server_wf s → backed s →
  server_wf (run_ctl s op) ∧ backed (run_ctl s op) ∧
  same_off (presence (run_ctl s op)) (spec_ctl (presence s) op).
Proof.
  intros Hop Hwf Hb. destruct op as [u rid g now|u rid|u rid g now|u rid now|ord tmo now|rid];
    cbn [run_ctl]; try done.
  - split_and!; [by apply JoinRoom_wf|by apply backed_Join|].
    intros v _. by rewrite (proj2 (presence_JoinRoom u rid g now s (proj1 Hwf))).
  - split_and!; [by apply LeaveRoom_wf|by apply backed_Leave|].
    intros v _. by rewrite (proj2 (presence_LeaveRoom u rid s (proj1 Hwf))).
  - pose proof (backed_Resume u rid g now s Hwf Hb) as (? & ?).
    split_and!; [by apply Resume_wf|done..].
  - split_and!; [by apply UserDisconnect_wf|by apply backed_Disconnect|].
    intros v _. by rewrite (proj2 (presence_UserDisconnect u rid now s (proj1 Hwf))).
  - destruct (checkDisconnectTimeout_spec (O := ord) tmo now s Hwf) as (? & Hp & _).
    split_and!; [done|by apply backed_Tick|]. intros v _. by rewrite Hp.
Qed.

Lemma backed_steps s ops :
  Forall keeps_rooms ops → server_wf s → backed s →
  server_wf (foldl run_ctl s ops) ∧ backed (foldl run_ctl s ops) ∧
  same_off (presence (foldl run_ctl s ops)) (foldl spec_ctl (presence s) ops).
Proof.
  revert s. induction ops as [|op ops IH]; intros s Hops Hwf Hb; [by split_and!|].
  apply Forall_cons in Hops as [Hop Hops].
  destruct (backed_step s op Hop Hwf Hb) as (Hwf' & Hb' & Hp').
  destruct (IH (run_ctl s op) Hops Hwf' Hb') as (? & ? & Hoff). cbn [foldl].
  split_and!; [done..|]. eapply same_off_trans; [done|by apply spec_ctls_off].
Qed.

Lemma backed_same s s' :
  roomSvc s' = roomSvc s → sessionSvc s' = sessionSvc s →
  server_wf s ∧ backed s → server_wf s' ∧ backed s' ∧ presence s' = presence s.
Proof.
  intros Hr Hs. unfold backed, presence, server_wf. rewrite Hr, Hs. intuition.
Qed.

(** The user is on line in the room, on that gateway. *)
Definition present gw σ u rid : Prop :=
  ∃ p, σ !! u = Some p ∧ p_status p = MemberStatusOnline ∧ p_gateway p = gw ∧ p_room p = rid.

Lemma present_off gw σ σ' u rid :
  same_off σ σ' → u ∉ S → present gw σ u rid → present gw σ' u rid.
Proof. intros Hoff Hu (p & Hp & Hrest). exists p. by rewrite <-(Hoff u Hu). Qed.

(** An operation that does not bring a user to gateway [gw]. *)
Definition foreign gw (op : CtlOp) : Prop :=
  match op with
  | CtlJoin _ _ g _ | CtlResume _ _ g _ => g ≠ gw
  | CtlClose _ => False
  | _ => True
  end.

Lemma present_foreign gw σ op u rid :
  foreign gw op → present gw (spec_ctl σ op) u rid → present gw σ u rid.
Proof.
  intros Hf (p & Hp & Hst & Hg & Hr).
  destruct op as [v r g now|v r|v r g now|v r now|ord tmo now|r]; cbn in *.
  - apply lookup_insert_Some in Hp as [[-> <-]|[_ Hp]]; [done|by exists p].
  - apply lookup_delete_Some in Hp as [_ Hp]. by exists p.
  - destruct (σ !! v) as [q|] eqn:Hq; [|by exists p]. case_decide; [|by exists p].
    apply lookup_insert_Some in Hp as [[-> <-]|[_ Hp]]; [done|by exists p].
  - destruct (decide (u = v)) as [->|Hne].
    + rewrite lookup_alter_eq in Hp. by apply fmap_Some in Hp as (q & _ & ->).
    + rewrite lookup_alter_ne in Hp by done. by exists p.
  - apply map_lookup_filter_Some in Hp as [Hp _]. by exists p.
  - by exists p.
Qed.

Lemma present_foreigns gw σ ops u rid :
  Forall (foreign gw) ops → present gw (foldl spec_ctl σ ops) u rid → present gw σ u rid.
Proof.
  revert σ. induction ops as [|op ops IH]; intros σ Hops; [done|].
  apply Forall_cons in Hops as [Hop Hops]. cbn [foldl]. intros Hp.
  eapply present_foreign; [done|by apply IH].
Qed.
End backed.

Lemma backed_mono {SS} `{SessionStoreLaws SS} (S S' : gset string) (s : Server SS) :
  S ⊆ S' → backed S s → backed S' s.
Proof. intros HS Hb u p Hu. apply Hb. set_solver. Qed.

(** ** The roomserver's steps, seen from one of its streams *)
Section roomserver.
Context {SS : Type} `{SessionStoreLaws SS}.
Context `{Msgpack GatewayInfo, MsgpackLaws JoinRoomRequest, MsgpackLaws LeaveRoomRequest,
  MsgpackLaws ResumeRequest, MsgpackLaws DisconnectNotify, Msgpack BatchReSync,
  Msgpack ReSyncComplete, Msgpack EpochNotify}.
Context `{Msgpack JoinRoomAck, Msgpack BroadcastMessage, Msgpack UnicastMessage,
  Msgpack MulticastMessage, Msgpack RoomCloseNotify}.
Context `{JsonRequest UnicastRequest, JsonRequest MulticastRequest,
  JsonRequest RoomBroadcastRequest, JsonRequest GlobalBroadcastRequest,
  JsonRequest RoomCloseRequest}.
Context `{O : MapOrder}.
Implicit Types (s : Server SS) (conn : ConnRef) (u rid gw : string).

Definition up_op gw (m : UpMsg) (now : Z) : CtlOp :=
  match m with
  | UpJoin u rid => CtlJoin u rid gw now
  | UpLeave u rid => CtlLeave u rid
  | UpResume u rid => CtlResume u rid gw now
  | UpDisconnect u rid => CtlDisconnect u rid now
  end.

(** The acknowledgement of a message. *)
Definition up_acks gw (m : UpMsg) (now : Z) s : list DownMsg :=
  match m with
  | UpJoin u rid => [DownAck (mkJoinRoomAck u rid true ErrCodeSuccess "")]
  | UpResume u rid =>
    let code := (Resume u rid gw now s).1.1 in
    [DownAck (mkJoinRoomAck u rid (bool_decide (code = ErrCodeSuccess)) code (err_message code))]
  | _ => []
  end.

Lemma requested_up gw (m : UpMsg) now : requested (up_envelope gw m) now = [up_op gw m now].
Proof. by destruct m; unfold requested; cbn; rewrite Decode_Encode_. Qed.

Lemma answers_up gw (m : UpMsg) now s :
  answers (up_envelope gw m) now s = down_envelope <$> up_acks gw m now s.
Proof. by destruct m; unfold answers; cbn; rewrite ?Decode_Encode_. Qed.

(** A message of the gateway arrives. *)
Lemma handle_up gw conn (m : UpMsg) now s c :
  conns s !! conn = Some c → conn_ok c →
  handleGatewayMessage conn (up_envelope gw m) now s =
    Done (put_conn conn (deliver (down_envelope <$> up_acks gw m now s) c)
      (run_ctl s (up_op gw m now))).
Proof.
  intros Hc Hok. rewrite (handled conn _ now s c); [|done..|by destruct m].
  rewrite requested_up, answers_up. cbn [foldl]. do 2 f_equal.
  destruct (run_ctl_frame s (up_op gw m now)) as (_ & _ & Hrec).
  replace (reported (up_envelope gw m) (recovery s)) with (recovery (run_ctl s (up_op gw m now))).
  - apply set_recovery_id.
  - rewrite Hrec. by destruct m.
Qed.

(** After a message, a user is on line at the gateway only if it was so
    before and the message does not remove it, or if the message brought it
    there, which is then acknowledged. *)
Lemma present_up S gw (m : UpMsg) now s u rid :
  server_wf s → backed S s → u ∉ S → present gw (spec_ctl (presence s) (up_op gw m now)) u rid →
  (up_user m = u ∧ removal m = false ∧ Exists (confirms u rid) (up_acks gw m now s)) ∨
  (present gw (presence s) u rid ∧ (up_user m = u → removal m = false)).
Proof.
  intros Hwf Hb HuS (p & Hp & Hst & Hg & Hr).
  destruct m as [v r|v r|v r|v r]; cbn [up_op up_user removal] in *.
  - cbn in Hp. apply lookup_insert_Some in Hp as [[-> <-]|[Hne Hp]].
    + left. split_and!; [done..|]. constructor. cbn in *. by rewrite bool_decide_true.
    + right. split; [by exists p|done].
  - cbn in Hp. apply lookup_delete_Some in Hp as [? Hp]. right. split; [by exists p|done].
  - pose proof (Resume_cases v r gw now s (proj1 Hwf)) as Hres. cbn in Hp.
    destruct (presence s !! v) as [q|] eqn:Hq; [|right; split; [by exists p|done]].
    destruct (decide (p_room q = r)) as [Hqr|Hqr]; [|right; split; [by exists p|done]].
    apply lookup_insert_Some in Hp as [[-> <-]|[Hne Hp]]; [|right; split; [by exists p|done]].
    left. split_and!; [done..|]. constructor. cbn in *. subst rid.
    rewrite (decide_False (P := p_room q ≠ r)) in Hres by naive_solver.
    destruct (Hb u q HuS Hq) as (mem & Hm & _). rewrite Hqr in Hm.
    destruct (decide (rooms (roomSvc s) !! r = None)) as [Hn|_].
    { unfold member in Hm. by rewrite Hn in Hm. }
    destruct Hres as (s' & -> & _). cbn. by rewrite !bool_decide_true.
  - cbn in Hp. destruct (decide (u = v)) as [->|Hne].
    + rewrite lookup_alter_eq in Hp. by apply fmap_Some in Hp as (q & _ & ->).
    + rewrite lookup_alter_ne in Hp by done. right. split; [by exists p|]. intros ->. done.
Qed.

(** *** Pushes *)
Inductive PushKind := PushUnicast | PushMulticast | PushRoom | PushGlobal.

Definition handle_push (k : PushKind) (r : HttpRequest) s : outcome (HttpResponse * Server SS) :=
  match k with
  | PushUnicast => handleUnicastHTTP r s
  | PushMulticast => handleMulticastHTTP r s
  | PushRoom => handleRoomBroadcastHTTP r s
  | PushGlobal => handleGlobalBroadcastHTTP r s
  end.

Definition is_push (m : DownMsg) : Prop :=
  match m with DownAck _ | DownClose _ => False | _ => True end.

Definition closes rid (m : DownMsg) : Prop := ∃ reason, m = DownClose (mkRoomCloseNotify rid reason).

(** Rooms, sessions and tables stay; streams get such messages. *)
Definition send_effect (P : DownMsg → Prop) s s' : Prop :=
  roomSvc s' = roomSvc s ∧ sessionSvc s' = sessionSvc s ∧ gateways s' = gateways s ∧
  status s' = status s ∧
  ∀ conn, ∃ ds, Forall P ds ∧
    conns s' !! conn = deliver (down_envelope <$> ds) <$> conns s !! conn.

Definition push_effect : Server SS → Server SS → Prop := send_effect is_push.

Lemma push_effect_refl s : push_effect s s.
Proof.
  split_and!; [done..|]. intros conn. exists []. split; [constructor|].
  destruct (conns s !! conn); [|done]. cbn. by rewrite deliver_nil.
Qed.

Lemma send_each_sends (P : DownMsg → Prop) msgs s :
  conns_wf s → gateways_exist s →
  (∀ i e, (i, e) ∈ msgs → ∃ d, P d ∧ e = down_envelope d) →
  ∃ s', send_each msgs s = Done s' ∧ send_effect P s s'.
Proof.
  intros Hwf Hex Hms. rewrite send_each_spec by done. eexists. split; [done|].
  split_and!; [done..|]. intros conn.
  assert (∃ ds, Forall P ds ∧ msgs_for (gateways s) msgs conn = down_envelope <$> ds)
    as (ds & Hds & Heq).
  { unfold msgs_for. induction msgs as [|[i e] msgs IH]; [by exists []|].
    destruct IH as (ds & Hds & Heq); [intros; eapply Hms; by right|].
    destruct (Hms i e) as (m & Hm & ->); [by left|].
    rewrite filter_cons. cbn [fst]. case_decide; [|by exists ds].
    exists (m :: ds). split; [by constructor|]. cbn. by rewrite Heq. }
  exists ds. split; [done|]. cbn. by rewrite lookup_delivered, Heq.
Qed.

Lemma handle_push_effect k r s :
  conns_wf s → gateways_exist s →
  ∃ resp s', handle_push k r s = Done (resp, s') ∧ push_effect s s'.
Proof.
  intros Hwf Hex. pose proof (push_effect_refl s) as Hrefl.
  destruct k; cbn [handle_push]; unfold handleUnicastHTTP, handleMulticastHTTP,
    handleRoomBroadcastHTTP, handleGlobalBroadcastHTTP, send_to_all, GetGatewayByID;
    (destruct (decide (hr_Method r ≠ _)); [by eexists _, s|]);
    (destruct (decide (Roomserver.GetStatus s = _)); [by eexists _, s|]);
    (destruct (decode_request (hr_Body r)) as [req|]; [|by eexists _, s]).
  - destruct (GetSession _ _) as [session|]; [|by eexists _, s].
    destruct (gateways s !! s_GatewayID session) as [gw|] eqn:Hg; [|by eexists _, s].
    destruct (send_each_sends is_push [(s_GatewayID session, mkEnvelope InternalMsgUnicast
      (Encode_ (mkUnicastMessage (ur_UserID req) (ur_Message req))))] s) as (s' & Hs' & He);
      [done..| |].
    { intros i e Hin%list_elem_of_singleton. simplify_eq. by eexists (DownUnicast _). }
    cbn in Hs'. rewrite Hg, outcome_ret_bind in Hs'. rewrite Hs'. by eexists _, s'.
  - edestruct (send_each_sends is_push) as (s' & -> & He); [done..| |by eexists _, s'].
    intros i e ([i' us] & [= -> ->] & _)%list_elem_of_fmap. by eexists (DownMulticast _).
  - destruct (GetRoom _ _); [|by eexists _, s]. cbv zeta. case_decide; [by eexists _, s|].
    edestruct (send_each_sends is_push) as (s' & -> & He); [done..| |by eexists _, s'].
    intros i e (i' & [= -> ->] & _)%list_elem_of_fmap. by eexists (DownBroadcast _).
  - edestruct (send_each_sends is_push) as (s' & -> & He); [done..| |by eexists _, s'].
    intros i e (i' & [= -> ->] & _)%list_elem_of_fmap. by eexists (DownBroadcast _).
Qed.

(** A room is closed: its gateways are told. *)
Lemma handleRoomCloseHTTP_effect r s :
  conns_wf s → gateways_exist s →
  ∃ resp s', handleRoomCloseHTTP r s = Done (resp, s') ∧
    (s' = s ∨ ∃ rid s1, send_effect (closes rid) s s1 ∧ s' = CloseRoomOf rid s1 ∧
       rcr_RoomID <$> decode_request (hr_Body r) = Some rid).
Proof.
  intros Hwf Hex. unfold handleRoomCloseHTTP, send_to_all.
  case_decide; [eexists _, s; split; [done|by left]|].
  destruct (decode_request (hr_Body r)) as [req|]; [|eexists _, s; split; [done|by left]].
  destruct (GetRoom _ _); [|eexists _, s; split; [done|by left]]. cbv zeta.
  edestruct (send_each_sends (closes (rcr_RoomID req))) as (s' & -> & He);
    [done..| |eexists _, _; split; [done|right; by exists (rcr_RoomID req), s']].
  intros i e (i' & [= -> ->] & _)%list_elem_of_fmap. eexists (DownClose _).
  split; [by eexists|done].
Qed.

Lemma send_effect_streams P R s s' :
  send_effect P s s' → streams_inv R s → streams_inv R s'.
Proof.
  intros (_ & _ & Hg & _ & Hc) (Hwf & Hopen & Htab). split_and!.
  - intros conn c Hcc. destruct (Hc conn) as (ds & _ & Heq). rewrite Heq in Hcc.
    apply fmap_Some in Hcc as (c0 & Hc0 & ->). by apply deliver_ok, (Hwf conn).
  - intros conn Hin. destruct (Hopen conn Hin) as (c & Hcc & Hcl).
    destruct (Hc conn) as (ds & _ & ->). rewrite Hcc. eexists. split; [done|].
    by rewrite deliver_closed.
  - intros id conn. rewrite Hg, Htab. destruct (Hc conn) as (ds & _ & ->).
    destruct (conns s !! conn); cbn; [|done]. by rewrite deliver_id.
Qed.
End roomserver.

(** ** The transition system *)
Record Net (SS : Type) := mkNet { n_gw : Gateway; n_srv : Server SS }.
Arguments mkNet {SS}.
Arguments n_gw {SS}.
Arguments n_srv {SS}.

(** The message takes the user out of its room, or off line. *)
Definition takes_out (u : string) (m : UpMsg) : Prop := up_user m = u ∧ removal m = true.

(** Every message that brings a user to the gateway is about a connected
    user, or followed by one that takes it out again. *)
Fixpoint settled (on : string → Prop) (ms : list UpMsg) : Prop :=
  match ms with
  | [] => True
  | m :: ms => (removal m = false → on (up_user m) ∨ Exists (takes_out (up_user m)) ms) ∧
               settled on ms
  end.

Lemma settled_app on ms ms' :
  settled on ms → Forall (λ m, on (up_user m)) ms' → settled on (ms ++ ms').
Proof.
  intros Hs Hms'. induction ms as [|m ms IH]; cbn in *.
  - induction Hms' as [|m ms' Hm Hms' IH]; cbn; [done|]. split; [by left|done].
  - destruct Hs as [Hm Hs]. split; [|by apply IH]. intros Hr.
    destruct (Hm Hr); [by left|right]. rewrite Exists_app. by left.
Qed.

Lemma settled_impl (on on' : string → Prop) ms :
  (∀ u, on u → on' u) → settled on ms → settled on' ms.
Proof.
  intros Hon. induction ms as [|m ms IH]; cbn; [done|]. intros [Hm Hs].
  split; [|by apply IH]. intros Hr. destruct (Hm Hr); [left|right]; eauto.
Qed.

(** A user is cut off, and said to be. *)
Lemma settled_disconnect (on on' : string → Prop) u rid ms :
  (∀ v, v ≠ u → on v → on' v) → settled on ms → settled on' (ms ++ [UpDisconnect u rid]).
Proof.
  intros Hon. induction ms as [|m ms IH]; cbn; [by intros _; split|]. intros [Hm Hs].
  split; [|by apply IH]. intros Hr. rewrite Exists_app.
  destruct (decide (up_user m = u)) as [Heq|Hne].
  - right. right. constructor. by split.
  - destruct (Hm Hr); [left; by apply Hon|right; by left].
Qed.

(** A user is cut off that nothing brings to the gateway. *)
Lemma settled_idle (on on' : string → Prop) u ms :
  (∀ v, v ≠ u → on v → on' v) →
  Forall (λ m, up_user m = u → removal m = true) ms → settled on ms → settled on' ms.
Proof.
  intros Hon Hidle. induction Hidle as [|m ms Hi Hidle IH]; cbn; [done|]. intros [Hm Hs].
  split; [|by apply IH]. intros Hr. destruct (Hm Hr) as [Ho|]; [left|by right].
  apply Hon; [|done]. intros Heq. specialize (Hi Heq). congruence.
Qed.

Lemma queue_all_fits es (ch : chan Envelope) :
  (length (ch_buf ch) + length es ≤ ch_cap ch)%nat →
  ch_buf (queue_all es ch) = ch_buf ch ++ es ∧ ch_cap (queue_all es ch) = ch_cap ch.
Proof.
  unfold queue_all. revert ch.
  induction es as [|e es IH]; intros ch Hl; cbn in *; [by rewrite app_nil_r|].
  assert (ch_buf (sent e ch) = ch_buf ch ++ [e]) as Hb.
  { unfold sent. by rewrite decide_True by lia. }
  destruct (IH (sent e ch)) as [-> ->].
  - rewrite Hb, length_app, sent_cap. simpl. lia.
  - by rewrite Hb, <-app_assoc, sent_cap.
Qed.

Section up_users.
Context `{MsgpackLaws JoinRoomRequest, MsgpackLaws LeaveRoomRequest,
  MsgpackLaws ResumeRequest, MsgpackLaws DisconnectNotify}.

(** A message says whom it is about. *)
Lemma up_envelope_user gw (m m' : UpMsg) : up_envelope gw m = up_envelope gw m' → up_user m = up_user m'.
Proof.
  assert (∀ A `{MsgpackLaws A} (x y : A), Encode_ x = Encode_ y → x = y) as Hinj.
  { intros A ?? x y Hxy. assert (Decode (Encode_ x) = Decode (Encode_ y)) as Hd by by rewrite Hxy.
    rewrite !Decode_Encode_ in Hd. by injection Hd. }
  destruct m, m'; cbn; intros [= Heq]; apply Hinj in Heq; congruence.
Qed.
End up_users.

Section network.
Context {SS : Type} `{SessionStoreLaws SS}.
Context `{Msgpack RoomRequest, Msgpack StatusResponse, Msgpack LeaveResponse,
  Msgpack CloseNotice}.
Context `{Msgpack GatewayInfo, MsgpackLaws JoinRoomRequest, MsgpackLaws LeaveRoomRequest,
  MsgpackLaws ResumeRequest, MsgpackLaws DisconnectNotify, Msgpack BatchReSync,
  Msgpack ReSyncComplete}.
Context `{MsgpackLaws JoinRoomAck, MsgpackLaws BroadcastMessage, MsgpackLaws UnicastMessage,
  MsgpackLaws MulticastMessage, Msgpack EpochNotify, MsgpackLaws RoomCloseNotify}.
Context `{JsonRequest UnicastRequest, JsonRequest MulticastRequest,
  JsonRequest RoomBroadcastRequest, JsonRequest GlobalBroadcastRequest,
  JsonRequest RoomCloseRequest}.
Context `{O : MapOrder}.
(** The running streams of the roomserver; ours is [conn], registered as
    [gw]. *)
Context (R : gset ConnRef) (conn : ConnRef) (gw : string).
Implicit Types (S : gset string) (s : Server SS) (g : Gateway) (n : Net SS) (u rid : string)
  (ref : CRef)
  (ms : list UpMsg) (ds : list DownMsg).

(** A message changes sides: the head of the gateway's queue is handled by
    the roomserver, which has room for an answer, or the head of the
    stream's queue by the gateway. *)
Inductive deliver_step : Net SS → Net SS → Prop :=
  | DeliverUp g g' s s' e sc now :
    sendLoop_step true g = Some (true, e, g') →
    conns s !! conn = Some sc → (length (ch_buf (gc_sendCh sc)) < ch_cap (gc_sendCh sc))%nat →
    handleGatewayMessage conn e now s = Done s' →
    deliver_step (mkNet g s) (mkNet g' s')
  | DeliverDown g g' s s' e es sc started :
    conns s !! conn = Some sc → ch_buf (gc_sendCh sc) = e :: es →
    gatewayWriteLoop_step (λ _, true) conn s = Done (Some (true, s')) →
    handleEnvelope e g = Done (started, g') →
    deliver_step (mkNet g s) (mkNet g' s').

Definition up_room (k : nat) g : Prop :=
  (length (ch_buf (rs_sendCh g)) + k ≤ ch_cap (rs_sendCh g))%nat.

#[local] Instance up_room_dec k g : Decision (up_room k g).
Proof. unfold up_room. apply _. Defined.

(** The roomserver neither has the user on line at the gateway nor is a
    request to that end on its way. *)
Definition idle n u : Prop :=
  (∀ rid, ¬ present gw (presence (n_srv n)) u rid) ∧
  ∀ rid, up_envelope gw (UpJoin u rid) ∉ ch_buf (rs_sendCh (n_gw n)) ∧
         up_envelope gw (UpResume u rid) ∉ ch_buf (rs_sendCh (n_gw n)).

(** A connection ends in good order when its client is confirmed in a room,
    or its user idle, and the queue has a slot for the notice. *)
Definition orderly n u (c : Connection) : Prop :=
  up_room 1 (n_gw n) ∧
  (c_RoomID c ≠ ""%string ∧ c_JoinState c = JoinStateConfirmed ∨ idle n u).

(** The users with a session in the room that a request closes. *)
Definition closed_users (r : HttpRequest) s : gset string :=
  match decode_request (hr_Body r) with
  | Some req => dom (filter (λ kp, p_room kp.2 = rcr_RoomID req) (presence s))
  | None => ∅
  end.

(** What happens at the gateway and on its stream, and what the roomserver
    does for all.  The set is that of the users about whom the step may
    leave the two sides in disagreement: the code drops messages when a
    queue is full, sends no notice when a connection ends whose client
    waits for an answer, and leaves the sessions of a closed room behind. *)
Inductive gateway_step : gset string → Net SS → Net SS → Prop :=
  | StepDeliver n n' : deliver_step n n' → gateway_step ∅ n n'
  | StepUpFull g g' s s' (m : UpMsg) now :
    sendLoop_step true g = Some (true, up_envelope gw m, g') →
    handleGatewayMessage conn (up_envelope gw m) now s = Done s' →
    gateway_step {[up_user m]} (mkNet g s) (mkNet g' s')
  | StepRead g g' s ref c kafka now_ms msgID data go :
    objects g !! ref = Some c → connections g !! c_UserID c = Some ref →
    c_closeCh c = false →
    readLoop_step kafka now_ms msgID ref (Some data) g = Done (go, g') →
    gateway_step (if decide (up_room 2 g) then ∅ else {[c_UserID c]}) (mkNet g s) (mkNet g' s)
  | StepClose g g' s ref c reason :
    objects g !! ref = Some c → connections g !! c_UserID c = Some ref →
    orderly (mkNet g s) (c_UserID c) c → Close ref reason g = Done (tt, g') →
    gateway_step ∅ (mkNet g s) (mkNet g' s)
  | StepCloseAnyhow g g' s ref c reason :
    objects g !! ref = Some c → connections g !! c_UserID c = Some ref →
    Close ref reason g = Done (tt, g') →
    gateway_step {[c_UserID c]} (mkNet g s) (mkNet g' s)
  | StepLogin g g' s ref u connID cfg :
    objects g !! ref = None → connections g !! u = None →
    AddConnection ref (put ref (NewConnection u connID cfg) g) = Done (tt, g') →
    gateway_step ∅ (mkNet g s) (mkNet g' s)
  | StepClock g s now : gateway_step ∅ (mkNet g s) (mkNet (set_clock now g) s)
  | StepTick (ord : MapOrder) g s tmo now :
    gateway_step ∅ (mkNet g s) (mkNet g (checkDisconnectTimeout (O := ord) tmo now s))
  | StepPush g s s' k r resp :
    handle_push k r s = Done (resp, s') → gateway_step ∅ (mkNet g s) (mkNet g s')
  | StepRoomClose g s s' r resp :
    handleRoomCloseHTTP r s = Done (resp, s') →
    gateway_step (closed_users r s) (mkNet g s) (mkNet g s').

(** ... and on the other streams: messages that bring no user to this
    gateway, and their write loops. *)
Inductive net_step : gset string → Net SS → Net SS → Prop :=
  | StepOwn X n n' : gateway_step X n n' → net_step X n n'
  | StepOther g s s' other e now :
    other ∈ R → other ≠ conn → env_MsgType e ≠ InternalMsgGatewayInfo →
    Forall (foreign gw) (requested e now) →
    handleGatewayMessage other e now s = Done s' →
    net_step ∅ (mkNet g s) (mkNet g s')
  | StepOtherWrite g s s' other send b :
    other ∈ R → other ≠ conn →
    gatewayWriteLoop_step send other s = Done (Some (b, s')) →
    net_step ∅ (mkNet g s) (mkNet g s').

(** A run, with the users its steps may have left in disagreement. *)
Inductive net_run : gset string → Net SS → Net SS → Prop :=
  | net_run_refl n : net_run ∅ n n
  | net_run_step S X n1 n2 n3 : net_run S n1 n2 → net_step X n2 n3 → net_run (S ∪ X) n1 n3.

Definition connected g u : Prop := is_Some (connections g !! u).

(** ** The invariant
    The users in [S] are left out. *)
Record net_view S n (sc : GatewayConnection) ms ds : Prop := mkNetView {
  nv_gw_wf : gw_wf (n_gw n);
  nv_held : held (n_gw n) = [];
  nv_status : g_status (n_gw n) = StatusNormal;
  nv_cfg : cfg_ID (g_cfg (n_gw n)) = gw;
  nv_server : server_wf (n_srv n) ∧ backed S (n_srv n);
  nv_streams : streams_inv R (n_srv n);
  nv_running : conn ∈ R;
  nv_registered : gateways (n_srv n) !! gw = Some conn;
  nv_conn : conns (n_srv n) !! conn = Some sc;
  nv_cap : (0 < ch_cap (gc_sendCh sc))%nat;
  nv_up : ch_buf (rs_sendCh (n_gw n)) = up_envelope gw <$> ms;
  nv_down : ch_buf (gc_sendCh sc) = down_envelope <$> ds;
}.

(** Whoever the roomserver has on line at the gateway is about to be taken
    out, or connected and in the local room once the stream's messages have
    arrived. *)
Definition told S n ms ds : Prop :=
  ∀ u rid, u ∉ S → present gw (presence (n_srv n)) u rid →
    Exists (takes_out u) ms ∨
    connected (n_gw n) u ∧ arrives rid u ds (in_local (localRooms (n_gw n)) rid u).

Definition known S g u : Prop := u ∈ S ∨ connected g u.

Definition net_inv S n : Prop :=
  ∃ sc ms ds, net_view S n sc ms ds ∧ told S n ms ds ∧ settled (known S (n_gw n)) ms.

Lemma nv_open S n sc ms ds : net_view S n sc ms ds → conn_ok sc ∧ gc_closed sc = false.
Proof.
  intros Hv. destruct (nv_streams _ _ _ _ _ Hv) as (Hwf & Hopen & _).
  pose proof (nv_conn _ _ _ _ _ Hv) as Hc. split; [by eapply Hwf|].
  destruct (Hopen conn (nv_running _ _ _ _ _ Hv)) as (c & Hc' & ?). congruence.
Qed.

Lemma net_view_mono S S' n sc ms ds : S ⊆ S' → net_view S n sc ms ds → net_view S' n sc ms ds.
Proof.
  intros HS []. split; try done. destruct nv_server0. split; [done|by eapply backed_mono].
Qed.

Lemma told_mono S S' n ms ds : S ⊆ S' → told S n ms ds → told S' n ms ds.
Proof. intros HS Ht u rid Hu. apply Ht. set_solver. Qed.

Lemma known_mono S S' g ms : S ⊆ S' → settled (known S g) ms → settled (known S' g) ms.
Proof. intros HS. apply settled_impl. intros u [?|?]; [left; set_solver|by right]. Qed.

Lemma net_inv_mono S S' n : S ⊆ S' → net_inv S n → net_inv S' n.
Proof.
  intros HS (sc & ms & ds & Hv & Ht & Hs). exists sc, ms, ds.
  split_and!; [by eapply net_view_mono|by eapply told_mono|by eapply known_mono].
Qed.

(** A new state of the gateway, with messages appended to its queue. *)
Lemma net_view_gateway S g g' s sc ms ms' ds :
  net_view S (mkNet g s) sc ms ds → gw_wf g' → held g' = [] → g_status g' = g_status g →
  g_cfg g' = g_cfg g →
  ch_buf (rs_sendCh g') = ch_buf (rs_sendCh g) ++ (up_envelope gw <$> ms') →
  net_view S (mkNet g' s) sc (ms ++ ms') ds.
Proof.
  intros [] Hwf Hh Hst Hcfg Hup. cbn in *. split; cbn; try done; [congruence..|].
  rewrite Hup, fmap_app. by f_equal.
Qed.

(** The same clients and queues, seen by a roomserver that knows no more
    users of the gateway. *)
Lemma net_inv_server S S' g s s' sc sc' ms ds ds' :
  S ⊆ S' → net_view S (mkNet g s) sc ms ds → told S (mkNet g s) ms ds →
  settled (known S g) ms → server_wf s' ∧ backed S' s' → streams_inv R s' →
  gateways s' !! gw = Some conn →
  conns s' !! conn = Some sc' → ch_cap (gc_sendCh sc') = ch_cap (gc_sendCh sc) →
  ch_buf (gc_sendCh sc') = down_envelope <$> ds ++ ds' →
  (∀ u rid, u ∉ S' → present gw (presence s') u rid →
     present gw (presence s) u rid ∧ Forall (λ d, clears rid d = false) ds') →
  net_inv S' (mkNet g s').
Proof.
  intros HS Hv Ht Hs Hwf Hst Hreg Hc Hcap Hbuf Hp. exists sc', ms, (ds ++ ds').
  split; [|split; [|by eapply known_mono]].
  - destruct Hv. cbn in *. split; cbn; [done..|lia|done|done].
  - intros u rid HuS Hu. destruct (Hp u rid HuS Hu) as [Hpre Hcl].
    destruct (Ht u rid) as [|[Hcon Hex]]; [set_solver|done|by left|].
    right. split; [done|]. rewrite arrives_app. by apply arrives_stay.
Qed.

(** *** Deliveries *)
Lemma take_up S g s sc ms ds e g' :
  net_view S (mkNet g s) sc ms ds → sendLoop_step true g = Some (true, e, g') →
  ∃ m ms', ms = m :: ms' ∧ e = up_envelope gw m ∧
    g' = set_rs_sendCh (mkChan (up_envelope gw <$> ms') (ch_cap (rs_sendCh g))
           (ch_closed (rs_sendCh g))) g.
Proof.
  intros Hv. unfold sendLoop_step. pose proof (nv_up _ _ _ _ _ Hv) as Hup. cbn in Hup.
  rewrite Hup. destruct ms as [|m ms']; [done|]. cbn. intros [= <- <-]. by eexists _, _.
Qed.

Lemma length_up_acks m now s : (length (up_acks gw m now s) ≤ 1)%nat.
Proof. destruct m; cbn; lia. Qed.

(** A queue drops messages when it is full. *)
Lemma deliver_downs ds (sc : GatewayConnection) :
  gc_closed sc = false →
  ∃ ds', ds' `sublist_of` ds ∧
    ch_buf (gc_sendCh (deliver (down_envelope <$> ds) sc)) =
      ch_buf (gc_sendCh sc) ++ (down_envelope <$> ds').
Proof.
  intros Ho. unfold deliver. rewrite Ho. cbn. generalize (gc_sendCh sc).
  induction ds as [|d ds IH]; intros ch; cbn; [exists []; by rewrite app_nil_r|].
  destruct (IH (sent (down_envelope d) ch)) as (ds' & Hsub & ->).
  destruct (sent_buf (down_envelope d) ch) as [->| ->]; [|exists ds'; split; [by constructor|done]].
  exists (d :: ds'). rewrite <-app_assoc. split; [by constructor|done].
Qed.

Lemma deliver_answer ds (sc : GatewayConnection) :
  gc_closed sc = false → (length ds ≤ 1)%nat →
  ∃ ds', ch_buf (gc_sendCh (deliver (down_envelope <$> ds) sc)) =
      ch_buf (gc_sendCh sc) ++ (down_envelope <$> ds') ∧
    ds' `sublist_of` ds ∧
    ((length (ch_buf (gc_sendCh sc)) < ch_cap (gc_sendCh sc))%nat → ds' = ds).
Proof.
  intros Ho Hl.
  destruct (decide (length (ch_buf (gc_sendCh sc)) < ch_cap (gc_sendCh sc))%nat) as [Hr|Hr].
  - exists ds. split_and!; [|done..]. apply deliver_fits; [done|]. rewrite length_fmap. lia.
  - destruct (deliver_downs ds sc Ho) as (ds' & Hsub & Hbuf). by exists ds'.
Qed.

(** The roomserver's side of a delivery; an answer may be dropped when the
    stream's queue is full. *)
Lemma deliver_up_server S g s sc m ms ds now :
  net_view S (mkNet g s) sc ms ds →
  let acks := up_acks gw m now s in
  ∃ s' sc' acks', handleGatewayMessage conn (up_envelope gw m) now s = Done s' ∧
    (server_wf s' ∧ backed S s') ∧ streams_inv R s' ∧ gateways s' = gateways s ∧
    conns s' !! conn = Some sc' ∧ ch_cap (gc_sendCh sc') = ch_cap (gc_sendCh sc) ∧
    ch_buf (gc_sendCh sc') = down_envelope <$> ds ++ acks' ∧
    Forall (λ d, ∀ rid, clears rid d = false) acks' ∧ (length acks' ≤ 1)%nat ∧
    ((length (ch_buf (gc_sendCh sc)) < ch_cap (gc_sendCh sc))%nat → acks' = acks) ∧
    same_off S (presence s') (spec_ctl (presence s) (up_op gw m now)).
Proof.
  intros Hv acks. destruct (nv_open _ _ _ _ _ Hv) as [Hok Ho].
  pose proof Hv as []. cbn in *. destruct nv_server0 as [Hwf Hb].
  destruct (streams_inv_message R s conn (up_envelope gw m) now) as (s' & Hs' & Hinv');
    [done..|by destruct m|].
  pose proof (handle_up gw conn m now s sc nv_conn0 Hok) as Hrun. rewrite Hrun in Hs'.
  injection Hs' as Hs'.
  destruct (backed_step S s (up_op gw m now)) as (Hwf' & Hb' & Hp'); [by destruct m|done..|].
  destruct (run_ctl_frame s (up_op gw m now)) as (_ & Hg & _).
  destruct (deliver_answer acks sc Ho) as (acks' & Hbuf & Hsub & Hfull);
    [apply length_up_acks|].
  eexists s', _, acks'. rewrite Hrun, Hs'. split; [done|]. subst s'. cbn.
  split; [done|]. split; [done|]. split; [done|]. split; [apply lookup_insert_eq|].
  split; [by rewrite deliver_cap|]. split; [|split; [|split; [|by split]]].
  - unfold acks in Hbuf. by rewrite Hbuf, nv_down0, fmap_app.
  - apply Forall_forall. intros a Ha rid. apply (elem_of_submseteq _ acks) in Ha;
      [|by apply sublist_submseteq]. unfold acks, up_acks in Ha.
    destruct m; set_solver.
  - apply sublist_length in Hsub. pose proof (length_up_acks m now s). unfold acks in *. lia.
Qed.

(** What is still on its way. *)
Definition in_flight n (sc : GatewayConnection) : nat :=
  2 * length (ch_buf (rs_sendCh (n_gw n))) + length (ch_buf (gc_sendCh sc)).

(** A delivery keeps the invariant and brings the queues closer to empty. *)
Definition delivers S n n' : Prop :=
  net_inv S n' ∧ ∀ sc sc', conns (n_srv n) !! conn = Some sc →
    conns (n_srv n') !! conn = Some sc' → (in_flight n' sc' < in_flight n sc)%nat.

Lemma told_up S g g' s s' m ms ds acks' now :
  server_wf s → backed S s → connections g' = connections g → localRooms g' = localRooms g →
  told S (mkNet g s) (m :: ms) ds → settled (known S g) (m :: ms) →
  same_off S (presence s') (spec_ctl (presence s) (up_op gw m now)) →
  Forall (λ d, ∀ rid, clears rid d = false) acks' →
  (up_user m ∈ S ∨ acks' = up_acks gw m now s) →
  told S (mkNet g' s') ms (ds ++ acks').
Proof.
  intros Hwf Hb Hcs Hlr Ht [Hm _] Hp Hcl Hacks u rid HuS Hu. cbn [n_gw n_srv] in *.
  apply (present_off S gw _ _ u rid Hp HuS) in Hu.
  unfold known, connected in *. rewrite Hcs, Hlr, arrives_app.
  destruct (present_up S gw m now s u rid Hwf Hb HuS Hu) as [(<- & Hr & Hack)|[Hu' Hne]].
  - destruct Hacks as [?| ->]; [done|].
    destruct (Hm Hr) as [ [?|Hon]|Hex]; [done| |by left]. right. split; [done|].
    destruct (up_acks gw m now s) as [|a as'] eqn:Ha; [by apply Exists_nil in Hack|].
    pose proof (length_up_acks m now s) as Hl. rewrite Ha in Hl.
    destruct as'; [|simpl in Hl; lia]. apply Exists_cons in Hack as [|Hn%Exists_nil]; [|done].
    cbn. by left.
  - destruct (Ht u rid HuS Hu') as [Hex|[Hcon Hin]].
    + apply Exists_cons in Hex as [[Heq Hr]|Hex]; [|by left].
      specialize (Hne Heq). congruence.
    + right. cbn in *. split; [done|]. apply arrives_stay; [|done].
      eapply Forall_impl; [done|]. by intros d Hd.
Qed.

(** The head of the gateway's queue is handled; the user is left out, or
    the stream's queue has room for the answer. *)
Lemma inv_up S g g' s s' e sc now :
  net_inv S (mkNet g s) → sendLoop_step true g = Some (true, e, g') →
  conns s !! conn = Some sc →
  (∀ m, e = up_envelope gw m → up_user m ∈ S) ∨
    (length (ch_buf (gc_sendCh sc)) < ch_cap (gc_sendCh sc))%nat →
  handleGatewayMessage conn e now s = Done s' → delivers S (mkNet g s) (mkNet g' s').
Proof.
  intros (sc0 & ms0 & ds & Hv & Ht & Hs) Htake Hc Hroom Hrun.
  assert (sc0 = sc) as -> by (pose proof (nv_conn _ _ _ _ _ Hv); cbn in *; congruence).
  destruct (take_up S g s sc ms0 ds e g' Hv Htake) as (m & ms & -> & -> & ->).
  destruct (deliver_up_server S g s sc m (m :: ms) ds now Hv) as (s2 & sc' & acks' & Hs2 & Hwb &
    Hinv & Hg & Hc' & Hcap & Hbuf & Hcl & Hlen & Hall & Hp). rewrite Hrun in Hs2. injection Hs2 as <-.
  set (g' := set_rs_sendCh _ g). pose proof Hv as []. cbn in *. split.
  - exists sc', ms, (ds ++ acks'). split; [|split; [|apply Hs]].
    + split; cbn; try done; [by rewrite Hg|lia].
    + destruct nv_server0. eapply (told_up S g); try done.
      destruct Hroom as [Hroom|Hroom]; [left; by apply Hroom|right; by apply Hall].
  - intros sc1 sc2 Hc1 Hc2. cbn in *. rewrite Hc in Hc1. rewrite Hc' in Hc2. simplify_eq.
    unfold in_flight. cbn. rewrite Hbuf, nv_up0, nv_down0. cbn.
    rewrite !length_fmap, length_app. lia.
Qed.

Lemma deliver_down S g g' s s' e es sc started :
  net_inv S (mkNet g s) → conns s !! conn = Some sc → ch_buf (gc_sendCh sc) = e :: es →
  gatewayWriteLoop_step (λ _, true) conn s = Done (Some (true, s')) →
  handleEnvelope e g = Done (started, g') → delivers S (mkNet g s) (mkNet g' s').
Proof.
  intros (sc0 & ms & ds0 & Hv & Ht & Hs) Hc Hbuf Hw Hrun.
  assert (sc0 = sc) as -> by (pose proof (nv_conn _ _ _ _ _ Hv); cbn in *; congruence).
  pose proof Hv as []. cbn in *. rewrite nv_down0 in Hbuf.
  destruct ds0 as [|d ds]; [done|]. cbn in Hbuf. injection Hbuf as <- <-.
  destruct (handleEnvelope_effect d g nv_gw_wf0 nv_held0) as (g1 & Hg1 & He).
  rewrite Hg1 in Hrun. injection Hrun as <- <-.
  destruct He as (objs & rooms' & Heq & Hwf' & Hin & Hconf). rewrite Heq.
  destruct (streams_inv_write R s conn true nv_streams0 nv_running0) as (s2 & Hs2 & Hinv').
  cbn in Hs2. rewrite Hw in Hs2. injection Hs2 as <-.
  unfold gatewayWriteLoop_step in Hw. rewrite (get_conn_Some conn s sc Hc) in Hw.
  cbn in Hw. unfold recv in Hw. rewrite nv_down0 in Hw. cbn in Hw. injection Hw as <-.
  set (sc' := conn_set_ch _ sc) in *. split.
  - exists sc', ms, ds. split; [|split; [|exact Hs]].
    + rewrite Heq in Hwf'. split; cbn; try done. apply lookup_insert_eq.
    + intros u rid HuS Hu. destruct (Ht u rid HuS Hu) as [|[Hcon Hi]]; [by left|right].
      split; [done|]. cbn in *. eapply arrives_impl; [|done]. intros [?|[??]]; auto.
  - intros sc1 sc2 Hc1 Hc2. cbn in *. rewrite Hc in Hc1. rewrite lookup_insert_eq in Hc2. simplify_eq.
    unfold in_flight. cbn. rewrite nv_down0. cbn. rewrite !length_fmap. lia.
Qed.

Lemma deliver_step_delivers S n n' : net_inv S n → deliver_step n n' → delivers S n n'.
Proof.
  intros Hi Hd. destruct Hd; [eapply inv_up; eauto|by eapply deliver_down].
Qed.

(** *** The other steps *)
(** A queue takes what it can. *)
Lemma queue_all_takes ms' (ch : chan Envelope) :
  ∃ ms'', ms'' `sublist_of` ms' ∧
    ch_buf (queue_all (up_envelope gw <$> ms') ch) = ch_buf ch ++ (up_envelope gw <$> ms'').
Proof.
  unfold queue_all. revert ch. induction ms' as [|m ms' IH]; intros ch; cbn.
  { exists []. by rewrite app_nil_r. }
  destruct (IH (sent (up_envelope gw m) ch)) as (ms'' & Hsub & ->).
  destruct (sent_buf (up_envelope gw m) ch) as [->| ->]; [|exists ms''; split; [by constructor|done]].
  exists (m :: ms''). rewrite <-app_assoc. split; [by constructor|done].
Qed.

Lemma queue_all_ups k ms' g :
  (length ms' ≤ k)%nat →
  ∃ ms'', ms'' `sublist_of` ms' ∧ (up_room k g → ms'' = ms') ∧
    ch_buf (queue_all (up_envelope gw <$> ms') (rs_sendCh g)) =
      ch_buf (rs_sendCh g) ++ (up_envelope gw <$> ms'').
Proof.
  intros Hl. destruct (decide (up_room k g)) as [Hr|Hr].
  - exists ms'. split_and!; [done..|]. apply queue_all_fits. rewrite length_fmap.
    unfold up_room in Hr. lia.
  - destruct (queue_all_takes ms' (rs_sendCh g)) as (ms'' & ? & ?). by exists ms''.
Qed.

Lemma inv_read S g g' s ref c kafka now_ms msgID data go :
  net_inv S (mkNet g s) → objects g !! ref = Some c → connections g !! c_UserID c = Some ref →
  c_closeCh c = false → up_room 2 g ∨ c_UserID c ∈ S →
  readLoop_step kafka now_ms msgID ref (Some data) g = Done (go, g') →
  net_inv S (mkNet g' s).
Proof.
  intros (sc & ms & ds & Hv & Ht & Hs) Hc Hreg Hcl Hroom Hrun. pose proof Hv as []. cbn in *.
  destruct (readLoop_step_effect kafka now_ms msgID ref data g c) as (g1 & Hg1 & He); [done..|].
  rewrite Hrun in Hg1. injection Hg1 as -> ->.
  destruct (keeps_readLoop_step kafka now_ms msgID ref (Some data) g) as (go & g2 & Hg2 & Hk).
  { split_and!; [done..|]. exists c. by split; [|right]. }
  rewrite Hrun in Hg2. injection Hg2 as <- <-. destruct Hk as (Hwf' & Hh' & _).
  destruct He as (c' & rooms' & ms' & Heq & _ & Hl & Hus & Hin). rewrite nv_cfg0 in Heq.
  destruct (queue_all_ups 2 ms' g Hl) as (ms'' & Hsub & Hall & Hq).
  exists sc, (ms ++ ms''), ds. split; [|split].
  - eapply (net_view_gateway S g); [done..| | |]; by rewrite Heq.
  - intros u rid HuS Hu. cbn. rewrite Exists_app. destruct (Ht u rid HuS Hu) as [|[Hcon Hi]]; [auto|].
    unfold connected. rewrite Heq. cbn in *.
    destruct (decide (u = c_UserID c ∧ Exists removal ms')) as [[-> Hex]|Hno].
    2: { right. split; [done|]. eapply arrives_impl; [|done]. intros Hl0.
         destruct (Hin rid u Hl0); [done|tauto]. }
    left. right. destruct Hroom as [Hroom|]; [|done]. rewrite (Hall Hroom).
    apply Exists_exists in Hex as (m & Hm & Hr). apply Exists_exists. exists m.
    split; [done|]. split; [by apply (proj1 (Forall_forall _ _) Hus)|]. by destruct (removal m).
  - unfold known, connected. cbn [n_gw]. rewrite Heq. cbn. apply settled_app; [done|].
    apply Forall_forall. intros m Hm. right.
    rewrite (proj1 (Forall_forall _ _) Hus m); [by eexists|].
    eapply elem_of_submseteq; [done|by apply sublist_submseteq].
Qed.

(** The notice of an orderly close is there, or there is nothing to say. *)
Lemma orderly_settles S g s sc ms ds c u on' :
  net_view S (mkNet g s) sc ms ds → settled (known S g) ms →
  orderly (mkNet g s) u c → ¬ (c_RoomID c ≠ ""%string ∧ c_JoinState c = JoinStateConfirmed) →
  (∀ v, v ≠ u → known S g v → on' v) →
  (∀ rid, ¬ present gw (presence s) u rid) ∧ settled on' ms.
Proof.
  intros Hv Hs [_ [?|[Hno Hidle]]] Hconf Hon; [done|]. split; [done|].
  apply (settled_idle (known S g) _ u ms Hon); [|done].
  apply Forall_forall. intros m Hm Heq. rewrite <-Heq in Hidle.
  destruct (Hidle match m with UpJoin _ r | UpLeave _ r | UpResume _ r
    | UpDisconnect _ r => r end) as [Hj Hr]. cbn in Hj, Hr.
  pose proof (nv_up _ _ _ _ _ Hv) as Hup. cbn in Hup. rewrite Hup in Hj, Hr.
  destruct m as [v r|v r|v r|v r]; [|done| |done].
  - destruct Hj. apply list_elem_of_fmap. by exists (UpJoin v r).
  - destruct Hr. apply list_elem_of_fmap. by exists (UpResume v r).
Qed.

Lemma inv_close S g g' s ref c reason :
  net_inv S (mkNet g s) → objects g !! ref = Some c → connections g !! c_UserID c = Some ref →
  orderly (mkNet g s) (c_UserID c) c ∨ c_UserID c ∈ S →
  Close ref reason g = Done (tt, g') → net_inv S (mkNet g' s).
Proof.
  intros (sc & ms & ds & Hv & Ht & Hs) Hc Hreg Hmay Hrun. pose proof Hv as [].
  cbn in *. destruct (proj1 nv_gw_wf0 _ _ Hreg) as (c0 & i & d & Hc0 & _ & Honce & _).
  rewrite Hc in Hc0. injection Hc0 as <-.
  rewrite (Close_run ref c reason g) in Hrun;
    [|done|done|by apply gw_wf_exist|intros; by apply no_locks_free..].
  injection Hrun as <-. pose proof (closed_wf ref c g nv_gw_wf0 Hreg Hc) as Hwf'.
  destruct (closed_fields ref c g) as (Hcs & _ & _ & Hh').
  destruct (close_fields ref c g nv_status0) as (Hcfg & Hst & Hcase).
  assert (∀ v, v ≠ c_UserID c → connected g v → connected (closed ref c g) v) as Hcon0.
  { intros v Hne. unfold connected. by rewrite Hcs, lookup_delete_ne. }
  assert (∀ v, v ≠ c_UserID c ∨ c_UserID c ∈ S → known S g v → known S (closed ref c g) v) as Hon.
  { intros v Hne [?|Hv']; [by left|]. destruct (decide (v = c_UserID c)) as [->|];
      [left; tauto|right; by apply Hcon0]. }
  case_decide as Hconf.
  - destruct Hcase as [Hlr Hq]. set (md := UpDisconnect (c_UserID c) (c_RoomID c)) in *.
    destruct (queue_all_ups 1 [md] g) as (ms'' & Hsub & Hall & Hb); [done|].
    exists sc, (ms ++ ms''), ds. split; [|split].
    + eapply (net_view_gateway S g); [done|done|congruence|congruence|done|].
      rewrite Hq, <-Hb, nv_cfg0. done.
    + intros u rid HuS Hu. cbn. rewrite Exists_app.
      destruct (Ht u rid HuS Hu) as [|[Hcon Hi]]; [auto|].
      destruct (decide (u = c_UserID c)) as [->|Hne].
      { left; right. destruct Hmay as [ [Hroom _]|]; [|done]. rewrite (Hall Hroom).
        by constructor. }
      right. split; [by apply Hcon0|]. rewrite Hlr. eapply arrives_impl; [|done].
      intros. by apply in_local_remove.
    + destruct Hmay as [ [Hroom _]|HcS].
      * rewrite (Hall Hroom). eapply settled_disconnect; [|done]. intros v Hne. apply Hon. by left.
      * apply settled_app; [eapply settled_impl; [|done]; intros; apply Hon; [by right|done]|].
        apply Forall_forall. intros m Hm. left.
        apply (elem_of_submseteq _ [md]) in Hm; [|by apply sublist_submseteq].
        apply list_elem_of_singleton in Hm as ->. done.
  - destruct Hcase as [Hlr Hq].
    assert ((c_UserID c ∈ S ∨ ∀ rid, ¬ present gw (presence s) (c_UserID c) rid) ∧
      settled (known S (closed ref c g)) ms) as [Hno Hset].
    { destruct Hmay as [Hord|HcS].
      - destruct (orderly_settles S g s sc ms ds c (c_UserID c) (known S (closed ref c g)))
          as [? ?]; [done..| |by split; [right|]]. intros v Hne. apply Hon. by left.
      - split; [by left|]. eapply settled_impl; [|done]. intros v. apply Hon. by right. }
    exists sc, ms, ds. split; [|split; [|done]].
    + rewrite <-(app_nil_r ms).
      eapply (net_view_gateway S g); [done|done|congruence|congruence|done|].
      cbn. by rewrite Hq, app_nil_r.
    + intros u rid HuS Hu. destruct (decide (u = c_UserID c)) as [->|Hne].
      { destruct Hno as [|Hno]; [done|by apply Hno in Hu]. }
      destruct (Ht u rid HuS Hu) as [|[Hcon Hi]]; [auto|]. right. split; [by apply Hcon0|].
      cbn. by rewrite Hlr.
Qed.

Lemma inv_login S g g' s ref u connID cfg :
  net_inv S (mkNet g s) → objects g !! ref = None → connections g !! u = None →
  AddConnection ref (put ref (NewConnection u connID cfg) g) = Done (tt, g') →
  net_inv S (mkNet g' s).
Proof.
  intros (sc & ms & ds & Hv & Ht & Hs) Hno Hu Hrun. pose proof Hv as []. cbn in *.
  set (c := NewConnection u connID cfg) in *. set (g1 := put ref c g) in *.
  assert (∀ v, connections g1 !! v ≠ Some ref) as Hfresh.
  { intros v Hv'. destruct (proj1 nv_gw_wf0 _ _ Hv') as (c0 & i & d & Hc0 & _). congruence. }
  assert (gw_wf g1) as Hwf1.
  { destruct nv_gw_wf0 as (Hreg & Hd & Hl). split_and!; [|done..].
    intros v r Hv'. destruct (Hreg v r Hv') as (c0 & i & d & Hc0 & Hrest).
    exists c0, i, d. split; [|done]. cbn. rewrite lookup_insert_ne; [done|congruence]. }
  assert (objects g1 !! ref = Some c) as Hc by (cbn; apply lookup_insert_eq).
  rewrite (AddConnection_run ref c g1) in Hrun; [|done..].
  destruct (shard_index _ _) as [i| |] eqn:Hi; try done. injection Hrun as <-.
  assert (∀ v, connected g v → connected (added ref c i g1) v) as Hon.
  { intros v. unfold connected. cbn. intros [r Hr]. destruct (decide (v = u)) as [->|Hne].
    - congruence.
    - rewrite lookup_insert_ne by done. by exists r. }
  exists sc, ms, ds. split; [|split].
  - rewrite <-(app_nil_r ms).
    eapply (net_view_gateway S g); [done|by apply added_wf|done..|]. cbn. by rewrite app_nil_r.
  - intros v rid HvS Hp. destruct (Ht v rid HvS Hp) as [|[Hcon Hin]]; [auto|]. right.
    split; [by apply Hon|done].
  - eapply settled_impl; [|done]. intros v [?|?]; [by left|right; by apply Hon].
Qed.

Lemma inv_tick S g s tmo now (ord : MapOrder) :
  net_inv S (mkNet g s) → net_inv S (mkNet g (checkDisconnectTimeout (O := ord) tmo now s)).
Proof.
  intros (sc & ms & ds & Hv & Ht & Hs). pose proof Hv as []. cbn in *.
  destruct nv_server0 as [Hwf Hb].
  destruct (backed_step S s (CtlTick ord tmo now)) as (Hwf' & Hb' & Hp); [done..|].
  destruct (run_ctl_frame s (CtlTick ord tmo now)) as (Hc & Hg & _). cbn in Hwf', Hb', Hp, Hc, Hg.
  eapply (net_inv_server S S g s _ sc sc ms ds []);
    [done|done|done|done|done|by eapply streams_inv_same|congruence|congruence|done| |].
  - by rewrite app_nil_r.
  - intros u rid HuS Hu. split; [|done]. apply (present_off S gw _ _ u rid Hp HuS) in Hu.
    by apply (present_foreign gw _ (CtlTick ord tmo now)).
Qed.

(** The roomserver sends messages that close no room of the users that
    count. *)
Lemma inv_sends_on_stream S S' P g s s1 s' :
  S ⊆ S' → net_inv S (mkNet g s) → send_effect P s s1 →
  conns s' = conns s1 → gateways s' = gateways s1 → presence s' = presence s →
  server_wf s' ∧ backed S' s' →
  (∀ u rid d, u ∉ S' → present gw (presence s) u rid → P d → clears rid d = false) →
  net_inv S' (mkNet g s').
Proof.
  intros HS (sc & ms & ds & Hv & Ht & Hs) He Hcs Hgs Hpr Hwb Hcl.
  destruct (nv_open _ _ _ _ _ Hv) as [_ Ho]. pose proof Hv as []. cbn in *.
  pose proof (send_effect_streams P R s s1 He nv_streams0) as Hinv'.
  destruct He as (Hr & Hss & Hg & _ & Hc).
  destruct (Hc conn) as (ds' & HP & Hd). rewrite nv_conn0 in Hd. cbn in Hd.
  destruct (deliver_downs ds' sc Ho) as (ds2 & Hsub & Hbuf).
  eapply (net_inv_server S S' g s s' sc _ ms ds ds2);
    [done|done|done|done|done|by eapply streams_inv_same|congruence|by rewrite Hcs| | |].
  - apply deliver_cap.
  - by rewrite Hbuf, nv_down0, fmap_app.
  - intros u rid HuS Hu. rewrite Hpr in Hu. split; [done|]. apply Forall_forall. intros d Hd2.
    apply (Hcl u rid d HuS Hu). apply (proj1 (Forall_forall _ _) HP).
    eapply elem_of_submseteq; [done|by apply sublist_submseteq].
Qed.

Lemma inv_push S g s s' k r resp :
  net_inv S (mkNet g s) → handle_push k r s = Done (resp, s') → net_inv S (mkNet g s').
Proof.
  intros Hi Hrun. pose proof Hi as (sc & ms & ds & Hv & _). pose proof Hv as []. cbn in *.
  destruct (handle_push_effect k r s) as (resp' & s1 & Hs1 & He);
    [apply nv_streams0|by eapply streams_inv_exist|]. rewrite Hrun in Hs1. simplify_eq.
  destruct (backed_same S s s1) as (? & ? & Hp); [apply He..|done|].
  eapply (inv_sends_on_stream S S is_push); try done. intros u rid [] ?? Hd; done.
Qed.

Lemma closed_users_in r s u p rid :
  rcr_RoomID <$> decode_request (hr_Body r) = Some rid →
  presence s !! u = Some p → p_room p = rid → u ∈ closed_users r s.
Proof.
  intros Hr Hp Hrid. unfold closed_users.
  destruct (decode_request (hr_Body r)) as [req|]; [|done]. cbn in Hr. injection Hr as Hr.
  apply elem_of_dom. exists p. apply map_lookup_filter_Some. split; [done|]. cbn. congruence.
Qed.

Lemma inv_room_close S g s s' r resp :
  net_inv S (mkNet g s) → handleRoomCloseHTTP r s = Done (resp, s') →
  net_inv (S ∪ closed_users r s) (mkNet g s').
Proof.
  intros Hi Hrun. pose proof Hi as (sc & ms & ds & Hv & _). pose proof Hv as []. cbn in *.
  destruct (handleRoomCloseHTTP_effect r s) as (resp' & s2 & Hs2 & He);
    [apply nv_streams0|by eapply streams_inv_exist|]. rewrite Hrun in Hs2. simplify_eq.
  destruct He as [->|(rid & s1 & He & -> & Hrid)]; [eapply net_inv_mono; [|done]; set_solver|].
  destruct (backed_same S s s1) as (Hwf1 & Hb1 & Hp); [apply He..|done|].
  eapply (inv_sends_on_stream S _ (closes rid) g s s1); [set_solver|done|done|done|done|done| |].
  - split; [by apply CloseRoomOf_wf|]. apply backed_Close; [|by eapply backed_mono; [|done]; set_solver].
    intros u p. rewrite Hp. intros Hu Hr. apply elem_of_union_r. by eapply closed_users_in.
  - intros u rid' d HuS (p & Hu & _ & _ & Hr) [reason ->]. cbn. apply bool_decide_eq_false.
    intros ->. apply HuS, elem_of_union_r. by eapply closed_users_in.
Qed.

Lemma inv_other S g s s' other e now :
  net_inv S (mkNet g s) → other ∈ R → other ≠ conn → env_MsgType e ≠ InternalMsgGatewayInfo →
  Forall (foreign gw) (requested e now) →
  handleGatewayMessage other e now s = Done s' → net_inv S (mkNet g s').
Proof.
  intros (sc & ms & ds & Hv & Ht & Hs) HR Hne Hinfo Hforeign Hrun. pose proof Hv as [].
  cbn in *. destruct nv_server0 as [Hwf Hb].
  destruct (streams_inv_message R s other e now) as (s1 & Hs1 & Hinv'); [done..|].
  rewrite Hrun in Hs1. injection Hs1 as <-. pose proof nv_streams0 as (Hcw & Hopen & _).
  destruct (Hopen other HR) as (co & Hco & _). rewrite (handled other e now s co) in Hrun;
    [|done|by eapply Hcw|done]. injection Hrun as <-.
  destruct (backed_steps S s (requested e now)) as (Hwf' & Hb' & Hp); [|done..|].
  { eapply Forall_impl; [done|]. by intros []. }
  destruct (foldl_run_ctl_frame (requested e now) s) as (Hc & Hg & _).
  eapply (net_inv_server S S g s _ sc sc ms ds []); [done|done|done|done|done|done| | |done| |].
  - cbn. congruence.
  - cbn. by rewrite lookup_insert_ne, Hc.
  - by rewrite app_nil_r.
  - intros u rid HuS Hu. split; [|done]. eapply present_foreigns; [done|].
    by apply (present_off S gw _ _ u rid Hp HuS).
Qed.

Lemma inv_other_write S g s s' other send b :
  net_inv S (mkNet g s) → other ∈ R → other ≠ conn →
  gatewayWriteLoop_step send other s = Done (Some (b, s')) → net_inv S (mkNet g s').
Proof.
  intros (sc & ms & ds & Hv & Ht & Hs) HR Hne Hrun. pose proof Hv as []. cbn in *.
  destruct (streams_inv_write R s other b nv_streams0 HR) as (s1 & Hs1 & Hinv').
  pose proof nv_streams0 as (_ & Hopen & _). destruct (Hopen other HR) as (co & Hco & Ho).
  unfold gatewayWriteLoop_step in Hrun. cbn in Hs1. unfold gatewayWriteLoop_step in Hs1.
  rewrite (get_conn_Some other s co Hco) in Hrun, Hs1. cbn in Hrun, Hs1. unfold recv in *.
  destruct (ch_buf (gc_sendCh co)) as [|e es].
  - destruct (ch_closed (gc_sendCh co)); [|done]. injection Hrun as _ <-.
    exists sc, ms, ds. by split_and!.
  - injection Hrun as _ <-. injection Hs1 as <-.
    eapply (net_inv_server S S g s _ sc sc ms ds []); [done|done|done|done| |done|done| |done| |done].
    + exact nv_server0.
    + cbn. by rewrite lookup_insert_ne.
    + by rewrite app_nil_r.
Qed.

Lemma gateway_step_inv S X n n' : net_inv S n → gateway_step X n n' → net_inv (S ∪ X) n'.
Proof.
  intros Hi Hst. apply (net_inv_mono _ (S ∪ X)) in Hi as HiX; [|set_solver]. destruct Hst.
  - by eapply deliver_step_delivers.
  - destruct Hi as (sc & ms & ds & Hv & _). eapply inv_up; [done..|apply Hv| |done].
    left. intros m' Hm'. apply up_envelope_user in Hm'. set_solver.
  - eapply inv_read; [done..| |done]. case_decide; [by left|right; set_solver].
  - eapply inv_close; [done..| |done]. by left.
  - eapply inv_close; [done..| |done]. right. set_solver.
  - by eapply inv_login.
  - destruct HiX as (sc & ms & ds & [] & Ht & Hs). exists sc, ms, ds. by split_and!.
  - by apply inv_tick.
  - by eapply inv_push.
  - by eapply inv_room_close.
Qed.

Lemma net_step_inv S X n n' : net_inv S n → net_step X n n' → net_inv (S ∪ X) n'.
Proof.
  intros Hi Hst. apply (net_inv_mono _ (S ∪ X)) in Hi as HiX; [|set_solver]. destruct Hst.
  - by eapply gateway_step_inv.
  - by eapply inv_other.
  - by eapply inv_other_write.
Qed.

(** *** Runs *)

(** A start: the stream is registered, nothing is on its way, and the
    roomserver has nobody on line at the gateway. *)
Definition net_start n : Prop :=
  (∃ sc, net_view ∅ n sc [] []) ∧ ∀ u rid, ¬ present gw (presence (n_srv n)) u rid.

(** Nobody is on line in the beginning. *)
Lemma fresh_net_start g s sc :
  gw_wf g → held g = [] → g_status g = StatusNormal → cfg_ID (g_cfg g) = gw →
  ch_buf (rs_sendCh g) = [] → server_wf s → streams_inv R s → conn ∈ R →
  gateways s !! gw = Some conn → conns s !! conn = Some sc →
  (0 < ch_cap (gc_sendCh sc))%nat → ch_buf (gc_sendCh sc) = [] →
  (∀ u, presence s !! u = None) → net_start (mkNet g s).
Proof.
  intros Hwf Hh Hst Hid Hup Hs Hinv HR Hg Hc Hcap Hdown Hno. split.
  - exists sc. split; try done. split; [done|]. intros u p _ Hp. cbn in Hp. by rewrite Hno in Hp.
  - intros u rid (p & Hp & _). cbn in Hp. by rewrite Hno in Hp.
Qed.

Lemma net_start_inv n : net_start n → net_inv ∅ n.
Proof.
  intros [[sc Hv] Hno]. exists sc, [], []. split_and!; [done| |done].
  intros u rid _ Hu. by apply Hno in Hu.
Qed.

Lemma net_run_inv S n n' : net_inv ∅ n → net_run S n n' → net_inv S n'.
Proof. intros Hi Hr. induction Hr; [done|]. eauto using net_step_inv. Qed.

Definition queues_empty n : Prop :=
  ch_buf (rs_sendCh (n_gw n)) = [] ∧
  ∃ sc, conns (n_srv n) !! conn = Some sc ∧ ch_buf (gc_sendCh sc) = [].

(** Everybody the roomserver has on line at the gateway is connected there
    and listed in the local room, the users in [S] left out. *)
Definition agree S n : Prop :=
  ∀ u p, u ∉ S → presence (n_srv n) !! u = Some p → p_status p = MemberStatusOnline →
    p_gateway p = gw → connected (n_gw n) u ∧ in_local (localRooms (n_gw n)) (p_room p) u.

Lemma empty_queues_agree S n : net_inv S n → queues_empty n → agree S n.
Proof.
  intros (sc & ms & ds & Hv & Ht & _) (Hup & sc' & Hc & Hdown) u p HuS Hp Hst Hg.
  pose proof Hv as []. rewrite nv_conn0 in Hc. injection Hc as ->.
  rewrite nv_up0 in Hup. rewrite nv_down0 in Hdown.
  apply fmap_nil_inv in Hup, Hdown. subst ms ds.
  destruct (Ht u (p_room p) HuS) as [Hex|[Hcon Hin]]; [by exists p|..|done].
  by apply Exists_nil in Hex.
Qed.

(** As long as a queue holds a message, a delivery is possible. *)
Lemma delivery_possible S n : net_inv S n → queues_empty n ∨ ∃ n', deliver_step n n'.
Proof.
  intros (sc & ms & ds & Hv & _). pose proof Hv as []. destruct n as [g s]. cbn in *.
  destruct ds as [|d ds].
  - destruct ms as [|m ms]; [left; split; [done|by exists sc]|right].
    destruct (deliver_up_server S g s sc m (m :: ms) [] 0 Hv) as (s' & _ & _ & Hs' & _).
    eexists. eapply DeliverUp; [|done|rewrite nv_down0; simpl; lia|done].
    unfold sendLoop_step. by rewrite nv_up0.
  - right. destruct (handleEnvelope_effect d g nv_gw_wf0 nv_held0) as (g' & Hg' & _).
    eexists. eapply DeliverDown; [done|by rewrite nv_down0| |done].
    unfold gatewayWriteLoop_step. rewrite (get_conn_Some conn s sc nv_conn0). cbn.
    unfold recv. by rewrite nv_down0.
Qed.

(** An accepted push to a room of a member on the gateway, at a time when
    the stream's queue is empty. *)
Lemma push_room_on_stream S s sc r req u rid :
  server_wf s → backed S s → streams_inv R s → gateways s !! gw = Some conn →
  conns s !! conn = Some sc → gc_closed sc = false → ch_buf (gc_sendCh sc) = [] →
  (0 < ch_cap (gc_sendCh sc))%nat →
  accepted r s → decode_request (hr_Body r) = Some req → rbr_RoomID req = rid →
  u ∉ S → present gw (presence s) u rid →
  let e := mkEnvelope InternalMsgBroadcast (Encode_ (mkBroadcastMessage rid 0 (rbr_Message req))) in
  ∃ resp s' sc', handleRoomBroadcastHTTP r s = Done (resp, s') ∧ resp_code resp = StatusOK ∧
    conns s' !! conn = Some sc' ∧ ch_buf (gc_sendCh sc') = [e].
Proof.
  intros [Hso Hrw] Hb Hinv Hreg Hc Ho Hbuf Hcap [Hpost Hready] Hreq Hrid HuS Hu e.
  destruct Hu as (p & Hp & _ & Hg & Hr). destruct (Hb u p HuS Hp) as (m & Hm & Hmg).
  rewrite Hr in Hm. rewrite Hg in Hmg. unfold handleRoomBroadcastHTTP, Roomserver.GetStatus.
  rewrite Hready, Hreq, decide_False, decide_False by naive_solver.
  unfold GetRoom. rewrite Hrid.
  destruct (rooms (roomSvc s) !! rid) as [room|] eqn:Hroom;
    [|unfold member in Hm; by rewrite Hroom in Hm].
  set (ids := GetRoomGatewayIDs rid (roomSvc s)).
  assert (gw ∈ ids) as Hin by (rewrite <-Hmg; by eapply GetRoomGatewayIDs_member).
  cbv zeta. rewrite decide_False by (intros Hl%nil_length_inv; rewrite Hl in Hin; set_solver).
  destruct (send_each_registered R s ids (λ _, e)) as (s' & Hs & _ & _ & _ & Hs');
    [done|apply NoDup_GetRoomGatewayIDs|].
  unfold send_to_all. fold e. rewrite Hs. eexists _, s', _. split; [done|]. split; [done|].
  rewrite (Hs' gw conn Hreg), Hc, decide_True by done. split; [done|].
  rewrite deliver_fits; [by rewrite Hbuf|done|]. rewrite Hbuf. simpl. lia.
Qed.

(** ... which the gateway sends to every member on line there. *)
Lemma broadcast_on_stream S n r req u0 rid :
  net_inv S n → queues_empty n → accepted r (n_srv n) → decode_request (hr_Body r) = Some req →
  rbr_RoomID req = rid → u0 ∉ S → present gw (presence (n_srv n)) u0 rid →
  let data := EncodeFrame (mkFrame MsgTypePushMessage 0 (rbr_Message req)) in
  ∃ resp s' sc' e g', handleRoomBroadcastHTTP r (n_srv n) = Done (resp, s') ∧
    resp_code resp = StatusOK ∧ conns s' !! conn = Some sc' ∧ ch_buf (gc_sendCh sc') = [e] ∧
    handleEnvelope e (n_gw n) = Done (false, g') ∧
    ∀ u, u ∉ S → present gw (presence (n_srv n)) u rid →
      ∃ ref c, connections (n_gw n) !! u = Some ref ∧ objects (n_gw n) !! ref = Some c ∧
        objects g' !! ref = Some (Send data (clock (n_gw n)) c).2.
Proof.
  intros Hi Hq Hacc Hreq Hrid Hu0S Hu0 data.
  pose proof (empty_queues_agree S n Hi Hq) as Hagree.
  destruct Hi as (sc & ms & ds & Hv & _). destruct (nv_open _ _ _ _ _ Hv) as [_ Ho].
  pose proof Hv as []. destruct nv_server0 as [Hwf Hb].
  destruct Hq as (_ & sc1 & Hc1 & Hbuf). rewrite nv_conn0 in Hc1. injection Hc1 as <-.
  destruct (push_room_on_stream S (n_srv n) sc r req u0 rid)
    as (resp & s' & sc' & Hs' & Hok & Hc' & Hbuf'); [done..|].
  destruct (handleBroadcast_run _ _ (n_gw n) nv_gw_wf0 nv_held0
    (Decode_Encode_ (mkBroadcastMessage rid 0 (rbr_Message req)))) as (g' & Hg' & _ & Hobj).
  eexists resp, s', sc', _, g'. split_and!; [done..| |].
  { unfold handleEnvelope. cbn. unfold mbind, G_bind. by rewrite Hg'. }
  intros u HuS (p & Hp & Hon & Hg & Hpr). destruct (Hagree u p HuS Hp Hon Hg) as [[ref Href] Hin].
  destruct (proj1 nv_gw_wf0 u ref Href) as (c & i & d & Hc & Hcu & _).
  exists ref, c. split_and!; [done..|]. rewrite Hobj, Hc, Hcu, decide_True; [done|].
  split; [|done]. rewrite elem_of_range_set. cbn. rewrite Hpr in Hin.
  destruct Hin as (us & Hus & Hu). by rewrite Hus.
Qed.
End network.

(** ** Properties *)
Section properties.
Context {SS : Type} `{SessionStoreLaws SS}.
Context `{Msgpack RoomRequest, Msgpack StatusResponse, Msgpack LeaveResponse,
  Msgpack CloseNotice}.
Context `{Msgpack GatewayInfo, MsgpackLaws JoinRoomRequest, MsgpackLaws LeaveRoomRequest,
  MsgpackLaws ResumeRequest, MsgpackLaws DisconnectNotify, Msgpack BatchReSync,
  Msgpack ReSyncComplete}.
Context `{MsgpackLaws JoinRoomAck, MsgpackLaws BroadcastMessage, MsgpackLaws UnicastMessage,
  MsgpackLaws MulticastMessage, Msgpack EpochNotify, MsgpackLaws RoomCloseNotify}.
Context `{JsonRequest UnicastRequest, JsonRequest MulticastRequest,
  JsonRequest RoomBroadcastRequest, JsonRequest GlobalBroadcastRequest,
  JsonRequest RoomCloseRequest}.
Context `{O : MapOrder}.
Implicit Types (S : gset string) (s : Server SS) (g : Gateway) (n : Net SS)
  (u rid gw : string) (conn : ConnRef).


(** A join of another room: the roomserver moves the user, but the
    acknowledgement only adds the new local room, so that the user stays
    listed in the old one and goes on receiving its broadcasts. *)
Theorem room_change_keeps_old_room frame req ref c old conn sc s g now :
  Decode (f_Payload frame) = Some req → g_status g = StatusNormal → held g = [] →
  objects g !! ref = Some c → connections g !! c_UserID c = Some ref →
  in_local (localRooms g) old (c_UserID c) → rq_RoomID req ≠ old →
  serves_stream s conn sc →
  let u := c_UserID c in let rid := rq_RoomID req in let gw := cfg_ID (g_cfg g) in
  ∃ g1 s1 g2, handleJoinRoom ref frame g = Done (tt, g1) ∧
    handleGatewayMessage conn (join_envelope gw u rid) now s = Done s1 ∧
    handleEnvelope (ack_envelope u rid true ErrCodeSuccess "") g1 = Done (false, g2) ∧
    presence s1 !! u = Some (mkPresence rid gw MemberStatusOnline None) ∧
    in_local (localRooms g2) rid u ∧ in_local (localRooms g2) old u.
Proof.
  intros Hd Hst Hh Hc Hu Hold Hne Hs u rid gw.
  destruct (server_join conn sc gw u rid now s Hs) as (s1 & Hs1 & _ & Hp).
  set (c1 := set_c_join JoinStatePending rid c).
  exists (queued [join_envelope gw u rid] (put ref c1 g)), s1. eexists.
  split; [by apply handleJoinRoom_run|]. split; [done|]. split.
  { apply (gateway_ack u rid ErrCodeSuccess "" ref c1); [done|done|cbn; apply lookup_insert_eq]. }
  split; [by rewrite Hp, lookup_insert_eq|].
  split; [apply in_local_inserted|by apply in_local_insert].
Qed.

(** A resume that is refused hides the end of the connection: the client
    is put back to the initial state although its session goes on, so that
    closing the connection sends nothing.  The roomserver keeps the user on
    line in its room, and no timeout check will ever remove it. *)
Theorem refused_resume_hides_close `{!MapOrder} frame req ref c p conn sc s g now tmo later :
  Decode (f_Payload frame) = Some req → gw_wf g → held g = [] → g_status g = StatusNormal →
  objects g !! ref = Some c → connections g !! c_UserID c = Some ref →
  serves_stream s conn sc → presence s !! c_UserID c = Some p →
  p_status p = MemberStatusOnline → p_room p ≠ rq_RoomID req →
  let u := c_UserID c in let rid := rq_RoomID req in let gw := cfg_ID (g_cfg g) in
  let ack := mkJoinRoomAck u rid false ErrCodeRoomMismatch (err_message ErrCodeRoomMismatch) in
  let e := up_envelope gw (UpResume u rid) in
  ∃ g1 s1 g2 g3, handleResume ref frame g = Done (tt, g1) ∧
    rs_sendCh g1 = sent e (rs_sendCh g) ∧
    handleGatewayMessage conn e now s = Done s1 ∧
    conns s1 !! conn = Some (deliver [down_envelope (DownAck ack)] sc) ∧
    handleEnvelope (down_envelope (DownAck ack)) g1 = Done (false, g2) ∧
    Close ref "read_error" g2 = Done (tt, g3) ∧
    connections g3 !! u = None ∧ rs_sendCh g3 = rs_sendCh g1 ∧
    presence (checkDisconnectTimeout tmo later s1) !! u = Some p.
Proof.
  intros Hd Hwf Hh Hst Hc Hreg (Hsw & Hcn & Hok & Ho) Hp Hon Hroom u rid gw ack e.
  set (c1 := set_c_join JoinStatePending rid c). set (g1 := queued [e] (put ref c1 g)).
  assert (gw_wf g1) as Hwf1.
  { apply (gw_wf_same (set_objects (<[ref := c1]> (objects g)) g)); [done..|].
    by eapply gw_wf_put. }
  destruct (gateway_refusal u rid ErrCodeRoomMismatch (err_message ErrCodeRoomMismatch) ref c1 g1)
    as (c2 & Hack & Hu2 & Hj2 & Hwf2); [done..|cbn; apply lookup_insert_eq|].
  destruct (close_unconfirmed ref c2 "read_error" (put ref c2 g1)) as (g3 & Hcl & Hcs & Hq);
    [done|done|done|cbn; apply lookup_insert_eq|by rewrite Hu2|congruence|].
  pose proof (Resume_cases u rid gw now s (proj1 Hsw)) as Hres. fold u in Hp. rewrite Hp in Hres.
  rewrite decide_True in Hres by done.
  eexists g1, _, (put ref c2 g1), g3. split; [by apply handleResume_run|].
  split; [done|]. split; [by apply handle_up|].
  split; [cbn; rewrite lookup_insert_eq, Hres; done|]. split; [exact Hack|].
  split; [exact Hcl|]. split; [by rewrite Hcs, Hu2, lookup_delete_eq|]. split; [by rewrite Hq|].
  cbn [run_ctl up_op]. rewrite Hres. cbn [snd].
  destruct (checkDisconnectTimeout_spec tmo later (put_conn conn (deliver (down_envelope <$>
    up_acks gw (UpResume u rid) now s) sc) s)) as (_ & -> & _); [done|].
  apply map_lookup_filter_Some. split; [done|]. intros [Hdis _]. cbn in Hdis. congruence.
Qed.
End properties.

(** ** Concrete instances: "u1" joins "r1" *)
Section examples.
Import ToyCodec.
#[local] Existing Instance default_order.
#[local] Instance CloseNotice_eq_dec : EqDecision CloseNotice.
Proof. solve_decision. Defined.
#[local] Instance CloseNotice_countable : Countable CloseNotice.
Proof.
  refine (inj_countable' (λ m, (cn_RoomID m, cn_Reason m)) (λ '(a, b), mkCloseNotice a b) _).
  by intros [].
Defined.
#[local] Instance demo_unicast : JsonRequest UnicastRequest :=
  λ body, Some (mkUnicastRequest "r1" "u1" body).
#[local] Instance demo_multicast : JsonRequest MulticastRequest :=
  λ body, Some (mkMulticastRequest "r1" ["u1"; "u9"; "u2"]%string body).
#[local] Instance demo_room_broadcast : JsonRequest RoomBroadcastRequest :=
  λ body, Some (mkRoomBroadcastRequest "r1" body).
#[local] Instance demo_global : JsonRequest GlobalBroadcastRequest :=
  λ body, Some (mkGlobalBroadcastRequest body).
#[local] Instance demo_room_close : JsonRequest RoomCloseRequest :=
  λ body, Some (mkRoomCloseRequest "r1" "over").

(** The state a computation ends with. *)
Definition end_state {A B} (d : B) (m : outcome (A * B)) : B :=
  match m with Done (_, x) => x | _ => d end.

(** A server in service with the stream 0 registered as "gw-1", whose
    epoch notice has been written. *)
Definition net_events : list StreamEvent :=
  [SEOpen; SERecv 0 (msg_info "gw-1") 1; SEWrite 0 true].

Definition demo_srv : Server SessionService :=
  set_status ServerStatusReady (end_state demo_server (run_streams (∅, demo_server) net_events)).

Lemma demo_srv_inv : streams_inv {[0%nat]} demo_srv.
Proof.
  destruct (run_streams_inv ∅ demo_server net_events) as (R & s & Hrun & Hinv).
  - apply streams_inv_new.
  - split; [done|]. intros ? HR. vm_compute in HR. injection HR as <-.
    split; [by vm_compute|]. intros ? HR. vm_compute in HR. injection HR as <-.
    split; [by vm_compute|done].
  - assert (R = {[0%nat]} ∧ set_status ServerStatusReady s = demo_srv) as [-> <-].
    + vm_compute in Hrun. injection Hrun as <- <-. split; vm_compute; reflexivity.
    + by apply (streams_inv_same _ s).
Qed.

Definition demo_sc : GatewayConnection := default demo_stream (conns demo_srv !! 0%nat).

Definition demo_net : Net SessionService := mkNet demo_gw demo_srv.

Lemma demo_net_start : net_start (H0 := SessionService_laws) {[0%nat]} 0%nat "gw-1" demo_net.
Proof.
  eapply fresh_net_start;
    [apply demo_gw_wf|done|done|done|done| |apply demo_srv_inv|set_solver|by vm_compute|
     by vm_compute|apply Nat.ltb_lt; by vm_compute|by vm_compute|intros u; by vm_compute].
  split; [apply NewSessionService_wf|apply NewRoomService_wf].
Qed.

Definition demo_join : list byte := EncodeFrame (join_frame "r1").
Definition demo_g1 : Gateway :=
  end_state demo_gw (readLoop_step None 0 "" 0%nat (Some demo_join) demo_gw).
Definition demo_g2 : Gateway :=
  match sendLoop_step true demo_g1 with Some (_, _, g) => g | None => demo_g1 end.
Definition demo_e1 : Envelope := join_envelope "gw-1" "u1" "r1".
Definition demo_s1 : Server SessionService :=
  match handleGatewayMessage 0%nat demo_e1 9 demo_srv with Done s => s | _ => demo_srv end.
Definition demo_s2 : Server SessionService :=
  match gatewayWriteLoop_step (λ _, true) 0%nat demo_s1 with
  | Done (Some (_, s)) => s | _ => demo_s1 end.
Definition demo_ack : Envelope := ack_envelope "u1" "r1" true ErrCodeSuccess "".
Definition demo_g3 : Gateway := end_state demo_g2 (handleEnvelope demo_ack demo_g2).

Lemma demo_read :
  net_step (H0 := SessionService_laws) {[0%nat]} 0%nat "gw-1" ∅ demo_net (mkNet demo_g1 demo_srv).
Proof.
  assert (up_room 2 demo_gw) as Hroom by (apply Nat.leb_le; by vm_compute).
  pose proof (StepRead (H0 := SessionService_laws) 0%nat "gw-1" demo_gw demo_g1 demo_srv 0%nat
    demo_conn None 0 "" demo_join true) as Hread.
  rewrite decide_True in Hread by done. apply StepOwn, Hread; by vm_compute.
Qed.

Lemma demo_up : deliver_step 0%nat (mkNet demo_g1 demo_srv) (mkNet demo_g2 demo_s1).
Proof.
  eapply (DeliverUp _ _ _ _ _ demo_e1 _ 9);
    [by vm_compute..|apply Nat.ltb_lt; by vm_compute|by vm_compute].
Qed.

Lemma demo_down : deliver_step 0%nat (mkNet demo_g2 demo_s1) (mkNet demo_g3 demo_s2).
Proof. eapply (DeliverDown _ _ _ _ _ demo_ack [] _ false); by vm_compute. Qed.

Lemma demo_run :
  net_run (H0 := SessionService_laws) {[0%nat]} 0%nat "gw-1" ∅ demo_net (mkNet demo_g3 demo_s2).
Proof.
  rewrite <-(union_empty_r_L ∅). eapply net_run_step; [|apply StepOwn, StepDeliver, demo_down].
  rewrite <-(union_empty_r_L ∅). eapply net_run_step; [|apply StepOwn, StepDeliver, demo_up].
  rewrite <-(union_empty_r_L ∅). eapply net_run_step; [apply net_run_refl|apply demo_read].
Qed.

Lemma demo_quiet : queues_empty 0%nat (mkNet demo_g3 demo_s2).
Proof. split; [by vm_compute|]. eexists. split; by vm_compute. Qed.

(** The connection of "u1" afterwards. *)
Definition demo_member : Connection := default demo_conn (objects demo_g3 !! 0%nat).

Lemma demo_end_view : ∃ sc ms ds,
  net_view (H0 := SessionService_laws) {[0%nat]} 0%nat "gw-1" ∅ (mkNet demo_g3 demo_s2) sc ms ds.
Proof.
  assert (net_inv (H0 := SessionService_laws) {[0%nat]} 0%nat "gw-1" ∅ (mkNet demo_g3 demo_s2))
    as (sc & ms & ds & Hv & _); [|by exists sc, ms, ds].
  eapply net_run_inv; [apply net_start_inv, demo_net_start|apply demo_run].
Qed.

Lemma demo_g3_wf : gw_wf demo_g3.
Proof. by destruct demo_end_view as (sc & ms & ds & []). Qed.

Lemma demo_serves_s2 : serves_stream (H0 := SessionService_laws) demo_s2 0%nat
  (default demo_stream (conns demo_s2 !! 0%nat)).
Proof.
  destruct demo_end_view as (sc & ms & ds & Hv). destruct (nv_open _ _ _ _ _ _ _ _ Hv) as [Hok Ho].
  pose proof Hv as []. cbn in *. rewrite nv_conn0. by split_and!; [apply nv_server0|..].
Qed.


(** "u1", now in "r1", joins "r2" ... *)
Lemma room_change_keeps_old_room_witness :
  ∃ g1 s1 g2, handleJoinRoom 0%nat (join_frame "r2") demo_g3 = Done (tt, g1) ∧
    handleGatewayMessage 0%nat (join_envelope "gw-1" "u1" "r2") 12 demo_s2 = Done s1 ∧
    handleEnvelope (ack_envelope "u1" "r2" true ErrCodeSuccess "") g1 = Done (false, g2) ∧
    presence (H0 := SessionService_laws) s1 !! "u1"%string =
      Some (mkPresence "r2" "gw-1" MemberStatusOnline None) ∧
    in_local (localRooms g2) "r2" "u1" ∧ in_local (localRooms g2) "r1" "u1".
Proof.
  apply (room_change_keeps_old_room (H0 := SessionService_laws) (join_frame "r2")
    (mkRoomRequest "r2") 0%nat demo_member "r1" 0%nat (default demo_stream (conns demo_s2 !! 0%nat))
    demo_s2 demo_g3 12); [by vm_compute..| |done|apply demo_serves_s2].
  exists {["u1"%string]}. split; [by vm_compute|]. by apply elem_of_singleton.
Defined.

(** ... or asks to resume there. *)
Lemma refused_resume_hides_close_witness :
  let sc := default demo_stream (conns demo_s2 !! 0%nat) in
  let ack := mkJoinRoomAck "u1" "r2" false ErrCodeRoomMismatch
    (err_message ErrCodeRoomMismatch) in
  let e := up_envelope "gw-1" (UpResume "u1" "r2") in
  ∃ g1 s1 g2 g3, handleResume 0%nat (join_frame "r2") demo_g3 = Done (tt, g1) ∧
    rs_sendCh g1 = sent e (rs_sendCh demo_g3) ∧
    handleGatewayMessage 0%nat e 12 demo_s2 = Done s1 ∧
    conns s1 !! 0%nat = Some (deliver [down_envelope (DownAck ack)] sc) ∧
    handleEnvelope (down_envelope (DownAck ack)) g1 = Done (false, g2) ∧
    Close 0%nat "read_error" g2 = Done (tt, g3) ∧
    connections g3 !! "u1"%string = None ∧ rs_sendCh g3 = rs_sendCh g1 ∧
    presence (H0 := SessionService_laws) (checkDisconnectTimeout 60000000000 (10 ^ 15) s1)
      !! "u1"%string = Some (mkPresence "r1" "gw-1" MemberStatusOnline None).
Proof.
  apply (refused_resume_hides_close (H0 := SessionService_laws) (join_frame "r2")
    (mkRoomRequest "r2") 0%nat demo_member (mkPresence "r1" "gw-1" MemberStatusOnline None)
    0%nat (default demo_stream (conns demo_s2 !! 0%nat)) demo_s2 demo_g3 12);
    [by vm_compute|apply demo_g3_wf|by vm_compute..|apply demo_serves_s2|by vm_compute|done|done].
Defined.
End examples.
