(* ===== verification/Cluster.v ===== *)
(** Several gateways on one roomserver: each member of the cluster takes the
    steps of Network.v against the shared roomserver.  To a member the steps
    of the others are messages on other streams, so that the invariant of
    Network.v holds at all of them; on top of it, deliveries of all members
    come to an end, and a room broadcast reaches the users of every
    member. *)

From Stdlib Require Import ZArith Lia.
From stdpp Require Import base tactics gmap strings numbers list relations.
From S2P Require Import Prelude GoInt Protocol Frame Chan SessionStore SessionService RoomService Recovery HashRing Roomserver GrpcServer PushApi Connection Gateway GatewayHandler RoomserverClient System Network.

Local Open Scope Z_scope.

(** The gateways, and the roomserver. *)
Record Cluster (SS : Type) := mkCluster { k_gws : gmap string Gateway; k_srv : Server SS }.
Arguments mkCluster {SS}.
Arguments k_gws {SS}.
Arguments k_srv {SS}.

(** A sum over a list in which one element shrinks and none grows. *)
Lemma sum_list_with_le {A} (f f' : A → nat) l :
  (∀ x, x ∈ l → (f' x ≤ f x)%nat) → (sum_list_with f' l ≤ sum_list_with f l)%nat.
Proof.
  induction l as [|x l IH]; intros Hle; cbn; [lia|].
  assert (f' x ≤ f x)%nat by (apply Hle; by left).
  assert (sum_list_with f' l ≤ sum_list_with f l)%nat by (apply IH; intros; apply Hle; by right).
  lia.
Qed.

Lemma sum_list_with_lt {A} (f f' : A → nat) l x :
  (∀ y, y ∈ l → (f' y ≤ f y)%nat) → x ∈ l → (f' x < f x)%nat →
  (sum_list_with f' l < sum_list_with f l)%nat.
Proof.
  intros Hle Hin Hlt. apply list_elem_of_split in Hin as (l1 & l2 & ->).
  rewrite !sum_list_with_app. cbn.
  assert (sum_list_with f' l1 ≤ sum_list_with f l1)%nat
    by (apply sum_list_with_le; intros; apply Hle; set_solver).
  assert (sum_list_with f' l2 ≤ sum_list_with f l2)%nat
    by (apply sum_list_with_le; intros; apply Hle; set_solver).
  lia.
Qed.

Section cluster.
Context {SS : Type} `{SessionStoreLaws SS}.
Context `{Msgpack RoomRequest, Msgpack StatusResponse, Msgpack LeaveResponse,
  Msgpack CloseNotice}.
Context `{Msgpack GatewayInfo, MsgpackLaws JoinRoomRequest, MsgpackLaws LeaveRoomRequest,
  MsgpackLaws ResumeRequest, MsgpackLaws DisconnectNotify, Msgpack BatchReSync,
  Msgpack ReSyncComplete}.
Context `{MsgpackLaws JoinRoomAck, MsgpackLaws BroadcastMessage, MsgpackLaws UnicastMessage,
  MsgpackLaws MulticastMessage, Msgpack EpochNotify, MsgpackLaws RoomCloseNotify}.
Context `{JsonRequest UnicastRequest, JsonRequest MulticastRequest,
  JsonRequest RoomBroadcastRequest, JsonRequest GlobalBroadcastRequest,
  JsonRequest RoomCloseRequest}.
Context `{O : MapOrder}.
(** The running streams, and the members: the stream each gateway is
    registered with. *)
Context (R : gset ConnRef) (M : gmap string ConnRef).
Implicit Types (S X : gset string) (s : Server SS) (g : Gateway) (k : Cluster SS)
  (u rid gw : string) (conn : ConnRef).

(** A step at one member, with the users it may leave in disagreement. *)
Inductive cluster_step : gset string → Cluster SS → Cluster SS → Prop :=
  | MemberStep X gs s gw conn g g' s' :
    M !! gw = Some conn → gs !! gw = Some g →
    gateway_step conn gw X (mkNet g s) (mkNet g' s') →
    cluster_step X (mkCluster gs s) (mkCluster (<[gw := g']> gs) s').

(** A run, with all of them. *)
Inductive cluster_run : gset string → Cluster SS → Cluster SS → Prop :=
  | cluster_run_refl k : cluster_run ∅ k k
  | cluster_run_step S X k1 k2 k3 :
    cluster_run S k1 k2 → cluster_step X k2 k3 → cluster_run (S ∪ X) k1 k3.

(** A delivery at one member. *)
Inductive cluster_deliver : Cluster SS → Cluster SS → Prop :=
  | MemberDeliver gs s gw conn g g' s' :
    M !! gw = Some conn → gs !! gw = Some g →
    deliver_step conn (mkNet g s) (mkNet g' s') →
    cluster_deliver (mkCluster gs s) (mkCluster (<[gw := g']> gs) s').

(** What holds at every member. *)
Definition everywhere (P : ConnRef → string → Net SS → Prop) k : Prop :=
  ∀ gw conn, M !! gw = Some conn →
    ∃ g, k_gws k !! gw = Some g ∧ P conn gw (mkNet g (k_srv k)).

Definition cluster_start : Cluster SS → Prop := everywhere (net_start R).
Definition cluster_inv S : Cluster SS → Prop := everywhere (λ conn gw, net_inv R conn gw S).
Definition all_quiet : Cluster SS → Prop := everywhere (λ conn _, queues_empty conn).
Definition all_agree S : Cluster SS → Prop := everywhere (λ _ gw, agree gw S).

Lemma everywhere_impl (P Q : ConnRef → string → Net SS → Prop) k :
  (∀ conn gw n, P conn gw n → Q conn gw n) → everywhere P k → everywhere Q k.
Proof. intros Hpq Hp gw conn Hm. destruct (Hp gw conn Hm) as (g & ? & ?). eauto. Qed.

Lemma everywhere_and (P Q : ConnRef → string → Net SS → Prop) k :
  everywhere P k → everywhere Q k → everywhere (λ conn gw n, P conn gw n ∧ Q conn gw n) k.
Proof.
  intros Hp Hq gw conn Hm. destruct (Hp gw conn Hm) as (g & Hg & ?).
  destruct (Hq gw conn Hm) as (g' & Hg' & ?). simplify_eq. eauto.
Qed.

(** ** The other members *)
Lemma up_foreign gw gw1 (m : UpMsg) now :
  gw1 ≠ gw → Forall (foreign gw) (requested (up_envelope gw1 m) now).
Proof. intros Hne. rewrite requested_up. constructor; [by destruct m|done]. Qed.

Lemma streams_differ S conn conn1 gw gw1 g g1 s :
  net_inv R conn gw S (mkNet g s) → net_inv R conn1 gw1 S (mkNet g1 s) → gw1 ≠ gw → conn1 ≠ conn.
Proof.
  intros (sc & ms & ds & Hv & _) (sc1 & ms1 & ds1 & Hv1 & _) Hne ->.
  destruct Hv as [], Hv1 as []. cbn in *. destruct nv_streams as (_ & _ & Htab).
  apply Htab in nv_registered as (_ & Hid & _). apply Htab in nv_registered0 as (_ & Hid1 & _).
  congruence.
Qed.

(** A message of one member is the message of another stream to the others,
    whose stream it leaves alone. *)
Lemma up_elsewhere S conn conn1 gw gw1 g g1 s s' (m : UpMsg) now :
  net_inv R conn gw S (mkNet g s) → net_inv R conn1 gw1 S (mkNet g1 s) → gw1 ≠ gw →
  handleGatewayMessage conn1 (up_envelope gw1 m) now s = Done s' →
  net_step R conn gw ∅ (mkNet g s) (mkNet g s') ∧ conns s' !! conn = conns s !! conn.
Proof.
  intros Hi Hi1 Hne Hrun. pose proof (streams_differ S conn conn1 gw gw1 g g1 s Hi Hi1 Hne) as Hcn.
  destruct Hi1 as (sc1 & ms1 & ds1 & Hv1 & _). destruct (nv_open _ _ _ _ _ _ _ _ Hv1) as [Hok _].
  pose proof (nv_conn _ _ _ _ _ _ _ _ Hv1) as Hc1.
  pose proof (nv_running _ _ _ _ _ _ _ _ Hv1) as HR. cbn in Hc1. split.
  - apply (StepOther _ _ _ g s s' conn1 (up_envelope gw1 m) now);
      [done..|by destruct m|by apply up_foreign|done].
  - rewrite (handle_up gw1 conn1 m now s sc1) in Hrun by done. simplify_eq. cbn.
    rewrite lookup_insert_ne by done.
    by rewrite (proj1 (run_ctl_frame s (up_op gw1 m now))).
Qed.

Lemma deliver_elsewhere S conn conn1 gw gw1 g g1 g1' s s' :
  net_inv R conn gw S (mkNet g s) → net_inv R conn1 gw1 S (mkNet g1 s) → gw1 ≠ gw →
  deliver_step conn1 (mkNet g1 s) (mkNet g1' s') →
  net_step R conn gw ∅ (mkNet g s) (mkNet g s') ∧ conns s' !! conn = conns s !! conn.
Proof.
  intros Hi Hi1 Hne Hd. pose proof (streams_differ S conn conn1 gw gw1 g g1 s Hi Hi1 Hne) as Hcn.
  pose proof Hi1 as (sc1 & ms1 & ds1 & Hv1 & _).
  pose proof (nv_conn _ _ _ _ _ _ _ _ Hv1) as Hc1.
  pose proof (nv_running _ _ _ _ _ _ _ _ Hv1) as HR. cbn in Hc1. inversion Hd; subst.
  - destruct (take_up R conn1 gw1 S g1 s sc1 ms1 ds1 e g1' Hv1) as (m & ms & _ & -> & _); [done|].
    by eapply (up_elsewhere S conn conn1 gw gw1 g g1).
  - split; [by eapply StepOtherWrite|]. simplify_eq.
    match goal with Hw : gatewayWriteLoop_step _ _ _ = _, Hb : ch_buf _ = _ |- _ =>
      unfold gatewayWriteLoop_step in Hw; rewrite (get_conn_Some conn1 s sc1 Hc1) in Hw;
      cbn in Hw; unfold recv in Hw; rewrite Hb in Hw; injection Hw as <- end.
    cbn. by rewrite lookup_insert_ne.
Qed.

Lemma step_elsewhere S X conn conn1 gw gw1 g g1 g1' s s' :
  net_inv R conn gw S (mkNet g s) → net_inv R conn1 gw1 S (mkNet g1 s) → gw1 ≠ gw →
  gateway_step conn1 gw1 X (mkNet g1 s) (mkNet g1' s') →
  net_inv R conn gw (S ∪ X) (mkNet g s').
Proof.
  intros Hi Hi1 Hne Hst.
  assert (∀ Y, Y ⊆ X → net_step R conn gw Y (mkNet g s) (mkNet g s') →
    net_inv R conn gw (S ∪ X) (mkNet g s')) as Hseen.
  { intros Y HY Hs. eapply net_inv_mono; [|by eapply net_step_inv]. set_solver. }
  assert (net_inv R conn gw (S ∪ X) (mkNet g s)) by (eapply net_inv_mono; [|done]; set_solver).
  inversion Hst; subst; try done.
  - destruct (deliver_elsewhere S conn conn1 gw gw1 g g1 g1' s s') as [Hs _]; [done..|].
    by eapply (Hseen ∅).
  - match goal with Hh : handleGatewayMessage conn1 (up_envelope gw1 ?m) ?now s = _ |- _ =>
      destruct (up_elsewhere S conn conn1 gw gw1 g g1 s s' m now) as [Hs _]; [done..|] end.
    eapply (Hseen ∅); [set_solver|done].
  - eapply Hseen; [|by apply StepOwn, StepTick]. done.
  - eapply Hseen; [|by eapply StepOwn, StepPush]. done.
  - eapply Hseen; [|by eapply StepOwn, StepRoomClose]. done.
Qed.

(** ** Runs *)
Lemma cluster_step_inv S X k k' :
  cluster_inv S k → cluster_step X k k' → cluster_inv (S ∪ X) k'.
Proof.
  intros Hi Hst gw conn Hm. destruct Hst as [X gs s gw1 conn1 g1 g1' s' Hm1 Hg1 Hst]. cbn in *.
  destruct (Hi gw1 conn1 Hm1) as (? & ? & Hgi1), (Hi gw conn Hm) as (g & Hg & Hgi). simplify_eq/=.
  destruct (decide (gw = gw1)) as [->|Hne].
  - simplify_eq. exists g1'. rewrite lookup_insert_eq. split; [done|].
    by eapply net_step_inv, StepOwn.
  - exists g. rewrite lookup_insert_ne by done. split; [done|].
    by eapply (step_elsewhere S X conn conn1 gw gw1 g g1).
Qed.

Lemma cluster_start_inv k : cluster_start k → cluster_inv ∅ k.
Proof. apply everywhere_impl. intros conn gw n. apply net_start_inv. Qed.

Lemma cluster_reachable_inv S k0 k : cluster_start k0 → cluster_run S k0 k → cluster_inv S k.
Proof.
  intros Hst%cluster_start_inv Hr. induction Hr; [done|]. eauto using cluster_step_inv.
Qed.

Lemma cluster_deliver_step k k' : cluster_deliver k k' → cluster_step ∅ k k'.
Proof. intros []. by eapply MemberStep, StepDeliver. Qed.

Lemma cluster_deliver_inv S k k' : cluster_inv S k → cluster_deliver k k' → cluster_inv S k'.
Proof.
  intros Hi Hd%cluster_deliver_step. rewrite <-(union_empty_r_L S). by eapply cluster_step_inv.
Qed.

Lemma quiet_cluster_agrees S k : cluster_inv S k → all_quiet k → all_agree S k.
Proof.
  intros Hi Hq. eapply everywhere_impl; [|by apply (everywhere_and _ _ _ Hi Hq)].
  intros conn gw n [? ?]. by eapply empty_queues_agree.
Qed.

(** ** Deliveries come to an end *)

(** The messages that wait at a member: those of the gateway count twice, as
    the roomserver may answer them. *)
Definition waiting_at k (m : string * ConnRef) : nat :=
  match k_gws k !! m.1, conns (k_srv k) !! m.2 with
  | Some g, Some sc => 2 * length (ch_buf (rs_sendCh g)) + length (ch_buf (gc_sendCh sc))
  | _, _ => 0
  end.

Definition waiting k : nat := sum_list_with (waiting_at k) (map_to_list M).

Lemma deliver_less S k k' : cluster_inv S k → cluster_deliver k k' → (waiting k' < waiting k)%nat.
Proof.
  intros Hi Hd. destruct Hd as [gs s gw1 conn1 g1 g1' s' Hm1 Hg1 Hd].
  destruct (Hi gw1 conn1 Hm1) as (? & ? & Hgi1). simplify_eq/=.
  destruct (deliver_step_delivers R conn1 gw1 S _ _ Hgi1 Hd) as [Hgi' Hless].
  assert (waiting_at (mkCluster (<[gw1:=g1']> gs) s') (gw1, conn1) <
    waiting_at (mkCluster gs s) (gw1, conn1))%nat as Hlt.
  { destruct Hgi1 as (sc & ? & ? & Hv & _), Hgi' as (sc' & ? & ? & Hv' & _).
    pose proof (nv_conn _ _ _ _ _ _ _ _ Hv) as Hc. pose proof (nv_conn _ _ _ _ _ _ _ _ Hv') as Hc'.
    unfold waiting_at. cbn in *. rewrite lookup_insert_eq, Hg1, Hc, Hc'.
    apply (Hless sc sc' Hc Hc'). }
  unfold waiting. eapply (sum_list_with_lt _ _ _ (gw1, conn1));
    [|by apply elem_of_map_to_list|exact Hlt].
  intros [gw conn] Hm%elem_of_map_to_list. destruct (decide (gw = gw1)) as [->|Hne].
  - simplify_eq. lia.
  - destruct (Hi gw conn Hm) as (g & Hg & Hgi). destruct (Hi gw1 conn1 Hm1) as (? & ? & Hgi1').
    simplify_eq/=.
    destruct (deliver_elsewhere S conn conn1 gw gw1 g g1 g1' s s') as [_ Hc]; [done..|].
    unfold waiting_at. cbn. by rewrite lookup_insert_ne, Hc.
Qed.

Lemma deliveries_counted S n k k' :
  cluster_inv S k → nsteps cluster_deliver n k k' →
  cluster_inv S k' ∧ (n + waiting k' ≤ waiting k)%nat.
Proof.
  intros Hi Hn. induction Hn as [k|n k1 k2 k3 Hd Hn IH]; [split; [done|lia]|].
  pose proof (deliver_less S k1 k2 Hi Hd).
  destruct IH; [by eapply cluster_deliver_inv|]. split; [done|lia].
Qed.

Lemma deliver_or_quiet S k : cluster_inv S k → all_quiet k ∨ ∃ k', cluster_deliver k k'.
Proof.
  intros Hi.
  assert (∀ l : list (string * ConnRef), (∀ m, m ∈ l → M !! m.1 = Some m.2) →
    (∃ k', cluster_deliver k k') ∨
    ∀ m, m ∈ l → ∃ g, k_gws k !! m.1 = Some g ∧ queues_empty m.2 (mkNet g (k_srv k))) as Hl.
  { induction l as [|[gw conn] l IH]; intros Hl; [right; set_solver|].
    destruct IH as [|Hq]; [set_solver|by left|].
    destruct k as [gs s]. assert (M !! gw = Some conn) as Hm by (apply (Hl (gw, conn)); by left).
    destruct (Hi gw conn Hm) as (g & Hg & Hgi).
    destruct (delivery_possible R conn gw S _ Hgi) as [Hq1|[[g' s'] Hd]].
    - right. intros m [->|Hin]%elem_of_cons; [by exists g|by apply Hq].
    - left. eexists. by eapply MemberDeliver. }
  destruct (Hl (map_to_list M)) as [?|Hq]; [|by right|].
  - intros [gw conn]. apply elem_of_map_to_list.
  - left. intros gw conn Hm. by apply (Hq (gw, conn)), elem_of_map_to_list.
Qed.

(** ** A room broadcast at all members *)
Lemma broadcast_at S k r req gw conn u rid :
  cluster_inv S k → all_quiet k → accepted r (k_srv k) →
  decode_request (hr_Body r) = Some req → rbr_RoomID req = rid → M !! gw = Some conn →
  u ∉ S → present gw (presence (k_srv k)) u rid →
  let data := EncodeFrame (mkFrame MsgTypePushMessage 0 (rbr_Message req)) in
  ∃ resp s', handleRoomBroadcastHTTP r (k_srv k) = Done (resp, s') ∧ resp_code resp = StatusOK ∧
    ∃ g sc' e g' ref c, k_gws k !! gw = Some g ∧
      conns s' !! conn = Some sc' ∧ ch_buf (gc_sendCh sc') = [e] ∧
      handleEnvelope e g = Done (false, g') ∧
      connections g !! u = Some ref ∧ objects g !! ref = Some c ∧
      objects g' !! ref = Some (Send data (clock g) c).2.
Proof.
  intros Hi Hq Hacc Hreq Hrid Hm HuS Hu data. destruct (Hi gw conn Hm) as (g & Hg & Hgi).
  destruct (Hq gw conn Hm) as (? & ? & Hgq). simplify_eq.
  destruct (broadcast_on_stream R conn gw S _ r req u _ Hgi Hgq Hacc Hreq eq_refl HuS Hu)
    as (resp & s' & sc' & e & g' & Hrun & Hok & Hc & Hb & He & Hall).
  destruct (Hall u HuS Hu) as (ref & c & ? & ? & ?). exists resp, s'. split_and!; [done..|].
  by exists g, sc', e, g', ref, c.
Qed.

(** ** Schedules
    The reads and deliveries of a run as a list that can be executed. *)
Inductive Action :=
  | ActRead (gw : string) (ref : CRef) (data : list byte)
  | ActUp (gw : string) (now : Z)
  | ActDown (gw : string).

Definition act_gw (a : Action) : string :=
  match a with ActRead gw _ _ | ActUp gw _ | ActDown gw => gw end.

#[local] Existing Instance up_room_dec.

Definition act_read ref data g s : option (Gateway * Server SS) :=
  c ← objects g !! ref;
  guard (connections g !! c_UserID c = Some ref ∧ c_closeCh c = false ∧ up_room 2 g);;
  match readLoop_step None 0 "" ref (Some data) g with
  | Done (_, g') => Some (g', s)
  | _ => None
  end.

Definition act_up conn now g s : option (Gateway * Server SS) :=
  sc ← conns s !! conn;
  guard (length (ch_buf (gc_sendCh sc)) < ch_cap (gc_sendCh sc))%nat;;
  match sendLoop_step true g with
  | Some (true, e, g') =>
    match handleGatewayMessage conn e now s with Done s' => Some (g', s') | _ => None end
  | _ => None
  end.

Definition act_down conn g s : option (Gateway * Server SS) :=
  sc ← conns s !! conn;
  e ← head (ch_buf (gc_sendCh sc));
  match gatewayWriteLoop_step (λ _, true) conn s, handleEnvelope e g with
  | Done (Some (true, s')), Done (_, g') => Some (g', s')
  | _, _ => None
  end.

Definition act (a : Action) k : option (Cluster SS) :=
  conn ← M !! act_gw a;
  g ← k_gws k !! act_gw a;
  '(g', s') ← match a with
    | ActRead _ ref data => act_read ref data g (k_srv k)
    | ActUp _ now => act_up conn now g (k_srv k)
    | ActDown _ => act_down conn g (k_srv k)
    end;
  Some (mkCluster (<[act_gw a := g']> (k_gws k)) s').

Fixpoint run_actions (acts : list Action) k : option (Cluster SS) :=
  match acts with [] => Some k | a :: acts => k' ← act a k; run_actions acts k' end.

Definition is_delivery (a : Action) : Prop :=
  match a with ActRead _ _ _ => False | _ => True end.

Lemma act_up_deliver conn now g s g' s' :
  act_up conn now g s = Some (g', s') → deliver_step conn (mkNet g s) (mkNet g' s').
Proof.
  unfold act_up. intros (sc & Hc & Hr)%bind_Some. case_guard; [|done]. cbn in Hr.
  repeat case_match; simplify_eq. by eapply DeliverUp.
Qed.

Lemma act_down_deliver conn g s g' s' :
  act_down conn g s = Some (g', s') → deliver_step conn (mkNet g s) (mkNet g' s').
Proof.
  unfold act_down. intros (sc & Hc & (e & He & Hr)%bind_Some)%bind_Some.
  destruct (ch_buf (gc_sendCh sc)) as [|e' es] eqn:Hb; simplify_eq/=.
  repeat case_match; simplify_eq. by eapply DeliverDown.
Qed.

Lemma act_deliver a k k' : is_delivery a → act a k = Some k' → cluster_deliver k k'.
Proof.
  destruct k as [gs s]. unfold act. intros Ha (conn & Hm & (g & Hg & ([g' s'] & Hr & [= <-])
    %bind_Some)%bind_Some)%bind_Some.
  eapply MemberDeliver; [done..|]. destruct a; [done|..]; cbn in *.
  - by eapply act_up_deliver.
  - by eapply act_down_deliver.
Qed.

Lemma act_step a k k' : act a k = Some k' → cluster_step ∅ k k'.
Proof.
  destruct a as [gw ref data| |]; [|intros Hs; eapply cluster_deliver_step, act_deliver; [|done]; done..].
  destruct k as [gs s]. unfold act. intros (conn & Hm & (g & Hg & ([g' s'] & Hr & [= <-])
    %bind_Some)%bind_Some)%bind_Some.
  eapply MemberStep; [done..|]. cbn in *. unfold act_read in Hr.
  apply bind_Some in Hr as (c & Hc & Hr). case_guard as Hok; [|done]. cbn in Hr.
  destruct Hok as (? & ? & Hroom). repeat case_match; simplify_eq.
  pose proof (StepRead conn gw g g' s' ref c None 0 "" data) as Hstep.
  rewrite decide_True in Hstep by done. by eapply Hstep.
Qed.

Lemma run_actions_run acts S k0 k k' :
  cluster_run S k0 k → run_actions acts k = Some k' → cluster_run S k0 k'.
Proof.
  revert k. induction acts as [|a acts IH]; intros k Hr; cbn; [by intros [= <-]|].
  intros (k1 & Ha & Hrun)%bind_Some. eapply IH; [|done].
  rewrite <-(union_empty_r_L S). eapply cluster_run_step; [done|by eapply act_step].
Qed.

Lemma run_actions_deliver acts k k' :
  Forall is_delivery acts → run_actions acts k = Some k' → nsteps cluster_deliver (length acts) k k'.
Proof.
  intros Ha. revert k. induction Ha as [|a acts Ha Hacts IH]; intros k; cbn.
  { intros [= <-]. apply nsteps_O. }
  intros (k1 & Hk1 & Hr)%bind_Some. eapply nsteps_l; [by eapply act_deliver|by apply IH].
Qed.
End cluster.

(** ** Properties *)
Section properties.
Context {SS : Type} `{SessionStoreLaws SS}.
Context `{Msgpack RoomRequest, Msgpack StatusResponse, Msgpack LeaveResponse,
  Msgpack CloseNotice}.
Context `{Msgpack GatewayInfo, MsgpackLaws JoinRoomRequest, MsgpackLaws LeaveRoomRequest,
  MsgpackLaws ResumeRequest, MsgpackLaws DisconnectNotify, Msgpack BatchReSync,
  Msgpack ReSyncComplete}.
Context `{MsgpackLaws JoinRoomAck, MsgpackLaws BroadcastMessage, MsgpackLaws UnicastMessage,
  MsgpackLaws MulticastMessage, Msgpack EpochNotify, MsgpackLaws RoomCloseNotify}.
Context `{JsonRequest UnicastRequest, JsonRequest MulticastRequest,
  JsonRequest RoomBroadcastRequest, JsonRequest GlobalBroadcastRequest,
  JsonRequest RoomCloseRequest}.
Context `{O : MapOrder}.
Implicit Types (S : gset string) (k : Cluster SS) (u rid gw : string) (conn : ConnRef).


End properties.

(** ** Concrete instances: "u1" at "gw-1" and "u2" at "gw-2" join "r1" *)
Section examples.
Import ToyCodec.
#[local] Existing Instance default_order.
#[local] Instance CloseNotice_eq_dec : EqDecision CloseNotice.
Proof. solve_decision. Defined.
#[local] Instance CloseNotice_countable : Countable CloseNotice.
Proof.
  refine (inj_countable' (λ m, (cn_RoomID m, cn_Reason m)) (λ '(a, b), mkCloseNotice a b) _).
  by intros [].
Defined.
#[local] Instance demo_unicast : JsonRequest UnicastRequest :=
  λ body, Some (mkUnicastRequest "r1" "u1" body).
#[local] Instance demo_multicast : JsonRequest MulticastRequest :=
  λ body, Some (mkMulticastRequest "r1" ["u1"; "u9"; "u2"]%string body).
#[local] Instance demo_room_broadcast : JsonRequest RoomBroadcastRequest :=
  λ body, Some (mkRoomBroadcastRequest "r1" body).
#[local] Instance demo_global : JsonRequest GlobalBroadcastRequest :=
  λ body, Some (mkGlobalBroadcastRequest body).
#[local] Instance demo_room_close : JsonRequest RoomCloseRequest :=
  λ body, Some (mkRoomCloseRequest "r1" "over").

(** A server in service with the streams 0 and 1, registered and written. *)
Definition pair_events : list StreamEvent :=
  [SEOpen; SERecv 0 (msg_info "gw-1") 1; SEWrite 0 true;
   SEOpen; SERecv 1 (msg_info "gw-2") 2; SEWrite 1 true].

Definition pair_srv : Server SessionService :=
  set_status ServerStatusReady (end_state demo_server (run_streams (∅, demo_server) pair_events)).

Definition pair_streams : gset ConnRef := {[0%nat; 1%nat]}.
Definition pair_members : gmap string ConnRef := {["gw-1" := 0%nat; "gw-2" := 1%nat]}%string.

Lemma pair_srv_inv : streams_inv pair_streams pair_srv.
Proof.
  destruct (run_streams_inv ∅ demo_server pair_events) as (R & s & Hrun & Hinv).
  - apply streams_inv_new.
  - repeat (first [done|split; [by vm_compute|intros ? HR; vm_compute in HR; injection HR as <-]]).
  - assert (R = pair_streams ∧ set_status ServerStatusReady s = pair_srv) as [-> <-].
    + vm_compute in Hrun. injection Hrun as <- <-. split; vm_compute; reflexivity.
    + by apply (streams_inv_same _ s).
Qed.

(** The gateway of "u2". *)
Definition pair_cfg : GatewayConfig :=
  mkGatewayConfig "gw-2" ":8081" 10 100 demo_conn_cfg demo_protection.
Definition pair_fresh : Gateway :=
  set_objects {[0%nat := NewConnection "u2" "c2" demo_conn_cfg]} (NewGateway pair_cfg 0).
Definition pair_gw : Gateway := end_state pair_fresh (AddConnection 0%nat pair_fresh).

Definition pair_cluster : Cluster SessionService :=
  mkCluster {["gw-1" := demo_gw; "gw-2" := pair_gw]}%string pair_srv.

Lemma pair_gw_wf : gw_wf pair_gw.
Proof.
  assert (gw_wf pair_fresh) as Hwf.
  { destruct (gw_wf_new pair_cfg 0) as (_ & ? & ?). split_and!; [|done..].
    intros u ref Hu. cbn in Hu. by rewrite lookup_empty in Hu. }
  unfold pair_gw. rewrite (AddConnection_run 0%nat (NewConnection "u2" "c2" demo_conn_cfg));
    [|by vm_compute..].
  destruct (shard_index _ _) as [i| |] eqn:Hi; [|done..]. apply added_wf; [done..| |done].
  intros u. cbn. by rewrite lookup_empty.
Qed.

Lemma pair_wf : server_wf (H0 := SessionService_laws) pair_srv.
Proof. split; [apply NewSessionService_wf|apply NewRoomService_wf]. Qed.

Lemma pair_nobody u : presence (H0 := SessionService_laws) pair_srv !! u = None.
Proof. by vm_compute. Qed.

Lemma pair_start : cluster_start (H0 := SessionService_laws) pair_streams pair_members pair_cluster.
Proof.
  intros gw conn Hm. unfold pair_members in Hm.
  apply lookup_insert_Some in Hm as [[<- <-]|[_ [<- <-]%lookup_singleton_Some]].
  - exists demo_gw. split; [done|].
    eapply fresh_net_start;
      [apply demo_gw_wf|done|done|done|done|apply pair_wf|apply pair_srv_inv|set_solver|
       by vm_compute|by vm_compute|apply Nat.ltb_lt; by vm_compute|by vm_compute|apply pair_nobody].
  - exists pair_gw. split; [done|].
    eapply fresh_net_start;
      [apply pair_gw_wf|by vm_compute|by vm_compute|by vm_compute|by vm_compute|apply pair_wf|
       apply pair_srv_inv|set_solver|by vm_compute|by vm_compute|apply Nat.ltb_lt; by vm_compute|
       by vm_compute|apply pair_nobody].
Qed.

(** Both clients join, the roomserver takes both requests, and both gateways
    the answers. *)
Definition pair_joins : list Action :=
  [ActRead "gw-1" 0%nat (EncodeFrame (join_frame "r1"));
   ActRead "gw-2" 0%nat (EncodeFrame (join_frame "r1"))].
Definition pair_deliveries : list Action :=
  [ActUp "gw-2" 8; ActUp "gw-1" 9; ActDown "gw-2"; ActDown "gw-1"].

Definition pair_asked : Cluster SessionService :=
  default pair_cluster (run_actions pair_members pair_joins pair_cluster).
Definition pair_joined : Cluster SessionService :=
  default pair_asked (run_actions pair_members pair_deliveries pair_asked).

Lemma pair_run_asked :
  cluster_run (H0 := SessionService_laws) pair_members ∅ pair_cluster pair_asked.
Proof. apply (run_actions_run _ pair_joins _ _ pair_cluster); [constructor|by vm_compute]. Qed.

Lemma pair_run_delivered : nsteps (cluster_deliver pair_members) 4 pair_asked pair_joined.
Proof.
  apply (run_actions_deliver _ pair_deliveries); [by repeat constructor|]. by vm_compute.
Qed.

Lemma pair_run_joined :
  cluster_run (H0 := SessionService_laws) pair_members ∅ pair_cluster pair_joined.
Proof.
  apply (run_actions_run _ pair_deliveries _ _ pair_asked); [apply pair_run_asked|by vm_compute].
Qed.

Lemma pair_quiet : all_quiet pair_members pair_joined.
Proof.
  intros gw conn Hm. unfold pair_members in Hm.
  apply lookup_insert_Some in Hm as [[<- <-]|[_ [<- <-]%lookup_singleton_Some]];
    (eexists; split; [by vm_compute|]; split; [by vm_compute|]; eexists; split; by vm_compute).
Qed.


End examples.
