(* ===== verification/Requested.v ===== *)
(** Nobody is anywhere they did not ask for: the whole system (gateways,
    roomserver, streams that open, fail and lose what they carry, restarts
    on both sides, pushes, outages) as one transition system, with the rooms
    that clients have asked for as the history, and what this history
    bounds: sessions, room members, the local rooms of the gateways, and who
    gets the messages of a room. *)

From Stdlib Require Import ZArith Lia.
From stdpp Require Import base tactics gmap strings numbers list relations.
From S2P Require Import Prelude GoInt Protocol Frame Chan SessionStore SessionService RoomService Recovery HashRing Roomserver GrpcServer PushApi Connection Gateway GwLogic Distributor GatewayHandler RoomserverClient KafkaConsumer Login System Typing Network.

Local Open Scope Z_scope.

(** A gateway, a user and a room the user has asked for there. *)
Abbreviation Asked := (gset (string * string * string)).

(** The user of every connection object, for ever. *)
Definition users_of (g : Gateway) : gmap CRef string := c_UserID <$> objects g.

(** ** Messages between the two sides *)
Section messages.
Context `{Msgpack JoinRoomRequest, Msgpack LeaveRoomRequest, Msgpack ResumeRequest,
  Msgpack DisconnectNotify, Msgpack BatchReSync, Msgpack JoinRoomAck}.
Implicit Types (A : Asked) (gw : string) (e : Envelope).

(** An operation that puts a user anywhere puts it where it asked to be, on
    the gateway that speaks. *)
Definition op_asked A gw (op : CtlOp) : Prop :=
  match op with
  | CtlJoin u rid g _ | CtlResume u rid g _ => g = gw ∧ (gw, u, rid) ∈ A
  | _ => True
  end.

Definition up_asked A gw e : Prop := ∀ now, Forall (op_asked A gw) (requested e now).

(** An acknowledgement names a room that was asked for. *)
Definition down_asked A gw e : Prop :=
  env_MsgType e = InternalMsgJoinRoomAck →
  ∀ ack, Decode (env_Payload e) = Some ack → (gw, jra_UserID ack, jra_RoomID ack) ∈ A.

Lemma op_asked_mono A A' gw op : A ⊆ A' → op_asked A gw op → op_asked A' gw op.
Proof. intros HA. destruct op; cbn; set_solver. Qed.

Lemma up_asked_mono A A' gw e : A ⊆ A' → up_asked A gw e → up_asked A' gw e.
Proof.
  intros HA He now. eapply Forall_impl; [apply He|]. intros op. by apply op_asked_mono.
Qed.

Lemma down_asked_mono A A' gw e : A ⊆ A' → down_asked A gw e → down_asked A' gw e.
Proof. intros HA He Ht ack Hack. apply HA. by apply He. Qed.

(** The messages that name no room to be in. *)
Lemma up_asked_other A gw t p :
  t ≠ InternalMsgJoinRoom → t ≠ InternalMsgResume → t ≠ InternalMsgBatchReSync →
  up_asked A gw (mkEnvelope t p).
Proof.
  intros Hj Hr Hb now. unfold requested. cbn [env_MsgType env_Payload].
  rewrite (proj2 (Z.eqb_neq _ _) Hj), (proj2 (Z.eqb_neq _ _) Hr), (proj2 (Z.eqb_neq _ _) Hb).
  repeat case_match; by repeat constructor.
Qed.
End messages.

Section join_messages.
Context `{MsgpackLaws JoinRoomRequest, Msgpack LeaveRoomRequest, MsgpackLaws ResumeRequest,
  Msgpack DisconnectNotify, MsgpackLaws BatchReSync}.

Lemma up_asked_join (A : Asked) gw u rid :
  (gw, u, rid) ∈ A →
  up_asked A gw (mkEnvelope InternalMsgJoinRoom (Encode_ (mkJoinRoomRequest u rid gw))).
Proof. intros Hin now. unfold requested. cbn. rewrite Decode_Encode_. by repeat constructor. Qed.

Lemma up_asked_resume (A : Asked) gw u rid :
  (gw, u, rid) ∈ A →
  up_asked A gw (mkEnvelope InternalMsgResume (Encode_ (mkResumeRequest u rid gw))).
Proof. intros Hin now. unfold requested. cbn. rewrite Decode_Encode_. by repeat constructor. Qed.

Lemma up_asked_batch (A : Asked) gw us :
  Forall (λ p, (gw, urp_UserID p, urp_RoomID p) ∈ A) us →
  up_asked A gw (mkEnvelope InternalMsgBatchReSync (Encode_ (mkBatchReSync gw us))).
Proof.
  intros Hus now. unfold requested. cbn. rewrite Decode_Encode_. apply Forall_fmap.
  eapply Forall_impl; [exact Hus|]. intros p Hp. by split.
Qed.
End join_messages.

(** ** A gateway *)

(** The local rooms list nobody who has not asked for them. *)
Definition rooms_asked (A : Asked) gw (rooms : gmap string (gset string)) : Prop :=
  ∀ rid u, in_local rooms rid u → (gw, u, rid) ∈ A.

Lemma rooms_asked_insert A gw rooms rid u :
  (gw, u, rid) ∈ A → rooms_asked A gw rooms →
  rooms_asked A gw (<[rid := default ∅ (rooms !! rid) ∪ {[u]}]> rooms).
Proof.
  intros Hin Hr rid' u' (us & Hus & Hu').
  apply lookup_insert_Some in Hus as [[<- <-]|[_ Hus]]; [|apply Hr; by exists us].
  apply elem_of_union in Hu' as [Hu'| ->%elem_of_singleton]; [|done].
  destruct (rooms !! rid) as [us|] eqn:E; [|by apply elem_of_empty in Hu']. apply Hr. by exists us.
Qed.

Lemma rooms_asked_remove A gw rooms rid u :
  rooms_asked A gw rooms → rooms_asked A gw (remove_from_room rid u rooms).
Proof.
  intros Hr rid' u' (us & Hus & Hu'). unfold remove_from_room in Hus.
  destruct (rooms !! rid) as [vs|] eqn:E; [|apply Hr; by exists us].
  case_decide.
  - apply lookup_delete_Some in Hus as [_ Hus]. apply Hr. by exists us.
  - apply lookup_insert_Some in Hus as [[<- <-]|[_ Hus]]; apply Hr; [exists vs|by exists us].
    set_solver.
Qed.

Lemma rooms_asked_delete A gw rooms rid :
  rooms_asked A gw rooms → rooms_asked A gw (delete rid rooms).
Proof.
  intros Hr rid' u' (us & [_ Hus]%lookup_delete_Some & Hu'). apply Hr. by exists us.
Qed.

Lemma rooms_asked_mono A A' gw rooms : A ⊆ A' → rooms_asked A gw rooms → rooms_asked A' gw rooms.
Proof. intros HA Hr rid u Hu. by apply HA, Hr. Qed.

(** The rooms that a client's message asks for. *)
Definition asks `{Msgpack RoomRequest} (gw u : string) (data : list byte) : Asked :=
  match DecodeFrame data with
  | Done (Ok frame) =>
    if decide (f_MsgType frame ∈ [MsgTypeJoinRoom; MsgTypeResume; MsgTypeHeartbeat]) then
      match Decode (A := RoomRequest) (f_Payload frame) with
      | Some req => {[(gw, u, rq_RoomID req)]}
      | None => ∅
      end
    else ∅
  | _ => ∅
  end.

Section gateway.
Context `{Msgpack RoomRequest, Msgpack StatusResponse, Msgpack LeaveResponse,
  Msgpack CloseNotice, Msgpack PushContent, Msgpack AuthRequest, Msgpack AuthResponse}.
Context `{Msgpack GatewayInfo, MsgpackLaws JoinRoomRequest, Msgpack LeaveRoomRequest,
  MsgpackLaws ResumeRequest, Msgpack DisconnectNotify, MsgpackLaws BatchReSync,
  Msgpack ReSyncComplete}.
Context `{Msgpack JoinRoomAck, Msgpack BroadcastMessage, Msgpack UnicastMessage,
  Msgpack MulticastMessage, Msgpack EpochNotify, Msgpack RoomCloseNotify} `{O : MapOrder}.
Context (A : Asked) (gw : string) (who : gmap CRef string).
Implicit Types (g : Gateway) (ref : CRef) (c : Connection) (u rid : string).

Definition conns_right (conns : gmap string CRef) : Prop :=
  ∀ u ref, conns !! u = Some ref → who !! ref = Some u.

(** The gateway [gw] with the users [who] on its connections. *)
Record asked_gw g : Prop := mkAskedGw {
  ag_cfg : cfg_ID (g_cfg g) = gw;
  ag_users : users_of g = who;
  ag_conns : conns_right (connections g);
  ag_rooms : rooms_asked A gw (localRooms g);
  ag_queue : Forall (up_asked A gw) (ch_buf (rs_sendCh g));
}.

Abbreviation stays := (preserves asked_gw).

Lemma asked_gw_held h g : asked_gw g → asked_gw (set_held h g).
Proof. by intros []. Qed.

Lemma user_of g ref c : asked_gw g → objects g !! ref = Some c → who !! ref = Some (c_UserID c).
Proof. intros [_ <- _ _ _] Hc. unfold users_of. by rewrite lookup_fmap, Hc. Qed.

(** *** Primitives *)
Lemma stays_modify (f : Gateway → Gateway) :
  (∀ g, g_cfg (f g) = g_cfg g ∧ objects (f g) = objects g ∧ connections (f g) = connections g ∧
        localRooms (f g) = localRooms g ∧ rs_sendCh (f g) = rs_sendCh g) → stays (modify f).
Proof.
  intros Hf. apply preserves_modify. intros g [? ? ? ? ?].
  destruct (Hf g) as (Hcfg & Ho & Hcs & Hr & Hq).
  split; unfold users_of in *; by rewrite ?Hcfg, ?Ho, ?Hcs, ?Hr, ?Hq.
Qed.

Lemma stays_rooms (f : gmap string (gset string) → gmap string (gset string)) :
  (∀ rooms, rooms_asked A gw rooms → rooms_asked A gw (f rooms)) →
  stays (modify (λ g, set_localRooms (f (localRooms g)) g)).
Proof. intros Hf. apply preserves_modify. intros g []. split; try done. cbn. auto. Qed.

Lemma stays_conns (f : gmap string CRef → gmap string CRef) :
  (∀ conns, conns_right conns → conns_right (f conns)) →
  stays (modify (λ g, set_connections (f (connections g)) g)).
Proof. intros Hf. apply preserves_modify. intros g []. split; try done. cbn. auto. Qed.

Lemma stays_get_c_then {B} ref (f : Connection → G B) :
  (∀ c, who !! ref = Some (c_UserID c) → stays (f c)) → stays (c ← get_c ref; f c).
Proof.
  intros Hf. eapply ensures_bind; [|exact Hf]. apply ensures_get_c. intros g c. apply user_of.
Qed.

Lemma stays_put_c ref c : who !! ref = Some (c_UserID c) → stays (put_c ref c).
Proof.
  intros Hc. apply preserves_modify. intros g []. split; try done. unfold users_of in *. cbn.
  by rewrite fmap_insert, ag_users0, insert_id.
Qed.

Lemma stays_update_c ref (f : Connection → Connection) :
  (∀ c, c_UserID (f c) = c_UserID c) → stays (update_c ref f).
Proof.
  intros Hf. unfold update_c. apply stays_get_c_then. intros c Hc. apply stays_put_c.
  by rewrite Hf.
Qed.

Lemma stays_send_c ref data : stays (send_c ref data).
Proof.
  unfold send_c. apply stays_get_c_then. intros c Hc.
  apply preserves_bind; [apply preserves_gets|intros now].
  pose proof (proj1 (Send_frame data now c)) as Hu. destruct (Send data now c) as [ok c'].
  cbn in Hu. apply preserves_bind; [apply stays_put_c; congruence|intros; apply preserves_ret].
Qed.

Lemma stays_client_send t p : up_asked A gw (mkEnvelope t p) → stays (client_send t p).
Proof.
  intros He. apply preserves_modify. intros g []. split; try done. cbn.
  destruct (sent_buf (mkEnvelope t p) (rs_sendCh g)) as [->| ->]; [|done].
  apply Forall_app. by repeat constructor.
Qed.

Lemma ensures_cfg : ensures asked_gw (gets g_cfg) (λ cfg, cfg_ID cfg = gw).
Proof. apply ensures_gets. by intros g []. Qed.

Lemma stays_cfg_then {B} (f : GatewayConfig → G B) :
  (∀ cfg, cfg_ID cfg = gw → stays (f cfg)) → stays (cfg ← gets g_cfg; f cfg).
Proof. intros Hf. eapply ensures_bind; [apply ensures_cfg|exact Hf]. Qed.

(** *** Rooms, connections and messages *)
Create HintDb stays.
Lemma stays_with_lock {X} l (m : G X) : stays m → stays (with_lock l m).
Proof. apply ensures_with_lock, asked_gw_held. Qed.

Lemma stays_with_rlock {X} l (m : G X) : stays m → stays (with_rlock l m).
Proof. apply ensures_with_rlock, asked_gw_held. Qed.

#[local] Hint Resolve preserves_ret preserves_gets preserves_get_c stays_send_c stays_with_lock
  stays_with_rlock : stays.
#[local] Hint Extern 2 (stays (modify _)) => apply stays_modify; done : stays.
#[local] Hint Extern 2 (stays (update_d _ _)) => apply stays_modify; done : stays.
#[local] Hint Extern 2 (stays (update_c _ _)) => apply stays_update_c; done : stays.
#[local] Hint Extern 2 (stays (lock _)) => apply preserves_lock, asked_gw_held : stays.
#[local] Hint Extern 2 (stays (rlock _)) => apply preserves_rlock, asked_gw_held : stays.
#[local] Hint Extern 2 (stays (unlock _)) => apply preserves_unlock, asked_gw_held : stays.
#[local] Hint Extern 2 (stays (runlock _)) => apply preserves_runlock, asked_gw_held : stays.
#[local] Hint Extern 2 (stays (client_send _ _)) =>
  apply stays_client_send, up_asked_other; done : stays.

Ltac solve_stays :=
  repeat lazymatch goal with
  | |- stays (gets g_cfg ≫= _) => apply stays_cfg_then; intros ? ?
  | |- stays (_ ≫= _) => apply preserves_bind; [|intros]
  | |- stays (for_each _ _) => apply preserves_for_each; intros
  | |- stays (match ?x with _ => _ end) => destruct x
  | |- stays _ => solve [eauto with stays]
  end.

Lemma stays_AddUserToRoom rid u : (gw, u, rid) ∈ A → stays (AddUserToRoom rid u).
Proof.
  intros Hin. unfold AddUserToRoom. solve_stays.
  apply (stays_rooms (λ rooms, <[rid := default ∅ (rooms !! rid) ∪ {[u]}]> rooms)).
  intros rooms. by apply rooms_asked_insert.
Qed.

Lemma stays_RemoveUserFromRoom rid u : stays (RemoveUserFromRoom rid u).
Proof.
  unfold RemoveUserFromRoom. solve_stays.
  apply (stays_rooms (remove_from_room rid u)). intros. by apply rooms_asked_remove.
Qed.

Lemma stays_ClearRoom rid : stays (ClearRoom rid).
Proof. unfold ClearRoom. solve_stays. apply (stays_rooms (delete rid)). intros. by apply rooms_asked_delete. Qed.

Lemma stays_GetConnection u : stays (GetConnection u).
Proof. unfold GetConnection. solve_stays. Qed.

Lemma stays_SendLeaveRoom u rid : stays (SendLeaveRoom u rid).
Proof. unfold SendLeaveRoom. solve_stays. Qed.

Lemma stays_SendDisconnect u rid : stays (SendDisconnect u rid).
Proof. unfold SendDisconnect. solve_stays. Qed.

Lemma stays_SendJoinRoom u rid : (gw, u, rid) ∈ A → stays (SendJoinRoom u rid).
Proof.
  intros Hin. unfold SendJoinRoom. apply stays_cfg_then. intros cfg ->.
  by apply stays_client_send, up_asked_join.
Qed.

Lemma stays_SendResume u rid : (gw, u, rid) ∈ A → stays (SendResume u rid).
Proof.
  intros Hin. unfold SendResume. apply stays_cfg_then. intros cfg ->.
  by apply stays_client_send, up_asked_resume.
Qed.

#[local] Hint Resolve stays_RemoveUserFromRoom stays_ClearRoom stays_GetConnection
  stays_SendLeaveRoom stays_SendDisconnect stays_SendJoinRoom stays_SendResume
  stays_AddUserToRoom : stays.

Lemma conns_right_delete u conns : conns_right conns → conns_right (delete u conns).
Proof. intros Hc v ref [_ Hv]%lookup_delete_Some. by apply Hc. Qed.

Lemma stays_Close ref reason : stays (Close ref reason).
Proof.
  unfold Close, RemoveConnection, RemoveConn, notifyDisconnect, GetStatus.
  apply stays_get_c_then. intros c Hc. destruct (c_closeOnce c); [apply preserves_ret|].
  apply preserves_bind; [by apply stays_put_c|intros _]. solve_stays.
  apply (stays_conns (delete (c_UserID c))). intros. by apply conns_right_delete.
Qed.

Lemma stays_AddConnection ref : stays (AddConnection ref).
Proof.
  pose proof stays_Close as Hclose. unfold AddConnection, AddConn.
  apply preserves_bind; [apply preserves_lock, asked_gw_held|intros _].
  apply stays_get_c_then. intros c Hc. solve_stays.
  - apply (stays_conns (λ conns, <[c_UserID c := ref]> conns)). intros conns Hr u r.
    intros [[<- <-]|[_ ?]]%lookup_insert_Some; [done|by apply Hr].
  - intros g ? g' Hg. case_match; [|done..]. by intros [= <- <-].
Qed.

#[local] Hint Resolve stays_Close stays_AddConnection : stays.

(** *** Requests of clients *)
Definition may_ask ref data : Prop := ∀ u, who !! ref = Some u → asks gw u data ⊆ A.

Lemma asks_in ref data frame req u :
  may_ask ref data → DecodeFrame data = Done (Ok frame) →
  f_MsgType frame ∈ [MsgTypeJoinRoom; MsgTypeResume; MsgTypeHeartbeat] →
  Decode (f_Payload frame) = Some req → who !! ref = Some u → (gw, u, rq_RoomID req) ∈ A.
Proof.
  intros Hask Hf Ht Hd Hu. apply (Hask u Hu). unfold asks. rewrite Hf, decide_True, Hd by done.
  by apply elem_of_singleton.
Qed.

Lemma stays_handleMessage kafka now_ms msgID ref data :
  may_ask ref data → stays (handleMessage kafka now_ms msgID ref data).
Proof.
  intros Hask. unfold handleMessage. apply preserves_lift_then.
  intros [frame|] Hf; [|apply preserves_ret]. cbv zeta.
  assert (∀ t req u, f_MsgType frame =? t → t ∈ [MsgTypeJoinRoom; MsgTypeResume; MsgTypeHeartbeat] →
    Decode (f_Payload frame) = Some req → who !! ref = Some u → (gw, u, rq_RoomID req) ∈ A) as Hin.
  { intros t req u Ht%Is_true_true%Z.eqb_eq Hl ? ?.
    eapply (asks_in ref data); [done|done|by rewrite Ht|done|done]. }
  destruct (f_MsgType frame =? MsgTypeJoinRoom) eqn:E1.
  { unfold handleJoinRoom, sendJoinRoomResp, GetStatus.
    destruct (Decode (f_Payload frame)) as [req|] eqn:Hd; [|solve_stays].
    apply preserves_bind; [apply preserves_gets|intros st]. case_decide; [solve_stays|].
    apply preserves_bind; [by apply stays_update_c|intros _]. apply stays_get_c_then. intros c Hc.
    apply stays_SendJoinRoom. eapply Hin; [by rewrite E1|set_solver|done|done]. }
  destruct (f_MsgType frame =? MsgTypeLeaveRoom).
  { unfold handleLeaveRoom, sendLeaveRoomResp, GetStatus. solve_stays. }
  destruct (f_MsgType frame =? MsgTypeResume) eqn:E3.
  { unfold handleResume. destruct (Decode (f_Payload frame)) as [req|] eqn:Hd; [|solve_stays].
    apply preserves_bind; [by apply stays_update_c|intros _]. apply stays_get_c_then. intros c Hc.
    apply stays_SendResume. eapply Hin; [by rewrite E3|set_solver|done|done]. }
  destruct (f_MsgType frame =? MsgTypeHeartbeat) eqn:E4.
  { unfold handleHeartbeat, sendHeartbeatResp.
    destruct (Decode (f_Payload frame)) as [req|] eqn:Hd; [|solve_stays].
    apply preserves_bind; [|intros _; solve_stays]. case_decide; [|solve_stays].
    apply stays_get_c_then. intros c Hc.
    assert ((gw, c_UserID c, rq_RoomID req) ∈ A) as Hc'
      by (eapply Hin; [by rewrite E4|set_solver|done|done]).
    cbv zeta. solve_stays. }
  unfold handleBizRequest, sendBizResponse. solve_stays.
Qed.

Lemma stays_readLoop_step kafka now_ms msgID ref read :
  (∀ data, read = Some data → may_ask ref data) →
  stays (readLoop_step kafka now_ms msgID ref read).
Proof.
  intros Hask. unfold readLoop_step. apply stays_get_c_then. intros c Hc.
  destruct (c_closeCh c); [solve_stays|]. destruct read as [data|]; [|solve_stays].
  apply preserves_bind; [|intros; apply preserves_ret]. by apply stays_handleMessage, Hask.
Qed.

(** *** Messages of the roomserver *)
Lemma stays_push_to data u : stays (push_to data u).
Proof. unfold push_to. solve_stays. Qed.

#[local] Hint Resolve stays_push_to : stays.

Lemma stays_handleEnvelope e : down_asked A gw e → stays (handleEnvelope e).
Proof.
  intros He. unfold handleEnvelope. cbv zeta.
  destruct (env_MsgType e =? InternalMsgJoinRoomAck) eqn:E.
  { apply Z.eqb_eq in E. apply preserves_bind; [|intros; apply preserves_ret].
    unfold handleJoinRoomAck. destruct (Decode (env_Payload e)) as [ack|] eqn:Hd;
      [|apply preserves_ret]. pose proof (He E ack Hd) as Hin.
    unfold OnJoinRoomAck, sendJoinRoomResp. solve_stays. }
  unfold handleBroadcast, RoomserverClient.handleUnicast, RoomserverClient.handleMulticast,
    handleEpochNotify, handleRoomClose, GetRoomUsers. cbv zeta. solve_stays.
Qed.

(** *** Reports *)
Definition batch_asked (us : list UserRoomPair) : Prop :=
  Forall (λ p, (gw, urp_UserID p, urp_RoomID p) ∈ A) us.

Lemma stays_SendBatchReSync us : batch_asked us → stays (SendBatchReSync us).
Proof.
  intros Hus. unfold SendBatchReSync. apply stays_cfg_then. intros cfg ->.
  by apply stays_client_send, up_asked_batch.
Qed.

Lemma ensures_resync_room rid us b :
  batch_asked b → (∀ u, u ∈ us → (gw, u, rid) ∈ A) →
  ensures asked_gw (resync_room rid us b) batch_asked.
Proof.
  revert b. induction us as [|u us IH]; intros b Hb Hus; cbn [resync_room]; [by apply ensures_ret|].
  cbv zeta. assert (batch_asked (b ++ [mkUserRoomPair u rid])) as Hb'.
  { apply Forall_app. split; [done|]. constructor; [apply Hus; by left|constructor]. }
  assert (∀ v, v ∈ us → (gw, v, rid) ∈ A) by (intros; apply Hus; by right).
  case_match; [|by apply IH].
  eapply ensures_bind; [by apply stays_SendBatchReSync|intros _ _].
  apply IH; [constructor|done].
Qed.

Lemma ensures_resync_rooms rooms b :
  batch_asked b → (∀ rid us u, (rid, us) ∈ rooms → u ∈ us → (gw, u, rid) ∈ A) →
  ensures asked_gw (resync_rooms rooms b) batch_asked.
Proof.
  revert b. induction rooms as [|[rid us] rooms IH]; intros b Hb Hr; cbn [resync_rooms];
    [by apply ensures_ret|].
  eapply ensures_bind; [apply ensures_resync_room; [done|]|].
  - intros u Hu. eapply Hr; [by left|done].
  - intros b' Hb'. apply IH; [done|]. intros rid' us' u Hin. apply Hr. by right.
Qed.

Lemma ensures_GetConfirmedUsers :
  ensures asked_gw GetConfirmedUsers
    (λ rooms, ∀ rid us u, rooms !! rid = Some us → u ∈ us → (gw, u, rid) ∈ A).
Proof.
  unfold GetConfirmedUsers. eapply ensures_bind; [apply preserves_rlock, asked_gw_held|intros _ _].
  eapply (ensures_bind _ _ (rooms_asked A gw)); [apply ensures_gets; intros g Hg; apply Hg|].
  intros rooms Hrooms. eapply ensures_bind; [apply preserves_runlock, asked_gw_held|intros _ _].
  apply ensures_ret. intros rid us u. rewrite lookup_fmap. intros (vs & Hvs & ->)%fmap_Some Hu.
  apply Hrooms. exists vs. by rewrite elem_of_range_set in Hu.
Qed.

Lemma stays_resync : stays startProgressiveReSync.
Proof.
  unfold startProgressiveReSync. eapply ensures_bind; [apply ensures_GetConfirmedUsers|].
  intros rooms Hrooms. eapply ensures_bind.
  { apply (ensures_resync_rooms _ []); [constructor|].
    intros rid us u Hin Hu. eapply Hrooms; [|exact Hu].
    by apply elem_of_range_map in Hin. }
  intros b Hb. apply preserves_bind.
  - case_match; [by apply stays_SendBatchReSync|apply preserves_ret].
  - intros _. unfold sendReSyncComplete, GetConfirmedUsers. cbv zeta. solve_stays.
Qed.

(** *** The rest of what a gateway does *)
Lemma stays_handlePushMessage json m : stays (handlePushMessage json m).
Proof.
  assert (∀ payload prio u, stays (dispatchToUser payload prio u)) as Hd.
  { intros. unfold dispatchToUser. cbv zeta. solve_stays. }
  unfold handlePushMessage, handleRoomBroadcast, KafkaConsumer.handleUnicast,
    KafkaConsumer.handleMulticast, handlePlatformBroadcast. cbv zeta. solve_stays.
  all: apply stays_with_rlock; solve_stays.
Qed.

(** Every action except a login, which makes a new connection object. *)
Lemma stays_run_action parse json a :
  match a with
  | ActLogin _ _ _ => False
  | ActRead _ _ _ ref (Some data) => may_ask ref data
  | ActEnvelope e => down_asked A gw e
  | _ => True
  end → stays (run_action parse json a).
Proof.
  pose proof stays_handlePushMessage. pose proof stays_resync.
  destruct a as [| ? ? ? ref [data|]| ref | | e | | | | | | | ]; intros Ha; cbn [run_action];
    try solve [unfold connect, disconnect, processPendingRequests, closeAllConnections,
      SetDegraded, SetNormal, sendGatewayInfo, GetStatus; solve_stays].
  - done.
  - apply preserves_bind; [|intros; apply preserves_ret]. apply stays_readLoop_step.
    by intros ? [= <-].
  - apply preserves_bind; [by apply stays_readLoop_step|intros; apply preserves_ret].
  - apply stays_update_c. intros c. unfold take_message. by repeat case_match.
  - apply preserves_bind; [by apply stays_handleEnvelope|intros; apply preserves_ret].
Qed.
End gateway.

(** What an action of a gateway asks for: requests of a connection are
    about its user. *)
Definition action_asks `{Msgpack RoomRequest} (gw : string) (g : Gateway) (a : GwAction) : Asked :=
  match a with
  | ActRead _ _ _ ref (Some data) =>
    match users_of g !! ref with Some u => asks gw u data | None => ∅ end
  | _ => ∅
  end.

Section actions.
Context `{Msgpack RoomRequest, Msgpack StatusResponse, Msgpack LeaveResponse,
  Msgpack CloseNotice, Msgpack PushContent, Msgpack AuthRequest, Msgpack AuthResponse}.
Context `{Msgpack GatewayInfo, MsgpackLaws JoinRoomRequest, Msgpack LeaveRoomRequest,
  MsgpackLaws ResumeRequest, Msgpack DisconnectNotify, MsgpackLaws BatchReSync,
  Msgpack ReSyncComplete}.
Context `{Msgpack JoinRoomAck, Msgpack BroadcastMessage, Msgpack UnicastMessage,
  Msgpack MulticastMessage, Msgpack EpochNotify, Msgpack RoomCloseNotify} `{O : MapOrder}.
Implicit Types (A : Asked) (gw : string) (g : Gateway).

(** A gateway whose connections have the users they have. *)
Definition sound_gw A gw g : Prop := asked_gw A gw (users_of g) g.

Lemma sound_gw_of A gw who g : asked_gw A gw who g → sound_gw A gw g.
Proof. intros Hg. unfold sound_gw. by rewrite (ag_users _ _ _ _ Hg). Qed.

Lemma sound_gw_mono A A' gw g : A ⊆ A' → sound_gw A gw g → sound_gw A' gw g.
Proof.
  intros HA []. split; [done..|by eapply rooms_asked_mono|].
  eapply Forall_impl; [done|]. intros e. by apply up_asked_mono.
Qed.

Lemma sound_gw_new A cfg now : sound_gw A (cfg_ID cfg) (NewGateway cfg now).
Proof.
  split; [done|done| | |constructor].
  - intros u ref Hu. cbn in Hu. by rewrite lookup_empty in Hu.
  - intros rid u (us & Hus & _). cbn in Hus. by rewrite lookup_empty in Hus.
Qed.

Lemma sound_login parse A gw jwt read connID g r g' :
  sound_gw A gw g → handleWebSocket parse jwt read connID g = Done (r, g') → sound_gw A gw g'.
Proof.
  intros Hg. unfold handleWebSocket, mbind, G_bind, lift. cbn.
  destruct (authenticate _ _ _ _) as [[[u|e] ms]| |]; [|by intros [= <- <-]|done..]. cbn.
  set (ref := fresh (dom (objects g))). set (g1 := set_objects _ g).
  assert (objects g !! ref = None) as Hfresh by (apply not_elem_of_dom, is_fresh).
  assert (asked_gw A gw (users_of g1) g1) as Hg1.
  { destruct Hg. split; try done. intros v r' Hv. unfold users_of, g1. cbn.
    rewrite fmap_insert, lookup_insert_ne; [by apply ag_conns0|].
    intros <-. specialize (ag_conns0 v ref Hv). unfold users_of in ag_conns0.
    by rewrite lookup_fmap, Hfresh in ag_conns0. }
  destruct (AddConnection ref g1) as [[[] g2]| |] eqn:Hadd; try done. intros [= <- <-].
  pose proof (preserves_run _ _ _ _ (stays_AddConnection A gw (users_of g1) ref) Hg1 Hadd) as Hg2.
  apply (sound_gw_of A gw (users_of g1)). by destruct Hg2.
Qed.

Lemma sound_action parse json A gw a g g' :
  sound_gw A gw g → action_asks gw g a ⊆ A →
  match a with ActEnvelope e => down_asked A gw e | _ => True end →
  run_action parse json a g = Done (tt, g') → sound_gw A gw g'.
Proof.
  intros Hg Hask He Hrun.
  assert (∀ jwt read connID, a = ActLogin jwt read connID → sound_gw A gw g') as Hlogin.
  { intros jwt read connID ->. cbn in Hrun. unfold mbind, G_bind in Hrun.
    destruct (handleWebSocket parse jwt read connID g) as [[r g1]| |] eqn:E; try done.
    injection Hrun as <-. by eapply sound_login. }
  destruct a; try solve [by eapply Hlogin].
  all: apply (sound_gw_of A gw (users_of g)); eapply preserves_run; [|exact Hg|exact Hrun].
  all: apply stays_run_action; try done.
  destruct read as [data|]; [|done]. intros u Hu. cbn in Hask. by rewrite Hu in Hask.
Qed.
End actions.
