(* ===== verification/WholeSystem.v ===== *)
(** The whole system under failures: gateways and the roomserver run on
    their own, streams between them open, carry messages, lose them and end
    at any time, both sides restart, pushes and timeouts come in.  The state
    keeps, as its history, which rooms clients have asked for; whatever
    happens, nobody is a member of a room, has a session in it, or gets its
    messages, without having asked for it. *)

From Stdlib Require Import ZArith Lia.
From stdpp Require Import base tactics gmap strings numbers list relations.
From S2P Require Import Prelude GoInt Protocol Frame Chan SessionStore SessionService RoomService Recovery HashRing Roomserver GrpcServer PushApi Connection Gateway GwLogic GatewayHandler RoomserverClient KafkaConsumer Login System Typing Network Requested.

Local Open Scope Z_scope.

(** ** The queues of the streams *)
Section queues.
Context {SS : Type} `{SessionStore SS}.
Context `{Msgpack GatewayInfo, Msgpack JoinRoomRequest, Msgpack LeaveRoomRequest,
  Msgpack ResumeRequest, Msgpack DisconnectNotify, Msgpack BatchReSync,
  Msgpack ReSyncComplete, Msgpack JoinRoomAck, Msgpack EpochNotify}.
(** What each stream may carry; anything but acknowledgements goes. *)
Context (P : ConnRef → Envelope → Prop).
Context (P_other : ∀ conn e, env_MsgType e ≠ InternalMsgJoinRoomAck → P conn e).
Implicit Types (s : Server SS) (conn : ConnRef) (e : Envelope).

Definition queues s : Prop :=
  ∀ conn c, conns s !! conn = Some c → Forall (P conn) (ch_buf (gc_sendCh c)).

(** Rooms and sessions as before, and the queues in order. *)
Definition quietly s s' : Prop :=
  roomSvc s' = roomSvc s ∧ sessionSvc s' = sessionSvc s ∧ queues s'.

Lemma quietly_refl s : queues s → quietly s s.
Proof. by split; [|split]. Qed.

Lemma queues_put conn c s :
  queues s → Forall (P conn) (ch_buf (gc_sendCh c)) → queues (put_conn conn c s).
Proof.
  intros Hq Hc conn' c'. cbn. intros [[<- <-]|[_ ?]]%lookup_insert_Some; [done|by eapply Hq].
Qed.

Lemma quietly_put conn c s :
  queues s → Forall (P conn) (ch_buf (gc_sendCh c)) → quietly s (put_conn conn c s).
Proof. intros. split; [done|]. split; [done|]. by apply queues_put. Qed.

Lemma quietly_trans s1 s2 s3 : quietly s1 s2 → quietly s2 s3 → quietly s1 s3.
Proof. intros (Hr & Hs & _) (Hr' & Hs' & Hq). split; [by rewrite Hr'|]. split; [by rewrite Hs'|done]. Qed.

Lemma get_conn_queues conn s :
  queues s → returns (λ c, Forall (P conn) (ch_buf (gc_sendCh c))) (get_conn conn s).
Proof.
  intros Hq c. unfold get_conn. destruct (conns s !! conn) as [c'|] eqn:E; [|done].
  intros [= <-]. by eapply Hq.
Qed.

Lemma sendToGateway_queues conn t p s :
  queues s → P conn (mkEnvelope t p) → returns (quietly s) (sendToGateway conn t p s).
Proof.
  intros Hq He. unfold sendToGateway, sendToGateway_closed, sendToGateway_send.
  eapply returns_bind; [|intros closed _].
  { eapply (returns_bind (λ _, True)); [done|]. intros c _. by apply (returns_ret (λ _, True)). }
  destruct closed; [by apply returns_ret, quietly_refl|].
  eapply returns_bind; [by apply get_conn_queues|]. intros c Hc.
  eapply (returns_bind (λ sch, Forall (P conn) (ch_buf sch.2))).
  { intros [ok ch]. unfold try_send. destruct (ch_closed _); [done|].
    case_decide; intros [= <- <-]; [|done]. apply Forall_app. by repeat constructor. }
  intros sch Hsch. by apply returns_ret, quietly_put.
Qed.

Lemma close_conn_queues conn s : queues s → returns (quietly s) (close_conn conn s).
Proof.
  intros Hq. unfold close_conn. eapply returns_bind; [by apply get_conn_queues|]. intros c Hc.
  eapply (returns_bind (λ ch, Forall (P conn) (ch_buf ch))).
  { intros ch. unfold close_chan. destruct (ch_closed _); [done|]. by intros [= <-]. }
  intros ch Hch. by apply returns_ret, quietly_put.
Qed.

Lemma handleGatewayInfo_queues conn p s :
  queues s → returns (quietly s) (handleGatewayInfo conn p s).
Proof.
  intros Hq. unfold handleGatewayInfo. destruct (Decode p) as [info|];
    [|by apply returns_ret, quietly_refl].
  eapply returns_bind; [by apply get_conn_queues|]. intros c Hc. cbv zeta.
  set (s1 := put_conn _ _ s). assert (quietly s s1) as Hs1.
  { by apply quietly_put. }
  eapply (returns_bind (quietly s)).
  { unfold addGateway. eapply returns_bind; [by apply get_conn_queues, Hs1|]. intros c1 _.
    eapply (returns_bind (quietly s)).
    - destruct (gateways s1 !! gc_id c1) as [old|]; [|by apply returns_ret].
      intros s2 Hs2. apply close_conn_queues in Hs2; [|apply Hs1].
      by apply (quietly_trans _ s1).
    - intros s2 Hs2. by apply returns_ret. }
  intros s2 Hs2 s3 Hs3. unfold sendEpochNotify in Hs3.
  apply sendToGateway_queues in Hs3; [|apply Hs2|by apply P_other].
  by apply (quietly_trans _ s2).
Qed.

Lemma Channel_cleanup_queues conn s : queues s → returns (quietly s) (Channel_cleanup conn s).
Proof.
  intros Hq. unfold Channel_cleanup.
  eapply returns_bind; [by apply close_conn_queues|]. intros s1 Hs1.
  eapply returns_bind; [apply get_conn_queues, Hs1|]. intros c _. apply returns_ret.
  by case_decide.
Qed.

Lemma gatewayWriteLoop_queues send conn s :
  queues s → returns (λ r, match r with Some (_, s') => quietly s s' | None => True end)
    (gatewayWriteLoop_step send conn s).
Proof.
  intros Hq. unfold gatewayWriteLoop_step. eapply returns_bind; [by apply get_conn_queues|].
  intros c Hc. cbn beta in Hc. apply returns_ret. unfold recv. destruct (ch_buf (gc_sendCh c)) as [|e es].
  - destruct (ch_closed _); [by apply quietly_refl|done].
  - apply Forall_cons in Hc as [_ Hes]. by apply quietly_put.
Qed.

(** Notifications are no acknowledgements. *)
Lemma send_each_queues msgs s :
  queues s → (∀ i e, (i, e) ∈ msgs → env_MsgType e ≠ InternalMsgJoinRoomAck) →
  returns (quietly s) (send_each msgs s).
Proof.
  revert s. induction msgs as [|[i e] msgs IH]; intros s Hq Hm; cbn [send_each];
    [by apply returns_ret, quietly_refl|].
  eapply (returns_bind (quietly s)).
  { destruct (gateways s !! i) as [conn|]; [|by apply returns_ret, quietly_refl].
    apply sendToGateway_queues; [done|]. apply P_other. cbn. apply (Hm i e). by left. }
  intros s1 Hs1 s2 Hs2. apply IH in Hs2; [|apply Hs1|intros; eapply Hm; by right].
  by apply (quietly_trans _ s1).
Qed.
End queues.

(** ** The roomserver *)
Section server.
Context {SS : Type} `{SessionStoreLaws SS}.
Context `{Msgpack GatewayInfo, Msgpack JoinRoomRequest, Msgpack LeaveRoomRequest,
  Msgpack ResumeRequest, Msgpack DisconnectNotify, Msgpack BatchReSync,
  Msgpack ReSyncComplete, MsgpackLaws JoinRoomAck, Msgpack EpochNotify}.
Implicit Types (s : Server SS) (conn : ConnRef) (e : Envelope) (A : Asked) (u rid gw : string).

(** Sessions and members are where they asked to be. *)
Record asked_srv A s : Prop := mkAskedSrv {
  as_wf : server_wf s;
  as_sessions u p : presence s !! u = Some p → (p_gateway p, u, p_room p) ∈ A;
  as_members rid u m : member (roomSvc s) rid u = Some m → (rm_GatewayID m, u, rid) ∈ A;
}.

Lemma asked_srv_same A s s' :
  roomSvc s' = roomSvc s → sessionSvc s' = sessionSvc s → asked_srv A s → asked_srv A s'.
Proof. intros Hr Hs []. split; unfold server_wf, presence in *; by rewrite ?Hr, ?Hs. Qed.

Lemma asked_srv_mono A A' s : A ⊆ A' → asked_srv A s → asked_srv A' s.
Proof. intros HA []. split; eauto. Qed.

Lemma asked_ctl A gw s op : asked_srv A s → op_asked A gw op → asked_srv A (run_ctl s op).
Proof.
  intros [Hwf Hse Hm] Hop. split; [by apply run_ctl_wf|..];
    destruct op as [u rid g now|u rid|u rid g now|u rid now|ord tmo now|rid];
    cbn [run_ctl op_asked] in *.
  - intros v p. rewrite (proj2 (presence_JoinRoom u rid g now s (proj1 Hwf))).
    intros [[<- <-]|[_ ?]]%lookup_insert_Some; [by destruct Hop as [-> ?]|by apply Hse].
  - intros v p. rewrite (proj2 (presence_LeaveRoom u rid s (proj1 Hwf))).
    intros [_ ?]%lookup_delete_Some. by apply Hse.
  - intros v p. pose proof (Resume_cases u rid g now s (proj1 Hwf)) as Hc.
    repeat case_match; try (rewrite Hc; cbn; apply Hse).
    destruct Hc as (s' & Hrun & _ & _ & Hp). rewrite Hrun. cbn. rewrite Hp.
    intros [[<- <-]|[_ ?]]%lookup_insert_Some; [by destruct Hop as [-> ?]|by apply Hse].
  - intros v p. rewrite (proj2 (presence_UserDisconnect u rid now s (proj1 Hwf))).
    intros Hp. destruct (decide (v = u)) as [->|Hne].
    + rewrite lookup_alter_eq in Hp. apply fmap_Some in Hp as (q & Hq & ->). by apply (Hse u q).
    + rewrite lookup_alter_ne in Hp by done. by apply Hse.
  - intros v p. destruct (checkDisconnectTimeout_spec (O := ord) tmo now s Hwf) as (_ & -> & _).
    intros [? _]%map_lookup_filter_Some. by apply Hse.
  - intros v p. apply Hse.
  - intros r v m. rewrite member_JoinRoom. repeat case_decide; [|done|by apply Hm|by apply Hm].
    intros [= <-]. subst. by destruct Hop as [-> ?].
  - intros r v m. cbn. rewrite member_RemoveUser. case_decide; [done|by apply Hm].
  - intros r v m. pose proof (Resume_cases u rid g now s (proj1 Hwf)) as Hc.
    repeat case_match; try (rewrite Hc; cbn; apply Hm).
    destruct Hc as (s' & Hrun & _ & Hrs & _). rewrite Hrun. cbn. rewrite Hrs, member_UpdateUserGateway.
    destruct (decide (r = rid ∧ v = u)) as [[-> ->]|]; [|by apply Hm].
    intros (m0 & _ & ->)%fmap_Some. by destruct Hop as [-> ?].
  - intros r v m. cbn. rewrite member_SetUserDisconnected.
    destruct (decide (r = rid ∧ v = u)) as [[-> ->]|]; [|by apply Hm]. intros (m0 & Hm0 & ->)%fmap_Some. by apply (Hm rid u m0).
  - intros r v m. destruct (checkDisconnectTimeout_spec (O := ord) tmo now s Hwf) as (_ & _ & ->).
    repeat case_match; [done|by apply Hm..].
  - intros r v m. cbn. rewrite member_CloseRoom. case_decide; [done|by apply Hm].
Qed.

Lemma asked_ctls A gw s ops :
  asked_srv A s → Forall (op_asked A gw) ops → asked_srv A (foldl run_ctl s ops).
Proof.
  intros Hs Hops. revert s Hs. induction Hops as [|op ops Hop Hops IH]; intros s Hs; [done|].
  cbn [foldl]. by apply IH, (asked_ctl A gw).
Qed.

Lemma asked_srv_new A (empty : SS) id dt rt vn now now_ms :
  store_ok empty → sessions empty = ∅ → asked_srv A (NewServer empty id dt rt vn now now_ms).
Proof.
  intros Hok He. split; [split; [done|apply NewRoomService_wf]|..].
  - intros u p. unfold presence. cbn. by rewrite He, fmap_empty, lookup_empty.
  - intros rid u m. unfold member. cbn. by rewrite lookup_empty.
Qed.

(** *** Messages of a gateway *)
Section handler.
Context (P : ConnRef → Envelope → Prop).
Context (P_other : ∀ conn e, env_MsgType e ≠ InternalMsgJoinRoomAck → P conn e).
Context (A : Asked) (gw : string) (conn : ConnRef).
Context (P_ack : ∀ e, down_asked A gw e → P conn e).

Definition in_order s : Prop := asked_srv A s ∧ queues P s.

Lemma in_order_quietly s s' : asked_srv A s → quietly P s s' → in_order s'.
Proof. intros Hs (Hr & Hss & Hq). split; [by apply (asked_srv_same A s)|done]. Qed.

Lemma in_order_ctls s ops r :
  in_order s → Forall (op_asked A gw) ops → in_order (set_recovery r (foldl run_ctl s ops)).
Proof.
  intros [Hs Hq] Hops. split.
  - eapply asked_srv_same; [| |by eapply asked_ctls]; done.
  - intros c x. cbn. rewrite (proj1 (foldl_run_ctl_frame ops s)). apply Hq.
Qed.

Lemma in_order_ctl s op : in_order s → op_asked A gw op → in_order (run_ctl s op).
Proof.
  intros Hs Hop. rewrite <-(set_recovery_id (run_ctl s op)).
  by apply (in_order_ctls s [op]); [|constructor].
Qed.

Lemma sendJoinRoomAck_in_order u rid ok code msg s :
  in_order s → (gw, u, rid) ∈ A →
  returns in_order (sendJoinRoomAck conn u rid ok code msg s).
Proof.
  intros [Hs Hq] Hin s' Hrun. unfold sendJoinRoomAck in Hrun.
  apply (sendToGateway_queues P) in Hrun; [by eapply in_order_quietly|done|].
  apply P_ack. intros _ ack. cbn. rewrite Decode_Encode_. by intros [= <-].
Qed.

Lemma handleGatewayMessage_in_order e now s :
  in_order s → up_asked A gw e → returns in_order (handleGatewayMessage conn e now s).
Proof.
  intros Hs He. specialize (He now). unfold handleGatewayMessage. cbv zeta.
  destruct (env_MsgType e =? InternalMsgGatewayInfo) eqn:E0.
  { intros s' Hrun. apply (handleGatewayInfo_queues P P_other) in Hrun; [|apply Hs].
    by eapply in_order_quietly; [apply Hs|]. }
  unfold requested in He.
  destruct (env_MsgType e =? InternalMsgJoinRoom).
  { unfold GrpcServer.handleJoinRoom. destruct (Decode (env_Payload e)) as [r|];
      [|by apply returns_ret]. rewrite Forall_singleton in He.
    pose proof (in_order_ctl s _ Hs He) as Hs'. cbn [run_ctl] in Hs'.
    destruct (JoinRoom _ _ _ _ s) as [err s']. destruct err;
      by apply sendJoinRoomAck_in_order, He. }
  destruct (env_MsgType e =? InternalMsgLeaveRoom).
  { unfold GrpcServer.handleLeaveRoom. destruct (Decode (env_Payload e)) as [r|];
      [|by apply returns_ret]. rewrite Forall_singleton in He.
    by apply returns_ret, (in_order_ctl s (CtlLeave _ _) Hs). }
  destruct (env_MsgType e =? InternalMsgResume).
  { unfold GrpcServer.handleResume. destruct (Decode (env_Payload e)) as [r|];
      [|by apply returns_ret]. rewrite Forall_singleton in He.
    pose proof (in_order_ctl s _ Hs He) as Hs'. cbn [run_ctl] in Hs'.
    destruct (Resume _ _ _ _ s) as [[code ?] s']. by apply sendJoinRoomAck_in_order, He. }
  destruct (env_MsgType e =? InternalMsgDisconnect).
  { unfold handleDisconnect. destruct (Decode (env_Payload e)) as [r|];
      [|by apply returns_ret]. rewrite Forall_singleton in He.
    by apply returns_ret, (in_order_ctl s (CtlDisconnect _ _ _) Hs). }
  destruct (env_MsgType e =? InternalMsgBatchReSync).
  { unfold handleBatchReSync. destruct (Decode (env_Payload e)) as [r|]; [|by apply returns_ret].
    cbv zeta. rewrite foldl_join_run_ctl. by apply returns_ret, in_order_ctls. }
  destruct (env_MsgType e =? InternalMsgReSyncComplete); [|by apply returns_ret].
  unfold handleReSyncComplete. destruct (Decode (env_Payload e)) as [r|]; [|by apply returns_ret].
  apply returns_ret. by apply (in_order_ctls s []).
Qed.

(** *** Pushes *)
Lemma send_each_in_order msgs s :
  in_order s → (∀ i e, (i, e) ∈ msgs → env_MsgType e ≠ InternalMsgJoinRoomAck) →
  returns in_order (send_each msgs s).
Proof.
  intros [Hs Hq] Hm s' Hrun. apply (send_each_queues P P_other) in Hrun; [|done..].
  by eapply in_order_quietly.
Qed.

Lemma send_to_all_in_order ids t p s :
  in_order s → t ≠ InternalMsgJoinRoomAck → returns in_order (send_to_all ids t p s).
Proof.
  intros Hs Ht. apply send_each_in_order; [done|].
  by intros i e (i' & [= -> ->] & _)%list_elem_of_fmap.
Qed.
End handler.
End server.

(** ** The system *)

(** A connection between a gateway and the roomserver, from the gateway's
    side to the stream object of the roomserver, and what it carries. *)
Record Wire := mkWire { w_gw : string; w_up : list Envelope; w_down : list Envelope }.

(** The running streams are those whose [Channel] has not returned; the
    history of requests is no state of the program. *)
Record Whole (SS : Type) := mkWhole {
  y_gws : gmap string Gateway;
  y_srv : Server SS;
  y_running : gset ConnRef;
  y_wires : gmap ConnRef Wire;
  y_asked : Asked;
}.
Arguments mkWhole {SS}.
Arguments y_gws {SS}.
Arguments y_srv {SS}.
Arguments y_running {SS}.
Arguments y_wires {SS}.
Arguments y_asked {SS}.

(** What the gateway does on its own; messages come over a wire. *)
Definition on_its_own (a : GwAction) : bool :=
  match a with ActEnvelope _ => false | _ => true end.

Section whole.
Context {SS : Type} `{SessionStoreLaws SS}.
Context `{Msgpack RoomRequest, Msgpack StatusResponse, Msgpack LeaveResponse,
  Msgpack CloseNotice, Msgpack PushContent, Msgpack AuthRequest, Msgpack AuthResponse}.
Context `{Msgpack GatewayInfo, MsgpackLaws JoinRoomRequest, Msgpack LeaveRoomRequest,
  MsgpackLaws ResumeRequest, Msgpack DisconnectNotify, MsgpackLaws BatchReSync,
  Msgpack ReSyncComplete}.
Context `{MsgpackLaws JoinRoomAck, Msgpack BroadcastMessage, Msgpack UnicastMessage,
  Msgpack MulticastMessage, Msgpack EpochNotify, Msgpack RoomCloseNotify}.
Context `{JsonRequest UnicastRequest, JsonRequest MulticastRequest,
  JsonRequest RoomBroadcastRequest, JsonRequest GlobalBroadcastRequest,
  JsonRequest RoomCloseRequest}.
Context `{O : MapOrder}.
(** The JWT library, the JSON of Kafka messages, an empty session store. *)
Context (parse : string → (SigningMethod → option (list byte)) → ParseResult).
Context (json : list byte → option PushMessage).
Context (empty : SS).
Implicit Types (y : Whole SS) (s : Server SS) (g : Gateway) (gw : string) (conn : ConnRef)
  (gs : gmap string Gateway) (R : gset ConnRef) (ws : gmap ConnRef Wire) (A : Asked).

Inductive whole_step : Whole SS → Whole SS → Prop :=
  (** a gateway acts, or starts anew *)
  | GwActs gs s R ws A gw g a g' :
    gs !! gw = Some g → on_its_own a → run_action parse json a g = Done (tt, g') →
    whole_step (mkWhole gs s R ws A)
      (mkWhole (<[gw := g']> gs) s R ws (A ∪ action_asks gw g a))
  | GwStarts gs s R ws A cfg now :
    whole_step (mkWhole gs s R ws A)
      (mkWhole (<[cfg_ID cfg := NewGateway cfg now]> gs) s R
        (filter (λ cw, w_gw cw.2 ≠ cfg_ID cfg) ws) A)
  (** a stream opens; a wire breaks, with what it carries *)
  | StreamOpens gs s R ws A gw conn s' :
    is_Some (gs !! gw) → Channel_open s = (conn, s') →
    whole_step (mkWhole gs s R ws A)
      (mkWhole gs s' (R ∪ {[conn]}) (<[conn := mkWire gw [] []]> ws) A)
  | WireBreaks gs s R ws A conn :
    whole_step (mkWhole gs s R ws A) (mkWhole gs s R (delete conn ws) A)
  (** upwards: a send loop takes a message, the roomserver receives it *)
  | GwSends gs s R ws A gw g g' conn up down e :
    gs !! gw = Some g → ws !! conn = Some (mkWire gw up down) →
    sendLoop_step true g = Some (true, e, g') →
    whole_step (mkWhole gs s R ws A)
      (mkWhole (<[gw := g']> gs) s R (<[conn := mkWire gw (up ++ [e]) down]> ws) A)
  | GwLoses gs s R ws A gw g g' e :
    gs !! gw = Some g → sendLoop_step false g = Some (false, e, g') →
    whole_step (mkWhole gs s R ws A) (mkWhole (<[gw := g']> gs) s R ws A)
  | SrvReceives gs s R ws A gw conn up down e now s' :
    conn ∈ R → ws !! conn = Some (mkWire gw (e :: up) down) →
    handleGatewayMessage conn e now s = Done s' →
    whole_step (mkWhole gs s R ws A) (mkWhole gs s' R (<[conn := mkWire gw up down]> ws) A)
  (** downwards: a write loop takes a message, the gateway receives it *)
  | SrvWrites gs s R ws A gw conn up down c e es s' :
    conn ∈ R → ws !! conn = Some (mkWire gw up down) →
    conns s !! conn = Some c → ch_buf (gc_sendCh c) = e :: es →
    gatewayWriteLoop_step (λ _, true) conn s = Done (Some (true, s')) →
    whole_step (mkWhole gs s R ws A) (mkWhole gs s' R (<[conn := mkWire gw up (down ++ [e])]> ws) A)
  | SrvLoses gs s R ws A conn s' :
    gatewayWriteLoop_step (λ _, false) conn s = Done (Some (false, s')) →
    whole_step (mkWhole gs s R ws A) (mkWhole gs s' R ws A)
  | GwReceives gs s R ws A gw g g' conn up down e started :
    gs !! gw = Some g → ws !! conn = Some (mkWire gw up (e :: down)) →
    handleEnvelope e g = Done (started, g') →
    whole_step (mkWhole gs s R ws A)
      (mkWhole (<[gw := g']> gs) s R (<[conn := mkWire gw up down]> ws) A)
  (** the rest of what the roomserver does *)
  | StreamEnds gs s R ws A conn s' :
    conn ∈ R → Channel_cleanup conn s = Done s' →
    whole_step (mkWhole gs s R ws A) (mkWhole gs s' (R ∖ {[conn]}) ws A)
  | SrvPushes gs s R ws A k r resp s' :
    handle_push k r s = Done (resp, s') →
    whole_step (mkWhole gs s R ws A) (mkWhole gs s' R ws A)
  | SrvClosesRoom gs s R ws A r resp s' :
    handleRoomCloseHTTP r s = Done (resp, s') →
    whole_step (mkWhole gs s R ws A) (mkWhole gs s' R ws A)
  | SrvNotifies gs s R ws A now_ms s' :
    NotifyEpochChange now_ms s = Done s' →
    whole_step (mkWhole gs s R ws A) (mkWhole gs s' R ws A)
  | SrvChecks gs s R ws A (ord : MapOrder) now :
    whole_step (mkWhole gs s R ws A) (mkWhole gs (disconnectTick (O := ord) now s) R ws A)
  | SrvRecovers gs s R ws A start now s' :
    recoveryMonitor start now s = Some s' →
    whole_step (mkWhole gs s R ws A) (mkWhole gs s' R ws A)
  | SrvStarts gs s R ws A id dt rt vn now now_ms :
    whole_step (mkWhole gs s R ws A)
      (mkWhole gs (NewServer empty id dt rt vn now now_ms) ∅ ∅ A).

(** Before anything is started. *)
Definition whole_start id dt rt vn now now_ms : Whole SS :=
  mkWhole ∅ (NewServer empty id dt rt vn now now_ms) ∅ ∅ ∅.

(** ** The invariant *)
Definition carries A ws conn e : Prop :=
  ∀ w, ws !! conn = Some w → down_asked A (w_gw w) e.

Definition wire_asked A (w : Wire) : Prop :=
  Forall (up_asked A (w_gw w)) (w_up w) ∧ Forall (down_asked A (w_gw w)) (w_down w).

Record whole_inv y : Prop := mkWholeInv {
  yi_gws gw g : y_gws y !! gw = Some g → sound_gw (y_asked y) gw g;
  yi_srv : in_order (carries (y_asked y) (y_wires y)) (y_asked y) (y_srv y);
  yi_wires conn w : y_wires y !! conn = Some w → wire_asked (y_asked y) w;
}.

Lemma carries_other A ws conn e : env_MsgType e ≠ InternalMsgJoinRoomAck → carries A ws conn e.
Proof. by intros Hne w _ Ht. Qed.

(** The queues, when the wires of a gateway stay with it or break. *)
Lemma queues_wires A ws ws' s :
  (∀ conn w', ws' !! conn = Some w' → ∃ w, ws !! conn = Some w ∧ w_gw w = w_gw w') →
  queues (carries A ws) s → queues (carries A ws') s.
Proof.
  intros Hws Hq conn c Hc. eapply Forall_impl; [by apply (Hq conn)|].
  intros e He w' Hw'. destruct (Hws conn w' Hw') as (w & Hw & <-). by apply He.
Qed.

(** One more message on a wire, or one less. *)
Lemma same_wires ws conn w w' :
  ws !! conn = Some w → w_gw w' = w_gw w →
  ∀ conn' v', <[conn := w']> ws !! conn' = Some v' → ∃ v, ws !! conn' = Some v ∧ w_gw v = w_gw v'.
Proof.
  intros Hw Hgw conn' v' [[<- <-]|[_ ?]]%lookup_insert_Some; [by exists w|by exists v'].
Qed.

Lemma wire_asked_mono A A' w : A ⊆ A' → wire_asked A w → wire_asked A' w.
Proof.
  intros HA [Hu Hd]. split; (eapply Forall_impl; [done|]); intros e.
  - by apply up_asked_mono.
  - by apply down_asked_mono.
Qed.

Lemma inv_gateway gs s R ws A A' gw g' :
  whole_inv (mkWhole gs s R ws A) → A ⊆ A' → sound_gw A' gw g' →
  whole_inv (mkWhole (<[gw := g']> gs) s R ws A').
Proof.
  intros [Hg [Hs Hq] Hw] HA Hg'. split; cbn in *.
  - intros gw1 g1 [[<- <-]|[_ ?]]%lookup_insert_Some; [done|].
    by eapply sound_gw_mono; [|apply Hg].
  - split; [by eapply asked_srv_mono|]. intros conn c Hc.
    eapply Forall_impl; [by apply (Hq conn)|]. intros e He w Hcw.
    by eapply down_asked_mono; [|apply He].
  - intros conn w Hcw. by eapply wire_asked_mono; [|eapply Hw].
Qed.

Lemma inv_server gs s s' R R' ws A :
  whole_inv (mkWhole gs s R ws A) → in_order (carries A ws) A s' →
  whole_inv (mkWhole gs s' R' ws A).
Proof. intros [] Hs. by split. Qed.

Lemma inv_wire gs s R ws A conn w w' :
  whole_inv (mkWhole gs s R ws A) → ws !! conn = Some w → w_gw w' = w_gw w →
  wire_asked A w' → whole_inv (mkWhole gs s R (<[conn := w']> ws) A).
Proof.
  intros [Hg [Hs Hq] Hw] Hc Hgw Hw'. split; cbn in *; [done| |].
  - split; [done|]. eapply queues_wires; [by eapply same_wires|done].
  - intros conn' v [[<- <-]|[_ ?]]%lookup_insert_Some; [done|by eapply Hw].
Qed.

(** A gateway hands its next message over. *)
Lemma sound_sendLoop A gw g ok b e g' :
  sound_gw A gw g → sendLoop_step ok g = Some (b, e, g') → sound_gw A gw g' ∧ up_asked A gw e.
Proof.
  intros [Hcfg Hu Hc Hr Hq]. unfold sendLoop_step.
  destruct (ch_buf (rs_sendCh g)) as [|e1 es] eqn:E; [done|]. intros [= <- <- <-].
  apply Forall_cons in Hq as [He Hes]. by split.
Qed.

(** The pushes: the state after an answer is in order. *)
Definition answered P A (rs : HttpResponse * Server SS) : Prop := in_order P A rs.2.

Lemma answer_in_order P A resp s : in_order P A s → returns (answered P A) (mret (resp, s)).
Proof. intros Hs. by apply returns_ret. Qed.

Lemma handle_push_in_order P A k r s :
  (∀ conn e, env_MsgType e ≠ InternalMsgJoinRoomAck → P conn e) → in_order P A s →
  returns (answered P A) (handle_push k r s).
Proof.
  intros Hother Hs. pose proof (answer_in_order P A) as Hret.
  destruct k; cbn [handle_push]; unfold handleUnicastHTTP, handleMulticastHTTP,
    handleRoomBroadcastHTTP, handleGlobalBroadcastHTTP;
    (case_decide; [by apply Hret|]); (case_decide; [by apply Hret|]);
    (destruct (decode_request _); [|by apply Hret]).
  - destruct (GetSession _ _) as [session|]; [|by apply Hret].
    destruct (GetGatewayByID _ _) as [conn|]; [|by apply Hret]. cbv zeta.
    eapply returns_bind; [|intros; by apply Hret]. intros s' Hrun.
    apply (sendToGateway_queues P) in Hrun; [|apply Hs|by apply Hother].
    by eapply in_order_quietly; [apply Hs|].
  - cbv zeta. eapply returns_bind; [|intros; by apply Hret].
    apply send_each_in_order; [done|done|].
    by intros i e ([i' us] & [= -> ->] & _)%list_elem_of_fmap.
  - destruct (GetRoom _ _); [|by apply Hret]. cbv zeta. case_decide; [by apply Hret|].
    eapply returns_bind; [|intros; by apply Hret]. by apply send_to_all_in_order.
  - cbv zeta. eapply returns_bind; [|intros; by apply Hret]. by apply send_to_all_in_order.
Qed.

Lemma handleRoomClose_in_order P A r s :
  (∀ conn e, env_MsgType e ≠ InternalMsgJoinRoomAck → P conn e) → in_order P A s →
  returns (answered P A) (handleRoomCloseHTTP r s).
Proof.
  intros Hother Hs. unfold handleRoomCloseHTTP. pose proof (answer_in_order P A) as Hret.
  case_decide; [by apply Hret|]. destruct (decode_request _); [|by apply Hret].
  destruct (GetRoom _ _); [|by apply Hret]. cbv zeta.
  eapply returns_bind; [by apply send_to_all_in_order|]. intros s' Hs'. apply Hret.
  by apply (in_order_ctl P A "" s' (CtlClose _)).
Qed.

(** *** Steps *)
Lemma inv_acts gs s R ws A gw g a g' :
  whole_inv (mkWhole gs s R ws A) → gs !! gw = Some g → on_its_own a →
  run_action parse json a g = Done (tt, g') →
  whole_inv (mkWhole (<[gw := g']> gs) s R ws (A ∪ action_asks gw g a)).
Proof.
  intros Hi Hg Ha Hrun. eapply inv_gateway; [done|apply union_subseteq_l|].
  apply (sound_action parse json _ gw a g); [|apply union_subseteq_r|by destruct a|done].
  eapply (sound_gw_mono A); [apply union_subseteq_l|by apply Hi].
Qed.

Lemma inv_opens gs s R ws A gw conn s' :
  whole_inv (mkWhole gs s R ws A) → Channel_open s = (conn, s') →
  whole_inv (mkWhole gs s' (R ∪ {[conn]}) (<[conn := mkWire gw [] []]> ws) A).
Proof.
  intros [Hg [Hs Hq] Hw]. unfold Channel_open. cbv zeta. intros [= <- <-].
  set (conn := fresh _). split; cbn in *; [done| |].
  - split; [by apply (asked_srv_same A s)|]. intros conn' c'. cbn.
    intros [[<- <-]|[Hne Hc]]%lookup_insert_Some; [constructor|].
    eapply Forall_impl; [by apply (Hq conn')|]. intros e He w. rewrite lookup_insert_ne by done.
    apply He.
  - intros conn' w [[<- <-]|[_ ?]]%lookup_insert_Some; [by repeat constructor|by eapply Hw].
Qed.

(** Wires break: one, or all of a gateway. *)
Lemma inv_fewer_wires gs s R ws ws' A :
  whole_inv (mkWhole gs s R ws A) → ws' ⊆ ws → whole_inv (mkWhole gs s R ws' A).
Proof.
  intros [Hg [Hs Hq] Hw] Hsub. split; cbn in *; [done| |].
  - split; [done|]. eapply queues_wires; [|exact Hq].
    intros conn w Hc. exists w. split; [by eapply lookup_weaken|done].
  - intros conn w Hc. eapply Hw. by eapply lookup_weaken.
Qed.

Lemma inv_sends gs s R ws A gw g g' conn up down e :
  whole_inv (mkWhole gs s R ws A) → gs !! gw = Some g → ws !! conn = Some (mkWire gw up down) →
  sendLoop_step true g = Some (true, e, g') →
  whole_inv (mkWhole (<[gw := g']> gs) s R (<[conn := mkWire gw (up ++ [e]) down]> ws) A).
Proof.
  intros Hi Hg Hc Hrun. destruct (sound_sendLoop A gw g true true e g') as [Hg' He]; [by apply Hi|done|].
  pose proof (yi_wires _ Hi _ _ Hc) as [Hup Hdown]. cbn in Hup, Hdown.
  eapply inv_gateway; [|done|done]. eapply inv_wire; [done..|]. split; [|done].
  apply Forall_app. by repeat constructor.
Qed.

Lemma inv_receives gs s R ws A gw conn up down e now s' :
  whole_inv (mkWhole gs s R ws A) → ws !! conn = Some (mkWire gw (e :: up) down) →
  handleGatewayMessage conn e now s = Done s' →
  whole_inv (mkWhole gs s' R (<[conn := mkWire gw up down]> ws) A).
Proof.
  intros Hi Hc Hrun. pose proof (yi_wires _ Hi _ _ Hc) as [Hup Hdown]. cbn in Hup, Hdown.
  apply Forall_cons in Hup as [He Hup]. eapply inv_wire; [|done|done|done].
  eapply inv_server; [done|].
  apply (handleGatewayMessage_in_order (carries A ws) (carries_other A ws) A gw conn) in Hrun;
    [done| |apply Hi|done].
  intros e' He' w Hw. by simplify_eq.
Qed.

Lemma inv_writes gs s R ws A gw conn up down c e es s' :
  whole_inv (mkWhole gs s R ws A) → ws !! conn = Some (mkWire gw up down) →
  conns s !! conn = Some c → ch_buf (gc_sendCh c) = e :: es →
  gatewayWriteLoop_step (λ _, true) conn s = Done (Some (true, s')) →
  whole_inv (mkWhole gs s' R (<[conn := mkWire gw up (down ++ [e])]> ws) A).
Proof.
  intros Hi Hc Hcc Hb Hrun. pose proof (yi_wires _ Hi _ _ Hc) as [Hup Hdown]. cbn in Hup, Hdown.
  destruct (yi_srv _ Hi) as [Hs Hq]. cbn in Hs, Hq.
  pose proof (Hq conn c Hcc) as He. rewrite Hb in He. apply Forall_cons in He as [He _].
  eapply inv_wire; [|done|done|].
  - eapply inv_server; [done|].
    apply (gatewayWriteLoop_queues (carries A ws)) in Hrun; [by eapply in_order_quietly|done].
  - split; [done|]. apply Forall_app. repeat constructor; [done|]. by apply (He _ Hc).
Qed.

Lemma inv_delivers gs s R ws A gw g g' conn up down e started :
  whole_inv (mkWhole gs s R ws A) → gs !! gw = Some g →
  ws !! conn = Some (mkWire gw up (e :: down)) → handleEnvelope e g = Done (started, g') →
  whole_inv (mkWhole (<[gw := g']> gs) s R (<[conn := mkWire gw up down]> ws) A).
Proof.
  intros Hi Hg Hc Hrun. pose proof (yi_wires _ Hi _ _ Hc) as [Hup Hdown]. cbn in Hup, Hdown.
  apply Forall_cons in Hdown as [He Hdown]. eapply inv_gateway; [by eapply inv_wire|done|].
  eapply (sound_action parse json A gw (ActEnvelope e) g); [by apply Hi|set_solver|done|].
  cbn. unfold mbind, G_bind. by rewrite Hrun.
Qed.

Context (empty_ok : store_ok empty) (empty_none : sessions empty = ∅).

Lemma whole_step_inv y y' : whole_inv y → whole_step y y' → whole_inv y'.
Proof.
  intros Hi Hst. pose proof (carries_other (y_asked y) (y_wires y)) as Hother.
  destruct Hst as [| | | | | | | |gs s R ws A conn s' Hrun| |gs s R ws A conn s' HR Hrun
    |gs s R ws A k r resp s' Hrun|gs s R ws A r resp s' Hrun|gs s R ws A now_ms s' Hrun
    |gs s R ws A ord now|gs s R ws A start now s' Hrun|]; try destruct (yi_srv _ Hi) as [Hs Hq];
    cbn [y_asked y_wires y_srv] in *.
  - by eapply inv_acts.
  - eapply inv_gateway; [|done|apply sound_gw_new].
    eapply inv_fewer_wires; [done|]. apply map_filter_subseteq.
  - by eapply inv_opens.
  - eapply inv_fewer_wires; [done|]. apply delete_subseteq.
  - by eapply inv_sends.
  - eapply inv_gateway; [done|done|]. eapply sound_sendLoop; [by apply Hi|done].
  - by eapply inv_receives.
  - by eapply inv_writes.
  - eapply inv_server; [done|].
    apply (gatewayWriteLoop_queues (carries A ws)) in Hrun; [by eapply in_order_quietly|done].
  - by eapply inv_delivers.
  - eapply inv_server; [done|].
    apply (Channel_cleanup_queues (carries A ws)) in Hrun; [by eapply in_order_quietly|done].
  - eapply inv_server; [done|].
    by apply (handle_push_in_order (carries A ws) A k r s Hother) in Hrun.
  - eapply inv_server; [done|].
    by apply (handleRoomClose_in_order (carries A ws) A r s Hother) in Hrun.
  - eapply inv_server; [done|].
    by apply (send_to_all_in_order (carries A ws) Hother A) in Hrun.
  - eapply inv_server; [done|].
    by apply (in_order_ctl (carries A ws) A "" s (CtlTick ord _ now)).
  - eapply inv_server; [done|]. unfold recoveryMonitor in Hrun. case_match; [|done].
    injection Hrun as <-. split; [by apply (asked_srv_same A s)|done].
  - destruct Hi as [Hg _ Hw]. split; cbn in *; [done| |].
    + split; [by apply asked_srv_new|]. intros conn c Hc. cbn in Hc. by rewrite lookup_empty in Hc.
    + intros conn w Hc. by rewrite lookup_empty in Hc.
Qed.

Lemma whole_reachable_inv id dt rt vn now now_ms y :
  rtc whole_step (whole_start id dt rt vn now now_ms) y → whole_inv y.
Proof.
  intros Hr. assert (whole_inv (whole_start id dt rt vn now now_ms)) as Hi.
  { split; cbn; [intros ? ? Hg; by rewrite lookup_empty in Hg| |
      intros ? ? Hg; by rewrite lookup_empty in Hg].
    split; [by apply asked_srv_new|]. intros conn c Hc. cbn in Hc. by rewrite lookup_empty in Hc. }
  induction Hr; [done|]. eauto using whole_step_inv.
Qed.

(** ** History *)

(** At some point of the run a client of the gateway, logged in as the user,
    sent a request for the room. *)
Definition client_asked y0 y gw u rid : Prop :=
  ∃ y1 g ref data frame req,
    rtc whole_step y0 y1 ∧ rtc whole_step y1 y ∧ y_gws y1 !! gw = Some g ∧
    users_of g !! ref = Some u ∧ DecodeFrame data = Done (Ok frame) ∧
    f_MsgType frame ∈ [MsgTypeJoinRoom; MsgTypeResume; MsgTypeHeartbeat] ∧
    Decode (f_Payload frame) = Some req ∧ rq_RoomID req = rid ∧
    ∃ kafka now_ms msgID g', run_action parse json (ActRead kafka now_ms msgID ref (Some data)) g =
      Done (tt, g').

Lemma action_asks_inv gw g a gw' u rid :
  (gw', u, rid) ∈ action_asks gw g a →
  gw' = gw ∧ ∃ kafka now_ms msgID ref data frame req,
    a = ActRead kafka now_ms msgID ref (Some data) ∧ users_of g !! ref = Some u ∧
    DecodeFrame data = Done (Ok frame) ∧
    f_MsgType frame ∈ [MsgTypeJoinRoom; MsgTypeResume; MsgTypeHeartbeat] ∧
    Decode (f_Payload frame) = Some req ∧ rq_RoomID req = rid.
Proof.
  destruct a as [|kafka now_ms msgID ref [data|]| | | | | | | | | | ]; cbn; try set_solver.
  destruct (users_of g !! ref) as [v|] eqn:Hu; [|set_solver]. unfold asks.
  destruct (DecodeFrame data) as [[frame|]| |] eqn:Hf; [|set_solver..]. case_decide as Ht; [|set_solver].
  destruct (Decode (f_Payload frame)) as [req|] eqn:Hd; [|set_solver].
  intros [= -> -> ->]%elem_of_singleton. split; [done|].
  by exists kafka, now_ms, msgID, ref, data, frame, req.
Qed.

Lemma client_asked_later y0 y y' gw u rid :
  client_asked y0 y gw u rid → whole_step y y' → client_asked y0 y' gw u rid.
Proof.
  intros (y1 & g & ref & data & frame & req & H0y & Hy & Hrest) Hst.
  exists y1, g, ref, data, frame, req. split; [done|]. split; [|done].
  by eapply rtc_r.
Qed.

Lemma asked_history y0 y gw u rid :
  y_asked y0 = ∅ → rtc whole_step y0 y → (gw, u, rid) ∈ y_asked y → client_asked y0 y gw u rid.
Proof.
  intros H0y Hr. revert y Hr gw u rid.
  apply (rtc_ind_r (λ y, ∀ gw u rid, (gw, u, rid) ∈ y_asked y → client_asked y0 y gw u rid)).
  { intros gw u rid. rewrite H0y. set_solver. }
  intros y y' Hr Hst IH gw u rid Hin. assert ((gw, u, rid) ∈ y_asked y → client_asked y0 y' gw u rid) as Hold.
  { intros Hy. by eapply client_asked_later; [apply IH|]. }
  pose proof Hst as Hst'. destruct Hst; try by apply Hold.
  cbn in Hin. apply elem_of_union in Hin as [Hin|Hin]; [by apply Hold|].
  apply action_asks_inv in Hin as (-> & kafka & now_ms & msgID & ref & data & frame & req & -> &
    Hu & Hf & Ht & Hd & Hrid).
  eexists _, g, ref, data, frame, req. split; [exact Hr|]. split; [by apply rtc_once|].
  split_and!; [done..|]. by exists kafka, now_ms, msgID, g'.
Qed.

(** ** Who gets the messages of a room *)
Section room_messages.
Context (A : Asked) (gw rid : string) (g0 : Gateway).
Context (Hsound : sound_gw A gw g0).

(** Since [g0] only connections of users that asked for the room changed. *)
Definition only_room g : Prop :=
  connections g = connections g0 ∧ localRooms g = localRooms g0 ∧
  ∀ ref, objects g !! ref = objects g0 !! ref ∨
         ∃ u, users_of g0 !! ref = Some u ∧ (gw, u, rid) ∈ A.

Lemma only_room_held h g : only_room g → only_room (set_held h g).
Proof. done. Qed.

Lemma only_room_send_c ref u data :
  users_of g0 !! ref = Some u → (gw, u, rid) ∈ A → preserves only_room (send_c ref data).
Proof.
  intros Hu Hin. unfold send_c. apply preserves_bind; [apply preserves_get_c|intros c].
  apply preserves_bind; [apply preserves_gets|intros now]. destruct (Send data now c) as [ok c'].
  apply preserves_bind; [|intros; apply preserves_ret].
  apply preserves_modify. intros g (Hc & Hr & Ho). split_and!; [done..|]. intros ref'. cbn.
  destruct (decide (ref' = ref)) as [->|Hne]; [right; by exists u|].
  rewrite lookup_insert_ne by done. apply Ho.
Qed.

Lemma only_room_connections :
  ensures only_room (gets connections) (λ conns, conns = connections g0).
Proof. apply ensures_gets. by intros g (? & _). Qed.

Lemma registered_user u ref : connections g0 !! u = Some ref → users_of g0 !! ref = Some u.
Proof. apply (ag_conns _ _ _ _ Hsound). Qed.

Lemma only_room_push_to u data : (gw, u, rid) ∈ A → preserves only_room (push_to data u).
Proof.
  intros Hin. unfold push_to, GetConnection.
  eapply (ensures_bind _ _ (λ o, o = connections g0 !! u)).
  - eapply ensures_bind; [apply preserves_rlock, only_room_held|intros _ _].
    eapply ensures_bind; [apply only_room_connections|intros conns ->].
    eapply ensures_bind; [apply preserves_runlock, only_room_held|intros _ _].
    by apply ensures_ret.
  - intros o ->. destruct (connections g0 !! u) as [ref|] eqn:Hu; [|apply preserves_ret].
    apply preserves_bind; [|intros; apply preserves_ret].
    by eapply only_room_send_c; [apply registered_user|].
Qed.

Lemma only_room_dispatch u payload prio :
  (gw, u, rid) ∈ A → preserves only_room (dispatchToUser payload prio u).
Proof.
  intros Hin. unfold dispatchToUser.
  eapply ensures_bind; [apply ensures_with_rlock; [apply only_room_held|apply only_room_connections]|].
  intros conns ->. destruct (connections g0 !! u) as [ref|] eqn:Hu; [|apply preserves_ret].
  cbv zeta. apply preserves_bind; [apply preserves_get_c|intros c].
  case_match; [apply preserves_ret|]. apply preserves_bind; [|intros; apply preserves_ret].
  by eapply only_room_send_c; [apply registered_user|].
Qed.

(** The listed users have asked for the room. *)
Lemma only_room_users :
  ensures only_room (gets localRooms) (λ rooms, rooms_asked A gw rooms).
Proof. apply ensures_gets. intros g (_ & -> & _). apply Hsound. Qed.

Lemma only_room_broadcast p msg :
  Decode p = Some msg → bm_RoomID msg = rid → preserves only_room (handleBroadcast p).
Proof.
  intros Hd Hrid. unfold handleBroadcast, GetRoomUsers. rewrite Hd.
  eapply (ensures_bind _ _ (λ us, ∀ u, u ∈ us → (gw, u, rid) ∈ A)).
  - eapply ensures_bind; [apply preserves_rlock, only_room_held|intros _ _].
    eapply ensures_bind; [apply only_room_users|intros rooms Hr].
    eapply ensures_bind; [apply preserves_runlock, only_room_held|intros _ _].
    apply ensures_ret. intros u. rewrite Hrid. destruct (rooms !! rid) as [us|] eqn:E; [|set_solver].
    rewrite elem_of_range_set. intros Hu. apply Hr. by exists us.
  - intros us Hus. case_decide; [apply preserves_ret|]. cbv zeta.
    apply preserves_for_each. intros u Hu. by apply only_room_push_to, Hus.
Qed.

Lemma only_room_kafka msg :
  pm_RoomID msg = rid → preserves only_room (KafkaConsumer.handleRoomBroadcast msg).
Proof.
  intros Hrid. unfold KafkaConsumer.handleRoomBroadcast.
  eapply ensures_bind; [apply ensures_with_rlock; [apply only_room_held|apply only_room_users]|].
  intros rooms Hr. rewrite Hrid. destruct (rooms !! rid) as [us|] eqn:E; [|apply preserves_ret].
  apply preserves_for_each. intros u. rewrite elem_of_range_set. intros Hu.
  apply only_room_dispatch, Hr. by exists us.
Qed.
End room_messages.

(** ** Schedules
    Runs that can be executed: a list of events, where an event that cannot
    happen changes nothing. *)
Inductive Event :=
  | EvStart (cfg : GatewayConfig) (now : Z)
  | EvAct (gw : string) (a : GwAction)
  | EvOpen (gw : string)
  | EvBreak (conn : ConnRef)
  | EvSend (gw : string) (conn : ConnRef)
  | EvReceive (conn : ConnRef) (now : Z)
  | EvWrite (conn : ConnRef)
  | EvDeliver (conn : ConnRef)
  | EvEnd (conn : ConnRef).

Definition event_happens (ev : Event) y : option (Whole SS) :=
  let '(mkWhole gs s R ws A) := y in
  match ev with
  | EvStart cfg now =>
    Some (mkWhole (<[cfg_ID cfg := NewGateway cfg now]> gs) s R
            (filter (λ cw, w_gw cw.2 ≠ cfg_ID cfg) ws) A)
  | EvAct gw a =>
    g ← gs !! gw;
    match on_its_own a, run_action parse json a g with
    | true, Done (_, g') => Some (mkWhole (<[gw := g']> gs) s R ws (A ∪ action_asks gw g a))
    | _, _ => None
    end
  | EvOpen gw =>
    _ ← gs !! gw;
    let '(conn, s') := Channel_open s in
    Some (mkWhole gs s' (R ∪ {[conn]}) (<[conn := mkWire gw [] []]> ws) A)
  | EvBreak conn => Some (mkWhole gs s R (delete conn ws) A)
  | EvSend gw conn =>
    g ← gs !! gw;
    w ← ws !! conn;
    match decide (w_gw w = gw), sendLoop_step true g with
    | left _, Some (_, e, g') =>
      Some (mkWhole (<[gw := g']> gs) s R (<[conn := mkWire gw (w_up w ++ [e]) (w_down w)]> ws) A)
    | _, _ => None
    end
  | EvReceive conn now =>
    w ← ws !! conn;
    match decide (conn ∈ R), w_up w with
    | left _, e :: up =>
      match handleGatewayMessage conn e now s with
      | Done s' => Some (mkWhole gs s' R (<[conn := mkWire (w_gw w) up (w_down w)]> ws) A)
      | _ => None
      end
    | _, _ => None
    end
  | EvWrite conn =>
    w ← ws !! conn;
    c ← conns s !! conn;
    match decide (conn ∈ R), ch_buf (gc_sendCh c), gatewayWriteLoop_step (λ _, true) conn s with
    | left _, e :: _, Done (Some (true, s')) =>
      Some (mkWhole gs s' R (<[conn := mkWire (w_gw w) (w_up w) (w_down w ++ [e])]> ws) A)
    | _, _, _ => None
    end
  | EvDeliver conn =>
    w ← ws !! conn;
    g ← gs !! w_gw w;
    match w_down w with
    | e :: down =>
      match handleEnvelope e g with
      | Done (_, g') =>
        Some (mkWhole (<[w_gw w := g']> gs) s R (<[conn := mkWire (w_gw w) (w_up w) down]> ws) A)
      | _ => None
      end
    | [] => None
    end
  | EvEnd conn =>
    match decide (conn ∈ R), Channel_cleanup conn s with
    | left _, Done s' => Some (mkWhole gs s' (R ∖ {[conn]}) ws A)
    | _, _ => None
    end
  end.

Definition perform (evs : list Event) y : Whole SS :=
  foldl (λ y ev, default y (event_happens ev y)) y evs.

Lemma event_happens_step ev y y' : event_happens ev y = Some y' → whole_step y y'.
Proof.
  destruct y as [gs s R ws A], ev as [cfg now|gw a|gw|conn|gw conn|conn now|conn|conn|conn];
    cbn [event_happens]; intros Hev.
  - injection Hev as <-. apply GwStarts.
  - apply bind_Some in Hev as (g & Hg & Hev).
    destruct (on_its_own a) eqn:Ha; [|done].
    destruct (run_action parse json a g) as [[[] g']| |] eqn:Hrun; [|done..]. injection Hev as <-.
    eapply GwActs; [done|by rewrite Ha|done].
  - apply bind_Some in Hev as (g & Hg & [= <-]). by eapply StreamOpens.
  - injection Hev as <-. apply WireBreaks.
  - apply bind_Some in Hev as (g & Hg & (w & Hw & Hev)%bind_Some).
    destruct (decide (w_gw w = gw)) as [<-|]; [|done].
    destruct (sendLoop_step true g) as [[[b e] g']|] eqn:Hs; [|done]. injection Hev as <-.
    assert (b = true) as -> by (unfold sendLoop_step in Hs; by case_match; simplify_eq).
    eapply GwSends; [done|by destruct w|done].
  - apply bind_Some in Hev as (w & Hw & Hev). destruct (decide (conn ∈ R)) as [Hin|]; [|done].
    destruct w as [gw up down]. cbn in *. destruct up as [|e up]; [done|].
    destruct (handleGatewayMessage conn e now s) eqn:Hh; simplify_eq. by eapply SrvReceives.
  - apply bind_Some in Hev as (w & Hw & (c & Hc & Hev)%bind_Some).
    destruct (decide (conn ∈ R)) as [Hin|]; [|done]. destruct w as [gw up down]. cbn in *.
    destruct (ch_buf (gc_sendCh c)) as [|e es] eqn:Hb; [done|].
    destruct (gatewayWriteLoop_step _ conn s) as [[[[] s']|]| |] eqn:Hs; simplify_eq.
    by eapply SrvWrites.
  - apply bind_Some in Hev as (w & Hw & (g & Hg & Hev)%bind_Some). destruct w as [gw up down].
    cbn in *. destruct down as [|e down]; [done|].
    destruct (handleEnvelope e g) as [[b g']| |] eqn:Hh; simplify_eq. by eapply GwReceives.
  - destruct (decide (conn ∈ R)); [|done].
    destruct (Channel_cleanup conn s) eqn:Hc; simplify_eq. by eapply StreamEnds.
Qed.

Lemma perform_run evs y : rtc whole_step y (perform evs y).
Proof.
  revert y. induction evs as [|ev evs IH]; intros y; [apply rtc_refl|]. unfold perform. cbn.
  destruct (event_happens ev y) as [y'|] eqn:E; [|apply IH].
  eapply rtc_l; [by apply (event_happens_step ev)|apply IH].
Qed.
End whole.

(** ** Properties *)
Section properties.
Context {SS : Type} `{SessionStoreLaws SS}.
Context `{Msgpack RoomRequest, Msgpack StatusResponse, Msgpack LeaveResponse,
  Msgpack CloseNotice, Msgpack PushContent, Msgpack AuthRequest, Msgpack AuthResponse}.
Context `{Msgpack GatewayInfo, MsgpackLaws JoinRoomRequest, Msgpack LeaveRoomRequest,
  MsgpackLaws ResumeRequest, Msgpack DisconnectNotify, MsgpackLaws BatchReSync,
  Msgpack ReSyncComplete}.
Context `{MsgpackLaws JoinRoomAck, Msgpack BroadcastMessage, Msgpack UnicastMessage,
  Msgpack MulticastMessage, Msgpack EpochNotify, Msgpack RoomCloseNotify}.
Context `{JsonRequest UnicastRequest, JsonRequest MulticastRequest,
  JsonRequest RoomBroadcastRequest, JsonRequest GlobalBroadcastRequest,
  JsonRequest RoomCloseRequest}.
Context `{O : MapOrder}.
Context (parse : string → (SigningMethod → option (list byte)) → ParseResult).
Context (json : list byte → option PushMessage).
Implicit Types (y : Whole SS) (g : Gateway) (u rid gw : string).

(** C4. Nobody is anywhere they did not ask to be.  From the start of the
    system on, whatever gateways, clients, the roomserver and the push
    interface do, and whatever fails, is lost or starts anew: a user that
    has a session in a room on a gateway, is a member of a room from a
    gateway, or is listed for it in the gateway's local rooms, has sent a
    request for this room to this gateway at some time, on a connection
    that was logged in as this user. *)
Theorem nobody_uninvited (empty : SS) id dt rt vn t0 t0_ms y :
  store_ok empty → sessions empty = ∅ →
  let y0 := whole_start empty id dt rt vn t0 t0_ms in
  rtc (whole_step parse json empty) y0 y →
  let asked := client_asked parse json empty y0 y in
  (∀ u p, presence (y_srv y) !! u = Some p → asked (p_gateway p) u (p_room p)) ∧
  (∀ rid u m, member (roomSvc (y_srv y)) rid u = Some m → asked (rm_GatewayID m) u rid) ∧
  (∀ gw g rid u, y_gws y !! gw = Some g → in_local (localRooms g) rid u → asked gw u rid).
Proof.
  intros Hok Hnone y0 Hr asked. pose proof (whole_reachable_inv parse json empty Hok Hnone
    id dt rt vn t0 t0_ms y Hr) as [Hg [Hs _] _].
  assert (∀ gw u rid, (gw, u, rid) ∈ y_asked y → asked gw u rid) as Hasked
    by (intros; by apply (asked_history parse json empty Hok Hnone y0 y)).
  split_and!.
  - intros u p Hp. apply Hasked. by apply (as_sessions _ _ Hs).
  - intros rid u m Hm. apply Hasked. by apply (as_members _ _ Hs).
  - intros gw g rid u Hgw Hu. apply Hasked. by apply (ag_rooms _ _ _ _ (Hg gw g Hgw)).
Qed.

(** C6. The messages of a room stay among those who asked for it.  In any
    state the system can come to, when a gateway handles a broadcast of the
    roomserver or a room push from Kafka, the only connections that change
    (get the message, or count it as dropped) are connections of users that
    have asked for this room there. *)
Theorem room_messages_reach_askers (empty : SS) id dt rt vn t0 t0_ms y gw g g' rid ref :
  store_ok empty → sessions empty = ∅ →
  let y0 := whole_start empty id dt rt vn t0 t0_ms in
  rtc (whole_step parse json empty) y0 y → y_gws y !! gw = Some g →
  (∃ payload msg, Decode payload = Some msg ∧ bm_RoomID msg = rid ∧
     handleEnvelope (mkEnvelope InternalMsgBroadcast payload) g = Done (false, g')) ∨
  (∃ msg, pm_RoomID msg = rid ∧ KafkaConsumer.handleRoomBroadcast msg g = Done (tt, g')) →
  objects g' !! ref ≠ objects g !! ref →
  ∃ u, users_of g !! ref = Some u ∧ client_asked parse json empty y0 y gw u rid.
Proof.
  intros Hok Hnone y0 Hr Hg Hrun Hne. pose proof (whole_reachable_inv parse json empty Hok Hnone
    id dt rt vn t0 t0_ms y Hr) as [Hgs _ _]. specialize (Hgs gw g Hg).
  assert (only_room (y_asked y) gw rid g g') as (_ & _ & Ho).
  { assert (only_room (y_asked y) gw rid g g) as Hstart by (split_and!; [done..|by left]).
    destruct Hrun as [(p & msg & Hd & Hrid & Hrun)|(msg & Hrid & Hrun)].
    - unfold handleEnvelope in Hrun. cbn in Hrun. unfold mbind, G_bind in Hrun.
      destruct (handleBroadcast p g) as [[[] g1]| |] eqn:E; try done. injection Hrun as <-.
      eapply preserves_run; [|exact Hstart|exact E]. by eapply only_room_broadcast.
    - eapply preserves_run; [|exact Hstart|exact Hrun]. by apply only_room_kafka. }
  destruct (Ho ref) as [|(u & Hu & Hin)]; [done|]. exists u. split; [done|].
  by apply (asked_history parse json empty Hok Hnone y0 y).
Qed.
End properties.

Section examples.
Import ToyCodec.
#[local] Existing Instance default_order.
#[local] Instance CloseNotice_eq_dec : EqDecision CloseNotice.
Proof. solve_decision. Defined.
#[local] Instance CloseNotice_countable : Countable CloseNotice.
Proof.
  refine (inj_countable' (λ m, (cn_RoomID m, cn_Reason m)) (λ '(a, b), mkCloseNotice a b) _).
  by intros [].
Defined.
#[local] Instance PushContent_codec : Msgpack PushContent :=
  {| Encode c := Some (pc_Message c); Decode bs := Some (mkPushContent "" "" "" 0 bs) |}.
#[local] Instance AuthRequest_codec : Msgpack AuthRequest :=
  {| Encode r := Some (String.list_byte_of_string (aq_UserID r));
     Decode bs := Some (mkAuthRequest "" (String.string_of_list_byte bs)) |}.
#[local] Instance AuthResponse_codec : Msgpack AuthResponse :=
  {| Encode r := Some (String.list_byte_of_string (ar_UserID r)); Decode _ := None |}.
#[local] Instance demo_unicast : JsonRequest UnicastRequest :=
  λ body, Some (mkUnicastRequest "r1" "u1" body).
#[local] Instance demo_multicast : JsonRequest MulticastRequest :=
  λ body, Some (mkMulticastRequest "r1" ["u1"]%string body).
#[local] Instance demo_room_broadcast : JsonRequest RoomBroadcastRequest :=
  λ body, Some (mkRoomBroadcastRequest "r1" body).
#[local] Instance demo_global : JsonRequest GlobalBroadcastRequest :=
  λ body, Some (mkGlobalBroadcastRequest body).
#[local] Instance demo_close : JsonRequest RoomCloseRequest :=
  λ _, Some (mkRoomCloseRequest "r1" "").

Definition whole_empty : Whole SessionService :=
  whole_start NewSessionService "rs-1" 10 10 100 0 0.

(** "u1" logs in, joins "r1", and the roomserver takes the join and answers. *)
Definition demo_up_events : list Event :=
  [EvStart demo_gw_cfg 0; EvOpen "gw-1"; EvAct "gw-1" (ActLogin None (Some demo_login) "c1");
   EvAct "gw-1" (ActRead None 0 "" 0%nat (Some (EncodeFrame (join_frame "r1"))));
   EvSend "gw-1" 0%nat; EvReceive 0%nat 9].
Definition demo_down_events : list Event := [EvWrite 0%nat; EvDeliver 0%nat].

Definition demo_taken : Whole SessionService :=
  perform no_jwt no_json demo_up_events whole_empty.
Definition demo_whole : Whole SessionService :=
  perform no_jwt no_json demo_down_events demo_taken.

Lemma demo_taken_run :
  rtc (whole_step no_jwt no_json NewSessionService) whole_empty demo_taken.
Proof. apply perform_run. Qed.

Lemma demo_whole_run :
  rtc (whole_step no_jwt no_json NewSessionService) whole_empty demo_whole.
Proof. etrans; [apply demo_taken_run|apply perform_run]. Qed.

Lemma nobody_uninvited_witness :
  presence (H0 := SessionService_laws) (y_srv demo_taken) !! "u1"%string =
    Some (mkPresence "r1" "gw-1" MemberStatusOnline None) ∧
  client_asked no_jwt no_json NewSessionService whole_empty demo_taken "gw-1" "u1" "r1".
Proof.
  assert (presence (H0 := SessionService_laws) (y_srv demo_taken) !! "u1"%string =
    Some (mkPresence "r1" "gw-1" MemberStatusOnline None)) as Hu by (by vm_compute).
  destruct (nobody_uninvited no_jwt no_json NewSessionService "rs-1" 10 10 100 0 0 demo_taken)
    as (Hp & _); [apply NewSessionService_wf|done|apply demo_taken_run|].
  split; [exact Hu|exact (Hp _ _ Hu)].
Defined.

(** A broadcast to "r1" comes in. *)
Definition demo_room_gw : Gateway :=
  default (NewGateway demo_gw_cfg 0) (y_gws demo_whole !! "gw-1"%string).
Definition demo_room_msg : Envelope :=
  mkEnvelope InternalMsgBroadcast (Encode_ (mkBroadcastMessage "r1" 7 [Byte.x2a])).
Definition demo_room_gw' : Gateway := end_state demo_room_gw (handleEnvelope demo_room_msg demo_room_gw).

Lemma room_messages_reach_askers_witness :
  (λ c, length (ch_buf (c_sendCh c))) <$> objects demo_room_gw' !! 0%nat = Some 2%nat ∧
  ∃ u, users_of demo_room_gw !! 0%nat = Some u ∧
    client_asked no_jwt no_json NewSessionService whole_empty demo_whole "gw-1" u "r1".
Proof.
  split; [by vm_compute|].
  apply (room_messages_reach_askers no_jwt no_json NewSessionService "rs-1" 10 10 100 0 0
    demo_whole "gw-1" demo_room_gw demo_room_gw' "r1" 0%nat);
    [apply NewSessionService_wf|done|apply demo_whole_run|by vm_compute| |by vm_compute].
  left. exists (env_Payload demo_room_msg), (mkBroadcastMessage "r1" 7 [Byte.x2a]).
  split_and!; by vm_compute.
Defined.
End examples.
