(* ===== verification/Healing.v ===== *)
(** Healing after failures: whatever got lost before, a heartbeat of a client
    that its gateway lists in no room brings gateway and roomserver together
    again, once the stream between them works. *)

From Stdlib Require Import ZArith Lia.
From stdpp Require Import base tactics gmap strings numbers list relations.
From S2P Require Import Prelude GoInt Protocol Frame Chan SessionStore SessionService RoomService Recovery Roomserver GrpcServer PushApi Connection Gateway GatewayHandler RoomserverClient KafkaConsumer Login System Typing Network Requested WholeSystem.

Local Open Scope Z_scope.

(** ** Lemmas *)
Section healing.
Context {SS : Type} `{SessionStoreLaws SS}.
Context `{Msgpack RoomRequest, Msgpack StatusResponse, Msgpack LeaveResponse,
  Msgpack CloseNotice, Msgpack PushContent, Msgpack AuthRequest, Msgpack AuthResponse}.
Context `{MsgpackLaws GatewayInfo, MsgpackLaws JoinRoomRequest, MsgpackLaws LeaveRoomRequest,
  MsgpackLaws ResumeRequest, MsgpackLaws DisconnectNotify, MsgpackLaws BatchReSync,
  MsgpackLaws ReSyncComplete}.
Context `{MsgpackLaws JoinRoomAck, MsgpackLaws BroadcastMessage, Msgpack UnicastMessage,
  Msgpack MulticastMessage, Msgpack EpochNotify, Msgpack RoomCloseNotify}.
Context `{JsonRequest UnicastRequest, JsonRequest MulticastRequest,
  JsonRequest RoomBroadcastRequest, JsonRequest GlobalBroadcastRequest,
  JsonRequest RoomCloseRequest}.
Context `{O : MapOrder}.
Context (parse : string → (SigningMethod → option (list byte)) → ParseResult).
Context (json : list byte → option PushMessage).
Implicit Types (y : Whole SS) (s : Server SS) (g : Gateway) (u rid gw : string)
  (conn : ConnRef) (ref : CRef).

Definition nowhere g u : Prop := ∀ rid, ¬ in_local (localRooms g) rid u.

Lemma local_room_of_nowhere g u : nowhere g u → local_room_of u (localRooms g) = ""%string.
Proof.
  intros Hno. unfold local_room_of.
  destruct (List.find _ _) as [[rid us]|] eqn:E; [|done].
  apply List.find_some in E as [Hin Hu]. apply list_elem_of_In, elem_of_range_map in Hin.
  apply bool_decide_eq_true in Hu. destruct (Hno rid). by exists us.
Qed.

(** An open connection of a logged-in user, seen between two events. *)
Record open_client g ref (c : Connection) : Prop := mkOpenClient {
  oc_object : objects g !! ref = Some c;
  oc_listed : connections g !! c_UserID c = Some ref;
  oc_open : c_closeCh c = false;
  oc_free : held g = [];
}.

(** A stream that works, with nothing on its way. *)
Record idle_stream y gw g conn (sc : GatewayConnection) : Prop := mkIdleStream {
  is_gateway : y_gws y !! gw = Some g;
  is_running : conn ∈ y_running y;
  is_wire : y_wires y !! conn = Some (mkWire gw [] []);
  is_stream : conns (y_srv y) !! conn = Some sc;
  is_open : gc_closed sc = false;
  is_queue_open : ch_closed (gc_sendCh sc) = false;
  is_up : ch_buf (rs_sendCh g) = [];
  is_up_cap : (0 < ch_cap (rs_sendCh g))%nat;
  is_down : ch_buf (gc_sendCh sc) = [];
  is_down_cap : (0 < ch_cap (gc_sendCh sc))%nat;
}.

(** The roomserver and the gateway agree that the user is in the room, and
    the client's connection is confirmed there. *)
Definition together y gw ref u rid : Prop :=
  presence (y_srv y) !! u = Some (mkPresence rid gw MemberStatusOnline None) ∧
  (∃ m, member (roomSvc (y_srv y)) rid u = Some m ∧
     rm_GatewayID m = gw ∧ rm_Status m = MemberStatusOnline) ∧
  ∃ g, y_gws y !! gw = Some g ∧ confirmed_at g ref u rid.

(** The roomserver takes a join, with the member it makes. *)
Lemma server_join_member conn (sc : GatewayConnection) gw u rid now s :
  server_wf s → conns s !! conn = Some sc → conn_ok sc →
  ∃ s', handleGatewayMessage conn (join_envelope gw u rid) now s = Done s' ∧
    conns s' !! conn = Some (deliver [ack_envelope u rid true ErrCodeSuccess ""] sc) ∧
    presence s' !! u = Some (mkPresence rid gw MemberStatusOnline None) ∧
    member (roomSvc s') rid u = Some (mkRoomMember u gw MemberStatusOnline (Some now) None).
Proof.
  intros Hwf Hc Hok. rewrite (handled conn _ now s sc) by done.
  rewrite requested_join, answers_join. eexists. split; [done|].
  destruct (presence_JoinRoom u rid gw now s (proj1 Hwf)) as [_ Hp].
  split; [cbn; apply lookup_insert_eq|]. split.
  - change (presence (JoinRoom u rid gw now s).2 !! u =
      Some (mkPresence rid gw MemberStatusOnline None)). by rewrite Hp, lookup_insert_eq.
  - change (member (roomSvc (JoinRoom u rid gw now s).2) rid u =
      Some (mkRoomMember u gw MemberStatusOnline (Some now) None)).
    by rewrite member_JoinRoom, !decide_True.
Qed.

Lemma perform_cons ev evs y y' :
  event_happens parse json ev y = Some y' →
  perform parse json (ev :: evs) y = perform parse json evs y'.
Proof. intros Hev. unfold perform. cbn. by rewrite Hev. Qed.

(** The way of a join that is queued at the gateway: to the roomserver, and
    its answer back to the client. *)
Lemma join_journey gs s R ws A gw g conn (sc : GatewayConnection) ref c u rid n b now :
  let ch := gc_sendCh sc in
  gs !! gw = Some g → rs_sendCh g = mkChan [join_envelope gw u rid] n b →
  connections g !! u = Some ref → objects g !! ref = Some c → held g = [] →
  conn ∈ R → ws !! conn = Some (mkWire gw [] []) →
  server_wf s → conns s !! conn = Some sc → conn_ok sc → gc_closed sc = false →
  ch_buf ch = [] → (0 < ch_cap ch)%nat →
  together (perform parse json [EvSend gw conn; EvReceive conn now; EvWrite conn; EvDeliver conn]
    (mkWhole gs s R ws A)) gw ref u rid.
Proof.
  intros ch Hg Hq Hu Hc Hh HR Hw Hwf Hs Hok Ho Hb Hcap.
  set (g1 := set_rs_sendCh (mkChan [] n b) g).
  set (e := join_envelope gw u rid). set (ack := ack_envelope u rid true ErrCodeSuccess "").
  rewrite (perform_cons _ _ _ (mkWhole (<[gw := g1]> gs) s R (<[conn := mkWire gw [e] []]> ws) A)).
  2: { cbn. rewrite Hg. cbn. rewrite Hw. cbn. destruct (decide (gw = gw)) as [_|]; [|done].
       unfold sendLoop_step.
       by rewrite Hq. }
  destruct (server_join_member conn sc gw u rid now s) as (s1 & Hs1 & Hc1 & Hp & Hm); [done..|].
  rewrite (perform_cons _ _ _ (mkWhole (<[gw := g1]> gs) s1 R (<[conn := mkWire gw [] []]> ws) A)).
  2: { cbn -[handleGatewayMessage]. rewrite lookup_insert_eq. cbn -[handleGatewayMessage].
       destruct (decide (conn ∈ R)) as [_|]; [|done]. unfold e. rewrite Hs1.
       by rewrite insert_insert_eq. }
  assert (ch_buf (gc_sendCh (deliver [ack] sc)) = [ack]) as Hbuf.
  { unfold deliver. rewrite Ho. cbn. unfold sent. fold ch. by rewrite Hb, decide_True by (cbn; lia). }
  set (sc2 := conn_set_ch (mkChan [] (ch_cap (gc_sendCh (deliver [ack] sc)))
                (ch_closed (gc_sendCh (deliver [ack] sc)))) (deliver [ack] sc)).
  rewrite (perform_cons _ _ _ (mkWhole (<[gw := g1]> gs) (put_conn conn sc2 s1) R
    (<[conn := mkWire gw [] [ack]]> ws) A)).
  2: { cbn. rewrite lookup_insert_eq. cbn. rewrite Hc1. cbn. destruct (decide (conn ∈ R)) as [_|]; [|done].
       unfold gatewayWriteLoop_step, get_conn. rewrite Hc1. fold ack. rewrite Hbuf. cbn.
       unfold recv. rewrite Hbuf. by rewrite insert_insert_eq. }
  destruct (gateway_ack_confirms u rid ErrCodeSuccess "" ref c g1) as (g2 & Hg2 & Hconf & _);
    [done..|].
  rewrite (perform_cons _ _ _ (mkWhole (<[gw := g2]> gs) (put_conn conn sc2 s1) R
    (<[conn := mkWire gw [] []]> ws) A)).
  2: { cbn -[handleEnvelope]. rewrite lookup_insert_eq. cbn -[handleEnvelope].
       rewrite lookup_insert_eq. cbn -[handleEnvelope]. fold ack in Hg2.
       rewrite Hg2. by rewrite !insert_insert_eq. }
  split; [exact Hp|]. split; [by eexists|]. exists g2. split; [apply lookup_insert_eq|done].
Qed.

(** What the heartbeat of a client in no room does to its gateway. *)
Lemma beat_happens gs s R ws A gw g ref c data frame req kafka now_ms msgID :
  gs !! gw = Some g → open_client g ref c → nowhere g (c_UserID c) →
  DecodeFrame data = Done (Ok frame) → f_MsgType frame = MsgTypeHeartbeat →
  Decode (f_Payload frame) = Some req → rq_RoomID req ≠ ""%string →
  ∃ c' A', event_happens parse json (EvAct gw (ActRead kafka now_ms msgID ref (Some data)))
      (mkWhole gs s R ws A) =
    Some (mkWhole (<[gw := queued [join_envelope (cfg_ID (g_cfg g)) (c_UserID c) (rq_RoomID req)]
                             (put ref c' g)]> gs) s R ws A').
Proof.
  intros Hg [Hc Hu Hcl Hh] Hno Hf Ht Hd Hrid. eexists _, _.
  unfold event_happens. rewrite Hg. cbn -[run_action action_asks].
  assert (readLoop_step kafka now_ms msgID ref (Some data) g = Done (true,
    queued [join_envelope (cfg_ID (g_cfg g)) (c_UserID c) (rq_RoomID req)]
      (put ref (Send heartbeat_response (clock g) (set_c_join JoinStatePending (rq_RoomID req) c)).2 g)))
    as Hrun.
  { unfold readLoop_step, mbind, G_bind. rewrite (get_c_run _ _ c) by done. rewrite Hcl.
    unfold handleMessage, mbind at 1, G_bind at 1. rewrite (lift_run _ _ _ Hf). cbn beta iota.
    cbv zeta. rewrite Ht. cbn.
    rewrite (handleHeartbeat_run ref frame req g c) by done.
    rewrite local_room_of_nowhere by done. by rewrite decide_False, decide_True by congruence. }
  unfold run_action, mbind, G_bind. by rewrite Hrun.
Qed.

(** C5. Healing.  Take any state the system can come to, whatever was lost
    and whoever started anew; let the stream of a gateway work again and be
    idle, and let a client be connected whose user the gateway lists in no
    room.  One heartbeat of this client for a room, sent on and answered,
    and the roomserver has the user on line in this room at this gateway,
    as a member too, and the gateway has the client's connection confirmed
    there and the user in its local room, whatever each of them believed
    before.  (This is how the code heals.  Section 5.4 of
    docs/technical-design.md wants something else of the same heartbeat: an
    error code for the client, which then joins by itself; the gateway here
    joins on the client's behalf and answers without an error.) *)
Theorem heartbeat_heals (empty : SS) id dt rt vn t0 t0_ms y gw g conn (sc : GatewayConnection)
    ref c data frame req kafka now_ms msgID now :
  store_ok empty → sessions empty = ∅ →
  rtc (whole_step parse json empty) (whole_start empty id dt rt vn t0 t0_ms) y →
  idle_stream y gw g conn sc → open_client g ref c → nowhere g (c_UserID c) →
  DecodeFrame data = Done (Ok frame) → f_MsgType frame = MsgTypeHeartbeat →
  Decode (f_Payload frame) = Some req → rq_RoomID req ≠ ""%string →
  let y' := perform parse json
    [EvAct gw (ActRead kafka now_ms msgID ref (Some data));
     EvSend gw conn; EvReceive conn now; EvWrite conn; EvDeliver conn] y in
  rtc (whole_step parse json empty) y y' ∧ together y' gw ref (c_UserID c) (rq_RoomID req).
Proof.
  intros Hok Hnone Hr Hidle Hopen Hno Hf Ht Hd Hrid y'.
  split; [by apply perform_run|]. subst y'.
  pose proof (whole_reachable_inv parse json empty Hok Hnone id dt rt vn t0 t0_ms y Hr)
    as [Hgs [Hs _] _].
  destruct Hidle as [Hg HR Hw Hsc Ho Hqo Hup Hupc Hdn Hdnc], Hopen as [Hc Hu Hcl Hh].
  pose proof (ag_cfg _ _ _ _ (Hgs gw g Hg)) as Hid. destruct y as [gs s R ws A].
  cbn in Hg, HR, Hw, Hsc, Hs, Hid.
  destruct (beat_happens gs s R ws A gw g ref c data frame req kafka now_ms msgID) as (c' & A' & Hev);
    [done..|]. rewrite (perform_cons _ _ _ _ Hev), Hid.
  eapply join_journey; [apply lookup_insert_eq| |done|apply lookup_insert_eq|done|done|done|
    by apply as_wf in Hs|done|by rewrite <-Hqo in Ho|done|done|done].
  cbn. unfold sent. rewrite Hup, decide_True by (cbn; lia). done.
Qed.
End healing.

(** ** A lost join *)
Section examples.
Import ToyCodec.
#[local] Existing Instance default_order.
#[local] Instance CloseNotice_eq_dec : EqDecision CloseNotice.
Proof. solve_decision. Defined.
#[local] Instance CloseNotice_countable : Countable CloseNotice.
Proof.
  refine (inj_countable' (λ m, (cn_RoomID m, cn_Reason m)) (λ '(a, b), mkCloseNotice a b) _).
  by intros [].
Defined.
#[local] Instance PushContent_codec : Msgpack PushContent :=
  {| Encode c := Some (pc_Message c); Decode bs := Some (mkPushContent "" "" "" 0 bs) |}.
#[local] Instance AuthRequest_codec : Msgpack AuthRequest :=
  {| Encode r := Some (String.list_byte_of_string (aq_UserID r));
     Decode bs := Some (mkAuthRequest "" (String.string_of_list_byte bs)) |}.
#[local] Instance AuthResponse_codec : Msgpack AuthResponse :=
  {| Encode r := Some (String.list_byte_of_string (ar_UserID r)); Decode _ := None |}.
#[local] Instance demo_unicast : JsonRequest UnicastRequest :=
  λ body, Some (mkUnicastRequest "r1" "u1" body).
#[local] Instance demo_multicast : JsonRequest MulticastRequest :=
  λ body, Some (mkMulticastRequest "r1" ["u1"]%string body).
#[local] Instance demo_room_broadcast : JsonRequest RoomBroadcastRequest :=
  λ body, Some (mkRoomBroadcastRequest "r1" body).
#[local] Instance demo_global : JsonRequest GlobalBroadcastRequest :=
  λ body, Some (mkGlobalBroadcastRequest body).
#[local] Instance demo_close : JsonRequest RoomCloseRequest :=
  λ _, Some (mkRoomCloseRequest "r1" "").

(** The stream breaks with the join of "u1" on it, and is opened anew; the
    roomserver has never heard of "u1", whose client waits for its answer. *)
Definition lossy_events : list Event :=
  [EvStart demo_gw_cfg 0; EvOpen "gw-1"; EvAct "gw-1" (ActLogin None (Some demo_login) "c1");
   EvAct "gw-1" (ActRead None 0 "" 0%nat (Some (EncodeFrame (join_frame "r1"))));
   EvSend "gw-1" 0%nat; EvBreak 0%nat; EvEnd 0%nat; EvOpen "gw-1"].
Definition lossy_start : Whole SessionService :=
  whole_start NewSessionService "rs-1" 10 10 100 0 0.
Definition lossy_whole : Whole SessionService := perform no_jwt no_json lossy_events lossy_start.
Definition lossy_gw : Gateway :=
  default (NewGateway demo_gw_cfg 0) (y_gws lossy_whole !! "gw-1"%string).
Definition lossy_stream : GatewayConnection := default demo_stream (conns (y_srv lossy_whole) !! 1%nat).
Definition lossy_client : Connection := default demo_conn (objects lossy_gw !! 0%nat).

Definition beat_frame (rid : string) : Frame :=
  mkFrame MsgTypeHeartbeat 0 (Encode_ (mkRoomRequest rid)).

Example lossy_unknown : presence (H0 := SessionService_laws) (y_srv lossy_whole) !! "u1"%string = None.
Proof. by vm_compute. Qed.

Lemma heartbeat_heals_witness :
  let y' := perform no_jwt no_json
    [EvAct "gw-1" (ActRead None 0 "" 0%nat (Some (EncodeFrame (beat_frame "r1"))));
     EvSend "gw-1" 1%nat; EvReceive 1%nat 9; EvWrite 1%nat; EvDeliver 1%nat] lossy_whole in
  rtc (whole_step no_jwt no_json NewSessionService) lossy_whole y' ∧
  together (H0 := SessionService_laws) y' "gw-1" 0%nat (c_UserID lossy_client) "r1".
Proof.
  apply (heartbeat_heals no_jwt no_json NewSessionService "rs-1" 10 10 100 0 0 lossy_whole
    "gw-1" lossy_gw 1%nat lossy_stream 0%nat lossy_client (EncodeFrame (beat_frame "r1"))
    (beat_frame "r1") (mkRoomRequest "r1") None 0 "" 9);
    [apply NewSessionService_wf|done|apply perform_run| | | |by vm_compute..|done].
  - split; [by vm_compute|by apply (bool_decide_unpack _); vm_compute|by vm_compute..|
      by vm_compute|apply Nat.ltb_lt; by vm_compute|by vm_compute|apply Nat.ltb_lt; by vm_compute].
  - split; by vm_compute.
  - intros rid (us & Hus & _). by vm_compute in Hus.
Defined.
End examples.
